(* ===== verification/_CoqProject ===== *)
-Q . S2P
Prelude.v
StdMap.v
CLib.v
CommonUtils.v
Gpio.v
System.v
Gpiod.v
WiringPi.v
Lpd8806.v
Spi.v
Pulsar.v
Server.v
Mcp300x.v
Inbox.v
TimerTick.v
Services.v
ThreadSystem.v
Sensors.v
Dictionary.v
Fonts.v
Ht1632.v
HtWire.v
LedStrip.v
StatusReport.v
JsonChecker.v
StatusTests.v
WebForm.v
DisplayTypes.v
DisplayState.v
DisplayInternal.v
Display.v
DisplayProofs.v
DisplayClock.v
DisplayProps.v
DisplayThread.v
WebPages.v
Web.v
WebReply.v
Office.v
Mqtt.v
MqttProofs.v
Main.v
Threads.v
ClockThreads.v
Singletons.v
HardwareGates.v
DeviceTests.v
