(* ===== verification/Prelude.v ===== *)
(** * The office clock: a verification development of oclock

    oclock drives an office clock on a Raspberry Pi: sixteen HT1632 LED matrix
    controllers that show the time and messages, an LPD8806 LED strip, a motion
    and a light sensor, an MQTT client that reports to a broker, and a web
    server through which all of it is watched and commanded. This library
    translates the program's C++ and C code (src/src, src/ht1632, src/lpd8806,
    src/mcp300x, src/pulsar) and its tests (src/tests) into executable
    definitions and proves what makes them correct. The four diagnostic programs
    of src/misc/junk/wiringpi-migration, which run on the same drivers, are
    included.

    ** The program and its parts

    main starts seven threads and then becomes the web server:
    - the tick timer wakes every twelve milliseconds and counts the registered
      services down (timerTick.cpp);
    - the display (display.cpp, displayInternal.cpp) runs one of three modes
      over the matrix driver (HT1632.cpp) and takes requests from a queue;
    - the LED strip (ledStrip.cpp, ledStripInternal.cpp) runs one of six modes
      over its driver (LPD8806.cpp), which toggles pins or writes to spidev;
    - the motion and the light sensor (motionSensor.cpp, lightSensor.cpp) poll
      a GPIO line and an ADC (src/src/adc, mcp300x.cpp);
    - the dictionary (dictionary.cpp) keeps expiring texts the messages refer to;
    - the MQTT client (mqttClient.cpp) publishes motion and status.
    Threads talk through inboxes (inbox.cpp), through the services of the timer
    and by calling each other's methods under a mutex. The web server
    (src/pulsar, webHandlerInternal.cpp) reads forms into parameter maps and
    queues them for the display, the strip and the dictionary, and renders pages
    and the status report (statusReport.cpp). GPIO goes through an interface
    with several backends (src/src/gpio), SPI likewise (src/src/spi).

    ** How the code is translated

    - Integers are [Z] with the conversion of their type written out ([u8] to
      [s64] below); [long] has 32 bits, as on the target. A step C++ leaves
      undefined is [Undefined] or [None], so that a theorem that an operation
      gives [Ok] or [Some] says that it is defined.
    - Errors are values: [res] for exceptions, [option] where the only failure
      is an undefined step; Gpiod.v, Spi.v and Pulsar.v to Server.v add a list
      of the handles held (System.v).
    - Objects shared by pointer live in stores indexed by address (the services
      of TimerTick.v, the driver instances of Singletons.v); every method under
      one mutex is one atomic step, and concurrency is the interleaving of such
      steps as a list of events or a step relation.
    - What is not the program's code (libevent, libgpiod, libmosquitto, wiringPi,
      the kernel, clocks, random numbers, files) is a type class or an argument
      without laws, or with laws that state documented behaviour; every theorem
      over one has a witness at a concrete instance.
    - Interfaces between the program's own components are type classes with laws,
      against which the client is proved and which the implementation's file
      instantiates: [StdLess] (StdMap.v), [GpioDevice] (Gpio.v), [GpiodValueIo]
      (Gpiod.v), [TimerService] (Dictionary.v by TimerTick.v), [PollingLoop]
      (Services.v by DisplayThread.v and Threads.v), [DisplayWorld]
      (DisplayState.v by Display.v), [WebServices] (Web.v by Office.v),
      [ThreadEnds] and [ThreadLaws] (ThreadSystem.v by DisplayThread.v and
      Threads.v), [Player] (HardwareGates.v by Spi.v's transports and by the
      matrix's pins).

    ** The files

    Foundations:
    - Prelude.v: integers, errors, loops, machine words, tactics and hints;
      StdMap.v: std::map; CLib.v: the functions of the C library;
      CommonUtils.v: commonUtils.cpp.
    Hardware:
    - Gpio.v: Gpio.h, fakeGpio.cpp, the sampling receiver of the protocol tests,
      bcm2835GpioRegisters.cpp; System.v: handles, and methods that may fail;
      Gpiod.v: gpiodV2Gpio.cpp with both value paths; WiringPi.v:
      wiringPiGpio.cpp and the factories.
    - Lpd8806.v: LPD8806.cpp; Spi.v: src/src/spi; Mcp300x.v: mcp300x.cpp;
      Fonts.v: the font and image tables; Ht1632.v: HT1632.cpp, GpioBurst.h;
      HtWire.v: what its events are on the lines.
    Threads and what they share:
    - Inbox.v: inbox.cpp; TimerTick.v: timerTick.cpp; Services.v: what the
      polling loops do with the timer; Sensors.v: motionSensor.cpp,
      lightSensor.cpp, src/src/adc; Dictionary.v: dictionary.cpp;
      LedStrip.v: ledStripInternal.cpp, ledStrip.cpp.
    - DisplayTypes.v, DisplayState.v, DisplayInternal.v: displayInternal.cpp with
      its types, state and handlers; Display.v: display.cpp; DisplayProofs.v,
      DisplayClock.v, DisplayProps.v: what they keep and promise;
      DisplayThread.v: the display's loop; Threads.v: the loops of the strip, the
      sensors and the dictionary.
    - ThreadSystem.v: any number of polling threads on one timer that other
      clients use; ClockThreads.v: the display, the strip and the two sensors as
      such a system.
    - Mqtt.v, MqttProofs.v: mqttClient.cpp; Main.v: main.cpp and the system of
      all threads; Singletons.v: bind, shutdown, registerMainThread.
    Web:
    - Pulsar.v: conf.c, logger.c, pulsar.c; Server.v: server.c and the life cycle
      of worker.c; WebReply.v: the replies of worker.c; WebForm.v: parsePost;
      WebPages.v, Web.v: the pages and handlers of webHandlerInternal.cpp;
      StatusReport.v: statusReport.cpp; Office.v: statusReportGather.cpp and
      the components put together.
    Tests:
    - JsonChecker.v, StatusTests.v: status_tests.cpp; DeviceTests.v: the other
      test files, run on the model; HardwareGates.v: the diagnostic programs that
      were run on the target.

    A definition has the name of the function it translates where possible; a
    method takes the object's state last and returns the new one.

    ** What the theorems show

    - The display: no sequence of ticks and requests leads it out of its buffers
      or tables or overflows an int ([display_safe]); while a message is shown it
      refines a machine on the message alone ([message_refines]), from which
      follow its timeouts and passes; the clock's face can be read back; the
      brightness follows a hysteresis. The whole loop, from the registration of
      its timers to their removal, is safe under every interleaving
      ([display_thread_runs]).
    - The matrix driver: a refresh sends exactly the buffer to each chip; an image
      of any height at any position and a text in any font draw the pixels a
      reference painter says and no others ([drawImage_is_reference], with the
      rows the masks get wrong spelled out, and [drawText_is_reference]); the
      burst path equals the ordinary one.
    - The strip: both outputs send the same bits, the modes stay in their ranges,
      timeouts are exact, the pixel block is never freed twice, the spidev frame
      is what the driver stored, the loop runs and ends dark.
    - The timer: a service fires exactly on time, the table stays consistent, and
      a polling loop in time loses no expiry ([loop_tick_schedule]). The polling
      threads together are never stuck, whatever order they start, iterate and end
      in and whatever the timer's other clients do meanwhile, and what those
      clients see is the timer without the threads ([clock_threads_run]).
    - The dictionary refines a finite map with lifetimes; entries live exactly as
      long as they should; the status lists exactly the live ones.
    - The web: parsePost equals a reference parser and inverts the encoding of
      forms; every request is answered by the right handler with exact counters;
      the server gives back whatever it took, whatever fails; the command line
      sets what its last options say; the status is JSON that reads back as the
      snapshot, and the tests' own checker accepts it.
    - MQTT: what is published about motion refines a small machine, connection
      attempts are spaced, counters count.
    - Inboxes are FIFO, and the program always ends with every thread joined.
    - The diagnostic programs send what they say they send, whatever the device
      answers ([colors_gate], [alloff_gate], [render_gate], [mcp3002_gate]).
    - End to end: a form posted to /msgMode becomes the message on the display
      ([posted_message_shown]).

    ** Bounds and fuel

    - The drawing routines use unbounded [int]s where the theorems keep positions
      small: a request's position within 2^21 and fewer than 2^31 events keep
      every sum in 32 bits ([display_safe], [display_thread_runs] with its 2^30
      iterations); beyond that the code overflows ([message_position_overflow]).
    - The fuel of Spi.v's transfer and Server.v's stop byte is the number of
      signals that interrupt the call; the theorems hold for every fuel and say
      when the call returns. The loops over the dictionary have the number of
      entries as fuel, the JSON checker twice the text's length and one; both are
      proved enough.

    ** Not modelled

    - Memory barriers and setup delays of the drivers change nothing in the
      model; a wait or a lock is where another step may come between.
    - A web server's worker runs where it is joined, since until then it shares
      nothing with its maker; evhttp_free is taken not to close the listening
      socket the worker was given.
    - Include guards, constructors that only copy, the classes that bind a
      reference to each handler (their [process] is one definition per handler
      in Web.v), and the documents, scripts and drawings, which are not part of
      the program. Of src/misc/junk, lpd8806_raspberry.cpp is written against an
      older interface of the strip driver, so that there is no driver it could be
      run on, and the rest are samples of the language.

    ** Plan

    Every component of the program is modelled, its parts are composed up to the
    running threads, and its main promises are stated over the compositions. What
    could still be added: Main.v's system with the whole loops of ClockThreads.v
    in place of what it takes them for (today each loop is shown to be what the
    system takes it for, and the loops run together on the timer), and bounds on
    how far the strip's color effects are from the colors they aim at. *)
From stdpp Require Export base tactics list numbers strings gmap.
From Stdlib Require Export Ascii ZArith Lia.
From Stdlib Require Export Sorting.Sorted.
#[export] Set Default Goal Selector "!".
#[global] Open Scope Z_scope.

(** ** Machine integers

    An integer of the program is a [Z]; the functions below are the
    conversions to the fixed-width types of src/src/stdTypes.h. *)

Definition u8 (z : Z) : Z := z mod 2 ^ 8.
Definition u16 (z : Z) : Z := z mod 2 ^ 16.
Definition u32 (z : Z) : Z := z mod 2 ^ 32.
Definition u64 (z : Z) : Z := z mod 2 ^ 64.

(** Conversion to a two's complement [w]-bit integer. *)
Definition swrap (w z : Z) : Z := (z + 2 ^ (w - 1)) mod 2 ^ w - 2 ^ (w - 1).
Definition s32 (z : Z) : Z := swrap 32 z.
Definition s64 (z : Z) : Z := swrap 64 z.

(** C's truth of a condition used as an integer. *)
Definition b2z (b : bool) : Z := if b then 1 else 0.

(** ** Exceptions

    The C++ code reports errors by [throw]; a fallible operation returns a
    [res]. The exception carries its class and its [what()] text.
    [AssertionFailed] is a failing [assert], and [Undefined] marks a step that
    C++ leaves undefined (a double free, an access outside of an array). *)

Inductive exn :=
  | RuntimeError (what : string)
  | LogicError (what : string)
  | InvalidArgument (what : string)
  | OutOfRange (what : string)
  | AssertionFailed
  | Undefined (what : string).

Inductive res (A : Type) :=
  | Ok (a : A)
  | Throw (e : exn).
Arguments Ok {A} a.
Arguments Throw {A} e.

#[export] Instance exn_eq_dec : EqDecision exn.
Proof. solve_decision. Defined.
#[export] Instance res_eq_dec {A} `{EqDecision A} : EqDecision (res A).
Proof. solve_decision. Defined.

#[export] Instance res_ret : MRet res := λ A a, Ok a.
#[export] Instance res_bind : MBind res := λ A B f m,
  match m with Ok a => f a | Throw e => Throw e end.
#[export] Instance res_fmap : FMap res := λ A B f m,
  match m with Ok a => Ok (f a) | Throw e => Throw e end.

(** Sequencing in [res], with the result bound by a pattern. *)
Notation "'let!' x ':=' m 'in' k" := (res_bind _ _ (λ x, k) m)
  (at level 10, x pattern, m at level 100, k at level 200).

(** [try { m } catch (...) { h }] *)
Definition catch_all {A} (m : res A) (h : A) : A :=
  match m with Ok a => a | Throw _ => h end.

Definition is_ok {A} (m : res A) : bool :=
  match m with Ok _ => true | Throw _ => false end.

(** ** Loops *)

(** [for (int i = lo; i < lo + n; ++i) s = f(i, s)] *)
Definition for_range {S} (lo n : Z) (f : Z → S → S) (s : S) : S :=
  foldl (λ s i, f i s) s (seqZ lo n).

(** The same with a body that may fail. *)
Fixpoint ofold {A S} (f : A → S → option S) (l : list A) (s : S) : option S :=
  match l with
  | [] => Some s
  | a :: l => s' ← f a s; ofold f l s'
  end.

Lemma for_range_nil {S} lo n (f : Z → S → S) s :
  n <= 0 → for_range lo n f s = s.
Proof. intros. unfold for_range. by rewrite seqZ_nil. Qed.

Lemma for_range_S {S} lo (n : nat) (f : Z → S → S) s :
  for_range lo (Z.of_nat (Datatypes.S n)) f s =
  f (lo + Z.of_nat n) (for_range lo (Z.of_nat n) f s).
Proof. unfold for_range. by rewrite seqZ_S, foldl_app. Qed.

(** Loop invariants: [P i s] holds before the iteration that has [lo + i]. *)
Lemma for_range_ind {S} (P : Z → S → Prop) lo n f s :
  0 <= n → P 0 s →
  (∀ i t, 0 <= i < n → P i t → P (i + 1) (f (lo + i) t)) →
  P n (for_range lo n f s).
Proof.
  intros Hn H0 HS.
  assert (∀ k : nat, Z.of_nat k <= n → P (Z.of_nat k) (for_range lo (Z.of_nat k) f s))
    as H.
  { induction k as [|k IH]; intros Hk.
    - by rewrite for_range_nil.
    - rewrite for_range_S.
      replace (Z.of_nat (Datatypes.S k)) with (Z.of_nat k + 1) by lia.
      apply HS; [lia|]. apply IH; lia. }
  specialize (H (Z.to_nat n)). rewrite Z2Nat.id in H by lia. apply H; lia.
Qed.

Lemma for_range_inv {S} (P : S → Prop) lo n f s :
  P s → (∀ i t, lo <= i < lo + n → P t → P (f i t)) →
  P (for_range lo n f s).
Proof.
  intros H0 HS. destruct (decide (n <= 0)); [by rewrite for_range_nil|].
  apply (for_range_ind (λ _ s, P s)); [lia|done|].
  intros i t Hi. apply HS. lia.
Qed.

Lemma ofold_app {A S} (f : A → S → option S) l k s :
  ofold f (l ++ k) s = ofold f l s ≫= ofold f k.
Proof.
  revert s. induction l as [|a l IH]; intros s; simpl; [done|].
  destruct (f a s); simpl; [apply IH|done].
Qed.

Lemma ofold_inv {A S} (P : S → Prop) (f : A → S → option S) l s :
  P s → (∀ a t, a ∈ l → P t → ∃ t', f a t = Some t' ∧ P t') →
  ∃ s', ofold f l s = Some s' ∧ P s'.
Proof.
  revert s. induction l as [|a l IH]; intros s Hs Hf; simpl; [eauto|].
  destruct (Hf a s) as (t & -> & Ht); [set_solver|done|]. simpl.
  apply IH; [done|]. intros b u Hb. apply Hf. set_solver.
Qed.

(** ** Bits of integers *)

#[global] Arguments Z.testbit : simpl never.

Create Rewrite HintDb zbits.
#[export] Hint Rewrite Z.land_spec Z.lor_spec Z.lxor_spec Z.ldiff_spec Z.testbit_0_l : zbits.
#[export] Hint Rewrite Z.lnot_spec Z.shiftr_spec Z.shiftl_spec using lia : zbits.

Lemma testbit_small a n i : 0 <= a < 2 ^ n → n <= i → Z.testbit a i = false.
Proof.
  intros Ha Hi. destruct (decide (a = 0)) as [->|]; [apply Z.testbit_0_l|].
  destruct (decide (0 <= n)).
  - apply Z.bits_above_log2; [lia|].
    apply Z.lt_le_trans with n; [|done]. apply Z.log2_lt_pow2; lia.
  - rewrite Z.pow_neg_r in Ha by lia. lia.
Qed.

(** Shifting one bit in at the low end. *)
Lemma shift_in_bit v b : 0 <= v → Z.lor (Z.shiftl v 1) (b2z b) = 2 * v + b2z b.
Proof.
  intros Hv. rewrite Z.shiftl_mul_pow2 by lia. rewrite Z.mul_comm.
  destruct v; [by destruct b|by destruct b|lia].
Qed.

(** A nonnegative integer without bits from [n] on is below [2 ^ n]. *)
Lemma small_of_bits a n :
  0 <= n → 0 <= a → (∀ i, n <= i → Z.testbit a i = false) → a < 2 ^ n.
Proof.
  intros Hn Ha Hbits. destruct (decide (a = 0)) as [->|]; [apply Z.pow_pos_nonneg; lia|].
  apply Z.log2_lt_pow2; [lia|]. destruct (decide (n <= Z.log2 a)) as [Hle|]; [|lia].
  specialize (Hbits _ Hle). rewrite Z.bit_log2 in Hbits by lia. done.
Qed.

Lemma lor_range a b n : 0 <= n → 0 <= a < 2 ^ n → 0 <= b < 2 ^ n → 0 <= Z.lor a b < 2 ^ n.
Proof.
  intros Hn Ha Hb. assert (0 <= Z.lor a b) by (apply Z.lor_nonneg; lia). split; [done|].
  apply small_of_bits; [done..|]. intros i Hi.
  by rewrite Z.lor_spec, !(testbit_small _ n) by done.
Qed.

Lemma land_range_r a b n : 0 <= n → 0 <= b < 2 ^ n → 0 <= Z.land a b < 2 ^ n.
Proof.
  intros Hn Hb. assert (0 <= Z.land a b) by (apply Z.land_nonneg; lia). split; [done|].
  apply small_of_bits; [done..|]. intros i Hi.
  by rewrite Z.land_spec, (testbit_small b n), andb_false_r by done.
Qed.

Lemma land_pow2_eqb a n : 0 <= n → (Z.land a (2 ^ n) =? 0) = negb (Z.testbit a n).
Proof.
  intros Hn. destruct (Z.eqb_spec (Z.land a (2 ^ n)) 0) as [E|E].
  - apply (f_equal (λ z, Z.testbit z n)) in E.
    rewrite Z.land_spec, Z.pow2_bits_true, andb_true_r, Z.testbit_0_l in E by done.
    by rewrite E.
  - destruct (Z.testbit a n) eqn:Ea; [done|]. destruct E. apply Z.bits_inj'.
    intros i Hi. rewrite Z.land_spec, Z.testbit_0_l, Z.pow2_bits_eqb by done.
    destruct (Z.eqb_spec n i) as [<-|]; [by rewrite Ea|apply andb_false_r].
Qed.

Lemma u8_range z : 0 <= u8 z < 256.
Proof. apply Z.mod_pos_bound; lia. Qed.
Lemma u16_range z : 0 <= u16 z < 65536.
Proof. apply Z.mod_pos_bound; lia. Qed.
Lemma u32_range z : 0 <= u32 z < 2 ^ 32.
Proof. apply Z.mod_pos_bound; lia. Qed.
Lemma u64_range z : 0 <= u64 z < 2 ^ 64.
Proof. apply Z.mod_pos_bound; lia. Qed.
Lemma u8_small z : 0 <= z < 256 → u8 z = z.
Proof. apply Z.mod_small. Qed.
Lemma u16_small z : 0 <= z < 65536 → u16 z = z.
Proof. apply Z.mod_small. Qed.
Lemma u32_small z : 0 <= z < 2 ^ 32 → u32 z = z.
Proof. apply Z.mod_small. Qed.
Lemma u64_small z : 0 <= z < 2 ^ 64 → u64 z = z.
Proof. apply Z.mod_small. Qed.
Lemma s32_small z : - 2 ^ 31 <= z < 2 ^ 31 → s32 z = z.
Proof. intros. unfold s32, swrap. change (32 - 1) with 31. rewrite Z.mod_small; lia. Qed.
Lemma s32_range z : - 2 ^ 31 <= s32 z < 2 ^ 31.
Proof. unfold s32, swrap. change (32 - 1) with 31.
  pose proof (Z.mod_pos_bound (z + 2 ^ 31) (2 ^ 32)). lia. Qed.

(** The bits of a number, most and least significant first, and back. *)
Definition bits_msb (n : Z) (z : Z) : list bool :=
  (λ i, Z.testbit z (n - 1 - i)) <$> seqZ 0 n.
Definition bits_lsb (n : Z) (z : Z) : list bool :=
  (λ i, Z.testbit z i) <$> seqZ 0 n.
Definition of_bits_msb (l : list bool) : Z := foldl (λ acc b, 2 * acc + Z.b2z b) 0 l.

Lemma length_bits_msb n z : length (bits_msb n z) = Z.to_nat n.
Proof. unfold bits_msb. by rewrite length_fmap, length_seqZ. Qed.

Lemma bits_msb_S (n : nat) z :
  bits_msb (Z.of_nat (S n)) z = Z.testbit z (Z.of_nat n) :: bits_msb (Z.of_nat n) z.
Proof.
  unfold bits_msb. rewrite seqZ_cons by lia. rewrite fmap_cons. f_equal; [f_equal; lia|].
  replace (Z.pred (Z.of_nat (S n))) with (Z.of_nat n) by lia.
  rewrite <-(fmap_add_seqZ 1 0), <-list_fmap_compose.
  apply list_fmap_ext. intros i x Hx. simpl. f_equal. lia.
Qed.

Lemma of_bits_msb_acc l acc :
  foldl (λ acc b, 2 * acc + Z.b2z b) acc l = acc * 2 ^ Z.of_nat (length l) + of_bits_msb l.
Proof.
  unfold of_bits_msb. revert acc. induction l as [|b l IH]; intros acc; cbn [foldl length].
  - lia.
  - rewrite IH, (IH (2 * 0 + _)), Nat2Z.inj_succ, Z.pow_succ_r by lia. lia.
Qed.

Lemma of_bits_msb_bits (n : nat) z :
  of_bits_msb (bits_msb (Z.of_nat n) z) = z mod 2 ^ Z.of_nat n.
Proof.
  induction n as [|n IH]; [by rewrite Z.mod_1_r|].
  rewrite bits_msb_S. unfold of_bits_msb. cbn [foldl].
  rewrite of_bits_msb_acc, IH, length_bits_msb, Nat2Z.id.
  rewrite Nat2Z.inj_succ, Z.pow_succ_r, (Z.mul_comm 2 (2 ^ _)) by lia.
  rewrite Z.rem_mul_r by lia. rewrite <-Z.shiftr_div_pow2 by lia.
  rewrite <-Z.bit0_mod, Z.shiftr_spec by lia. rewrite !Z.add_0_l. ring.
Qed.

Lemma of_bits_msb_range l : 0 <= of_bits_msb l < 2 ^ Z.of_nat (length l).
Proof.
  induction l as [|b l IH] using rev_ind; [done|].
  unfold of_bits_msb in *. rewrite foldl_app, length_app. cbn [foldl length].
  rewrite Nat.add_comm, Nat2Z.inj_add, Z.pow_add_r by lia. destruct b; simpl; lia.
Qed.

Lemma bits_lsb_S (n : nat) z :
  bits_lsb (Z.of_nat (S n)) z = Z.testbit z 0 :: bits_lsb (Z.of_nat n) (Z.shiftr z 1).
Proof.
  unfold bits_lsb. rewrite seqZ_cons by lia. rewrite fmap_cons. f_equal.
  replace (Z.pred (Z.of_nat (S n))) with (Z.of_nat n) by lia.
  rewrite <-(fmap_add_seqZ 1 0), <-list_fmap_compose.
  apply list_fmap_ext. intros i x Hx%lookup_seqZ. simpl.
  rewrite Z.shiftr_spec by lia. f_equal. lia.
Qed.
