(* ===== verification/StdMap.v ===== *)
(** * std::map

    The source keeps its dictionaries in [std::map] and relies on the order of
    its keys: a POST body is visited key by key in that order, and
    [Dictionary::getNext] asks for the upper bound of a key. A [std::map] is
    modelled by the association list of its entries, strictly sorted by the
    key order; the order itself is the interface [StdLess]. *)
From S2P Require Import Prelude.

(** ** The key order ([std::less] of the key type) *)
Class StdLess (K : Type) := {
  less : K → K → bool;
  less_irrefl x : less x x = false;
  less_trans x y z : less x y = true → less y z = true → less x z = true;
  less_total x y : less x y = false → less y x = false → x = y;
}.

Section order.
Context `{StdLess K}.
Implicit Types x y z : K.

Lemma less_ne x y : less x y = true → x ≠ y.
Proof. intros Hl ->. rewrite less_irrefl in Hl. done. Qed.

Lemma less_asym x y : less x y = true → less y x = false.
Proof.
  intros Hxy. destruct (less y x) eqn:Hyx; [|done].
  pose proof (less_trans _ _ _ Hxy Hyx). by rewrite less_irrefl in *.
Qed.
End order.

(** ** Instances *)
#[export] Program Instance Z_less : StdLess Z := {| less := Z.ltb |}.
Next Obligation. intros. lia. Qed.
Next Obligation. intros. lia. Qed.
Next Obligation. intros. lia. Qed.

(** [std::string] compares as unsigned bytes ([char_traits<char>::lt]). *)
Fixpoint string_less (s t : string) : bool :=
  match s, t with
  | EmptyString, String _ _ => true
  | _, EmptyString => false
  | String a s, String b t =>
      if decide (a = b) then string_less s t
      else (N_of_ascii a <? N_of_ascii b)%N
  end.

Lemma N_of_ascii_inj a b : N_of_ascii a = N_of_ascii b → a = b.
Proof.
  intros Hab. rewrite <-(ascii_N_embedding a), <-(ascii_N_embedding b).
  by rewrite Hab.
Qed.

#[export] Program Instance string_std_less : StdLess string := {| less := string_less |}.
Next Obligation. induction x; simpl; [done|]. by rewrite decide_True. Qed.
Next Obligation.
  induction x as [|a x IH]; intros [|b y] [|c z]; simpl; try done.
  repeat case_decide; subst; try done; rewrite ?N.ltb_lt; eauto.
  - intros ? ?. lia.
  - intros. lia.
Qed.
Next Obligation.
  induction x as [|a x IH]; intros [|b y]; simpl; try done.
  repeat case_decide; subst; try done; rewrite ?N.ltb_ge.
  - intros ? ?. f_equal. by apply IH.
  - intros ? ?. exfalso. assert (N_of_ascii a = N_of_ascii b) by lia.
    naive_solver eauto using N_of_ascii_inj.
Qed.

(** ** The map *)
Section std_map.
Context {K V : Type} `{StdLess K}.
Implicit Types (k : K) (v : V) (m : list (K * V)).

(** [m.find(k)] *)
Fixpoint map_find k m : option V :=
  match m with
  | [] => None
  | (k', v) :: m' =>
      if less k k' then None else if less k' k then map_find k m' else Some v
  end.

(** [m[k] = v] *)
Fixpoint map_set k v m : list (K * V) :=
  match m with
  | [] => [(k, v)]
  | (k', v') :: m' =>
      if less k k' then (k, v) :: m
      else if less k' k then (k', v') :: map_set k v m'
      else (k', v) :: m'
  end.

(** [m.insert(make_pair(k, v))]: keeps an existing entry; the flag is
    [result.second]. *)
Definition map_insert k v m : list (K * V) * bool :=
  match map_find k m with
  | Some _ => (m, false)
  | None => (map_set k v m, true)
  end.

(** [m.erase(k)] *)
Fixpoint map_erase k m : list (K * V) :=
  match m with
  | [] => []
  | (k', v') :: m' =>
      if less k k' then m
      else if less k' k then (k', v') :: map_erase k m'
      else m'
  end.

(** [m.upper_bound(k)]: the first entry whose key is greater than [k]. *)
Fixpoint map_upper_bound k m : option (K * V) :=
  match m with
  | [] => None
  | (k', v') :: m' => if less k k' then Some (k', v') else map_upper_bound k m'
  end.

Definition key_lt (e1 e2 : K * V) : Prop := less e1.1 e2.1 = true.

(** The representation invariant of a [std::map]. *)
Definition map_sorted m : Prop := StronglySorted key_lt m.

Lemma map_sorted_nil : map_sorted [].
Proof. constructor. Qed.

Lemma map_sorted_inv e m :
  map_sorted (e :: m) → map_sorted m ∧ ∀ e', e' ∈ m → less e.1 e'.1 = true.
Proof.
  intros Hs. apply StronglySorted_inv in Hs as [Hs Hf]. split; [done|].
  intros e' He. rewrite Forall_forall in Hf. by apply Hf.
Qed.

Lemma map_sorted_cons e m :
  map_sorted m → (∀ e', e' ∈ m → less e.1 e'.1 = true) → map_sorted (e :: m).
Proof. intros Hs He. constructor; [done|]. by apply Forall_forall. Qed.

Lemma map_find_elem k v m : map_find k m = Some v → (k, v) ∈ m.
Proof.
  induction m as [|[k' v'] m IH]; simpl; [done|].
  destruct (less k k') eqn:E1; [done|]. destruct (less k' k) eqn:E2.
  - intros Hf. right. auto.
  - intros [= ->]. rewrite (less_total k k') by done. left.
Qed.

Lemma map_find_None_lt k m :
  (∀ e, e ∈ m → less k e.1 = true) → map_find k m = None.
Proof.
  destruct m as [|[k' v'] m]; [done|]. intros Hl.
  specialize (Hl (k', v')). simpl in *. by rewrite Hl by left.
Qed.

Lemma elem_map_find k v m : map_sorted m → (k, v) ∈ m → map_find k m = Some v.
Proof.
  induction m as [|[k' v'] m IH]; intros Hs Hm; [by apply elem_of_nil in Hm|].
  apply map_sorted_inv in Hs as [Hs Hl]. simpl.
  apply elem_of_cons in Hm as [[= <- <-]|Hm].
  - by rewrite less_irrefl.
  - specialize (Hl _ Hm); simpl in Hl. rewrite (less_asym _ _ Hl), Hl. auto.
Qed.

Lemma map_find_spec k v m : map_sorted m → map_find k m = Some v ↔ (k, v) ∈ m.
Proof. split; [apply map_find_elem|by apply elem_map_find]. Qed.

Lemma map_set_keys k v m e :
  e ∈ map_set k v m → e = (k, v) ∨ e ∈ m.
Proof.
  induction m as [|[k' v'] m IH]; simpl.
  - intros ->%list_elem_of_singleton. by left.
  - destruct (less k k') eqn:E1; [|destruct (less k' k) eqn:E2];
      rewrite !elem_of_cons; [tauto|tauto|].
    rewrite (less_total k k') by done. tauto.
Qed.

Lemma map_set_sorted k v m : map_sorted m → map_sorted (map_set k v m).
Proof.
  induction m as [|[k' v'] m IH]; intros Hs; simpl.
  - apply map_sorted_cons; [constructor|set_solver].
  - pose proof (map_sorted_inv _ _ Hs) as [Hs' Hl].
    destruct (less k k') eqn:E1; [|destruct (less k' k) eqn:E2].
    + apply map_sorted_cons; [done|]. intros e [->|He]%elem_of_cons; [done|].
      eapply less_trans; [done|]. by apply (Hl e).
    + apply map_sorted_cons; [auto|]. intros e [->|He]%map_set_keys; auto.
    + apply map_sorted_cons; [auto|]. apply Hl.
Qed.

Lemma map_find_set_eq k v m : map_find k (map_set k v m) = Some v.
Proof.
  induction m as [|[k' v'] m IH]; simpl.
  - by rewrite less_irrefl.
  - destruct (less k k') eqn:E1; simpl; [by rewrite less_irrefl|].
    destruct (less k' k) eqn:E2; simpl; by rewrite E1, E2.
Qed.

Lemma map_find_set_ne k k' v m :
  map_sorted m → k ≠ k' → map_find k' (map_set k v m) = map_find k' m.
Proof.
  intros Hs Hne. induction m as [|[j w] m IH]; simpl.
  - destruct (less k' k) eqn:E1; [done|]. destruct (less k k') eqn:E2; [done|].
    destruct Hne. by apply less_total.
  - pose proof (map_sorted_inv _ _ Hs) as [Hs' Hl].
    destruct (less k j) eqn:E1; [|destruct (less j k) eqn:E2]; simpl.
    + destruct (less k' k) eqn:F1.
      * by rewrite (less_trans k' k j).
      * destruct (less k k') eqn:F2; [done|]. destruct Hne. by apply less_total.
    + by rewrite IH.
    + assert (k = j) as <- by (by apply less_total).
      destruct (less k' k) eqn:F1; [done|]. destruct (less k k') eqn:F2; [done|].
      destruct Hne. by apply less_total.
Qed.

Lemma map_set_length k v m :
  map_find k m = None → length (map_set k v m) = S (length m).
Proof.
  induction m as [|[j w] m IH]; simpl; [done|].
  destruct (less k j); [done|]. destruct (less j k); [|done].
  intros Hf. simpl. by rewrite IH.
Qed.

Lemma map_erase_elem k m e :
  map_sorted m → e ∈ map_erase k m ↔ e ∈ m ∧ e.1 ≠ k.
Proof.
  intros Hs. induction m as [|[j w] m IH]; simpl; [set_solver|].
  pose proof (map_sorted_inv _ _ Hs) as [Hs' Hl].
  destruct (less k j) eqn:E1; [|destruct (less j k) eqn:E2].
  - split; [|tauto]. intros He. split; [done|].
    apply elem_of_cons in He as [->|He].
    + intros <-. simpl in *. by rewrite less_irrefl in E1.
    + apply not_eq_sym, less_ne. eapply less_trans; [done|]. by apply Hl.
  - rewrite !elem_of_cons, IH by done. split.
    + intros [->|?]; [|tauto]. split; [by left|]. by apply less_ne.
    + intros [[->|?] ?]; tauto.
  - rewrite (less_total k j) in * by done. rewrite elem_of_cons. split.
    + intros He. split; [by right|]. apply not_eq_sym, less_ne. by apply Hl.
    + intros [[->|?] ?]; [done|done].
Qed.

Lemma map_erase_sorted k m : map_sorted m → map_sorted (map_erase k m).
Proof.
  induction m as [|[j w] m IH]; intros Hs; simpl; [done|].
  pose proof (map_sorted_inv _ _ Hs) as [Hs' Hl].
  destruct (less k j); [done|]. destruct (less j k); [|done].
  apply map_sorted_cons; [auto|]. intros e [He _]%map_erase_elem; auto.
Qed.

Lemma map_find_erase_eq k m : map_sorted m → map_find k (map_erase k m) = None.
Proof.
  intros Hs. destruct (map_find k (map_erase k m)) as [v|] eqn:E; [|done].
  apply map_find_elem in E. apply map_erase_elem in E as [_ Hne]; [|done].
  by destruct Hne.
Qed.

Lemma map_find_erase_ne k k' m :
  map_sorted m → k ≠ k' → map_find k' (map_erase k m) = map_find k' m.
Proof.
  intros Hs Hne. apply option_eq. intros v.
  rewrite !map_find_spec by auto using map_erase_sorted.
  rewrite map_erase_elem by done. naive_solver.
Qed.

Lemma map_erase_length k m :
  map_find k m ≠ None → length m = S (length (map_erase k m)).
Proof.
  induction m as [|[j w] m IH]; simpl; [done|].
  destruct (less k j); [done|]. destruct (less j k); [|done].
  intros. simpl. by rewrite <-IH.
Qed.

(** The entries, whatever their order. *)
Lemma map_set_perm k v m : map_find k m = None → map_set k v m ≡ₚ (k, v) :: m.
Proof.
  induction m as [|[j w] m IH]; simpl; [done|].
  destruct (less k j); [done|]. destruct (less j k); [|done].
  intros Hf. rewrite IH by done. apply Permutation_swap.
Qed.

Lemma map_erase_perm k v m : map_find k m = Some v → m ≡ₚ (k, v) :: map_erase k m.
Proof.
  induction m as [|[j w] m IH]; simpl; [done|].
  destruct (less k j) eqn:E1; [done|]. destruct (less j k) eqn:E2.
  - intros Hf. rewrite (IH Hf) at 1. apply Permutation_swap.
  - intros [= ->]. by rewrite (less_total k j).
Qed.

(** [upper_bound] is the least entry above [k]. *)
Lemma map_upper_bound_Some k m e :
  map_sorted m → map_upper_bound k m = Some e ↔
  e ∈ m ∧ less k e.1 = true ∧
  ∀ e', e' ∈ m → less k e'.1 = true → e' = e ∨ less e.1 e'.1 = true.
Proof.
  induction m as [|[j w] m IH]; intros Hs; simpl; [set_solver|].
  pose proof (map_sorted_inv _ _ Hs) as [Hs' Hl].
  destruct (less k j) eqn:E1.
  - split.
    + intros [= <-]. split_and!; [by left|done|].
      intros e' [->|He]%elem_of_cons _; [by left|right; by apply Hl].
    + intros (He & Hk & Hmin).
      destruct (Hmin (j, w)) as [<-|Hlt]; [by left|done|done|].
      apply elem_of_cons in He as [->|He]; [done|].
      specialize (Hl _ He). simpl in *.
      by rewrite (less_asym _ _ Hl) in Hlt.
  - rewrite IH by done. split.
    + intros (He & Hk & Hmin). split_and!; [by right|done|].
      intros e' [->|He']%elem_of_cons; simpl; [congruence|auto].
    + intros ([->|He]%elem_of_cons & Hk & Hmin); simpl in *; [congruence|].
      split_and!; [done|done|]. intros e' He'. apply Hmin. by right.
Qed.

Lemma map_upper_bound_None k m :
  map_upper_bound k m = None ↔ ∀ e, e ∈ m → less k e.1 = false.
Proof.
  induction m as [|[j w] m IH]; simpl; [set_solver|].
  destruct (less k j) eqn:E1.
  - split; [done|]. intros Hl. specialize (Hl (j, w)). simpl in *.
    rewrite Hl in E1; [done|by left].
  - rewrite IH. set_solver.
Qed.
End std_map.

(** Automation: a map operation keeps its map sorted. *)
Create HintDb stdmap.
#[export] Hint Resolve map_sorted_nil map_set_sorted map_erase_sorted : stdmap.
