(* ===== verification/CLib.v ===== *)
(** * The pieces of the C and C++ standard library the source uses

    Strings are [string]; a [std::string] may hold NUL bytes and [c_str] is
    what a C function sees of it. The scanners of <cstdlib> are modelled for
    the supported hardware target, 32-bit Raspberry Pi OS, where [long] has 32
    bits; all in the C locale. *)
From S2P Require Import Prelude.

(** ** Characters *)

Definition byte (c : ascii) : Z := Z.of_N (N_of_ascii c).
Definition chr (z : Z) : ascii := ascii_of_N (Z.to_N (u8 z)).

Lemma byte_range c : 0 <= byte c < 256.
Proof. unfold byte. pose proof (N_ascii_bounded c). lia. Qed.

Lemma chr_byte c : chr (byte c) = c.
Proof.
  unfold chr, u8. pose proof (byte_range c).
  rewrite Z.mod_small by lia. unfold byte. rewrite N2Z.id. apply ascii_N_embedding.
Qed.

Lemma byte_chr z : byte (chr z) = u8 z.
Proof.
  unfold chr, byte, u8. pose proof (Z.mod_pos_bound z (2 ^ 8) ltac:(lia)).
  rewrite N_ascii_embedding by lia. lia.
Qed.

Lemma byte_inj c d : byte c = byte d → c = d.
Proof. intros E. by rewrite <-(chr_byte c), <-(chr_byte d), E. Qed.

Definition NUL : ascii := chr 0.

Definition isspace (c : ascii) : bool :=
  (byte c =? 32) || ((9 <=? byte c) && (byte c <=? 13)).

Definition isdigit (c : ascii) : bool := (48 <=? byte c) && (byte c <=? 57).

Definition tolower (c : ascii) : ascii :=
  if (65 <=? byte c) && (byte c <=? 90) then chr (byte c + 32) else c.

(** The value of an alphanumeric as a digit, any base up to 36. *)
Definition digit_value (c : ascii) : option Z :=
  let b := byte c in
  if (48 <=? b) && (b <=? 57) then Some (b - 48)
  else if (97 <=? b) && (b <=? 122) then Some (b - 87)
  else if (65 <=? b) && (b <=? 90) then Some (b - 55)
  else None.

Definition digit_in (base : Z) (c : ascii) : option Z :=
  match digit_value c with
  | Some d => if d <? base then Some d else None
  | None => None
  end.

(** [std::isxdigit] *)
Definition isxdigit (c : ascii) : bool :=
  match digit_in 16 c with Some _ => true | None => false end.

(** ** Strings *)

(** [s.c_str()] as a C string: up to the first NUL. *)
Fixpoint c_str (s : string) : string :=
  match s with
  | EmptyString => EmptyString
  | String c s => if byte c =? 0 then EmptyString else String c (c_str s)
  end.

Fixpoint string_take (n : nat) (s : string) : string :=
  match n, s with
  | S n, String c s => String c (string_take n s)
  | _, _ => EmptyString
  end.

Fixpoint string_drop (n : nat) (s : string) : string :=
  match n, s with
  | S n, String _ s => string_drop n s
  | _, _ => s
  end.

Fixpoint string_filter (f : ascii → bool) (s : string) : string :=
  match s with
  | EmptyString => EmptyString
  | String c s => if f c then String c (string_filter f s) else string_filter f s
  end.

Definition string_empty (s : string) : bool :=
  match s with EmptyString => true | _ => false end.

(** [snprintf(buf, size, fmt, arg)]: what the C string in [buf] is afterwards. *)
Definition snprintf_s (size : nat) (arg : string) : string :=
  string_take (size - 1) (c_str arg).

(** [strncasecmp(a, b, n) == 0] on C strings. *)
Fixpoint strncase_eq (n : nat) (a b : string) : bool :=
  match n with
  | O => true
  | S n =>
      match a, b with
      | EmptyString, EmptyString => true
      | String c a, String d b =>
          bool_decide (tolower c = tolower d) && strncase_eq n a b
      | _, _ => false
      end
  end.

(** [strcasecmp(a, b) == 0] *)
Definition strcase_eq (a b : string) : bool :=
  strncase_eq (S (String.length a)) a b.

(** ** Number scanners *)

Fixpoint skip_space (s : string) : string :=
  match s with
  | String c s' => if isspace c then skip_space s' else s
  | EmptyString => EmptyString
  end.

Definition scan_sign (s : string) : bool * string :=
  match s with
  | String c s' =>
      if byte c =? 45 then (true, s') else if byte c =? 43 then (false, s') else (false, s)
  | EmptyString => (false, s)
  end.

(** Is there a hexadecimal prefix (0x and a hex digit)? *)
Definition hex_prefix (s : string) : option string :=
  match s with
  | String z (String x (String d _ as s')) =>
      if (byte z =? 48) && ((byte x =? 120) || (byte x =? 88)) && isxdigit d
      then Some s' else None
  | _ => None
  end.

(** The base and the digits to read: base 0 detects a prefix, base 16 allows
    one. *)
Definition scan_base (base : Z) (s : string) : Z * string :=
  if (base =? 0) || (base =? 16) then
    match hex_prefix s with
    | Some s' => (16, s')
    | None =>
        if base =? 16 then (16, s)
        else match s with
             | String c _ => if byte c =? 48 then (8, s) else (10, s)
             | EmptyString => (10, s)
             end
    end
  else (base, s).

(** Reads the longest run of digits: its value, how many, and the rest. *)
Fixpoint scan_digits (base acc : Z) (count : nat) (s : string) : Z * nat * string :=
  match s with
  | String c s' =>
      match digit_in base c with
      | Some d => scan_digits base (acc * base + d) (S count) s'
      | None => (acc, count, s)
      end
  | EmptyString => (acc, count, s)
  end.

(** Sign, magnitude and rest of the subject sequence of strtol and friends;
    [None] when no conversion could be performed. *)
Definition strto_scan (base : Z) (s : string) : option (bool * Z * string) :=
  let '(neg, s1) := scan_sign (skip_space s) in
  let '(b, s2) := scan_base base s1 in
  let '(v, n, rest) := scan_digits b 0 0 s2 in
  match n with O => None | S _ => Some (neg, v, rest) end.

Definition ULONG_MAX : Z := 2 ^ 32 - 1.
Definition LONG_MAX : Z := 2 ^ 31 - 1.
Definition LONG_MIN : Z := - 2 ^ 31.
Definition LLONG_MAX : Z := 2 ^ 63 - 1.
Definition LLONG_MIN : Z := - 2 ^ 63.

(** [strtoul(s, NULL, base)] *)
Definition strtoul (s : string) (base : Z) : Z :=
  match strto_scan base s with
  | None => 0
  | Some (neg, v, _) =>
      if ULONG_MAX <? v then ULONG_MAX else if neg then u32 (- v) else v
  end.

(** Signed conversion into [lo, hi]; the flag is [errno == ERANGE]. *)
Definition clamp_signed (lo hi : Z) (neg : bool) (v : Z) : Z * bool :=
  let z := if neg then - v else v in
  if z <? lo then (lo, true) else if hi <? z then (hi, true) else (z, false).

(** [std::stoi(str, nullptr, base)] *)
Definition stoi (s : string) (base : Z) : res Z :=
  match strto_scan base (c_str s) with
  | None => Throw (InvalidArgument "stoi")
  | Some (neg, v, _) =>
      let '(z, erange) := clamp_signed LONG_MIN LONG_MAX neg v in
      if erange then Throw (OutOfRange "stoi") else Ok z
  end.

(** [std::stoll(str, nullptr, base)] *)
Definition stoll (s : string) (base : Z) : res Z :=
  match strto_scan base (c_str s) with
  | None => Throw (InvalidArgument "stoll")
  | Some (neg, v, _) =>
      let '(z, erange) := clamp_signed LLONG_MIN LLONG_MAX neg v in
      if erange then Throw (OutOfRange "stoll") else Ok z
  end.

(** ** Number printers *)

Definition digit_char (d : Z) : ascii :=
  chr (if d <? 10 then 48 + d else 87 + d).

(** The digits of [n >= 0] in [base], in front of [acc]. *)
Fixpoint print_digits (fuel : nat) (base n : Z) (acc : string) : string :=
  match fuel with
  | O => acc
  | S fuel =>
      let acc := String (digit_char (n mod base)) acc in
      if n <? base then acc else print_digits fuel base (n / base) acc
  end.

(** Fuel enough for every base of at least two. *)
Definition print_fuel (n : Z) : nat := S (Z.to_nat (Z.log2 n)).

(** [%u] and [%llu] *)
Definition print_dec (n : Z) : string := print_digits (print_fuel n) 10 n EmptyString.

(** [%d], [std::to_string(int)] *)
Definition print_int (z : Z) : string :=
  if z <? 0 then String (chr 45) (print_dec (- z)) else print_dec z.

(** Left padding to a width, as the [%02d] and [%2d] conversions do it. *)
Definition pad_left (c : ascii) (width : nat) (s : string) : string :=
  String.string_of_list_ascii (replicate (width - String.length s) c) +:+ s.

(** ** Laws *)

(** Concatenation of strings. *)
Lemma append_cons c a b : String c a +:+ b = String c (a +:+ b).
Proof. done. Qed.
Lemma append_nil_l (a : string) : EmptyString +:+ a = a.
Proof. done. Qed.
Lemma append_nil_r (a : string) : a +:+ EmptyString = a.
Proof. induction a as [|c a IH]; [done|]. by rewrite append_cons, IH. Qed.
Lemma append_assoc (a b c : string) : (a +:+ b) +:+ c = a +:+ (b +:+ c).
Proof. induction a as [|x a IH]; [done|]. by rewrite !append_cons, IH. Qed.

Create Rewrite HintDb str.
#[export] Hint Rewrite append_cons append_nil_l append_nil_r append_assoc : str.

Lemma strncase_eq_refl n s : strncase_eq n s s = true.
Proof.
  revert s. induction n as [|n IH]; intros [|c s]; simpl; try done.
  rewrite bool_decide_true by done. apply IH.
Qed.

Lemma digit_char_in base d :
  0 <= d < base → base <= 36 → digit_in base (digit_char d) = Some d.
Proof.
  intros Hd Hb. unfold digit_in, digit_value, digit_char.
  rewrite byte_chr. unfold u8.
  destruct (Z.ltb_spec d 10).
  - rewrite Z.mod_small by lia.
    destruct (Z.leb_spec 48 (48 + d)); [|lia]. destruct (Z.leb_spec (48 + d) 57); [|lia].
    simpl. replace (48 + d - 48) with d by lia. by destruct (Z.ltb_spec d base); [|lia].
  - rewrite Z.mod_small by lia.
    destruct (Z.leb_spec (87 + d) 57); [lia|]. rewrite andb_false_r.
    destruct (Z.leb_spec 97 (87 + d)); [|lia]. destruct (Z.leb_spec (87 + d) 122); [|lia].
    simpl. replace (87 + d - 87) with d by lia. by destruct (Z.ltb_spec d base); [|lia].
Qed.

(** Scanning what was printed: the value comes back, at least one digit is
    read, and the rest of the input is untouched. *)
Lemma scan_print_digits fuel base n acc count rest :
  2 <= base <= 36 → 0 <= n < 2 ^ Z.of_nat fuel → fuel ≠ 0%nat →
  ∃ m : nat, m ≠ 0%nat ∧
    scan_digits base acc count (print_digits fuel base n rest) =
    scan_digits base (acc * base ^ Z.of_nat m + n) (count + m) rest.
Proof.
  intros Hb. revert n rest. induction fuel as [|fuel IH]; intros n rest Hn Hf; [done|].
  rewrite Nat2Z.inj_succ, Z.pow_succ_r in Hn by lia. cbn [print_digits].
  assert (Hd : digit_in base (digit_char (n mod base)) = Some (n mod base)).
  { apply digit_char_in; [apply Z.mod_pos_bound; lia|lia]. }
  destruct (Z.ltb_spec n base) as [Hlt|Hge].
  - exists 1%nat. split; [done|]. cbn [scan_digits]. rewrite Hd.
    rewrite Z.mod_small, Z.pow_1_r by lia. f_equal; lia.
  - assert (n / base <= n / 2) by (apply Z.div_le_compat_l; lia).
    assert (n / 2 < 2 ^ Z.of_nat fuel) by (apply Z.div_lt_upper_bound; lia).
    assert (0 <= n / base) by (apply Z.div_pos; lia).
    destruct (IH (n / base) (String (digit_char (n mod base)) rest)) as (m & Hm & ->).
    { lia. }
    { intros ->. simpl in *. lia. }
    exists (S m). split; [done|]. cbn [scan_digits]. rewrite Hd.
    rewrite Nat2Z.inj_succ, Z.pow_succ_r by lia. f_equal; [|lia].
    pose proof (Z.div_mod n base ltac:(lia)). nia.
Qed.

Lemma print_fuel_enough n : 0 <= n → n < 2 ^ Z.of_nat (print_fuel n).
Proof.
  intros Hn. unfold print_fuel. rewrite Nat2Z.inj_succ, Z2Nat.id by apply Z.log2_nonneg.
  destruct (decide (n = 0)) as [->|]; [done|]. apply Z.log2_spec. lia.
Qed.

(** A printed number, followed by something that is not a digit, scans back. *)
Lemma scan_print_dec n rest :
  0 <= n →
  (match rest with String c _ => digit_in 10 c = None | EmptyString => True end) →
  ∃ m : nat, m ≠ 0%nat ∧
    scan_digits 10 0 0 (print_digits (print_fuel n) 10 n rest) = (n, m, rest).
Proof.
  intros Hn Hrest.
  destruct (scan_print_digits (print_fuel n) 10 n 0 0 rest) as (m & Hm & ->);
    [lia|split; [done|by apply print_fuel_enough]|done|].
  exists m. split; [done|]. rewrite Z.mul_0_l, Z.add_0_l, Nat.add_0_l.
  destruct rest as [|c r]; simpl; [done|by rewrite Hrest].
Qed.

(** The first character of a printed number is a digit. *)
Lemma print_digits_head fuel n rest :
  fuel ≠ 0%nat → 0 <= n →
  ∃ d s, 0 <= d < 10 ∧ print_digits fuel 10 n rest = String (digit_char d) s.
Proof.
  revert n rest. induction fuel as [|fuel IH]; intros n rest Hf Hn; [done|]. cbn.
  assert (Hd : 0 <= n mod 10 < 10) by (apply Z.mod_pos_bound; lia).
  destruct (n <? 10); [eauto|]. destruct fuel; [simpl; eauto|].
  apply IH; [done|]. apply Z.div_pos; lia.
Qed.

Lemma digit_char_dec d : 0 <= d < 10 → byte (digit_char d) = 48 + d.
Proof.
  intros Hd. unfold digit_char. rewrite byte_chr. unfold u8.
  destruct (Z.ltb_spec d 10); [|lia]. by rewrite Z.mod_small by lia.
Qed.

Lemma strto_scan_print n :
  0 <= n → strto_scan 10 (print_dec n) = Some (false, n, EmptyString).
Proof.
  intros Hn. unfold strto_scan, print_dec.
  destruct (scan_print_dec n EmptyString Hn I) as (m & Hm & Hs).
  destruct (print_digits_head (print_fuel n) n EmptyString ltac:(done) Hn)
    as (d & s & Hd & He). rewrite He in *.
  pose proof (digit_char_dec d Hd) as Hb.
  assert (skip_space (String (digit_char d) s) = String (digit_char d) s) as ->.
  { simpl. unfold isspace. rewrite Hb.
    destruct (Z.eqb_spec (48 + d) 32); [lia|]. destruct (Z.leb_spec (48 + d) 13); [lia|].
    by rewrite andb_false_r. }
  assert (scan_sign (String (digit_char d) s) = (false, String (digit_char d) s)) as ->.
  { simpl. rewrite Hb. destruct (Z.eqb_spec (48 + d) 45); [lia|].
    by destruct (Z.eqb_spec (48 + d) 43); [lia|]. }
  change (scan_base 10 (String (digit_char d) s)) with (10, String (digit_char d) s).
  cbv beta iota zeta. rewrite Hs. by destruct m.
Qed.

(** [strtoul] reads back what [%u] wrote. *)
Lemma strtoul_print_dec n : 0 <= n <= ULONG_MAX → strtoul (print_dec n) 10 = n.
Proof.
  intros Hn. unfold strtoul. rewrite strto_scan_print by lia.
  by destruct (Z.ltb_spec ULONG_MAX n); [lia|].
Qed.

(** [strtoul] stays in the range of [unsigned long]. *)
Lemma scan_digits_nonneg base acc count s :
  0 <= base → 0 <= acc → 0 <= (scan_digits base acc count s).1.1.
Proof.
  intros Hb. revert acc count. induction s as [|c s IH]; intros acc count Ha; simpl; [done|].
  unfold digit_in, digit_value.
  repeat case_match; simplify_eq; simpl; try done; apply IH; nia.
Qed.

Lemma strto_scan_nonneg base s neg v rest :
  0 <= base → strto_scan base s = Some (neg, v, rest) → 0 <= v.
Proof.
  unfold strto_scan. intros Hb. destruct (scan_sign _) as [ng s1].
  destruct (scan_base base s1) as [b s2] eqn:Es.
  assert (0 <= b).
  { revert Es. unfold scan_base. repeat case_match; intros [= <- <-]; lia. }
  pose proof (scan_digits_nonneg b 0 0 s2).
  destruct (scan_digits b 0 0 s2) as [[v' n] r]. simpl in *.
  destruct n; intros; simplify_eq. lia.
Qed.

Lemma strtoul_range s base : 0 <= base → 0 <= strtoul s base <= ULONG_MAX.
Proof.
  intros Hb. unfold strtoul.
  destruct (strto_scan base s) as [[[neg v] r]|] eqn:E; [|done].
  apply strto_scan_nonneg in E; [|done].
  destruct (Z.ltb_spec ULONG_MAX v); [done|]. destruct neg; [|lia].
  unfold u32. pose proof (Z.mod_pos_bound (- v) (2 ^ 32) ltac:(lia)).
  unfold ULONG_MAX. lia.
Qed.

Lemma stoi_range s base z : stoi s base = Ok z → - 2 ^ 31 <= z < 2 ^ 31.
Proof.
  unfold stoi, clamp_signed, LONG_MIN, LONG_MAX.
  destruct (strto_scan _ _) as [[[neg v] r]|]; [|done].
  destruct neg; repeat case_match; intros; simplify_eq; lia.
Qed.

(** ** Lengths of texts *)

Lemma print_digits_acc fuel base n acc :
  print_digits fuel base n acc = print_digits fuel base n EmptyString +:+ acc.
Proof.
  revert n acc. induction fuel as [|fuel IH]; intros n acc; [done|]. cbn [print_digits].
  destruct (n <? base); [done|]. rewrite (IH _ (String _ acc)), (IH _ (String _ EmptyString)).
  by rewrite append_assoc.
Qed.

Lemma length_append_str a b : String.length (a +:+ b) = (String.length a + String.length b)%nat.
Proof. induction a as [|c a IH]; [done|]. rewrite append_cons. simpl. by rewrite IH. Qed.

Lemma print_digits_length fuel (k : nat) n :
  0 <= n < 10 ^ Z.of_nat (S k) →
  (String.length (print_digits fuel 10 n EmptyString) <= S k)%nat.
Proof.
  revert k n. induction fuel as [|fuel IH]; intros k n Hn; [simpl; lia|]. cbn [print_digits].
  destruct (Z.ltb_spec n 10); [simpl; lia|]. rewrite print_digits_acc, length_append_str. simpl.
  destruct k as [|k]; [simpl in Hn; lia|].
  specialize (IH k (n / 10)). rewrite (Nat2Z.inj_succ (S k)), Z.pow_succ_r in Hn by lia.
  assert (0 <= n / 10 < 10 ^ Z.of_nat (S k)) as Hd.
  { split; [apply Z.div_pos; lia|]. apply Z.div_lt_upper_bound; lia. }
  specialize (IH Hd). lia.
Qed.

Lemma print_dec_length (k : nat) b n :
  0 <= n < b → (b <=? 10 ^ Z.of_nat (S k)) = true → (String.length (print_dec n) <= S k)%nat.
Proof. intros Hn Hb%Z.leb_le. apply print_digits_length. lia. Qed.

Lemma print_int_length z : - 2 ^ 31 <= z < 2 ^ 31 → (String.length (print_int z) <= 11)%nat.
Proof.
  intros Hz. unfold print_int. destruct (Z.ltb_spec z 0).
  - pose proof (print_dec_length 9 (2 ^ 32) (- z) ltac:(lia) eq_refl). simpl. lia.
  - pose proof (print_dec_length 9 (2 ^ 32) z ltac:(lia) eq_refl). lia.
Qed.

Lemma string_take_length n s : (String.length (string_take n s) <= n)%nat.
Proof. revert s. induction n as [|n IH]; intros [|c s]; simpl; [lia..|]. specialize (IH s). lia. Qed.

(** A buffer of [n] bytes holds less than [n] of them before the end. *)
Lemma snprintf_s_length n arg : (n ≠ 0)%nat → (String.length (snprintf_s n arg) < n)%nat.
Proof. intros Hn. unfold snprintf_s. pose proof (string_take_length (n - 1) (c_str arg)). lia. Qed.
