(* ===== verification/CommonUtils.v ===== *)
(** * src/src/commonUtils.cpp

    Request parameters ([StringMap]), the boolean syntax of the HTTP API, the
    bounded random numbers and the printable timestamp. *)
From S2P Require Import Prelude StdMap CLib.

(** [typedef std::map<std::string, std::string> StringMap] *)
Definition StringMap : Type := list (string * string).

(** [getRandomNumber]: [raw] is what [uniform_dist(randomEngine)] draws, a
    value of the operating system's generator. *)
Definition getRandomNumber (raw upperBound : Z) : Z :=
  if upperBound =? 0 then 0 else u32 raw mod upperBound.

(** [parseBooleanValue]; [None] is the null pointer. *)
Definition parseBooleanValue (valueStr : option string) : bool :=
  match valueStr with
  | None => false
  | Some v =>
      if strncase_eq 1 v "n" then false
      else if strncase_eq 1 v "y" then true
      else if strcase_eq v "false" then false
      else if strcase_eq v "true" then true
      else negb (strtoul v 0 =? 0)
  end.

Definition isParamSet (params : StringMap) (paramName : string)
    (paramValue : option string) : bool :=
  match map_find paramName params with
  | None => false
  | Some found =>
      match paramValue with
      | Some v => bool_decide (found = v)
      | None => true
      end
  end.

(** [getParamValue(params, name, value)]: the flag, and [value] afterwards. *)
Definition getParamValue (params : StringMap) (paramName : string)
    (paramValueFound : string) : bool * string :=
  match map_find paramName params with
  | Some v => (true, v)
  | None => (false, paramValueFound)
  end.

(** [isUnwantedChar]; [char] is unsigned on the target. *)
Definition isUnwantedChar (c : ascii) : bool := (byte c <? 32) || (126 <? byte c).

(** [currTimestamp]: [asc] is the text asctime_r produced. *)
Definition currTimestamp (asc : string) : string :=
  string_filter (λ c, negb (isUnwantedChar c)) asc.

(** ** Laws *)

Lemma getRandomNumber_bound raw n :
  0 < n → 0 <= getRandomNumber raw n < n.
Proof.
  intros Hn. unfold getRandomNumber. destruct (Z.eqb_spec n 0); [lia|].
  apply Z.mod_pos_bound. lia.
Qed.

Lemma currTimestamp_printable asc :
  string_filter isUnwantedChar (currTimestamp asc) = EmptyString.
Proof.
  unfold currTimestamp. induction asc as [|c s IH]; simpl; [done|].
  destruct (isUnwantedChar c) eqn:E; simpl; [done|by rewrite E].
Qed.

Lemma getParamValue_true params k d v :
  getParamValue params k d = (true, v) ↔ map_find k params = Some v.
Proof. unfold getParamValue. destruct (map_find k params); naive_solver. Qed.

Lemma getParamValue_eq params k d :
  getParamValue params k d =
  (match map_find k params with Some _ => true | None => false end,
   default d (map_find k params)).
Proof. unfold getParamValue. by destruct (map_find k params). Qed.
