(* ===== verification/Gpio.v ===== *)
(** * The GPIO boundary: src/src/gpio/Gpio.h, FakeGpio, the BCM2835 registers

    The device drivers only ever call the [Gpio] interface. A driver function
    that reads nothing is modelled by the list of [GpioOperation]s it performs,
    in order; [run_ops] performs such a list on any implementation of the
    interface. A driver function that reads takes the implementation's state. *)
From S2P Require Import Prelude StdMap CLib.

Inductive GpioValue := low | high.
#[export] Instance GpioValue_eq_dec : EqDecision GpioValue.
Proof. solve_decision. Defined.

Definition value_of_bool (b : bool) : GpioValue := if b then high else low.
Definition is_high (v : GpioValue) : bool := match v with high => true | low => false end.

Lemma is_high_value_of_bool b : is_high (value_of_bool b) = b.
Proof. by destruct b. Qed.

Inductive GpioOperationKind :=
  | initialize | configureInput | configureOutput | read | write | delayMilliseconds.
#[export] Instance GpioOperationKind_eq_dec : EqDecision GpioOperationKind.
Proof. solve_decision. Defined.

Record GpioOperation := mkOperation {
  kind : GpioOperationKind;
  bcmGpio : Z;
  value : GpioValue;
  duration : Z;
}.
#[export] Instance GpioOperation_eq_dec : EqDecision GpioOperation.
Proof. solve_decision. Defined.

Definition op_configureInput (pin : Z) := mkOperation configureInput pin low 0.
Definition op_configureOutput (pin : Z) (v : GpioValue) := mkOperation configureOutput pin v 0.
Definition op_write (pin : Z) (v : GpioValue) := mkOperation write pin v 0.
Definition op_delay (ms : Z) := mkOperation delayMilliseconds (-1) low ms.

(** ** The interface ([class Gpio]) *)
Class GpioDevice (G : Type) := {
  gpio_configureInput : Z → G → res G;
  gpio_configureOutput : Z → GpioValue → G → res G;
  gpio_read : Z → G → res (GpioValue * G);
  gpio_write : Z → GpioValue → G → res G;
  gpio_delayMilliseconds : Z → G → res G;
}.

Definition run_op `{GpioDevice G} (op : GpioOperation) (g : G) : res G :=
  match kind op with
  | initialize => Ok g
  | configureInput => gpio_configureInput (bcmGpio op) g
  | configureOutput => gpio_configureOutput (bcmGpio op) (value op) g
  | read => p ← gpio_read (bcmGpio op) g; Ok p.2
  | write => gpio_write (bcmGpio op) (value op) g
  | delayMilliseconds => gpio_delayMilliseconds (duration op) g
  end.

Fixpoint run_ops `{GpioDevice G} (ops : list GpioOperation) (g : G) : res G :=
  match ops with
  | [] => Ok g
  | op :: ops => g' ← run_op op g; run_ops ops g'
  end.

Lemma run_ops_app `{GpioDevice G} ops1 ops2 (g : G) :
  run_ops (ops1 ++ ops2) g = run_ops ops1 g ≫= run_ops ops2.
Proof.
  revert g. induction ops1 as [|op ops IH]; intros g; simpl; [done|].
  destruct (run_op op g); simpl; [apply IH|done].
Qed.

(** ** The receiver's view of a trace

    [sampledBits] of src/tests/gpio_protocol_tests.cpp: a device that samples
    its data line at every rising edge of its clock line. [sample] also returns
    the level the data line is left at. *)
Fixpoint sample (dataPin clockPin : Z) (data : GpioValue) (ops : list GpioOperation)
    : GpioValue * list bool :=
  match ops with
  | [] => (data, [])
  | op :: ops =>
      if bool_decide (kind op = configureOutput ∧ bcmGpio op = dataPin) then
        sample dataPin clockPin (value op) ops
      else if bool_decide (kind op = write ∧ bcmGpio op = dataPin) then
        sample dataPin clockPin (value op) ops
      else if bool_decide (kind op = write ∧ bcmGpio op = clockPin ∧ value op = high) then
        let '(d, bits) := sample dataPin clockPin data ops in (d, is_high data :: bits)
      else sample dataPin clockPin data ops
  end.

Definition sampledBits (ops : list GpioOperation) (dataPin clockPin : Z)
    (initialData : GpioValue) : list bool :=
  (sample dataPin clockPin initialData ops).2.

(** [countWrites] of the same file. *)
Definition countWrites (ops : list GpioOperation) (pin : Z) (v : GpioValue) : nat :=
  length (filter (λ op, kind op = write ∧ bcmGpio op = pin ∧ value op = v) ops).

Section sample.
Variables dpin cpin : Z.
Hypothesis pins_ne : dpin ≠ cpin.

Lemma sample_app d ops1 ops2 :
  sample dpin cpin d (ops1 ++ ops2) =
  let '(d1, b1) := sample dpin cpin d ops1 in
  let '(d2, b2) := sample dpin cpin d1 ops2 in (d2, b1 ++ b2).
Proof.
  revert d. induction ops1 as [|op ops IH]; intros d; simpl.
  - by destruct (sample dpin cpin d ops2).
  - repeat case_bool_decide; rewrite ?IH; try done.
    destruct (sample dpin cpin d ops) as [d1 b1].
    by destruct (sample dpin cpin d1 ops2).
Qed.

#[local] Ltac decide_op :=
  simpl; repeat (case_bool_decide; simpl in *); destruct_and?; done || congruence || tauto.

Lemma sample_data d v ops :
  sample dpin cpin d (op_write dpin v :: ops) = sample dpin cpin v ops.
Proof. decide_op. Qed.

Lemma sample_config_data d v ops :
  sample dpin cpin d (op_configureOutput dpin v :: ops) = sample dpin cpin v ops.
Proof. decide_op. Qed.

Lemma sample_clock_high d ops :
  sample dpin cpin d (op_write cpin high :: ops) =
  let '(d', bits) := sample dpin cpin d ops in (d', is_high d :: bits).
Proof. decide_op. Qed.

Lemma sample_clock_low d ops :
  sample dpin cpin d (op_write cpin low :: ops) = sample dpin cpin d ops.
Proof. decide_op. Qed.

Lemma sample_other d op ops :
  bcmGpio op ≠ dpin → bcmGpio op ≠ cpin →
  sample dpin cpin d (op :: ops) = sample dpin cpin d ops.
Proof. intros ??. decide_op. Qed.

(** [n] clock pulses sample the data line [n] times. *)
Lemma sample_pulses d n :
  sample dpin cpin d (concat (replicate n [op_write cpin high; op_write cpin low])) =
  (d, replicate n (is_high d)).
Proof.
  induction n as [|n IH]; [done|].
  change (concat (replicate (S n) [op_write cpin high; op_write cpin low])) with
    (op_write cpin high :: op_write cpin low ::
     concat (replicate n [op_write cpin high; op_write cpin low])).
  by rewrite sample_clock_high, sample_clock_low, IH.
Qed.
End sample.

(** ** src/src/gpio/fakeGpio.cpp *)
Module FakeGpio.

Record FakeGpio := mkFakeGpio {
  inputValues : list (Z * GpioValue);
  queuedInputValues : list (Z * list GpioValue);
  operationHistory : list GpioOperation;
  initializeResult : bool;
  realTimeDelays : bool;
  yieldAfterOperation : bool;
}.

Definition new (realTimeDelaysParam : bool) : FakeGpio :=
  mkFakeGpio [] [] [] true realTimeDelaysParam false.

(** [record]: appends to the history; the flag asks for a yield. *)
Definition record (op : GpioOperation) (g : FakeGpio) : bool * FakeGpio :=
  (yieldAfterOperation g,
   mkFakeGpio (inputValues g) (queuedInputValues g) (operationHistory g ++ [op])
     (initializeResult g) (realTimeDelays g) (yieldAfterOperation g)).

Definition initialize (g : FakeGpio) : bool * FakeGpio :=
  (initializeResult g, (record (mkOperation initialize (-1) low 0) g).2).

(** [queuedInputValues[bcmGpio]]: std::map's operator[] creates an empty
    queue on first use. *)
Definition queue_of (pin : Z) (g : FakeGpio) : list GpioValue :=
  default [] (map_find pin (queuedInputValues g)).

Definition read (pin : Z) (g : FakeGpio) : GpioValue * FakeGpio :=
  let '(v, rest) :=
    match queue_of pin g with
    | v :: rest => (v, rest)
    | [] => (default low (map_find pin (inputValues g)), [])
    end in
  let g' := mkFakeGpio (inputValues g) (map_set pin rest (queuedInputValues g))
              (operationHistory g) (initializeResult g) (realTimeDelays g)
              (yieldAfterOperation g) in
  (v, (record (mkOperation Gpio.read pin v 0) g').2).

Definition setInitializeResult (result : bool) (g : FakeGpio) : FakeGpio :=
  mkFakeGpio (inputValues g) (queuedInputValues g) (operationHistory g)
    result (realTimeDelays g) (yieldAfterOperation g).

Definition setInputValue (pin : Z) (v : GpioValue) (g : FakeGpio) : FakeGpio :=
  mkFakeGpio (map_set pin v (inputValues g)) (queuedInputValues g) (operationHistory g)
    (initializeResult g) (realTimeDelays g) (yieldAfterOperation g).

Definition queueInputValues (pin : Z) (vs : list GpioValue) (g : FakeGpio) : FakeGpio :=
  mkFakeGpio (inputValues g) (map_set pin (queue_of pin g ++ vs) (queuedInputValues g))
    (operationHistory g) (initializeResult g) (realTimeDelays g) (yieldAfterOperation g).

Definition setYieldAfterOperation (enabled : bool) (g : FakeGpio) : FakeGpio :=
  mkFakeGpio (inputValues g) (queuedInputValues g) (operationHistory g)
    (initializeResult g) (realTimeDelays g) enabled.

Definition clearOperations (g : FakeGpio) : FakeGpio :=
  mkFakeGpio (inputValues g) (queuedInputValues g) []
    (initializeResult g) (realTimeDelays g) (yieldAfterOperation g).

#[global] Instance device : GpioDevice FakeGpio := {|
  gpio_configureInput pin g := Ok (record (op_configureInput pin) g).2;
  gpio_configureOutput pin v g := Ok (record (op_configureOutput pin v) g).2;
  gpio_read pin g := Ok (read pin g);
  gpio_write pin v g := Ok (record (op_write pin v) g).2;
  gpio_delayMilliseconds ms g := Ok (record (op_delay ms) g).2;
|}.

(** An operation a driver can put in a trace. *)
Definition output_op (op : GpioOperation) : Prop :=
  (∃ pin, op = op_configureInput pin) ∨ (∃ pin v, op = op_configureOutput pin v) ∨
  (∃ pin v, op = op_write pin v) ∨ (∃ ms, op = op_delay ms).

(** The fake never throws, and its history is the trace the driver made. *)
Lemma run_ops_history ops g :
  Forall output_op ops →
  run_ops ops g = Ok (mkFakeGpio (inputValues g) (queuedInputValues g)
    (operationHistory g ++ ops) (initializeResult g) (realTimeDelays g)
    (yieldAfterOperation g)).
Proof.
  intros Hops. revert g. induction Hops as [|op ops Hop _ IH]; intros g; simpl.
  - destruct g; simpl. by rewrite app_nil_r.
  - destruct Hop as [[p ->]|[(p & v & ->)|[(p & v & ->)|[ms ->]]]];
      simpl; rewrite IH; simpl; by rewrite <-app_assoc.
Qed.
End FakeGpio.

(** ** src/src/gpio/bcm2835GpioRegisters.cpp *)
Module Bcm2835.
Definition registerMapBytes : Z := 4096.
Definition setRegister0 : Z := 7.
Definition clearRegister0 : Z := 10.
Definition levelRegister0 : Z := 13.

Definition supportsOffset (pin : Z) : bool := (0 <=? pin) && (pin <? 32).

Definition maskForOffset (pin : Z) : res Z :=
  if supportsOffset pin then Ok (u32 (Z.shiftl 1 pin))
  else Throw (OutOfRange "BCM2835 GPIO offset is outside bank 0").

(** The value a read returns for the level word the hardware shows. *)
Definition read (levels : Z) (pin : Z) : res GpioValue :=
  mask ← maskForOffset pin;
  Ok (if Z.land levels mask =? 0 then low else high).

(** The register store a write performs: (word index, word). *)
Definition write (pin : Z) (v : GpioValue) : res (Z * Z) :=
  mask ← maskForOffset pin;
  Ok (match v with high => setRegister0 | low => clearRegister0 end, mask).

(** What the hardware does with a store: GPSET0 raises and GPCLR0 lowers the
    lines of the mask. This is the documented behaviour of the registers. *)
Definition hw_store (levels : Z) (store : Z * Z) : Z :=
  if store.1 =? setRegister0 then Z.lor levels store.2
  else if store.1 =? clearRegister0 then Z.ldiff levels store.2
  else levels.

Lemma maskForOffset_ok pin :
  0 <= pin < 32 → maskForOffset pin = Ok (2 ^ pin).
Proof.
  intros Hp. unfold maskForOffset, supportsOffset.
  destruct (Z.leb_spec 0 pin); [|lia]. destruct (Z.ltb_spec pin 32); [|lia]. simpl.
  rewrite Z.shiftl_1_l. unfold u32. rewrite Z.mod_small; [done|].
  split; [apply Z.pow_nonneg; lia|apply Z.pow_lt_mono_r; lia].
Qed.

Lemma read_testbit levels pin :
  0 <= pin < 32 → read levels pin = Ok (value_of_bool (Z.testbit levels pin)).
Proof.
  intros Hp. unfold read. rewrite maskForOffset_ok by done. simpl. f_equal.
  rewrite land_pow2_eqb by lia. by destruct (Z.testbit levels pin).
Qed.
End Bcm2835.
