(* ===== verification/System.v ===== *)
(** * The kernel and its handles: what src/src/gpio/gpiodV2Gpio.cpp,
      src/src/gpio/bcm2835MmapValueIo.cpp and src/src/spi/linuxSpidevOutput.cpp
      have in common

    The hardware backends acquire handles (files, mappings, objects of a
    library), may fail anywhere and clean up after themselves. What a program
    holds is a list of handles, to which an acquisition adds and from which a
    release removes: releasing what is not held is undefined. A method is a
    function of the object, of the system and of what was printed; its
    specification is a triple with a postcondition for exceptions. *)
From S2P Require Import Prelude.

Definition ENOENT : Z := 2.
Definition EINTR : Z := 4.
Definition EIO : Z := 5.
Definition E2BIG : Z := 7.
Definition EEXIST : Z := 17.
Definition ENODEV : Z := 19.
Definition EINVAL : Z := 22.
Definition ERANGE : Z := 34.
(** [GLOB_NOMATCH] of <glob.h>. *)
Definition GLOB_NOMATCH : Z := 3.

(** What a program holds: each is to be released once. *)
Inductive Handle :=
  | GlobPaths
  | FileDescriptor (fd : Z) | Mapping
  | Memory (p : Z)
  | EventBase (h : Z) | Event (h : Z) | HttpServer (h : Z) | Joinable (thread : Z)
  | Chip (h : Z) | ChipInfo (h : Z) | LineInfo (h : Z)
  | LineSettings (h : Z) | LineConfig (h : Z) | RequestConfig (h : Z)
  | LineRequest (h : Z).
#[export] Instance Handle_eq_dec : EqDecision Handle.
Proof. solve_decision. Defined.

(** The calls the backends share. [errno] is read after a call; [lib_release]
    is the function that releases a handle of its kind. *)
Class Kernel (L : Type) := {
  strerror : Z → string;
  errno : L → Z;
  clear_errno : L → L;
  lib_release : Handle → L → L;
  glob : string → L → (Z * list string) * L;
  file_open : string → L → Z * L;
}.

(** The kernel and the handles held. *)
Definition Sys (L : Type) : Type := L * list Handle.

Fixpoint remove_one (h : Handle) (l : list Handle) : option (list Handle) :=
  match l with
  | [] => None
  | h' :: l => if decide (h = h') then Some l else cons h' <$> remove_one h l
  end.

Definition hold {L} (h : Handle) (y : Sys L) : Sys L := (y.1, h :: y.2).

(** [None] when the handle is not held. *)
Definition drop_handle `{Kernel L} (h : Handle) (y : Sys L) : option (Sys L) :=
  l ← remove_one h y.2; Some (lib_release h y.1, l).

(** What an exception says ([what]); undefined behaviour is not an exception. *)
Definition what_of (e : exn) : option string :=
  match e with
  | RuntimeError t | LogicError t | InvalidArgument t | OutOfRange t => Some t
  | AssertionFailed | Undefined _ => None
  end.

(** ** Methods *)

(** [stderr_] is what was printed. *)
Record Env (O L : Type) := mkEnv {
  object : O;
  sys : Sys L;
  stderr_ : list string;
}.
Arguments mkEnv {O L} object sys stderr_.
Arguments object {O L}.
Arguments sys {O L}.
Arguments stderr_ {O L}.

(** A result or an exception, and everything after it. *)
Definition Method (O L A : Type) : Type := Env O L → res A * Env O L.

#[export] Instance Method_ret {O L} : MRet (Method O L) := λ A a s, (Ok a, s).
#[export] Instance Method_bind {O L} : MBind (Method O L) := λ A B k m s,
  match m s with (Ok a, s) => k a s | (Throw e, s) => (Throw e, s) end.

Section methods.
Context {O L : Type} `{Kernel L}.
Implicit Types s : Env O L.

Definition set_object (o : O) s : Env O L := mkEnv o (sys s) (stderr_ s).
Definition set_sys (y : Sys L) s : Env O L := mkEnv (object s) y (stderr_ s).

Definition throw {A} (e : exn) : Method O L A := λ s, (Throw e, s).
Definition gets {A} (f : O → A) : Method O L A := λ s, (Ok (f (object s)), s).
Definition modify (f : O → O) : Method O L () := λ s, (Ok (), set_object (f (object s)) s).
Definition print_stderr (t : string) : Method O L () :=
  λ s, (Ok (), mkEnv (object s) (sys s) (stderr_ s ++ [t])).

(** A call of the kernel or of a library, and the last error. *)
Definition call {A} (f : L → A * L) : Method O L A :=
  λ s, let '(a, l) := f (sys s).1 in (Ok a, set_sys (l, (sys s).2) s).
Definition get_errno : Method O L Z := λ s, (Ok (errno (sys s).1), s).

Definition acquire (h : Handle) : Method O L () := λ s, (Ok (), set_sys (hold h (sys s)) s).
Definition release (h : Handle) : Method O L () := λ s,
  match drop_handle h (sys s) with
  | Some y => (Ok (), set_sys y s)
  | None => (Throw (Undefined "a handle is released that is not held"), s)
  end.

(** [m] in a scope that owns [h]: it is released however [m] ends. *)
Definition finally {A} (m : Method O L A) (h : Handle) : Method O L A := λ s,
  let '(r, s) := m s in
  match release h s with (Ok _, s) => (r, s) | (Throw e, s) => (Throw e, s) end.

(** A [std::unique_ptr] on what [new] gives, null or not. *)
Definition scoped {A} (new : L → option Z * L) (mk : Z → Handle)
    (m : option Z → Method O L A) : Method O L A :=
  p ← call new;
  match p with
  | None => m None
  | Some h => acquire (mk h);; finally (m (Some h)) (mk h)
  end.

(** [try { m } catch (const std::exception &error) { handler(error.what()) }] *)
Definition try_catch {A} (m : Method O L A) (handler : string → Method O L A) : Method O L A := λ s,
  match m s with
  | (Ok a, s) => (Ok a, s)
  | (Throw e, s) =>
      match what_of e with None => (Throw e, s) | Some error => handler error s end
  end.
End methods.

(** ** What is held *)

Lemma remove_one_perm h l l' : remove_one h l = Some l' → l ≡ₚ h :: l'.
Proof.
  revert l'. induction l as [|h' l IH]; intros l'; [done|]. cbn [remove_one]. case_decide as E.
  - intros [= <-]. by subst.
  - destruct (remove_one h l) as [l1|]; [|done]. intros [= <-]. rewrite (IH l1 eq_refl). apply Permutation_swap.
Qed.

Lemma remove_one_some h l x : l ≡ₚ h :: x → ∃ l', remove_one h l = Some l' ∧ l' ≡ₚ x.
Proof.
  intros Hl. assert (∃ l', remove_one h l = Some l') as [l' E].
  { assert (h ∈ l) as Hin by (rewrite Hl; by left). clear Hl. induction l as [|h' l IH].
    - by apply elem_of_nil in Hin.
    - cbn [remove_one]. case_decide; [by eexists|]. apply elem_of_cons in Hin as [?|Hin]; [done|].
      destruct (IH Hin) as [l' ->]. by eexists. }
  exists l'. split; [done|]. apply remove_one_perm in E. rewrite E in Hl. by apply Permutation_cons_inv in Hl.
Qed.

Lemma drop_handle_some `{Kernel L} h (y : Sys L) x :
  y.2 ≡ₚ h :: x → ∃ y', drop_handle h y = Some y' ∧ y'.2 ≡ₚ x.
Proof.
  intros Hy. unfold drop_handle. destruct (remove_one_some h y.2 x Hy) as (l' & -> & Hl). by eexists.
Qed.

(** The handles an object answers for. *)
Class Owner (O : Type) := owes : O → list Handle.

Section hoare.
Context {O L : Type} `{Kernel L} `{Owner O}.
Implicit Types (s : Env O L) (x : list Handle) (P : O → Prop).

(** The handles held are those of the object and [x], and the object is as [P]
    says. *)
Definition owning x P s : Prop := (sys s).2 ≡ₚ x ++ owes (object s) ∧ P (object s).

(** A method that starts where [P] holds ends where [Q] holds with its result,
    or where [E] holds with an exception. *)
Definition spec {A} (P : Env O L → Prop) (m : Method O L A) (Q : A → Env O L → Prop)
    (E : exn → Env O L → Prop) : Prop :=
  ∀ s, P s → match m s with (Ok a, s) => Q a s | (Throw e, s) => E e s end.

(** The exceptions are the program's own and leave [R]. *)
Definition hoare {A} (P : Env O L → Prop) (m : Method O L A) (Q : A → Env O L → Prop)
    (R : Env O L → Prop) : Prop :=
  spec P m Q (λ e s, what_of e ≠ None ∧ R s).

Lemma spec_bind {A B} (P : Env O L → Prop) (m : Method O L A) Q E (k : A → Method O L B) Q' :
  spec P m Q E → (∀ a, spec (Q a) (k a) Q' E) → spec P (m ≫= k) Q' E.
Proof.
  intros Hm Hk s Hs. specialize (Hm s Hs). unfold mbind, Method_bind.
  destruct (m s) as [[a|e] s']; [exact (Hk a s' Hm)|exact Hm].
Qed.

Lemma spec_conseq {A} (P P' : Env O L → Prop) (m : Method O L A) Q Q' (E E' : exn → Env O L → Prop) :
  spec P m Q E → (∀ s, P' s → P s) → (∀ a s, Q a s → Q' a s) → (∀ e s, E e s → E' e s) →
  spec P' m Q' E'.
Proof.
  intros Hm HP HQ HE s Hs. specialize (Hm s (HP s Hs)). destruct (m s) as [[a|e] s']; auto.
Qed.

Lemma spec_ret {A} (a : A) (P : Env O L → Prop) Q E : (∀ s, P s → Q a s) → spec P (mret a) Q E.
Proof. intros HQ s Hs. by apply HQ. Qed.

Lemma spec_gets {A B} (f : O → A) (k : A → Method O L B) (P : Env O L → Prop) Q E :
  (∀ a, spec (λ s, P s ∧ f (object s) = a) (k a) Q E) → spec P (gets f ≫= k) Q E.
Proof. intros Hk s Hs. exact (Hk _ s (conj Hs eq_refl)). Qed.

Lemma spec_call {A} (f : L → A * L) x P E : spec (owning x P) (call f) (λ _, owning x P) E.
Proof. intros s Hs. unfold call. destruct (f (sys s).1) as [a l]. exact Hs. Qed.

Lemma spec_acquire h x P E : spec (owning x P) (acquire h) (λ _, owning (h :: x) P) E.
Proof. intros s (Hh & HP). split; [|done]. cbn. by rewrite Hh. Qed.

Lemma release_ok h s l : (sys s).2 ≡ₚ h :: l → ∃ y, release h s = (Ok (), set_sys y s) ∧ y.2 ≡ₚ l.
Proof.
  intros Hl. unfold release. destruct (drop_handle_some h (sys s) l Hl) as (y & -> & Hy). by exists y.
Qed.

Lemma release_owning h x P s :
  owning (h :: x) P s → ∃ s', release h s = (Ok (), s') ∧ owning x P s'.
Proof.
  intros (Hh & HP). destruct (release_ok h s (x ++ owes (object s))) as (y & E & Hy); [by rewrite Hh|].
  exists (set_sys y s). by split_and!.
Qed.

Lemma spec_release h x P E : spec (owning (h :: x) P) (release h) (λ _, owning x P) E.
Proof. intros s Hs. by destruct (release_owning h x P s Hs) as (s' & -> & ?). Qed.

(** The same for [hoare]. *)
Lemma hoare_bind {A B} (P : Env O L → Prop) (m : Method O L A) Q R (k : A → Method O L B) Q' :
  hoare P m Q R → (∀ a, hoare (Q a) (k a) Q' R) → hoare P (m ≫= k) Q' R.
Proof. apply spec_bind. Qed.

Lemma hoare_conseq {A} (P P' : Env O L → Prop) (m : Method O L A) Q Q' (R R' : Env O L → Prop) :
  hoare P m Q R → (∀ s, P' s → P s) → (∀ a s, Q a s → Q' a s) → (∀ s, R s → R' s) → hoare P' m Q' R'.
Proof. intros Hm HP HQ HR. apply (spec_conseq _ _ _ _ _ _ _ Hm HP HQ). naive_solver. Qed.

Lemma hoare_ret {A} (a : A) (P : Env O L → Prop) Q R : (∀ s, P s → Q a s) → hoare P (mret a) Q R.
Proof. apply spec_ret. Qed.

Lemma hoare_gets {A B} (f : O → A) (k : A → Method O L B) (P : Env O L → Prop) Q R :
  (∀ a, hoare (λ s, P s ∧ f (object s) = a) (k a) Q R) → hoare P (gets f ≫= k) Q R.
Proof. apply spec_gets. Qed.

(** What was read may be forgotten. *)
Lemma hoare_get {A B} (f : O → A) (k : A → Method O L B) (P : Env O L → Prop) Q R :
  (∀ a, hoare P (k a) Q R) → hoare P (gets f ≫= k) Q R.
Proof. intros Hk s Hs. exact (Hk _ s Hs). Qed.

Lemma hoare_get_errno {B} (k : Z → Method O L B) (P : Env O L → Prop) Q R :
  (∀ e, hoare P (k e) Q R) → hoare P (get_errno ≫= k) Q R.
Proof. intros Hk s Hs. exact (Hk _ s Hs). Qed.

Lemma hoare_throw {A} e (P : Env O L → Prop) (Q : A → Env O L → Prop) (R : Env O L → Prop) :
  what_of e ≠ None → (∀ s, P s → R s) → hoare P (throw e) Q R.
Proof. intros He HR s Hs. split; [done|by apply HR]. Qed.

Lemma hoare_call {A} (f : L → A * L) x P R : hoare (owning x P) (call f) (λ _, owning x P) R.
Proof. apply spec_call. Qed.

Lemma hoare_acquire h x P R : hoare (owning x P) (acquire h) (λ _, owning (h :: x) P) R.
Proof. apply spec_acquire. Qed.

Lemma hoare_release h x P R : hoare (owning (h :: x) P) (release h) (λ _, owning x P) R.
Proof. apply spec_release. Qed.

Lemma hoare_print t x P R : hoare (owning x P) (print_stderr t) (λ _, owning x P) R.
Proof. by intros s Hs. Qed.

Lemma hoare_finally {A} (m : Method O L A) h x P (P' : A → O → Prop) P'' :
  hoare (owning (h :: x) P) m (λ a, owning (h :: x) (P' a)) (owning (h :: x) P'') →
  hoare (owning (h :: x) P) (finally m h) (λ a, owning x (P' a)) (owning x P'').
Proof.
  intros Hm s Hs. specialize (Hm s Hs). unfold finally. destruct (m s) as [[a|e] s'].
  - by destruct (release_owning h x _ s' Hm) as (s'' & -> & ?).
  - destruct Hm as [? Hm]. by destruct (release_owning h x _ s' Hm) as (s'' & -> & ?).
Qed.

Lemma hoare_scoped {A} new (mk : Z → Handle) (m : option Z → Method O L A) x P (P' : A → O → Prop) P'' :
  (∀ p y, hoare (owning y P) (m p) (λ a, owning y (P' a)) (owning y P'')) →
  hoare (owning x P) (scoped new mk m) (λ a, owning x (P' a)) (owning x P'').
Proof.
  intros Hm. unfold scoped. eapply hoare_bind; [apply hoare_call|]. intros [h|]; [|apply Hm].
  eapply hoare_bind; [apply hoare_acquire|]. intros []. by apply hoare_finally.
Qed.

Lemma hoare_try {A} (P : Env O L → Prop) (m : Method O L A) handler Q R' R :
  hoare P m Q R' → (∀ error, hoare R' (handler error) Q R) → hoare P (try_catch m handler) Q R.
Proof.
  intros Hm Hk s Hs. specialize (Hm s Hs). unfold try_catch. destruct (m s) as [[a|e] s']; [done|].
  destruct Hm as [He Hm]. destruct (what_of e); [by apply Hk|done].
Qed.

Lemma owning_mono x P P' s : (∀ o, P o → P' o) → owning x P s → owning x P' s.
Proof. intros HP (? & ?). split; auto. Qed.
End hoare.
