(* ===== verification/Gpiod.v ===== *)
(** * GPIO lines through libgpiod: src/src/gpio/gpiodV2Gpio.cpp,
      src/src/gpio/gpiodValueIo.h, src/src/gpio/bcm2835MmapValueIo.cpp

    The backend that finds the chip, checks its lines, claims them one by one
    and reads and writes them, through the library's ioctl or through the
    mapped registers. The library is the interface [Libgpiod], without laws:
    it may answer anything. What the program holds is in System.v. *)
From S2P Require Import Prelude StdMap CLib Gpio System.

(** ** The library *)

(** [gpiod_line_direction], of which the program uses two, and
    [gpiod_line_value]. *)
Inductive Direction := DIRECTION_INPUT | DIRECTION_OUTPUT.
#[export] Instance Direction_eq_dec : EqDecision Direction.
Proof. solve_decision. Defined.
Inductive LineValue := VALUE_ERROR | VALUE_INACTIVE | VALUE_ACTIVE.

(** A pointer that may be null is an option, a result below zero is a
    failure. *)
Class Libgpiod (L : Type) := {
  libgpiod_kernel :: Kernel L;
  chip_open : string → L → option Z * L;
  chip_get_info : Z → L → option (Z * option string * Z) * L;
  chip_get_line_info : Z → Z → L → option (Z * option string) * L;
  line_settings_new : L → option Z * L;
  line_config_new : L → option Z * L;
  request_config_new : L → option Z * L;
  line_settings_set_direction : Z → Direction → L → Z * L;
  line_settings_set_output_value : Z → LineValue → L → Z * L;
  line_config_add_line_settings : Z → Z → Z → L → Z * L;
  request_config_set_consumer : Z → string → L → L;
  chip_request_lines : Z → Z → Z → L → option Z * L;
  line_request_get_value : Z → Z → L → LineValue * L;
  line_request_set_value : Z → Z → LineValue → L → Z * L;
  file_mmap : Z → Z → L → bool * L;
  registers_level : L → Z * L;
  registers_store : Z * Z → L → L;
}.

(** ** Reading and writing a line ([class GpiodValueIo]) *)

(** An error is a number other than 0; [vio_owns] is what an object holds, as
    its laws say. *)
Class GpiodValueIo (V L : Type) := {
  vio_initialize : V → Sys L → (bool * string) * V * Sys L;
  vio_read : Z → Z → V → Sys L → Z * GpioValue * Sys L;
  vio_write : Z → Z → GpioValue → V → Sys L → Z * Sys L;
  vio_description : string;
  vio_burstRegisters : V → bool;
  vio_delete : V → Sys L → option (Sys L);
  vio_owns : V → list Handle;
  vio_initialize_owns v y x : y.2 ≡ₚ x ++ vio_owns v →
    let '(_, v', y') := vio_initialize v y in y'.2 ≡ₚ x ++ vio_owns v';
  vio_read_owns r p v y : (vio_read r p v y).2.2 = y.2;
  vio_write_owns r p b v y : (vio_write r p b v y).2.2 = y.2;
  vio_delete_owns v y x : y.2 ≡ₚ x ++ vio_owns v → ∃ y', vio_delete v y = Some y' ∧ y'.2 ≡ₚ x;
}.

(** ** The object *)

Definition expectedChipLabel : string := "pinctrl-bcm2835".
Definition requiredOffsets : list Z := [4; 6; 10; 13; 17; 19; 20; 21; 22; 26; 27].
Definition greatestRequiredOffset : Z := 27.

Record Line := mkLine {
  request : Z;
  direction : Direction;
}.

Section gpiod.
Context {V L : Type} `{Libgpiod L} `{GpiodValueIo V L}.

(** The text [gpioError] composes. *)
Definition gpioError (operation chipPath : string) (bcmGpio errorNumber : Z) : exn :=
  RuntimeError
    (let message := "libgpiod " +:+ operation +:+ " failed" in
     let message := if string_empty chipPath then message else message +:+ " on " +:+ chipPath in
     let message := if 0 <=? bcmGpio then message +:+ " BCM GPIO " +:+ print_int bcmGpio else message in
     if errorNumber =? 0 then message else message +:+ ": " +:+ strerror errorNumber).

Record GpiodV2Gpio := mkGpiod {
  chip_ : option Z;
  chipPath_ : string;
  lineCount_ : Z;
  lines_ : list (Z * Line);
  valueIo_ : V;
}.
Implicit Types o : GpiodV2Gpio.

(** The constructor; [None] is a missing value path. *)
Definition GpiodV2Gpio_new (valueIo : option V) : res GpiodV2Gpio :=
  match valueIo with
  | None => Throw (InvalidArgument "GPIO value path is missing")
  | Some v => Ok (mkGpiod None EmptyString 0 [] v)
  end.

Definition set_chip (c : option Z) (path : string) (n : Z) o : GpiodV2Gpio :=
  mkGpiod c path n (lines_ o) (valueIo_ o).
Definition set_lines (l : list (Z * Line)) o : GpiodV2Gpio :=
  mkGpiod (chip_ o) (chipPath_ o) (lineCount_ o) l (valueIo_ o).
Definition set_valueIo (v : V) o : GpiodV2Gpio :=
  mkGpiod (chip_ o) (chipPath_ o) (lineCount_ o) (lines_ o) v.

(** The methods of the class. *)
Definition G : Type → Type := Method GpiodV2Gpio L.

(** [throw gpioError(...)] on the chip's path. *)
Definition fail {A} (operation : string) (bcmGpio errorNumber : Z) : G A :=
  path ← gets chipPath_; throw (gpioError operation path bcmGpio errorNumber).
Definition fail_errno {A} (operation : string) (bcmGpio : Z) : G A :=
  e ← get_errno; fail operation bcmGpio e.

(** [if (rc < 0) throw gpioError(operation, ..., errno)] *)
Definition checked (f : L → Z * L) (operation : string) (bcmGpio : Z) : G () :=
  rc ← call f; if rc <? 0 then fail_errno operation bcmGpio else mret ().

(** ** Finding the chip *)

(** The loop over the paths. *)
Fixpoint first_chip (paths : list string) : G () :=
  match paths with
  | [] => mret ()
  | path :: paths =>
      candidate ← call (chip_open path);
      match candidate with
      | None => first_chip paths
      | Some candidate =>
          acquire (Chip candidate);;
          info ← call (chip_get_info candidate);
          match info with
          | None => release (Chip candidate);; first_chip paths
          | Some (info, label, lineCount) =>
              acquire (ChipInfo info);;
              let matches := bool_decide (label = Some expectedChipLabel)
                             && (greatestRequiredOffset <? lineCount) in
              release (ChipInfo info);;
              if matches then modify (set_chip (Some candidate) path lineCount)
              else release (Chip candidate);; first_chip paths
          end
      end
  end.

Definition discoverChip : G () :=
  r ← call (glob "/dev/gpiochip*");
  acquire GlobPaths;;
  if negb (r.1 =? 0) then
    release GlobPaths;;
    throw (gpioError "chip discovery (no /dev/gpiochip* devices)" EmptyString (-1)
             (if r.1 =? GLOB_NOMATCH then ENOENT else EIO))
  else
    first_chip r.2;;
    release GlobPaths;;
    c ← gets chip_;
    match c with
    | None => throw (gpioError "chip discovery (label pinctrl-bcm2835 not found)" EmptyString (-1) ENODEV)
    | Some _ => mret ()
    end.

(** One offset of [validateRequiredOffsets], on the chip [c]. *)
Definition validate_offset (c offset : Z) : G () :=
  lineCount ← gets lineCount_;
  if lineCount <=? offset then fail "line validation" offset ERANGE
  else
    info ← call (λ l, chip_get_line_info c offset (clear_errno l));
    match info with
    | None => fail_errno "line-info lookup" offset
    | Some (info, name) =>
        acquire (LineInfo info);;
        let expectedName := "GPIO" +:+ print_int offset in
        release (LineInfo info);;
        if bool_decide (name = Some expectedName) then mret ()
        else fail ("line-name validation (expected " +:+ expectedName +:+ ")") offset EINVAL
    end.

Fixpoint validate_offsets (c : Z) (offsets : list Z) : G () :=
  match offsets with
  | [] => mret ()
  | offset :: offsets => validate_offset c offset;; validate_offsets c offsets
  end.

(** With a chip; without one the library would be called on a null pointer. *)
Definition validateRequiredOffsets : G () :=
  c ← gets chip_;
  match c with
  | None => throw (Undefined "a line of a chip that is not open")
  | Some c => validate_offsets c requiredOffsets
  end.

(** ** Lines *)

Fixpoint release_requests (l : list (Z * Line)) : G () :=
  match l with
  | [] => mret ()
  | (_, line) :: l => release (LineRequest (request line));; release_requests l
  end.

Definition releaseLines : G () :=
  l ← gets lines_; release_requests l;; modify (set_lines []).

Definition close_chip : G () :=
  c ← gets chip_;
  match c with None => mret () | Some c => release (Chip c) end.

Definition ensureInitialized (bcmGpio : Z) (operation : string) : G Z :=
  c ← gets chip_;
  match c with
  | None => fail (operation +:+ " (backend not initialized)") bcmGpio ENODEV
  | Some c => mret c
  end.

Definition getConfiguredLine (bcmGpio : Z) (d : Direction) (operation : string) : G Line :=
  ensureInitialized bcmGpio operation;;
  l ← gets lines_;
  match map_find bcmGpio l with
  | Some line => if decide (direction line = d) then mret line
                 else fail (operation +:+ " (line not configured for "
                            +:+ match d with DIRECTION_INPUT => "input)" | _ => "output)" end)
                        bcmGpio EINVAL
  | None => fail (operation +:+ " (line not configured for "
                  +:+ match d with DIRECTION_INPUT => "input)" | _ => "output)" end) bcmGpio EINVAL
  end.

(** The request that was made for the line before, if any, goes first. *)
Definition forget_line (bcmGpio : Z) : G () :=
  l ← gets lines_;
  match map_find bcmGpio l with
  | None => mret ()
  | Some old => release (LineRequest (request old));; modify (λ o, set_lines (map_erase bcmGpio (lines_ o)) o)
  end.

(** The request itself, once its three parts are allocated. *)
Definition request_line (c bcmGpio : Z) (d : Direction) (initialValue : LineValue)
    (settings lineConfig requestConfig : Z) : G () :=
  checked (line_settings_set_direction settings d) "direction setup" bcmGpio;;
  (if decide (d = DIRECTION_OUTPUT) then
     checked (line_settings_set_output_value settings initialValue) "initial-value setup" bcmGpio
   else mret ());;
  checked (line_config_add_line_settings lineConfig bcmGpio settings) "line configuration" bcmGpio;;
  call (λ l, ((), request_config_set_consumer requestConfig ("oclock-gpio" +:+ print_int bcmGpio) l));;
  r ← call (λ l, chip_request_lines c requestConfig lineConfig (clear_errno l));
  match r with
  | None => fail_errno "line request" bcmGpio
  | Some r =>
      acquire (LineRequest r);;
      modify (λ o, set_lines (map_set bcmGpio (mkLine r d) (lines_ o)) o)
  end.

Definition configure (bcmGpio : Z) (d : Direction) (initialValue : LineValue) : G () :=
  c ← ensureInitialized bcmGpio "configure";
  lineCount ← gets lineCount_;
  if (bcmGpio <? 0) || (lineCount <=? bcmGpio) then fail "configure" bcmGpio ERANGE
  else
    forget_line bcmGpio;;
    scoped line_settings_new LineSettings (λ settings,
      scoped line_config_new LineConfig (λ lineConfig,
        scoped request_config_new RequestConfig (λ requestConfig,
          match settings, lineConfig, requestConfig with
          | Some a, Some b, Some r => request_line c bcmGpio d initialValue a b r
          | _, _, _ => fail_errno "request allocation" bcmGpio
          end))).

(** ** The interface *)

Definition toGpiodValue (v : GpioValue) : LineValue :=
  match v with high => VALUE_ACTIVE | low => VALUE_INACTIVE end.

Definition configureInput (bcmGpio : Z) : G () :=
  configure bcmGpio DIRECTION_INPUT VALUE_INACTIVE.
Definition configureOutput (bcmGpio : Z) (v : GpioValue) : G () :=
  configure bcmGpio DIRECTION_OUTPUT (toGpiodValue v).

(** The calls of the value path. *)
Definition value_read (r bcmGpio : Z) : G (Z * GpioValue) := λ s,
  let '(e, v, y) := vio_read r bcmGpio (valueIo_ (object s)) (sys s) in (Ok (e, v), set_sys y s).
Definition value_write (r bcmGpio : Z) (v : GpioValue) : G Z := λ s,
  let '(e, y) := vio_write r bcmGpio v (valueIo_ (object s)) (sys s) in (Ok e, set_sys y s).
Definition value_initialize : G (bool * string) := λ s,
  let '(r, v, y) := vio_initialize (valueIo_ (object s)) (sys s) in (Ok r, set_sys y (set_object (set_valueIo v (object s)) s)).
Definition value_delete : G () := λ s,
  match vio_delete (valueIo_ (object s)) (sys s) with
  | Some y => (Ok (), set_sys y s)
  | None => (Throw (Undefined "the value path releases what it does not hold"), s)
  end.

Definition gpiod_read (bcmGpio : Z) : G GpioValue :=
  line ← getConfiguredLine bcmGpio DIRECTION_INPUT "read";
  r ← value_read (request line) bcmGpio;
  if r.1 =? 0 then mret r.2
  else fail (vio_description (V:=V) (L:=L) +:+ " read") bcmGpio r.1.

Definition gpiod_write (bcmGpio : Z) (v : GpioValue) : G () :=
  line ← getConfiguredLine bcmGpio DIRECTION_OUTPUT "write";
  e ← value_write (request line) bcmGpio v;
  if e =? 0 then mret () else fail (vio_description (V:=V) (L:=L) +:+ " write") bcmGpio e.

(** The value path's part of [initialize]. *)
Definition initialize_valueIo : G () :=
  '(ok, valueIoError) ← value_initialize;
  if ok : bool then mret ()
  else throw (RuntimeError (vio_description (V:=V) (L:=L) +:+ " initialization failed: "
                            +:+ valueIoError)).

(** The block of the [try], and that of the [catch]. *)
Definition initialize_try : G () :=
  discoverChip;; validateRequiredOffsets;; initialize_valueIo.

Definition initialize_catch (error : string) : G bool :=
  print_stderr ("GPIO initialization failed: " +:+ error);;
  releaseLines;;
  (close_chip;; modify (set_chip None EmptyString 0));;
  mret false.

Definition initialize : G bool :=
  c ← gets chip_;
  match c with
  | Some _ => mret true
  | None => try_catch (initialize_try;; mret true) initialize_catch
  end.

(** The masks of the lines, up to the first that is not an output. *)
Fixpoint burst_masks (lines : list (Z * Line)) (bcmGpios : list Z) : bool * list Z :=
  match bcmGpios with
  | [] => (true, [])
  | pin :: bcmGpios =>
      match map_find pin lines with
      | Some line =>
          if decide (direction line = DIRECTION_OUTPUT) then
            match Bcm2835.maskForOffset pin with
            | Ok mask => let '(ok, masks) := burst_masks lines bcmGpios in (ok, mask :: masks)
            | Throw _ => (false, [])
            end
          else (false, [])
      | None => (false, [])
      end
  end.

(** [acquireBurst]: whether the burst may be used, and the masks written; a
    missing array is [None], [masks] tells whether the other one is there. *)
Definition acquireBurst (bcmGpios : option (list Z)) (masks : bool) o : bool * list Z :=
  match bcmGpios with
  | None | Some [] => (false, [])
  | Some pins =>
      if negb masks then (false, [])
      else if negb (vio_burstRegisters (valueIo_ o)) then (false, [])
      else burst_masks (lines_ o) pins
  end.

(** The destructor, and the members after it. *)
Definition GpiodV2Gpio_delete : G () :=
  releaseLines;; close_chip;; value_delete.
End gpiod.
Arguments GpiodV2Gpio V : clear implicits.
Arguments G V L A : clear implicits.

(** ** The value paths *)

(** [LibgpiodValueIo]: the library's own calls. *)
Module Ioctl.
Section ioctl.
Context {L : Type} `{Libgpiod L}.

Inductive LibgpiodValueIo := mkIoctl.

Definition errno_or_EIO (l : L) : Z := if errno l =? 0 then EIO else errno l.

Definition read (request bcmGpio : Z) (v : LibgpiodValueIo) (y : Sys L) : Z * GpioValue * Sys L :=
  let '(value, l) := line_request_get_value request bcmGpio (clear_errno y.1) in
  match value with
  | VALUE_ERROR => (errno_or_EIO l, low, (l, y.2))
  | VALUE_ACTIVE => (0, high, (l, y.2))
  | VALUE_INACTIVE => (0, low, (l, y.2))
  end.

Definition write (request bcmGpio : Z) (value : GpioValue) (v : LibgpiodValueIo) (y : Sys L)
    : Z * Sys L :=
  let '(rc, l) := line_request_set_value request bcmGpio
    match value with high => VALUE_ACTIVE | low => VALUE_INACTIVE end (clear_errno y.1) in
  (if rc <? 0 then errno_or_EIO l else 0, (l, y.2)).

#[global] Program Instance value_io : GpiodValueIo LibgpiodValueIo L := {|
  vio_initialize v y := ((true, EmptyString), v, y);
  vio_read := read;
  vio_write := write;
  vio_description := "libgpiod value ioctl";
  vio_burstRegisters _ := false;
  vio_delete _ y := Some y;
  vio_owns _ := [];
|}.
Next Obligation. done. Qed.
Next Obligation. intros r p v y. unfold read. by destruct (line_request_get_value _ _ _) as [[] ?]. Qed.
Next Obligation. intros r p b v y. unfold write. by destruct (line_request_set_value _ _ _ _). Qed.
Next Obligation. intros v y x Hy. exists y. by rewrite app_nil_r in Hy. Qed.
End ioctl.
End Ioctl.

(** [Bcm2835MmapValueIo]: the mapped registers. *)
Module Mmap.
Section mmap.
Context {L : Type} `{Libgpiod L}.

(** [mapped_] is the file of the mapping: the descriptor, the mapping and the
    registers are there together or not at all once [initialize] returned. *)
Record Bcm2835MmapValueIo := mkMmap {
  mapped_ : option Z;
}.

Definition gpioMemoryPath : string := "/dev/gpiomem".
Definition new : Bcm2835MmapValueIo := mkMmap None.
Definition registers_ (v : Bcm2835MmapValueIo) : bool :=
  match mapped_ v with Some _ => true | None => false end.

(** A failed mapping closes the file that was opened for it. *)
Definition initialize (v : Bcm2835MmapValueIo) (y : Sys L) : (bool * string) * Bcm2835MmapValueIo * Sys L :=
  if registers_ v then ((true, EmptyString), v, y)
  else
    let '(fd, l) := file_open gpioMemoryPath y.1 in
    if fd <? 0 then
      ((false, "open " +:+ gpioMemoryPath +:+ ": " +:+ strerror (errno l)), v, (l, y.2))
    else
      let y := hold (FileDescriptor fd) (l, y.2) in
      let '(mapped, l) := file_mmap Bcm2835.registerMapBytes fd y.1 in
      if negb mapped then
        let error := "mmap " +:+ gpioMemoryPath +:+ ": " +:+ strerror (errno l) in
        ((false, error), v, default (l, y.2) (drop_handle (FileDescriptor fd) (l, y.2)))
      else ((true, EmptyString), mkMmap (Some fd), hold Mapping (l, y.2)).

Definition read (request bcmGpio : Z) (v : Bcm2835MmapValueIo) (y : Sys L) : Z * GpioValue * Sys L :=
  if negb (registers_ v) then (ENODEV, low, y)
  else if negb (Bcm2835.supportsOffset bcmGpio) then (ERANGE, low, y)
  else
    let '(levels, l) := registers_level y.1 in
    match Bcm2835.read levels bcmGpio with
    | Ok value => (0, value, (l, y.2))
    | Throw _ => (ERANGE, low, (l, y.2))
    end.

Definition write (request bcmGpio : Z) (value : GpioValue) (v : Bcm2835MmapValueIo) (y : Sys L)
    : Z * Sys L :=
  if negb (registers_ v) then (ENODEV, y)
  else if negb (Bcm2835.supportsOffset bcmGpio) then (ERANGE, y)
  else
    match Bcm2835.write bcmGpio value with
    | Ok store => (0, (registers_store store y.1, y.2))
    | Throw _ => (ERANGE, y)
    end.

(** [closeMapping] *)
Definition delete (v : Bcm2835MmapValueIo) (y : Sys L) : option (Sys L) :=
  match mapped_ v with
  | None => Some y
  | Some fd => y ← drop_handle Mapping y; drop_handle (FileDescriptor fd) y
  end.

Definition owns (v : Bcm2835MmapValueIo) : list Handle :=
  match mapped_ v with Some fd => [Mapping; FileDescriptor fd] | None => [] end.

#[global] Program Instance value_io : GpiodValueIo Bcm2835MmapValueIo L := {|
  vio_initialize := initialize;
  vio_read := read;
  vio_write := write;
  vio_description := "BCM2835 /dev/gpiomem";
  vio_burstRegisters := registers_;
  vio_delete := delete;
  vio_owns := owns;
|}.
Next Obligation.
  intros [[fd|]] y x; unfold initialize, owns; cbn; [done|]. intros Hy. rewrite app_nil_r in Hy.
  destruct (file_open _ _) as [fd l]. destruct (fd <? 0); [by cbn; rewrite app_nil_r|]. cbn.
  destruct (file_mmap _ _ _) as [[] l']; cbn.
  - rewrite Hy. apply (Permutation_app_comm [Mapping; FileDescriptor fd] x).
  - case_decide; [|done]. cbn. by rewrite app_nil_r.
Qed.
Next Obligation.
  intros r p v y. unfold read. repeat (destruct (negb _); [done|]).
  destruct (registers_level _) as [lv l]. by destruct (Bcm2835.read lv p).
Qed.
Next Obligation.
  intros r p b v y. unfold write. repeat (destruct (negb _); [done|]). by destruct (Bcm2835.write p b).
Qed.
Next Obligation.
  intros [[fd|]] y x; unfold delete, owns; cbn; [|by rewrite app_nil_r; eauto]. intros Hy.
  destruct (drop_handle_some Mapping y (FileDescriptor fd :: x)) as (y1 & -> & Hy1).
  { rewrite Hy. apply (Permutation_app_comm x [Mapping; FileDescriptor fd]). }
  cbn. by apply drop_handle_some.
Qed.
End mmap.
End Mmap.

(** ** What is held *)

Section resources.
Context {V L : Type} `{Libgpiod L} `{GpiodValueIo V L}.
Implicit Types (s : Env (GpiodV2Gpio V) L) (x : list Handle) (o : GpiodV2Gpio V).

Definition chip_handle (c : option Z) : list Handle :=
  match c with Some c => [Chip c] | None => [] end.
Definition request_handles (l : list (Z * Line)) : list Handle :=
  (λ e, LineRequest (request e.2)) <$> l.

#[export] Instance gpiod_owner : Owner (GpiodV2Gpio V) := λ o,
  chip_handle (chip_ o) ++ request_handles (lines_ o) ++ vio_owns (valueIo_ o).

(** The states of an object: any; before a chip is found; after; without a
    line; after a failed start. *)
Definition any o : Prop := map_sorted (lines_ o).
Definition closed o : Prop := any o ∧ chip_ o = None.
Definition opened o : Prop := any o ∧ chip_ o ≠ None.
Definition unclaimed o : Prop := lines_ o = [].
Definition failed o : Prop := chip_ o = None ∧ lines_ o = [].

Lemma owning_any x P s : (∀ o, P o → any o) → owning x P s → owning x any s.
Proof. intros HP. by apply owning_mono. Qed.
Lemma closed_any o : closed o → any o.
Proof. by intros []. Qed.
Lemma opened_any o : opened o → any o.
Proof. by intros []. Qed.
Hint Resolve owning_any closed_any opened_any : core.

(** A call that keeps what is owned, or throws. *)
Definition keeps {A} x (m : G V L A) : Prop := hoare (owning x any) m (λ _, owning x any) (owning x any).

Lemma hoare_fail {A} op pin e (P : Env (GpiodV2Gpio V) L → Prop) Q (R : Env (GpiodV2Gpio V) L → Prop) :
  (∀ s, P s → R s) → hoare P (fail (A:=A) op pin e) Q R.
Proof. intros HR. apply hoare_get. intros path. by apply hoare_throw. Qed.

Lemma hoare_fail_errno {A} op pin (P : Env (GpiodV2Gpio V) L → Prop) Q (R : Env (GpiodV2Gpio V) L → Prop) :
  (∀ s, P s → R s) → hoare P (fail_errno (A:=A) op pin) Q R.
Proof. intros HR. apply hoare_get_errno. intros e. by apply hoare_fail. Qed.

Lemma hoare_checked f op pin x P (R : Env (GpiodV2Gpio V) L → Prop) :
  (∀ s, owning x P s → R s) → hoare (owning x P) (checked f op pin) (λ _, owning x P) R.
Proof.
  intros HR. eapply hoare_bind; [apply hoare_call|]. intros rc.
  destruct (rc <? 0); [by apply hoare_fail_errno|by apply hoare_ret].
Qed.

(** ** The operations *)

Lemma hoare_open_chip x c path n (R : Env (GpiodV2Gpio V) L → Prop) :
  hoare (owning (Chip c :: x) closed) (modify (set_chip (Some c) path n)) (λ _, owning x any) R.
Proof.
  intros s (Hh & Hs & Hc). split; [|done]. cbn. rewrite Hh.
  unfold owes, gpiod_owner. cbn. rewrite Hc. cbn. apply Permutation_middle.
Qed.

Lemma hoare_first_chip x paths (R : Env (GpiodV2Gpio V) L → Prop) :
  hoare (owning x closed) (first_chip paths) (λ _, owning x any) R.
Proof.
  induction paths as [|path paths IH]; cbn [first_chip]; [apply hoare_ret; eauto|].
  eapply hoare_bind; [apply hoare_call|]. intros [c|]; [|done].
  eapply hoare_bind; [apply hoare_acquire|]. intros [].
  eapply hoare_bind; [apply hoare_call|]. intros [[[info label] n]|].
  - eapply hoare_bind; [apply hoare_acquire|]. intros [].
    eapply hoare_bind; [apply hoare_release|]. intros [].
    destruct (_ && _); [apply hoare_open_chip|].
    eapply hoare_bind; [apply hoare_release|]. by intros [].
  - eapply hoare_bind; [apply hoare_release|]. by intros [].
Qed.

Lemma hoare_discoverChip x :
  hoare (owning x closed) discoverChip (λ _, owning x opened) (owning x any).
Proof.
  eapply hoare_bind; [apply hoare_call|]. intros r.
  eapply hoare_bind; [apply hoare_acquire|]. intros []. destruct (negb _).
  - eapply hoare_bind; [apply hoare_release|]. intros []. apply hoare_throw; eauto.
  - eapply hoare_bind; [apply hoare_first_chip|]. intros [].
    eapply hoare_bind; [apply hoare_release|]. intros [].
    apply hoare_gets. intros [c|].
    + apply hoare_ret. intros s [(? & ?) Hc]. split; [done|]. split; [done|congruence].
    + apply hoare_throw; [done|]. by intros s [? _].
Qed.

Lemma hoare_validate_offset x c offset : keeps x (validate_offset c offset).
Proof.
  apply hoare_get. intros n. destruct (n <=? offset); [by apply hoare_fail|].
  eapply hoare_bind; [apply hoare_call|]. intros [[info name]|]; [|by apply hoare_fail_errno].
  eapply hoare_bind; [apply hoare_acquire|]. intros [].
  eapply hoare_bind; [apply hoare_release|]. intros [].
  case_bool_decide; [by apply hoare_ret|by apply hoare_fail].
Qed.

Lemma hoare_validateRequiredOffsets x :
  hoare (owning x opened) validateRequiredOffsets (λ _, owning x any) (owning x any).
Proof.
  apply hoare_gets. intros [c|].
  - apply (hoare_conseq (owning x any) _ _ (λ _, owning x any) _ (owning x any)); [|intros s [? _]; eauto|done|done].
    induction requiredOffsets as [|offset offsets IH]; [by apply hoare_ret|].
    eapply hoare_bind; [apply hoare_validate_offset|]. by intros [].
  - intros s [(_ & _ & Hc) E]. by rewrite E in Hc.
Qed.

Lemma release_requests_ok x l s :
  (sys s).2 ≡ₚ request_handles l ++ x →
  ∃ y, release_requests l s = (Ok (), set_sys y s) ∧ y.2 ≡ₚ x.
Proof.
  revert s. induction l as [|[k line] l IH]; intros s Hs.
  - exists (sys s). by destruct s.
  - cbn [release_requests]. cbn in Hs. unfold mbind, Method_bind.
    destruct (release_ok _ s _ Hs) as (y & -> & Hy).
    destruct (IH (set_sys y s)) as (y' & -> & Hy'); [done|]. by exists y'.
Qed.

Lemma hoare_releaseLines x (R : Env (GpiodV2Gpio V) L → Prop) : hoare (owning x any) releaseLines (λ _, owning x unclaimed) R.
Proof.
  intros s (Hh & Hs). unfold releaseLines, gets, mbind, Method_bind.
  destruct (release_requests_ok (x ++ chip_handle (chip_ (object s)) ++ vio_owns (valueIo_ (object s)))
    (lines_ (object s)) s) as (y & -> & Hy).
  { rewrite Hh. unfold owes, gpiod_owner. solve_Permutation. }
  cbn. split; [by rewrite Hy|done].
Qed.

Lemma close_chip_ok x s :
  owning x unclaimed s →
  ∃ y, close_chip s = (Ok (), set_sys y s) ∧ y.2 ≡ₚ x ++ vio_owns (valueIo_ (object s)).
Proof.
  intros (Hh & Hl). unfold close_chip, gets, mbind, Method_bind. unfold owes, gpiod_owner in Hh.
  rewrite Hl in Hh. cbn in Hh. destruct (chip_ (object s)) as [c|]; [|exists (sys s); by destruct s].
  apply release_ok. rewrite Hh. cbn. by rewrite Permutation_middle.
Qed.

Lemma hoare_close x (R : Env (GpiodV2Gpio V) L → Prop) :
  hoare (owning x unclaimed) (close_chip;; modify (set_chip None EmptyString 0)) (λ _, owning x failed) R.
Proof.
  intros s Hs. unfold mbind, Method_bind. destruct (close_chip_ok x s Hs) as (y & -> & Hy).
  destruct Hs as [_ Hl]. unfold unclaimed in Hl. split; [|done].
  cbn. rewrite Hy. unfold owes, gpiod_owner. cbn. by rewrite Hl.
Qed.

Lemma hoare_forget_line x pin (R : Env (GpiodV2Gpio V) L → Prop) :
  hoare (owning x any) (forget_line pin)
    (λ _, owning x (λ o, any o ∧ map_find pin (lines_ o) = None)) R.
Proof.
  intros s (Hh & Hs). unfold forget_line, gets, mbind, Method_bind.
  destruct (map_find pin (lines_ (object s))) as [old|] eqn:E; [|by split_and!].
  apply map_erase_perm in E.
  destruct (release_ok (LineRequest (request old)) s
    (x ++ chip_handle (chip_ (object s)) ++ request_handles (map_erase pin (lines_ (object s)))
       ++ vio_owns (valueIo_ (object s)))) as (y & -> & Hy).
  { rewrite Hh. unfold owes, gpiod_owner, request_handles. rewrite E at 1. cbn. solve_Permutation. }
  split_and!; [done|by apply map_erase_sorted|by apply map_find_erase_eq].
Qed.

Lemma hoare_request_line x c pin d v settings lineConfig requestConfig :
  hoare (owning x (λ o, any o ∧ map_find pin (lines_ o) = None))
    (request_line c pin d v settings lineConfig requestConfig)
    (λ _, owning x any) (owning x any).
Proof.
  assert (∀ s, owning x (λ o, any o ∧ map_find pin (lines_ o) = None) s → owning x any s) as Hany.
  { intros s. apply owning_mono. by intros ? []. }
  unfold request_line. eapply hoare_bind; [by apply hoare_checked|]. intros [].
  eapply hoare_bind.
  { case_decide; [by apply hoare_checked|apply hoare_ret]. intros s Hs. exact Hs. }
  intros []. eapply hoare_bind; [by apply hoare_checked|]. intros [].
  eapply hoare_bind; [apply hoare_call|]. intros [].
  eapply hoare_bind; [apply hoare_call|]. intros [r|]; [|by apply hoare_fail_errno].
  eapply hoare_bind; [apply hoare_acquire|]. intros [] s (Hh & Hs & Hf).
  split; [|by apply map_set_sorted]. cbn. rewrite Hh. unfold owes, gpiod_owner, request_handles. cbn.
  rewrite map_set_perm by done. cbn. solve_Permutation.
Qed.

Lemma hoare_ensureInitialized x pin op : keeps x (ensureInitialized pin op).
Proof. apply hoare_get. intros [c|]; [by apply hoare_ret|by apply hoare_fail]. Qed.

Lemma hoare_configure x pin d v : keeps x (configure pin d v).
Proof.
  eapply hoare_bind; [apply hoare_ensureInitialized|]. intros c.
  apply hoare_get. intros n. destruct (_ || _); [by apply hoare_fail|].
  eapply hoare_bind; [apply hoare_forget_line|]. intros [].
  apply (hoare_scoped _ _ _ x _ (λ _, any) any). intros settings y.
  apply (hoare_scoped _ _ _ y _ (λ _, any) any). intros lineConfig z.
  apply (hoare_scoped _ _ _ z _ (λ _, any) any). intros requestConfig w.
  destruct settings, lineConfig, requestConfig;
    try (apply hoare_fail_errno; intros s; apply owning_mono; by intros ? []).
  apply hoare_request_line.
Qed.

Lemma hoare_getConfiguredLine x pin d op : keeps x (getConfiguredLine pin d op).
Proof.
  eapply hoare_bind; [apply hoare_ensureInitialized|]. intros c.
  apply hoare_get. intros l. destruct (map_find pin l); [|by apply hoare_fail].
  case_decide; [by apply hoare_ret|by apply hoare_fail].
Qed.

(** ** The calls of the value path *)

Lemma hoare_value_read x r pin : keeps x (value_read r pin).
Proof.
  intros s (Hh & Hs). unfold value_read.
  pose proof (vio_read_owns r pin (valueIo_ (object s)) (sys s)) as Hv.
  destruct (vio_read _ _ _ _) as [[e b] y]. cbn in Hv. split; [by cbn; rewrite Hv|done].
Qed.

Lemma hoare_value_write x r pin v : keeps x (value_write r pin v).
Proof.
  intros s (Hh & Hs). unfold value_write.
  pose proof (vio_write_owns r pin v (valueIo_ (object s)) (sys s)) as Hv.
  destruct (vio_write _ _ _ _ _) as [e y]. cbn in Hv. split; [by cbn; rewrite Hv|done].
Qed.

Lemma hoare_value_initialize x : keeps x value_initialize.
Proof.
  intros s (Hh & Hs). unfold value_initialize.
  pose proof (vio_initialize_owns (valueIo_ (object s)) (sys s)
    (x ++ chip_handle (chip_ (object s)) ++ request_handles (lines_ (object s)))) as Hv.
  destruct (vio_initialize _ _) as [[r v] y]. split; [|done]. cbn. rewrite Hv.
  - unfold owes, gpiod_owner. cbn. solve_Permutation.
  - rewrite Hh. unfold owes, gpiod_owner. solve_Permutation.
Qed.

Lemma hoare_gpiod_read x pin : keeps x (gpiod_read pin).
Proof.
  eapply hoare_bind; [apply hoare_getConfiguredLine|]. intros line.
  eapply hoare_bind; [apply hoare_value_read|]. intros r.
  destruct (r.1 =? 0); [by apply hoare_ret|by apply hoare_fail].
Qed.

Lemma hoare_gpiod_write x pin v : keeps x (gpiod_write pin v).
Proof.
  eapply hoare_bind; [apply hoare_getConfiguredLine|]. intros line.
  eapply hoare_bind; [apply hoare_value_write|]. intros e.
  destruct (e =? 0); [by apply hoare_ret|by apply hoare_fail].
Qed.

(** ** Start and end *)

Lemma hoare_initialize_try x :
  hoare (owning x closed) initialize_try (λ _, owning x any) (owning x any).
Proof.
  eapply hoare_bind; [apply hoare_discoverChip|]. intros [].
  eapply hoare_bind; [apply hoare_validateRequiredOffsets|]. intros [].
  eapply hoare_bind; [apply hoare_value_initialize|].
  intros [[] t]; [by apply hoare_ret|by apply hoare_throw].
Qed.

Lemma hoare_initialize_catch x error (R : Env (GpiodV2Gpio V) L → Prop) :
  hoare (owning x any) (initialize_catch error) (λ ok, owning x (λ o, ok = false ∧ failed o)) R.
Proof.
  eapply hoare_bind; [apply hoare_print|]. intros [].
  eapply hoare_bind; [apply hoare_releaseLines|]. intros [].
  eapply hoare_bind; [apply hoare_close|]. intros [].
  apply hoare_ret. intros s. by apply owning_mono.
Qed.

(** A failed start leaves neither a chip nor a line. *)
Lemma hoare_initialize x (R : Env (GpiodV2Gpio V) L → Prop) :
  hoare (owning x any) initialize (λ ok, owning x (λ o, any o ∧ (ok = false → failed o))) R.
Proof.
  apply hoare_gets. intros [c|].
  { apply hoare_ret. intros s [(? & ?) _]. by split. }
  eapply hoare_try.
  - eapply hoare_bind.
    + eapply hoare_conseq; [apply (hoare_initialize_try x)| |done|done].
      intros s [(? & ?) Hc]. by split_and!.
    + intros []. apply hoare_ret. intros s. by apply owning_mono.
  - intros error. eapply hoare_conseq; [apply hoare_initialize_catch|done| |done].
    intros ok s. apply owning_mono. intros o (-> & Hc & Hl). split; [|done]. unfold any. rewrite Hl. constructor.
Qed.

(** The destructor gives back all the object answers for. *)
Lemma delete_releases x s :
  owning x any s → ∃ s', GpiodV2Gpio_delete s = (Ok (), s') ∧ (sys s').2 ≡ₚ x.
Proof.
  intros Hs. pose proof (hoare_releaseLines x (λ _, False) s Hs) as Hr.
  unfold GpiodV2Gpio_delete, mbind, Method_bind. destruct (releaseLines s) as [[[]|e] s1]; [|by destruct Hr].
  destruct (close_chip_ok x s1 Hr) as (y & -> & Hy). unfold value_delete.
  destruct (vio_delete_owns (valueIo_ (object s1)) y x Hy) as (y' & E & Hy').
  cbn. rewrite E. by eexists.
Qed.

(** ** Any use of an object *)

Inductive Call :=
  | CInitialize
  | CConfigureInput (bcmGpio : Z) | CConfigureOutput (bcmGpio : Z) (v : GpioValue)
  | CRead (bcmGpio : Z) | CWrite (bcmGpio : Z) (v : GpioValue).

(** What a call may return: a flag, a value, or nothing. *)
Definition run_call (c : Call) : G V L (option (bool + GpioValue)) :=
  match c with
  | CInitialize => ok ← initialize; mret (Some (inl ok))
  | CConfigureInput pin => configureInput pin;; mret None
  | CConfigureOutput pin v => configureOutput pin v;; mret None
  | CRead pin => v ← gpiod_read pin; mret (Some (inr v))
  | CWrite pin v => gpiod_write pin v;; mret None
  end.

(** The caller goes on after an exception. *)
Fixpoint run_calls (cs : list Call) s :
    list (res (option (bool + GpioValue))) * Env (GpiodV2Gpio V) L :=
  match cs with
  | [] => ([], s)
  | c :: cs =>
      let '(r, s) := run_call c s in
      let '(rs, s) := run_calls cs s in (r :: rs, s)
  end.

Lemma hoare_run_call x c : keeps x (run_call c).
Proof.
  destruct c; cbn [run_call];
    (eapply hoare_bind; [|intros a; apply hoare_ret; intros s Hs; exact Hs]);
    [|apply hoare_configure|apply hoare_configure|apply hoare_gpiod_read|apply hoare_gpiod_write].
  eapply hoare_conseq; [apply hoare_initialize|done| |done]. intros ok s. apply owning_mono. by intros ? [].
Qed.

Lemma run_calls_owning x cs s :
  owning x any s →
  owning x any (run_calls cs s).2 ∧ ∀ e, Throw e ∈ (run_calls cs s).1 → what_of e ≠ None.
Proof.
  revert s. induction cs as [|c cs IH]; intros s Hs; cbn [run_calls].
  { split; [done|]. intros e He. by apply elem_of_nil in He. }
  pose proof (hoare_run_call x c s Hs) as Ht. destruct (run_call c s) as [r s1].
  destruct (IH s1) as [Hs2 He2]; [by destruct r as [|e]; [|destruct Ht]|].
  destruct (run_calls cs s1) as [rs s2]. split; [done|].
  intros e [<-|He]%elem_of_cons; [by destruct Ht|by apply He2].
Qed.

(** C34: Whatever the library, the kernel and the value path answer, and
    whatever the caller asks in whatever order, going on after exceptions, the
    object never releases what it does not hold and every exception is one of
    its own; at any time it holds the chip it found, one request for each
    configured line and what the value path holds, and nothing else: every
    candidate chip, every information, settings, configuration and path list
    taken on the way was given back, on the error paths too; a start that fails
    then leaves neither chip nor line, and the destructor gives back all the
    rest. *)
Theorem gpiod_resources (valueIo : V) (y : Sys L) x o cs :
  y.2 ≡ₚ x ++ vio_owns valueIo →
  GpiodV2Gpio_new (Some valueIo) = Ok o →
  let '(rs, s) := run_calls cs (mkEnv o y []) in
  (∀ e, Throw e ∈ rs → what_of e ≠ None) ∧
  (sys s).2 ≡ₚ x ++ chip_handle (chip_ (object s)) ++ request_handles (lines_ (object s))
                 ++ vio_owns (valueIo_ (object s)) ∧
  (let '(r, s) := initialize s in
   r = Ok true ∨ r = Ok false ∧ (sys s).2 ≡ₚ x ++ vio_owns (valueIo_ (object s))) ∧
  ∃ s', GpiodV2Gpio_delete s = (Ok (), s') ∧ (sys s').2 ≡ₚ x.
Proof.
  intros Hy [= <-].
  destruct (run_calls_owning x cs (mkEnv (mkGpiod None EmptyString 0 [] valueIo) y [])) as [Hs He].
  { split; [done|constructor]. }
  destruct (run_calls cs _) as [rs s]. split_and!; [exact He|by destruct Hs| |by apply delete_releases].
  pose proof (hoare_initialize x (λ _, False) s Hs) as Hi.
  destruct (initialize s) as [[[]|e] s1]; [by left| |by destruct Hi].
  right. destruct Hi as (Hh & _ & Hc). destruct (Hc eq_refl) as [Hc1 Hl1].
  split; [done|]. rewrite Hh. unfold owes, gpiod_owner. by rewrite Hc1, Hl1.
Qed.
End resources.

(** ** A board *)

(** Two chips, of which the second is the right one; handles are numbered, the
    levels of the lines are the second number; the mapping fails the first
    time, and the direction of line 27 cannot be set. *)
Module Board.
Definition lib : Type := Z * Z * bool.

Definition next {A} (f : Z → A) (l : lib) : A * lib :=
  let '(n, levels, mapped) := l in (f n, (n + 1, levels, mapped)).

#[export] Instance kernel : Kernel lib := {|
  strerror e := "error " +:+ print_int e;
  errno _ := EIO;
  clear_errno l := l;
  lib_release _ l := l;
  glob _ l := ((0, ["/dev/gpiochip0"; "/dev/gpiochip1"]), l);
  file_open _ := next id;
|}.

#[export] Instance libgpiod : Libgpiod lib := {|
  libgpiod_kernel := kernel;
  chip_open path l := next (λ n, Some (if decide (path = "/dev/gpiochip0") then 0 else n)) l;
  chip_get_info c l :=
    next (λ n, Some (n, Some (if c =? 0 then "raspberrypi-exp-gpio" else expectedChipLabel), 54)) l;
  chip_get_line_info _ offset l := next (λ n, Some (n, Some ("GPIO" +:+ print_int offset))) l;
  line_settings_new := next Some;
  line_config_new := next Some;
  request_config_new := next Some;
  line_settings_set_direction _ _ l := (0, l);
  line_settings_set_output_value _ _ l := (0, l);
  line_config_add_line_settings _ offset _ l := (if offset =? 27 then -1 else 0, l);
  request_config_set_consumer _ _ l := l;
  chip_request_lines _ _ _ := next Some;
  line_request_get_value _ _ l := (VALUE_INACTIVE, l);
  line_request_set_value _ _ _ l := (0, l);
  file_mmap _ _ l := let '(n, levels, mapped) := l in (mapped, (n, levels, true));
  registers_level l := (l.1.2, l);
  registers_store store l := let '(n, levels, mapped) := l in (n, Bcm2835.hw_store levels store, mapped);
|}.

(** Nothing works before the start; the first start fails on the mapping, the
    second succeeds; line 17 is claimed twice. *)
Definition calls : list Call :=
  [CRead 17; CInitialize; CInitialize; CConfigureOutput 17 high; CConfigureInput 4;
   CConfigureInput 17; CWrite 4 high; CConfigureOutput 17 low; CWrite 17 high; CRead 4;
   CConfigureOutput 27 low; CConfigureInput 99].

Definition start : Env (GpiodV2Gpio Mmap.Bcm2835MmapValueIo) lib :=
  mkEnv (mkGpiod None EmptyString 0 [] Mmap.new) ((1, 2 ^ 4, false), [FileDescriptor 0]) [].

Lemma gpiod_resources_witness :
  (λ r, match r with Ok v => Some v | Throw _ => None end) <$> (run_calls calls start).1 =
    [None; Some (Some (inl false)); Some (Some (inl true)); Some None; Some None;
     Some None; None; Some None; Some None; Some (Some (inr high)); None; None] ∧
  length (sys (run_calls calls start).2).2 = 6%nat ∧
  ∃ s', GpiodV2Gpio_delete (run_calls calls start).2 = (Ok (), s') ∧ (sys s').2 ≡ₚ [FileDescriptor 0].
Proof.
  split; [vm_compute; reflexivity|]. split; [vm_compute; reflexivity|].
  pose proof (gpiod_resources (L := lib) Mmap.new ((1, 2 ^ 4, false), [FileDescriptor 0]) [FileDescriptor 0]
    (mkGpiod None EmptyString 0 [] Mmap.new) calls (Permutation_refl _) eq_refl) as Hr.
  change (mkEnv _ _ _) with start in Hr. destruct (run_calls calls start) as [rs s]. destruct Hr as (_ & _ & _ & Hd). exact Hd.
Defined.
End Board.
