(* ===== verification/WiringPi.v ===== *)
(** * GPIO through wiringPi, and the choice of a backend: src/src/gpio/wiringPiGpio.cpp,
      src/src/gpio/gpiodMmapFactory.cpp, src/src/gpio/gpiodV2Factory.cpp

    The backend that hands every method on to wiringPi and has no state of its
    own, and the two factories of the gpiod backend; a build links one of the
    three definitions of [createGpio]. The library is the
    interface [WiringPi]: what a call returns and what it does to the library's
    state [P] is up to it. *)
From S2P Require Import Prelude StdMap CLib Gpio System Gpiod.

(** ** The library *)

(** The constants are those of wiringPi.h. *)
Definition INPUT : Z := 0.
Definition OUTPUT : Z := 1.
Definition LOW : Z := 0.
Definition HIGH : Z := 1.

Class WiringPi (P : Type) := {
  wiringPiSetupGpio : P → Z * P;
  pinMode : Z → Z → P → P;
  digitalWrite : Z → Z → P → P;
  digitalRead : Z → P → Z * P;
  delay : Z → P → P;
}.

(** ** [class WiringPiGpio] *)

Module WiringPiGpio.
Section wiringpi.
Context {P : Type} `{WiringPi P}.

Definition level (v : GpioValue) : Z := match v with high => HIGH | low => LOW end.

Definition initialize (p : P) : bool * P :=
  let '(r, p) := wiringPiSetupGpio p in (r =? 0, p).

Definition configureInput (bcmGpio : Z) (p : P) : P := pinMode bcmGpio INPUT p.

Definition configureOutput (bcmGpio : Z) (initialValue : GpioValue) (p : P) : P :=
  digitalWrite bcmGpio (level initialValue) (pinMode bcmGpio OUTPUT p).

Definition read (bcmGpio : Z) (p : P) : GpioValue * P :=
  let '(r, p) := digitalRead bcmGpio p in (if r =? HIGH then high else low, p).

Definition write (bcmGpio : Z) (value : GpioValue) (p : P) : P :=
  digitalWrite bcmGpio (level value) p.

Definition delayMilliseconds (duration : Z) (p : P) : P := delay duration p.

(** [Gpio::acquireBurst], which this backend does not override. *)
Definition acquireBurst (bcmGpios : list Z) (p : P) : bool := false.

#[export] Instance device : GpioDevice P := {|
  gpio_configureInput bcmGpio p := Ok (configureInput bcmGpio p);
  gpio_configureOutput bcmGpio v p := Ok (configureOutput bcmGpio v p);
  gpio_read bcmGpio p := Ok (read bcmGpio p);
  gpio_write bcmGpio v p := Ok (write bcmGpio v p);
  gpio_delayMilliseconds ms p := Ok (delayMilliseconds ms p);
|}.

(** Nothing a driver does to this backend throws. *)
Lemma run_ops_ok ops (p : P) : ∃ p', run_ops ops p = Ok p'.
Proof.
  revert p. induction ops as [|op ops IH]; intros p; simpl; [by eexists|].
  unfold run_op. destruct (Gpio.kind op); simpl; apply IH.
Qed.
End wiringpi.

(** *** The calls a trace becomes *)

Inductive Call :=
  | PinMode (bcmGpio mode : Z)
  | DigitalWrite (bcmGpio value : Z)
  | DigitalRead (bcmGpio : Z)
  | Delay (duration : Z).

(** A wiringPi that writes its calls down, last one first, on top of another. *)
#[local] Instance recording {P} `{WiringPi P} : WiringPi (P * list Call) := {|
  wiringPiSetupGpio s := let '(r, p) := wiringPiSetupGpio s.1 in (r, (p, s.2));
  pinMode b m s := (pinMode b m s.1, PinMode b m :: s.2);
  digitalWrite b v s := (digitalWrite b v s.1, DigitalWrite b v :: s.2);
  digitalRead b s := let '(r, p) := digitalRead b s.1 in (r, (p, DigitalRead b :: s.2));
  delay d s := (delay d s.1, Delay d :: s.2);
|}.

Definition calls_of (op : GpioOperation) : list Call :=
  match Gpio.kind op with
  | Gpio.initialize => []
  | Gpio.configureInput => [PinMode (bcmGpio op) INPUT]
  | Gpio.configureOutput => [PinMode (bcmGpio op) OUTPUT; DigitalWrite (bcmGpio op) (level (value op))]
  | Gpio.read => [DigitalRead (bcmGpio op)]
  | Gpio.write => [DigitalWrite (bcmGpio op) (level (value op))]
  | Gpio.delayMilliseconds => [Delay (duration op)]
  end.

(** Every operation is one call, but for an output: it is an output before its
    initial value is set, where the gpiod backend claims the line with it. *)
Lemma run_ops_calls {P} `{WiringPi P} ops (p : P) cs :
  ∃ p', run_ops ops (p, cs) = Ok (p', reverse (concat (map calls_of ops)) ++ cs).
Proof.
  revert p cs. induction ops as [|op ops IH]; intros p cs; simpl; [by exists p|].
  assert (∃ p', run_op op (p, cs) = Ok (p', reverse (calls_of op) ++ cs)) as (p1 & ->).
  { unfold run_op, calls_of. destruct (Gpio.kind op); simpl; try (eexists; reflexivity).
    unfold read. simpl. destruct (digitalRead (bcmGpio op) p) as [r p']. simpl. by exists p'. }
  simpl. destruct (IH p1 (reverse (calls_of op) ++ cs)) as (p2 & ->).
  exists p2. by rewrite reverse_app, (assoc (++)).
Qed.
End WiringPiGpio.

(** ** [createGpio] *)

Definition createLibgpiodValueIo : Ioctl.LibgpiodValueIo := Ioctl.mkIoctl.
Definition createBcm2835MmapValueIo : Mmap.Bcm2835MmapValueIo := Mmap.new.

(** The factory of gpiodMmapFactory.cpp and that of gpiodV2Factory.cpp. *)
Definition createGpio_mmap : res (GpiodV2Gpio _) := GpiodV2Gpio_new (Some createBcm2835MmapValueIo).
Definition createGpio_v2 : res (GpiodV2Gpio _) := GpiodV2Gpio_new (Some createLibgpiodValueIo).

(** Neither throws: a backend they make has its value path. *)
Lemma createGpio_gpiod : is_ok createGpio_mmap = true ∧ is_ok createGpio_v2 = true.
Proof. done. Qed.
