(* ===== verification/Lpd8806.v ===== *)
(** * The LED strip driver: src/lpd8806/LPD8806.cpp

    The strip is driven either by toggling a data and a clock pin or by the
    kernel's SPI device; what leaves the driver is a list of [bus_event]s. The
    pixel buffer is a [malloc]ed block and its life cycle is part of the state. *)
From S2P Require Import Prelude CLib Gpio.

(** The [pixels] pointer: null, a live block, or a block already freed. *)
Inductive block :=
  | Null
  | Live (bytes : list Z)
  | Freed.

(** What the driver sends: a GPIO call, or one [SpiOutput::transfer]. *)
Inductive bus_event :=
  | Pin (op : GpioOperation)
  | Spi (payload : list Z).

Record LPD8806 := mkLPD8806 {
  spiOutput : bool;            (* spiOutput != NULL *)
  numLEDs : Z;
  largestChangedLed : Z;
  pixels : block;
  clkpin : Z;
  datapin : Z;
  begun : bool;
}.

Definition BYTES_PER_LED : Z := 3.

(** [LPD8806::Color] *)
Definition Color (r g b : Z) : Z :=
  Z.lor (Z.lor (Z.lor (Z.shiftl (Z.lor g 0x80) 16) (Z.shiftl (Z.lor r 0x80) 8)) b) 0x80.

Definition nullColor : Z := Color 0 0 0.

Definition live_bytes (p : block) : list Z :=
  match p with Live l => l | _ => [] end.

(** [if (pixels) free(pixels);] *)
Definition free_pixels (p : block) : res block :=
  match p with
  | Null => Ok Null
  | Live _ => Ok Freed
  | Freed => Throw (Undefined "double free of pixels")
  end.

(** [updateLength(n)]; [alloc] tells whether malloc succeeds. *)
Definition updateLength (alloc : bool) (n : Z) (s : LPD8806) : res LPD8806 :=
  p ← free_pixels (pixels s);
  let dataBytes := n * BYTES_PER_LED in
  if 0 <? n then
    if alloc then
      Ok (mkLPD8806 (spiOutput s) n (n - 1) (Live (replicate (Z.to_nat dataBytes) 0x80))
            (clkpin s) (datapin s) (begun s))
    else
      Ok (mkLPD8806 (spiOutput s) 0 0 Null (clkpin s) (datapin s) (begun s))
  else
    Ok (mkLPD8806 (spiOutput s) 0 0 p (clkpin s) (datapin s) (begun s)).

(** [_bitBangLatchSignal]: data low, then one clock pulse per latch bit. *)
Definition clock_pulse (s : LPD8806) : list GpioOperation :=
  [op_write (clkpin s) high; op_write (clkpin s) low].

Definition latch_pulses (s : LPD8806) : Z := u16 ((numLEDs s + 31) / 32 * 8).

Definition _bitBangLatchSignal (s : LPD8806) : list GpioOperation :=
  op_write (datapin s) low ::
  concat (replicate (Z.to_nat (latch_pulses s)) (clock_pulse s)).

Definition startBitbang (s : LPD8806) : list GpioOperation :=
  [op_configureOutput (datapin s) low; op_configureOutput (clkpin s) low]
  ++ _bitBangLatchSignal s.

Definition latchByteCount (s : LPD8806) : Z := (numLEDs s + 31) / 32.

(** [transferSpiLatch]: nothing is sent for an empty latch. *)
Definition transferSpiLatch (s : LPD8806) : list bus_event :=
  let latch := replicate (Z.to_nat (latchByteCount s)) 0 in
  match latch with [] => [] | _ => [Spi latch] end.

Definition begin (s : LPD8806) : list bus_event * LPD8806 :=
  let out := if spiOutput s then transferSpiLatch s else Pin <$> startBitbang s in
  (out, mkLPD8806 (spiOutput s) (numLEDs s) (largestChangedLed s) (pixels s)
          (clkpin s) (datapin s) true).

Definition updatePins (dpin cpin : Z) (s : LPD8806) : res (list GpioOperation * LPD8806) :=
  if spiOutput s then
    Throw (LogicError "LPD8806 SPI output has no configurable GPIO pins")
  else
    let release := if begun s
      then [op_configureInput (datapin s); op_configureInput (clkpin s)] else [] in
    let s' := mkLPD8806 (spiOutput s) (numLEDs s) (largestChangedLed s) (pixels s)
                cpin dpin (begun s) in
    Ok (release ++ (if begun s then startBitbang s' else []), s').

(** The two constructors. *)
Definition blank_strip (spi : bool) : LPD8806 := mkLPD8806 spi 0 0 Null 0 0 false.

Definition new_bitbang (alloc : bool) (n dpin cpin : Z) : res (list GpioOperation * LPD8806) :=
  s ← updateLength alloc n (blank_strip false); updatePins dpin cpin s.

Definition new_spi (alloc : bool) (n : Z) : res LPD8806 :=
  updateLength alloc n (blank_strip true).

Definition destroy (s : LPD8806) : res LPD8806 := updateLength true 0 s.

Definition numPixels (s : LPD8806) : Z := numLEDs s.

Definition set_pixels (p : block) (largest : Z) (s : LPD8806) : LPD8806 :=
  mkLPD8806 (spiOutput s) (numLEDs s) largest p (clkpin s) (datapin s) (begun s).

(** [pixels[n*3 .. n*3+2] = x, y, z] and the cached largest index. *)
Definition store_pixel (n x y z : Z) (s : LPD8806) : LPD8806 :=
  if n <? numLEDs s then
    let i := Z.to_nat (n * BYTES_PER_LED) in
    let l := live_bytes (pixels s) in
    set_pixels (Live (<[S (S i) := z]> (<[S i := y]> (<[i := x]> l))))
      (if largestChangedLed s <? n then n else largestChangedLed s) s
  else s.

(** [setPixelColor(n, r, g, b)]: stored in the order green, red, blue. *)
Definition setPixelRGB (n r g b : Z) (s : LPD8806) : LPD8806 :=
  store_pixel n (Z.lor g 0x80) (Z.lor r 0x80) (Z.lor b 0x80) s.

(** [setPixelColor(n, c)] with a packed color; n is an Int16U. *)
Definition setPixelColor (n c : Z) (s : LPD8806) : LPD8806 :=
  store_pixel n (u8 (Z.lor (Z.shiftr c 16) 0x80)) (u8 (Z.lor (Z.shiftr c 8) 0x80))
    (u8 (Z.lor c 0x80)) s.

Definition clearPixelColors (s : LPD8806) : LPD8806 :=
  let nothing := match pixels s with Null => true | _ => false end in
  if (numLEDs s =? 0) || nothing then set_pixels (pixels s) 0 s
  else set_pixels (Live (replicate (Z.to_nat (numLEDs s * BYTES_PER_LED)) 0x80))
         (numLEDs s - 1) s.

Definition pixel_byte (s : LPD8806) (i : Z) : Z :=
  default 0 (live_bytes (pixels s) !! Z.to_nat i).

(** [getPixelColor(n)]: the offset is an Int16U. *)
Definition getPixelColor (n : Z) (s : LPD8806) : Z :=
  if n <? numLEDs s then
    let ofs := u16 (n * BYTES_PER_LED) in
    Z.lor (Z.lor (Z.shiftl (Z.land (pixel_byte s ofs) 0x7f) 16)
                 (Z.shiftl (Z.land (pixel_byte s (ofs + 1)) 0x7f) 8))
          (Z.land (pixel_byte s (ofs + 2)) 0x7f)
  else 0.

(** [getPixelColor(n, r, g, b)]: (r, g, b). *)
Definition getPixelRGB (n : Z) (s : LPD8806) : Z * Z * Z :=
  if n <? numLEDs s then
    let i := n * BYTES_PER_LED in
    (Z.land (pixel_byte s (i + 1)) 0x7f, Z.land (pixel_byte s i) 0x7f,
     Z.land (pixel_byte s (i + 2)) 0x7f)
  else (0, 0, 0).

(** One bit of [show]: the data pin is written only when it changes. *)
Definition show_bit (s : LPD8806) (bit : bool) (st : Z * list GpioOperation)
    : Z * list GpioOperation :=
  let '(currDatapinValue, out) := st in
  let '(curr, w) :=
    if bit then
      if currDatapinValue =? 1 then (currDatapinValue, [])
      else (1, [op_write (datapin s) high])
    else
      if currDatapinValue =? 0 then (currDatapinValue, [])
      else (0, [op_write (datapin s) low]) in
  (curr, out ++ w ++ clock_pulse s).

Definition show_byte (s : LPD8806) (p : Z) (st : Z * list GpioOperation)
    : Z * list GpioOperation :=
  foldl (λ st b, show_bit s b st) st (bits_msb 8 p).

(** [show] *)
Definition show (s : LPD8806) : list bus_event * LPD8806 :=
  if numLEDs s =? 0 then ([], s)
  else if spiOutput s then
    let dataBytes := numPixels s * BYTES_PER_LED in
    let frame := take (Z.to_nat dataBytes) (live_bytes (pixels s)) in
    ([Spi (frame ++ replicate (Z.to_nat (latchByteCount s)) 0)], set_pixels (pixels s) 0 s)
  else
    let i := u16 (numPixels s * BYTES_PER_LED) in
    let bytes := take (Z.to_nat i) (live_bytes (pixels s)) in
    let out := (foldl (λ st p, show_byte s p st) (-1, []) bytes).2 in
    (Pin <$> (out ++ _bitBangLatchSignal s), set_pixels (pixels s) 0 s).

Definition delayMilliseconds (ms : Z) : list GpioOperation := [op_delay ms].

(** ** Well-formed strips *)

(** The buffer holds three bytes per LED, each with its top bit set. *)
Definition wf (s : LPD8806) : Prop :=
  0 <= numLEDs s < 65536 ∧
  length (live_bytes (pixels s)) = Z.to_nat (numLEDs s * BYTES_PER_LED) ∧
  Forall (λ b, 0x80 <= b < 0x100) (live_bytes (pixels s)) ∧
  (pixels s = Null → numLEDs s = 0) ∧
  0 <= largestChangedLed s <= numLEDs s.

Lemma lor_top_range x : 0 <= x < 0x100 → 0x80 <= Z.lor x 0x80 < 0x100.
Proof.
  intros Hx. pose proof (lor_range x 0x80 8 ltac:(lia) Hx ltac:(lia)) as Hr. split; [|lia].
  assert (Z.testbit (Z.lor x 0x80) 7 = true) as Ht.
  { rewrite Z.lor_spec. by rewrite orb_true_r. }
  destruct (decide (Z.lor x 0x80 < 2 ^ 7)); [|lia].
  rewrite (testbit_small _ 7) in Ht by lia. done.
Qed.

Lemma lor_top_low x : Z.land (Z.lor x 0x80) 0x7f = Z.land x 0x7f.
Proof.
  rewrite Z.land_lor_distr_l. change (Z.land 0x80 0x7f) with 0. apply Z.lor_0_r.
Qed.

Lemma store_pixel_wf n x y z s :
  wf s → 0 <= n → 0x80 <= x < 0x100 → 0x80 <= y < 0x100 → 0x80 <= z < 0x100 →
  wf (store_pixel n x y z s).
Proof.
  intros (Hn & Hl & Hf & Hz & Hg) H0 Hx Hy Hz'. unfold store_pixel.
  destruct (Z.ltb_spec n (numLEDs s)); [|done]. split_and!; simpl; try done.
  - lia.
  - lia.
  - by rewrite !length_insert.
  - auto using Forall_insert.
  - destruct (Z.ltb_spec (largestChangedLed s) n); lia.
  - destruct (Z.ltb_spec (largestChangedLed s) n); lia.
Qed.

Lemma replicate_off_wf m :
  Forall (λ b, 0x80 <= b < 0x100) (replicate m 0x80).
Proof. apply Forall_replicate. lia. Qed.

Lemma u8_lor_top c k : 0x80 <= u8 (Z.lor (Z.shiftr c k) 0x80) < 0x100.
Proof.
  assert (u8 (Z.lor (Z.shiftr c k) 0x80) = Z.lor (u8 (Z.shiftr c k)) 0x80) as ->.
  { unfold u8. rewrite <-!Z.land_ones by lia. by rewrite Z.land_lor_distr_l. }
  apply lor_top_range, u8_range.
Qed.

Lemma updateLength_wf alloc n s s' :
  0 <= n < 65536 → updateLength alloc n s = Ok s' → wf s'.
Proof.
  intros Hn. unfold updateLength.
  destruct (free_pixels (pixels s)) as [p|e] eqn:Hp; simpl; [|done].
  assert (live_bytes p = [] ∧ (p = Null ∨ p = Freed)) as [Hl Hd].
  { destruct (pixels s); simplify_eq/=; auto. }
  destruct (Z.ltb_spec 0 n); [destruct alloc|]; intros [= <-]; split_and!; simpl; try lia.
  - by rewrite length_replicate.
  - apply replicate_off_wf.
  - done.
  - constructor.
  - by rewrite Hl.
  - rewrite Hl. constructor.
Qed.

Lemma wf_pixels_irrel s s' :
  numLEDs s' = numLEDs s → pixels s' = pixels s →
  0 <= largestChangedLed s' <= numLEDs s → wf s → wf s'.
Proof. unfold wf. intros -> -> ? (? & ? & ? & ? & ?). split_and!; tauto || lia. Qed.

Lemma clearPixelColors_wf s : wf s → wf (clearPixelColors s).
Proof.
  intros Hwf. pose proof Hwf as (Hn & Hl & Hf & Hz & Hg). unfold clearPixelColors.
  destruct (_ || _) eqn:E; [apply (wf_pixels_irrel s); simpl; done || lia|].
  apply orb_false_iff in E as [E1%Z.eqb_neq E2].
  split_and!; simpl; try lia; [by rewrite length_replicate|apply replicate_off_wf|done].
Qed.

(** ** The public operations as one transition function *)
Inductive strip_op :=
  | OUpdateLength (alloc : bool) (n : Z)
  | OUpdatePins (dpin cpin : Z)
  | OBegin
  | OSetPixelRGB (n r g b : Z)
  | OSetPixelColor (n c : Z)
  | OClearPixelColors
  | OShow.

Definition step (op : strip_op) (s : LPD8806) : res (list bus_event * LPD8806) :=
  match op with
  | OUpdateLength alloc n => let! s' := updateLength alloc n s in Ok ([], s')
  | OUpdatePins dpin cpin =>
      let! (ops, s') := updatePins dpin cpin s in Ok (Pin <$> ops, s')
  | OBegin => Ok (begin s)
  | OSetPixelRGB n r g b => Ok ([], setPixelRGB n r g b s)
  | OSetPixelColor n c => Ok ([], setPixelColor n c s)
  | OClearPixelColors => Ok ([], clearPixelColors s)
  | OShow => Ok (show s)
  end.

(** The arguments have their C types, and the strip is never emptied. *)
Definition op_ok (op : strip_op) : Prop :=
  match op with
  | OUpdateLength _ n => 0 < n < 65536
  | OSetPixelRGB n r g b => 0 <= n ∧ 0 <= r < 0x100 ∧ 0 <= g < 0x100 ∧ 0 <= b < 0x100
  | OSetPixelColor n _ => 0 <= n
  | _ => True
  end.

Inductive reachable : LPD8806 → Prop :=
  | reach_bitbang alloc n dpin cpin ops s :
      0 <= n < 65536 → new_bitbang alloc n dpin cpin = Ok (ops, s) → reachable s
  | reach_spi alloc n s : 0 <= n < 65536 → new_spi alloc n = Ok s → reachable s
  | reach_step op s out s' :
      reachable s → op_ok op → step op s = Ok (out, s') → reachable s'.

Definition no_dangling (s : LPD8806) : Prop := pixels s ≠ Freed.

Lemma updateLength_no_dangling alloc n s s' :
  no_dangling s → 0 < n ∨ pixels s = Null → updateLength alloc n s = Ok s' → no_dangling s'.
Proof.
  unfold no_dangling, updateLength. intros Hd Hn.
  destruct (pixels s); simpl; try done; repeat case_match; intros; simplify_eq/=; try done.
  destruct Hn; [|done]. lia.
Qed.

Lemma updatePins_inv dpin cpin s out s' :
  updatePins dpin cpin s = Ok (out, s') →
  numLEDs s' = numLEDs s ∧ pixels s' = pixels s ∧ largestChangedLed s' = largestChangedLed s.
Proof. unfold updatePins. destruct (spiOutput s); naive_solver. Qed.

Lemma step_inv op s out s' :
  wf s → no_dangling s → op_ok op → step op s = Ok (out, s') → wf s' ∧ no_dangling s'.
Proof.
  intros Hwf Hd Hop Hs. pose proof Hwf as (Hn & Hl & Hf & Hz & Hg).
  destruct op as [alloc n|d c| |n r g b|n c| |]; simpl in *.
  - destruct (updateLength alloc n s) as [s1|] eqn:E; simplify_eq/=.
    split; [by apply updateLength_wf in E; [|lia]|].
    apply updateLength_no_dangling in E; tauto.
  - destruct (updatePins d c s) as [[o s1]|] eqn:E; simplify_eq/=.
    apply updatePins_inv in E as (E1 & E2 & E3). split; [|unfold no_dangling; by rewrite E2].
    apply (wf_pixels_irrel s); congruence || lia.
  - simplify_eq/=. split; [|done]. by apply (wf_pixels_irrel s).
  - simplify_eq/=. destruct Hop as (? & ? & ? & ?). split.
    + apply store_pixel_wf; try done; by apply lor_top_range.
    + unfold setPixelRGB, store_pixel, no_dangling. by case_match.
  - simplify_eq/=. split.
    + apply store_pixel_wf; try done; [apply u8_lor_top..|].
      rewrite <-(Z.shiftr_0_r c). apply u8_lor_top.
    + unfold setPixelColor, store_pixel, no_dangling. by case_match.
  - simplify_eq/=. split; [by apply clearPixelColors_wf|].
    unfold clearPixelColors, no_dangling. by case_match.
  - assert (s' = s ∨ s' = set_pixels (pixels s) 0 s) as [->| ->].
    { revert Hs. unfold show. repeat case_match; intros; simplify_eq/=; auto. }
    + done.
    + split; [|done]. apply (wf_pixels_irrel s); simpl; done || lia.
Qed.

Lemma reachable_inv s : reachable s → wf s ∧ no_dangling s.
Proof.
  induction 1 as [alloc n d c ops s Hn H|alloc n s Hn H|op s out s' _ [? ?] ? ?];
    [| |by eapply step_inv].
  - unfold new_bitbang in H. destruct (updateLength _ _ _) as [s1|] eqn:E; simplify_eq/=.
    pose proof (updateLength_wf _ _ _ _ Hn E) as Hwf. pose proof Hwf as (_ & _ & _ & _ & ?).
    apply updateLength_no_dangling in E; [|done|by right].
    apply updatePins_inv in H as (E1 & E2 & E3).
    split; [apply (wf_pixels_irrel s1); congruence || lia|unfold no_dangling; by rewrite E2].
  - split; [by eapply updateLength_wf|]. unfold new_spi in H.
    apply updateLength_no_dangling in H; [done|done|by right].
Qed.

(** ** Reading back *)

Lemma live_store s n x y z l i :
  pixels (store_pixel n x y z s) = Live l → n < numLEDs s →
  l !! i = <[S (S (Z.to_nat (n * 3))) := z]> (<[S (Z.to_nat (n * 3)) := y]>
            (<[Z.to_nat (n * 3) := x]> (live_bytes (pixels s)))) !! i.
Proof.
  unfold store_pixel. destruct (Z.ltb_spec n (numLEDs s)); [|lia]. by intros [= <-].
Qed.

(** The three bytes of pixel [k] after pixel [n] was stored. *)
Lemma pixel_byte_store s n x y z k j :
  wf s → 0 <= n < numLEDs s → 0 <= k < numLEDs s → 0 <= j < 3 →
  pixel_byte (store_pixel n x y z s) (k * 3 + j) =
  if decide (k = n) then (if j =? 0 then x else if j =? 1 then y else z)
  else pixel_byte s (k * 3 + j).
Proof.
  intros (Hb & Hl & _) Hn Hk Hj. unfold pixel_byte, store_pixel, BYTES_PER_LED in *.
  destruct (Z.ltb_spec n (numLEDs s)); [|lia]. simpl.
  assert (Hlt : (S (S (Z.to_nat (n * 3))) < length (live_bytes (pixels s)))%nat) by lia.
  case_decide as E.
  - subst k. assert (j = 0 ∨ j = 1 ∨ j = 2) as [->|[->| ->]] by lia; simpl.
    + rewrite list_lookup_insert_ne, list_lookup_insert_ne by lia.
      replace (Z.to_nat (n * 3 + 0)) with (Z.to_nat (n * 3)) by lia.
      by rewrite list_lookup_insert_eq by lia.
    + rewrite list_lookup_insert_ne by lia.
      replace (Z.to_nat (n * 3 + 1)) with (S (Z.to_nat (n * 3))) by lia.
      by rewrite list_lookup_insert_eq by (rewrite length_insert; lia).
    + replace (Z.to_nat (n * 3 + 2)) with (S (S (Z.to_nat (n * 3)))) by lia.
      by rewrite list_lookup_insert_eq by (rewrite !length_insert; lia).
  - by rewrite !list_lookup_insert_ne by lia.
Qed.

Lemma store_pixel_numLEDs n x y z s : numLEDs (store_pixel n x y z s) = numLEDs s.
Proof. unfold store_pixel. by destruct (n <? numLEDs s). Qed.

(** The triple a pixel reads back as, in the buffer's order. *)
Definition pixel_at (s : LPD8806) (k : Z) : Z * Z * Z :=
  (Z.land (pixel_byte s (k * 3)) 0x7f, Z.land (pixel_byte s (k * 3 + 1)) 0x7f,
   Z.land (pixel_byte s (k * 3 + 2)) 0x7f).

Lemma pixel_at_store s n x y z k :
  wf s → 0 <= n < numLEDs s → 0 <= k < numLEDs s →
  pixel_at (store_pixel n x y z s) k =
  if decide (k = n) then (Z.land x 0x7f, Z.land y 0x7f, Z.land z 0x7f) else pixel_at s k.
Proof.
  intros Hwf Hn Hk. unfold pixel_at. rewrite <-(Z.add_0_r (k * 3)) at 1.
  rewrite !pixel_byte_store by (done || lia). rewrite Z.add_0_r. by case_decide.
Qed.

Lemma getPixelRGB_at s k :
  getPixelRGB k s = if k <? numLEDs s then
    let '(g, r, b) := pixel_at s k in (r, g, b) else (0, 0, 0).
Proof. done. Qed.

Lemma getPixelColor_at s k :
  numLEDs s <= 21845 → 0 <= k →
  getPixelColor k s = if k <? numLEDs s then
    let '(g, r, b) := pixel_at s k in
    Z.lor (Z.lor (Z.shiftl g 16) (Z.shiftl r 8)) b else 0.
Proof.
  intros Hn Hk. unfold getPixelColor, BYTES_PER_LED.
  destruct (Z.ltb_spec k (numLEDs s)); [|done]. by rewrite u16_small by lia.
Qed.

(** Repacking the low seven bits of the three bytes of a color. *)
Lemma repack_color c :
  Z.lor (Z.lor (Z.shiftl (Z.land (u8 (Z.lor (Z.shiftr c 16) 0x80)) 0x7f) 16)
               (Z.shiftl (Z.land (u8 (Z.lor (Z.shiftr c 8) 0x80)) 0x7f) 8))
        (Z.land (u8 (Z.lor c 0x80)) 0x7f) = Z.land c 0x7f7f7f.
Proof.
  assert (Hu : ∀ x, Z.land (u8 (Z.lor x 0x80)) 0x7f = Z.land x 0x7f).
  { intros x. unfold u8. rewrite <-Z.land_ones, <-Z.land_assoc by lia.
    change (Z.land (Z.ones 8) 0x7f) with 0x7f. apply lor_top_low. }
  assert (Hs : ∀ m k, 0 <= k →
    Z.shiftl (Z.land (Z.shiftr c k) m) k = Z.land c (Z.shiftl m k)).
  { intros m k Hk. apply Z.bits_inj'. intros i Hi.
    rewrite Z.land_spec, !Z.shiftl_spec, Z.land_spec by lia.
    destruct (Z.ltb_spec i k).
    - by rewrite !(Z.testbit_neg_r _ (i - k)), !andb_false_r by lia.
    - rewrite Z.shiftr_spec by lia. by rewrite Z.sub_add. }
  rewrite !Hu, !Hs, <-!Z.land_lor_distr_r by lia. done.
Qed.

(** ** What the pixels show *)

Lemma getPixelColor_store s n x y z k :
  wf s → numLEDs s <= 21845 → 0 <= n < numLEDs s → 0 <= k →
  getPixelColor k (store_pixel n x y z s) =
  if decide (k = n)
  then Z.lor (Z.lor (Z.shiftl (Z.land x 0x7f) 16) (Z.shiftl (Z.land y 0x7f) 8)) (Z.land z 0x7f)
  else getPixelColor k s.
Proof.
  intros Hwf Hs Hn Hk. rewrite !getPixelColor_at, store_pixel_numLEDs
    by (rewrite ?store_pixel_numLEDs; lia).
  destruct (Z.ltb_spec k (numLEDs s)); [|by rewrite decide_False by lia].
  rewrite pixel_at_store by (done || lia). by case_decide.
Qed.

Lemma getPixelColor_set s n c k :
  wf s → numLEDs s <= 21845 → 0 <= n < numLEDs s → 0 <= k →
  getPixelColor k (setPixelColor n c s) =
  if decide (k = n) then Z.land c 0x7f7f7f else getPixelColor k s.
Proof.
  intros. unfold setPixelColor. rewrite getPixelColor_store by done.
  by rewrite repack_color.
Qed.

Lemma pixel_byte_clear s i :
  wf s → numLEDs s ≠ 0 → 0 <= i < numLEDs s * 3 → pixel_byte (clearPixelColors s) i = 0x80.
Proof.
  intros (_ & _ & _ & Hz & _) H0 Hi. unfold clearPixelColors, pixel_byte, BYTES_PER_LED.
  destruct (Z.eqb_spec (numLEDs s) 0); [done|].
  assert (match pixels s with Null => true | _ => false end = false) as ->.
  { destruct (pixels s); [|done..]. by destruct H0, Hz. }
  cbn. by rewrite lookup_replicate_2 by lia.
Qed.

Lemma clearPixelColors_numLEDs s : numLEDs (clearPixelColors s) = numLEDs s.
Proof. unfold clearPixelColors. by case_match. Qed.

Lemma getPixelColor_clear s k :
  wf s → numLEDs s <= 21845 → 0 <= k → getPixelColor k (clearPixelColors s) = 0.
Proof.
  intros Hwf Hs Hk. rewrite getPixelColor_at, clearPixelColors_numLEDs
    by (rewrite ?clearPixelColors_numLEDs; lia).
  destruct (Z.ltb_spec k (numLEDs s)); [|done].
  unfold pixel_at. by rewrite !pixel_byte_clear by (done || lia).
Qed.

Lemma show_state s : (show s).2 = s ∨ (show s).2 = set_pixels (pixels s) 0 s.
Proof. unfold show. repeat case_match; auto. Qed.

Lemma show_numLEDs s : numLEDs (show s).2 = numLEDs s.
Proof. by destruct (show_state s) as [->| ->]. Qed.

Lemma getPixelColor_show s k : getPixelColor k (show s).2 = getPixelColor k s.
Proof. by destruct (show_state s) as [->| ->]. Qed.

Lemma show_wf s : wf s → wf (show s).2.
Proof.
  intros Hwf. destruct (show_state s) as [->| ->]; [done|].
  pose proof Hwf as (? & _). by apply (wf_pixels_irrel s); [done..|simpl; lia|].
Qed.

Lemma setPixelColor_wf n c s : wf s → 0 <= n → wf (setPixelColor n c s).
Proof.
  intros. apply store_pixel_wf; try done; [apply u8_lor_top..|].
  rewrite <-(Z.shiftr_0_r c). apply u8_lor_top.
Qed.

Lemma setPixelRGB_wf n r g b s :
  wf s → 0 <= n → 0 <= r < 0x100 → 0 <= g < 0x100 → 0 <= b < 0x100 →
  wf (setPixelRGB n r g b s).
Proof. intros. by apply store_pixel_wf; try done; apply lor_top_range. Qed.

Lemma setPixelColor_numLEDs n c s : numLEDs (setPixelColor n c s) = numLEDs s.
Proof. apply store_pixel_numLEDs. Qed.
Lemma setPixelRGB_numLEDs n r g b s : numLEDs (setPixelRGB n r g b s) = numLEDs s.
Proof. apply store_pixel_numLEDs. Qed.

Create HintDb strip.
Create Rewrite HintDb strip_size.
#[export] Hint Resolve clearPixelColors_wf show_wf setPixelColor_wf setPixelRGB_wf : strip.
#[export] Hint Rewrite clearPixelColors_numLEDs show_numLEDs setPixelColor_numLEDs
  setPixelRGB_numLEDs : strip_size.

(** ** The wire *)

Definition pin_ops (evs : list bus_event) : list GpioOperation :=
  omap (λ ev, match ev with Pin op => Some op | Spi _ => None end) evs.

Definition spi_bytes (evs : list bus_event) : list Z :=
  evs ≫= λ ev, match ev with Pin _ => [] | Spi p => p end.

Lemma pin_ops_Pin ops : pin_ops (Pin <$> ops) = ops.
Proof. induction ops as [|op ops IH]; [done|]. by cbn; f_equal. Qed.

(** [spiOutput] apart, the strip itself. *)
Definition with_spi (b : bool) (s : LPD8806) : LPD8806 :=
  mkLPD8806 b (numLEDs s) (largestChangedLed s) (pixels s) (clkpin s) (datapin s) (begun s).

Section wire.
Variables (s : LPD8806) (d0 : GpioValue).
Hypothesis pins_ne : datapin s ≠ clkpin s.

(** The cached level agrees with the level of the data line. *)
Definition level_ok (curr : Z) (d : GpioValue) : Prop :=
  curr = -1 ∨ curr = b2z (is_high d).

Lemma sample_clock_pulse d :
  sample (datapin s) (clkpin s) d (clock_pulse s) = (d, [is_high d]).
Proof. unfold clock_pulse. by rewrite sample_clock_high, sample_clock_low. Qed.

Lemma show_bit_sample b curr out d bits :
  sample (datapin s) (clkpin s) d0 out = (d, bits) → level_ok curr d →
  ∃ d' curr' out', show_bit s b (curr, out) = (curr', out') ∧
    sample (datapin s) (clkpin s) d0 out' = (d', bits ++ [b]) ∧ level_ok curr' d'.
Proof.
  intros Hs Hl. exists (value_of_bool b), (b2z b).
  assert (∀ w, (w = [] ∧ d = value_of_bool b) ∨ w = [op_write (datapin s) (value_of_bool b)] →
    sample (datapin s) (clkpin s) d0 (out ++ w ++ clock_pulse s) =
    (value_of_bool b, bits ++ [b])) as Hw.
  { intros w Hw. rewrite sample_app, Hs. destruct Hw as [[-> ->]| ->]; simpl app.
    - rewrite sample_clock_pulse. by destruct b.
    - rewrite sample_data, sample_clock_pulse by done. by destruct b. }
  unfold show_bit, level_ok in *.
  destruct b; [destruct (Z.eqb_spec curr 1)|destruct (Z.eqb_spec curr 0)];
    eexists; (split; [f_equal; try done; lia|]);
    (split; [apply Hw|right; done]); [left|right|left|right]; try done;
    (split; [done|]); destruct d, Hl; simpl in *; done || lia.
Qed.

Lemma show_byte_sample l curr out d bits :
  sample (datapin s) (clkpin s) d0 out = (d, bits) → level_ok curr d →
  ∃ d' curr' out', foldl (λ st b, show_bit s b st) (curr, out) l = (curr', out') ∧
    sample (datapin s) (clkpin s) d0 out' = (d', bits ++ l) ∧ level_ok curr' d'.
Proof.
  revert curr out d bits. induction l as [|b l IH]; intros curr out d bits Hs Hl.
  - exists d, curr, out. by rewrite app_nil_r.
  - destruct (show_bit_sample b _ _ _ _ Hs Hl) as (d1 & c1 & o1 & E1 & Hs1 & Hl1).
    cbn [foldl]. rewrite E1. destruct (IH _ _ _ _ Hs1 Hl1) as (d2 & c2 & o2 & E2 & Hs2 & ?).
    exists d2, c2, o2. by rewrite <-app_assoc in Hs2.
Qed.

Lemma show_bytes_sample l curr out d bits :
  sample (datapin s) (clkpin s) d0 out = (d, bits) → level_ok curr d →
  ∃ d' curr' out', foldl (λ st p, show_byte s p st) (curr, out) l = (curr', out') ∧
    sample (datapin s) (clkpin s) d0 out' = (d', bits ++ (l ≫= bits_msb 8)).
Proof.
  revert curr out d bits. induction l as [|p l IH]; intros curr out d bits Hs Hl.
  - exists d, curr, out. by rewrite app_nil_r.
  - destruct (show_byte_sample (bits_msb 8 p) _ _ _ _ Hs Hl) as (d1 & c1 & o1 & E1 & Hs1 & Hl1).
    cbn [foldl]. unfold show_byte at 2. rewrite E1.
    destruct (IH _ _ _ _ Hs1 Hl1) as (d2 & c2 & o2 & E2 & Hs2).
    exists d2, c2, o2. split; [done|]. rewrite Hs2. cbn. by rewrite <-app_assoc.
Qed.

Lemma latch_sample d :
  sample (datapin s) (clkpin s) d (_bitBangLatchSignal s) =
  (low, replicate (Z.to_nat (latch_pulses s)) false).
Proof.
  unfold _bitBangLatchSignal. rewrite sample_data by done. by apply sample_pulses.
Qed.
End wire.

Lemma bits_of_zeros n : replicate n 0 ≫= bits_msb 8 = replicate (8 * n) false.
Proof.
  induction n as [|n IH]; [done|]. replace (8 * S n)%nat with (8 + 8 * n)%nat by lia.
  rewrite replicate_add, <-IH. done.
Qed.

(** ** Properties *)

(** C20: the bit-banged strip and the SPI strip show the same thing. For every
    well-formed strip whose bytes fit the driver's 16-bit counter, a receiver
    that samples the data line at the rising edges of the clock reads, from
    whatever level the data line was at, exactly the bits (most significant
    first) of the bytes the SPI backend transfers, latch included. *)
Theorem show_bitbang_is_spi s d0 :
  wf s → numLEDs s * 3 < 65536 → datapin s ≠ clkpin s →
  sampledBits (pin_ops (show (with_spi false s)).1) (datapin s) (clkpin s) d0 =
  (spi_bytes (show (with_spi true s)).1 ≫= bits_msb 8).
Proof.
  intros (Hn & Hl & _) H3 Hne. unfold sampledBits, show. cbn [numLEDs spiOutput with_spi].
  destruct (Z.eqb_spec (numLEDs s) 0); [done|].
  cbn [fst]. rewrite pin_ops_Pin. unfold numPixels. cbn [numLEDs with_spi pixels].
  rewrite u16_small by (unfold BYTES_PER_LED; lia).
  destruct (show_bytes_sample (with_spi false s) d0 Hne
    (take (Z.to_nat (numLEDs s * BYTES_PER_LED)) (live_bytes (pixels s))) (-1) [] d0 [])
    as (d' & c' & out & E & Hs); [done|by left|].
  rewrite E. cbn [snd]. rewrite sample_app.
  cbn [datapin clkpin with_spi] in Hs. rewrite Hs.
  pose proof (latch_sample (with_spi false s) Hne d') as Hla.
  cbn [datapin clkpin with_spi] in Hla. rewrite Hla. cbn [snd].
  cbn [spi_bytes mbind list_bind]. rewrite app_nil_r, bind_app, bits_of_zeros.
  f_equal. f_equal. unfold latch_pulses, latchByteCount. cbn [numLEDs with_spi].
  pose proof (Z.div_lt_upper_bound (numLEDs s + 31) 32 8191 ltac:(lia) ltac:(lia)).
  pose proof (Z.div_pos (numLEDs s + 31) 32). rewrite u16_small by lia. lia.
Qed.

(** pixels read back. After [setPixelColor(n, c)] on a strip whose byte
    offsets fit 16 bits, pixel [n] reads back as [c] with seven bits per color,
    and every other pixel as before; after [setPixelColor(n, r, g, b)] the
    same holds of the three components, on a strip of any length. *)
Theorem pixels_read_back s n k c r g b :
  wf s → 0 <= n < numLEDs s → 0 <= k < numLEDs s →
  (numLEDs s <= 21845 →
    getPixelColor k (setPixelColor n c s) =
    if decide (k = n) then Z.land c 0x7f7f7f else getPixelColor k s) ∧
  getPixelRGB k (setPixelRGB n r g b s) =
  if decide (k = n) then (Z.land r 0x7f, Z.land g 0x7f, Z.land b 0x7f) else getPixelRGB k s.
Proof.
  intros Hwf Hn Hk. split.
  - intros H16. unfold setPixelColor.
    rewrite !getPixelColor_at by (rewrite ?store_pixel_numLEDs; lia).
    rewrite store_pixel_numLEDs, pixel_at_store by done.
    destruct (Z.ltb_spec k (numLEDs s)); [|lia]. case_decide; [|done]. apply repack_color.
  - unfold setPixelRGB. rewrite !getPixelRGB_at, store_pixel_numLEDs, pixel_at_store by done.
    destruct (Z.ltb_spec k (numLEDs s)); [|lia]. case_decide; [|done].
    by rewrite !lor_top_low.
Qed.

(** C39: memory safety of the strip. A strip built by either constructor and
    driven by any sequence of its operations, with arguments of their types and
    never resized to zero, keeps a buffer of three bytes per LED whose top bits
    are all set and a changed-LED cache within the strip; no operation frees
    the buffer twice, and the destructor runs. *)
Theorem strip_safe s op :
  reachable s → op_ok op →
  wf s ∧ is_ok (destroy s) = true ∧
  (∀ w, step op s ≠ Throw (Undefined w)) ∧
  (∀ out s', step op s = Ok (out, s') → wf s').
Proof.
  intros Hr Hop. apply reachable_inv in Hr as [Hwf Hd]. split_and!; try apply Hwf.
  - unfold destroy, updateLength, no_dangling in *. by destruct (pixels s).
  - intros w. destruct op; simpl; try done.
    + unfold updateLength, no_dangling in *. destruct (pixels s); simpl; try done;
        by repeat case_match.
    + unfold updatePins. by destruct (spiOutput s).
  - intros out s' Hs. by eapply step_inv.
Qed.

(** Resizing to zero leaves [pixels] pointing to the freed block, so the
    destructor, or the next resize, frees it a second time. *)
Theorem updateLength_zero_dangles alloc n s l :
  pixels s = Live l →
  ∃ s', updateLength alloc 0 s = Ok s' ∧
    destroy s' = Throw (Undefined "double free of pixels") ∧
    updateLength alloc n s' = Throw (Undefined "double free of pixels").
Proof. intros Hp. unfold updateLength at 1. rewrite Hp. simpl. by eexists. Qed.

(** ** Witnesses *)

Definition demo_strip : LPD8806 := mkLPD8806 false 2 1 (Live (replicate 6 0x80)) 24 23 false.

Lemma demo_strip_wf : wf demo_strip.
Proof. split_and!; simpl; try done. by apply (replicate_off_wf 6). Qed.

Lemma demo_strip_reachable : reachable demo_strip.
Proof. by apply (reach_bitbang true 2 23 24 [] demo_strip). Qed.

Lemma show_bitbang_is_spi_witness :
  sampledBits (pin_ops (show demo_strip).1) 23 24 high =
  (spi_bytes (show (with_spi true demo_strip)).1 ≫= bits_msb 8).
Proof. apply (show_bitbang_is_spi demo_strip high demo_strip_wf); done. Defined.

Lemma pixels_read_back_witness :
  (2 <= 21845 → getPixelColor 1 (setPixelColor 1 0x123456 demo_strip) = 0x123456) ∧
  getPixelRGB 1 (setPixelRGB 1 1 2 3 demo_strip) = (1, 2, 3).
Proof. apply (pixels_read_back demo_strip 1 1 0x123456 1 2 3 demo_strip_wf); done. Defined.

Lemma strip_safe_witness :
  wf demo_strip ∧ is_ok (destroy demo_strip) = true ∧
  (∀ w, step OShow demo_strip ≠ Throw (Undefined w)) ∧
  (∀ out s', step OShow demo_strip = Ok (out, s') → wf s').
Proof. exact (strip_safe demo_strip OShow demo_strip_reachable I). Defined.

Lemma updateLength_zero_dangles_witness :
  ∃ s', updateLength true 0 demo_strip = Ok s' ∧
    destroy s' = Throw (Undefined "double free of pixels") ∧
    updateLength true 5 s' = Throw (Undefined "double free of pixels").
Proof. exact (updateLength_zero_dangles true 5 demo_strip _ eq_refl). Defined.
