(* ===== verification/Spi.v ===== *)
(** * The SPI output of the strip: src/src/spi/linuxSpidevOutput.cpp,
      src/src/spi/fakeSpiOutput.cpp, src/src/spi/SpiOutput.h,
      src/src/spi/StripSpeed.h

    The transport the strip driver writes its frames to: the kernel's spidev,
    found through the device tree, configured and read back, and the recording
    fake. The driver's events are played on a transport at the end. *)
From S2P Require Import Prelude CLib Gpio System Lpd8806.

(** ** The interface ([class SpiOutput]) *)

(** [transfer(data, length)]: [None] is a null pointer, the list the memory it
    points to. *)
Class SpiOutput (D : Type) := {
  spi_initialize : D → res bool * D;
  spi_transfer : option (list Z) → Z → D → res () * D;
}.

(** The bytes a transfer reads; reading past the memory is undefined. *)
Definition payload_of (data : option (list Z)) (length : Z) : res (list Z) :=
  if length =? 0 then Ok []
  else match data with
       | Some bytes =>
           if length <=? Z.of_nat (List.length bytes) then Ok (take (Z.to_nat length) bytes)
           else Throw (Undefined "a transfer reads past its data")
       | None => Throw (Undefined "a transfer reads no data")
       end.

(** ** The fake *)
Module Fake.
Record FakeSpiOutput := mkFake {
  initializeResult_ : bool;
  initialized_ : bool;
  transfers_ : list (list Z);
}.

Definition new : FakeSpiOutput := mkFake true false [].

Definition initialize (d : FakeSpiOutput) : res bool * FakeSpiOutput :=
  (Ok (initializeResult_ d), mkFake (initializeResult_ d) (initializeResult_ d) (transfers_ d)).

Definition transfer (data : option (list Z)) (length : Z) (d : FakeSpiOutput)
    : res () * FakeSpiOutput :=
  if negb (initialized_ d) then (Throw (RuntimeError "fake SPI output is not initialized"), d)
  else if bool_decide (data = None) && negb (length =? 0) then
    (Throw (InvalidArgument "fake SPI output data is missing"), d)
  else
    match payload_of data length with
    | Ok payload =>
        (Ok (), mkFake (initializeResult_ d) (initialized_ d) (transfers_ d ++ [payload]))
    | Throw e => (Throw e, d)
    end.

Definition setInitializeResult (result : bool) (d : FakeSpiOutput) : FakeSpiOutput :=
  mkFake result (initialized_ d) (transfers_ d).
Definition initialized (d : FakeSpiOutput) : bool := initialized_ d.
Definition transfers (d : FakeSpiOutput) : list (list Z) := transfers_ d.
Definition clearTransfers (d : FakeSpiOutput) : FakeSpiOutput :=
  mkFake (initializeResult_ d) (initialized_ d) [].

#[global] Instance spi_output : SpiOutput FakeSpiOutput :=
  {| spi_initialize := initialize; spi_transfer := transfer |}.
End Fake.

(** ** spidev *)

Definition spiDevicesPattern : string := "/sys/bus/spi/devices/spi*.*".
Definition stripDeviceTreeSuffix : string := "/oclock-strip-spi/lpd8806@0".
Definition stripBitsPerWord : Z := 8.
Definition stripSpeedHz : Z := 2000000.
Definition SPI_MODE_0 : Z := 0.

(** The four settings the program writes and reads back. *)
Inductive SpiSetting := MODE32 | BITS_PER_WORD | LSB_FIRST | MAX_SPEED_HZ.

(** [struct spi_ioc_transfer], the fields the program sets; the others are 0. *)
Record SpiTransfer := mkTransfer {
  tx_buf : list Z;
  len : Z;
  speed_hz : Z;
  bits_per_word : Z;
}.

(** What the backend asks of the kernel besides what all backends do; [stat]
    tells whether the file is a character device. *)
Class Spidev (L : Type) := {
  spidev_kernel :: Kernel L;
  realpath : string → L → option string * L;
  stat : string → L → (Z * bool) * L;
  ioctl_write : Z → SpiSetting → Z → L → Z * L;
  ioctl_read : Z → SpiSetting → L → (Z * Z) * L;
  ioctl_message : Z → SpiTransfer → L → Z * L;
}.

Record LinuxSpidevOutput := mkSpidev {
  fd_ : Z;
  devicePath_ : string;
}.
Definition new : LinuxSpidevOutput := mkSpidev (-1) EmptyString.
Definition set_fd (fd : Z) (o : LinuxSpidevOutput) : LinuxSpidevOutput := mkSpidev fd (devicePath_ o).
Definition set_path (path : string) (o : LinuxSpidevOutput) : LinuxSpidevOutput := mkSpidev (fd_ o) path.

Definition endsWith (value suffix : string) : bool :=
  (String.length suffix <=? String.length value)%nat &&
  bool_decide (string_drop (String.length value - String.length suffix) value = suffix).

(** What follows the last slash; all of it when there is none, since
    [npos + 1] is 0. *)
Fixpoint after_slash (s : string) : string :=
  match s with
  | EmptyString => EmptyString
  | String c s' =>
      if existsb (Ascii.eqb "/"%char) (String.list_ascii_of_string s') then after_slash s'
      else if decide (c = "/"%char) then s' else s
  end.

Section spidev.
Context {L : Type} `{Spidev L}.
Definition S : Type → Type := Method LinuxSpidevOutput L.

Definition spiError (operation path : string) (errorNumber : Z) : exn :=
  RuntimeError
    (let message := "spidev " +:+ operation +:+ " failed" in
     let message := if string_empty path then message else message +:+ " on " +:+ path in
     if errorNumber =? 0 then message else message +:+ ": " +:+ strerror errorNumber).

(** [throw spiError(operation, devicePath_, errorNumber)] *)
Definition fail {A} (operation : string) (errorNumber : Z) : S A :=
  path ← gets devicePath_; throw (spiError operation path errorNumber).
Definition fail_errno {A} (operation : string) : S A := e ← get_errno; fail operation e.

Definition resolvedPath (path : string) : S string :=
  r ← call (λ l, realpath path (clear_errno l));
  match r with
  | Some resolved => mret resolved
  | None => e ← get_errno; throw (spiError "Device Tree discovery" path e)
  end.

(** The children with the strip's node; those without a node are ignored. *)
Fixpoint strip_children (paths : list string) : S (list string) :=
  match paths with
  | [] => mret []
  | child :: paths =>
      found ← try_catch (resolved ← resolvedPath (child +:+ "/of_node");
                         mret (endsWith resolved stripDeviceTreeSuffix))
                (λ _, mret false);
      children ← strip_children paths;
      mret (if found : bool then child :: children else children)
  end.

Definition device_path (sysfsPath : string) : S string :=
  let childName := after_slash sysfsPath in
  if negb (bool_decide (string_take 3 childName = "spi")) || (String.length childName <=? 3)%nat then
    throw (spiError "discovery (unexpected SPI child name)" sysfsPath EINVAL)
  else mret ("/dev/spidev" +:+ string_drop 3 childName).

Definition discoverStripDevice : S string :=
  r ← call (glob spiDevicesPattern);
  acquire GlobPaths;;
  if negb (r.1 =? 0) then
    release GlobPaths;;
    throw (spiError "discovery (no SPI children)" spiDevicesPattern
             (if r.1 =? GLOB_NOMATCH then ENOENT else EIO))
  else
    children ← strip_children r.2;
    release GlobPaths;;
    match children with
    | [child] => device_path child
    | _ => throw (spiError "discovery (expected exactly one Office Clock strip child)"
                    spiDevicesPattern (if bool_decide (children = []) then ENODEV else EEXIST))
    end.

(** ** Configuration *)

Definition write_setting (fd : Z) (setting : SpiSetting) (v : Z) (operation : string) : S () :=
  rc ← call (ioctl_write fd setting v); if rc <? 0 then fail_errno operation else mret ().

Definition read_setting (fd : Z) (setting : SpiSetting) : S Z :=
  r ← call (ioctl_read fd setting);
  if r.1 <? 0 then fail_errno "configuration verification" else mret r.2.

Definition configure (fd : Z) : S () :=
  write_setting fd MODE32 SPI_MODE_0 "mode configuration";;
  write_setting fd BITS_PER_WORD stripBitsPerWord "word-size configuration";;
  write_setting fd LSB_FIRST 0 "bit-order configuration";;
  write_setting fd MAX_SPEED_HZ stripSpeedHz "speed configuration";;
  actualMode ← read_setting fd MODE32;
  actualBits ← read_setting fd BITS_PER_WORD;
  actualLsbFirst ← read_setting fd LSB_FIRST;
  actualSpeed ← read_setting fd MAX_SPEED_HZ;
  if (actualMode =? SPI_MODE_0) && (actualBits =? stripBitsPerWord)
     && (actualLsbFirst =? 0) && (actualSpeed =? stripSpeedHz)
  then mret ()
  else fail "configuration verification (unexpected values)" EINVAL.

(** [if (fd_ >= 0) close(fd_);] *)
Definition close_fd : S () :=
  fd ← gets fd_; if 0 <=? fd then release (FileDescriptor fd) else mret ().

Definition initialize_try : S bool :=
  path ← discoverStripDevice;
  modify (set_path path);;
  st ← call (stat path);
  if st.1 <? 0 then fail_errno "device lookup"
  else if negb st.2 then fail "device validation (not a character device)" ENODEV
  else
    fd ← call (λ l, file_open path (clear_errno l));
    if fd <? 0 then modify (set_fd fd);; fail_errno "open"
    else acquire (FileDescriptor fd);; modify (set_fd fd);; configure fd;; mret true.

Definition initialize_catch (error : string) : S bool :=
  print_stderr ("SPI output initialization failed: " +:+ error);;
  (close_fd;; modify (set_fd (-1)));;
  modify (set_path EmptyString);;
  mret false.

Definition initialize : S bool :=
  fd ← gets fd_;
  if 0 <=? fd then mret true else try_catch initialize_try initialize_catch.

(** ** Transfers *)

(** The loop that repeats an interrupted call; the fuel bounds the number of
    calls. *)
Fixpoint send_message (fuel : nat) (fd : Z) (t : SpiTransfer) : S Z :=
  match fuel with
  | O => throw (Undefined "interrupted forever")
  | Datatypes.S fuel =>
      result ← call (λ l, ioctl_message fd t (clear_errno l));
      e ← get_errno;
      if (result <? 0) && (e =? EINTR) then send_message fuel fd t else mret result
  end.

Definition UINT32_MAX : Z := 2 ^ 32 - 1.

Definition transfer (fuel : nat) (data : option (list Z)) (length : Z) : S () :=
  fd ← gets fd_;
  if fd <? 0 then fail "transfer (transport not initialized)" ENODEV
  else if bool_decide (data = None) && negb (length =? 0) then
    fail "transfer (data is missing)" EINVAL
  else if UINT32_MAX <? length then fail "transfer (payload is too large)" E2BIG
  else if length =? 0 then mret ()
  else
    match payload_of data length with
    | Throw e => throw e
    | Ok payload =>
        result ← send_message fuel fd (mkTransfer payload (u32 length) stripSpeedHz stripBitsPerWord);
        if result <? 0 then fail_errno "transfer"
        else if negb (result =? s32 length) then fail "transfer (short write)" EIO
        else mret ()
    end.

(** The destructor. *)
Definition LinuxSpidevOutput_delete : S () := close_fd.
End spidev.
Arguments S L A : clear implicits.

(** The transport as the strip driver sees it, with a bound on the calls. *)
Definition spidev_output {L} `{Spidev L} (fuel : nat) : SpiOutput (Env LinuxSpidevOutput L) :=
  {| spi_initialize := initialize; spi_transfer := transfer fuel |}.

(** [createStripSpiOutput] of src/src/spi/noSpiOutput.cpp: no transport. *)
Definition no_output {D} : option D := None.

(** ** Playing the driver's events on a transport *)

Section play.
Context {D : Type} `{SpiOutput D}.

Fixpoint play (evs : list bus_event) (d : D) : res () * D :=
  match evs with
  | [] => (Ok (), d)
  | Pin _ :: evs => play evs d
  | Spi p :: evs =>
      match spi_transfer (Some p) (Z.of_nat (length p)) d with
      | (Ok _, d) => play evs d
      | (Throw e, d) => (Throw e, d)
      end
  end.

(** [begin] and [show] over a transport: an exception leaves before the
    driver's fields are written. *)
Definition begin_on (s : LPD8806) (d : D) : res () * LPD8806 * D :=
  let '(evs, s') := begin s in
  let '(r, d) := play evs d in (r, match r with Ok _ => s' | Throw _ => s end, d).

Definition show_on (s : LPD8806) (d : D) : res () * LPD8806 * D :=
  let '(evs, s') := show s in
  let '(r, d) := play evs d in (r, match r with Ok _ => s' | Throw _ => s end, d).
End play.

(** ** What is held, and what a transfer sends *)

Section spidev_proofs.
Context {L : Type} `{Spidev L}.
Implicit Types (s : Env LinuxSpidevOutput L) (x : list Handle) (o : LinuxSpidevOutput).

#[export] Instance spidev_owner : Owner LinuxSpidevOutput := λ o,
  if 0 <=? fd_ o then [FileDescriptor (fd_ o)] else [].

Definition any o : Prop := True.
Definition closed o : Prop := fd_ o < 0.
(** After a failed start. *)
Definition failed o : Prop := fd_ o = -1 ∧ devicePath_ o = EmptyString.

Definition keeps {A} x P (m : S L A) : Prop :=
  hoare (owning x P) m (λ _, owning x P) (owning x P).

Lemma spi_hoare_fail {A} op e (P : Env LinuxSpidevOutput L → Prop) Q (R : Env LinuxSpidevOutput L → Prop) :
  (∀ s, P s → R s) → hoare P (fail (A:=A) op e) Q R.
Proof. intros HR. apply hoare_get. intros path. by apply hoare_throw. Qed.

Lemma spi_hoare_fail_errno {A} op (P : Env LinuxSpidevOutput L → Prop) Q (R : Env LinuxSpidevOutput L → Prop) :
  (∀ s, P s → R s) → hoare P (fail_errno (A:=A) op) Q R.
Proof. intros HR. apply hoare_get_errno. intros e. by apply spi_hoare_fail. Qed.

Lemma hoare_strip_children x P paths (R : Env LinuxSpidevOutput L → Prop) :
  hoare (owning x P) (strip_children paths) (λ _, owning x P) R.
Proof.
  induction paths as [|child paths IH]; [by apply hoare_ret|].
  eapply hoare_bind.
  - apply (hoare_try _ _ _ (λ _, owning x P) (owning x P)); [|intros error; by apply hoare_ret].
    eapply hoare_bind; [|intros a; apply hoare_ret; intros s Hs; exact Hs].
    eapply hoare_bind; [apply hoare_call|]. intros [resolved|]; [by apply hoare_ret|].
    apply hoare_get_errno. intros e. by apply hoare_throw.
  - intros found. eapply hoare_bind; [apply IH|]. intros children. by apply hoare_ret.
Qed.

Lemma hoare_discoverStripDevice x P : keeps x P discoverStripDevice.
Proof.
  eapply hoare_bind; [apply hoare_call|]. intros r.
  eapply hoare_bind; [apply hoare_acquire|]. intros []. destruct (negb _).
  - eapply hoare_bind; [apply hoare_release|]. intros []. by apply hoare_throw.
  - eapply hoare_bind; [apply hoare_strip_children|]. intros children.
    eapply hoare_bind; [apply hoare_release|]. intros [].
    destruct children as [|child [|]]; try (by apply hoare_throw).
    unfold device_path. destruct (_ || _); [by apply hoare_throw|by apply hoare_ret].
Qed.

Lemma hoare_write_setting x P fd setting v op : keeps x P (write_setting fd setting v op).
Proof.
  eapply hoare_bind; [apply hoare_call|]. intros rc.
  destruct (rc <? 0); [by apply spi_hoare_fail_errno|by apply hoare_ret].
Qed.

Lemma hoare_read_setting x P fd setting : keeps x P (read_setting fd setting).
Proof.
  eapply hoare_bind; [apply hoare_call|]. intros r.
  destruct (r.1 <? 0); [by apply spi_hoare_fail_errno|by apply hoare_ret].
Qed.

Lemma hoare_configure_spi x P fd : keeps x P (configure fd).
Proof.
  do 4 (eapply hoare_bind; [apply hoare_write_setting|]; intros []).
  do 4 (eapply hoare_bind; [apply hoare_read_setting|]; intros ?).
  destruct (_ && _); [by apply hoare_ret|by apply spi_hoare_fail].
Qed.

Lemma owes_closed o : fd_ o < 0 → owes o = [].
Proof. intros Hfd. unfold owes, spidev_owner. destruct (Z.leb_spec 0 (fd_ o)); [lia|done]. Qed.

Lemma hoare_initialize_try_spi x :
  hoare (owning x closed) initialize_try (λ ok, owning x (λ o, ok = true)) (owning x any).
Proof.
  assert (∀ s, owning x closed s → owning x any s) as Hany by (intros s; by apply owning_mono).
  eapply hoare_bind.
  { eapply hoare_conseq; [apply (hoare_discoverStripDevice x closed)|done|done|done]. }
  intros path. apply (hoare_bind _ _ (λ _, owning x closed) (owning x any)); [by intros s|]. intros [].
  eapply hoare_bind; [apply hoare_call|]. intros st.
  destruct (st.1 <? 0); [by apply spi_hoare_fail_errno|].
  destruct (negb st.2); [by apply spi_hoare_fail|].
  eapply hoare_bind; [apply hoare_call|]. intros fd. destruct (Z.ltb_spec fd 0) as [Hfd|Hfd].
  - apply (hoare_bind _ _ (λ _, owning x closed) (owning x any)); [|intros []; by apply spi_hoare_fail_errno].
    intros s (Hh & Hc). split; [|done]. cbn. rewrite Hh. by rewrite !owes_closed by done.
  - eapply hoare_bind; [apply hoare_acquire|]. intros [].
    apply (hoare_bind _ _ (λ _, owning x any) (owning x any)).
    + intros s (Hh & Hc). split; [|done]. cbn. rewrite Hh. rewrite (owes_closed (object s)) by done.
      unfold owes, spidev_owner. cbn. destruct (Z.leb_spec 0 fd); [|lia]. rewrite app_nil_r.
      apply Permutation_cons_append.
    + intros []. eapply hoare_bind; [apply hoare_configure_spi|]. intros [].
      apply hoare_ret. intros s. by apply owning_mono.
Qed.

Lemma hoare_close_fd x P (R : Env LinuxSpidevOutput L → Prop) :
  hoare (owning x P) close_fd (λ _ s, (sys s).2 ≡ₚ x ∧ P (object s)) R.
Proof.
  intros s (Hh & HP). unfold close_fd, gets, mbind, Method_bind. unfold owes, spidev_owner in Hh.
  destruct (0 <=? fd_ (object s)).
  - destruct (release_ok (FileDescriptor (fd_ (object s))) s x) as (y & -> & Hy); [|by split].
    rewrite Hh. symmetry. apply Permutation_cons_append.
  - split; [by rewrite app_nil_r in Hh|done].
Qed.

Lemma hoare_initialize_catch_spi x error (R : Env LinuxSpidevOutput L → Prop) :
  hoare (owning x any) (initialize_catch error) (λ ok, owning x (λ o, ok = false ∧ failed o)) R.
Proof.
  eapply hoare_bind; [apply hoare_print|]. intros [].
  apply (hoare_bind _ _ (λ _, owning x (λ o, fd_ o = -1)) R).
  - eapply hoare_bind; [apply hoare_close_fd|]. intros [] s (Hh & _).
    split; [|done]. cbn. by rewrite app_nil_r.
  - intros []. apply (hoare_bind _ _ (λ _, owning x failed) R).
    + intros s (Hh & Hf). by split.
    + intros []. apply hoare_ret. intros s. by apply owning_mono.
Qed.

Lemma hoare_initialize_spi x (R : Env LinuxSpidevOutput L → Prop) :
  hoare (owning x any) initialize
    (λ ok, owning x (λ o, ok = false → failed o)) R.
Proof.
  apply hoare_gets. intros fd. destruct (Z.leb_spec 0 fd).
  { apply hoare_ret. intros s [Hs _]. revert Hs. by apply owning_mono. }
  eapply hoare_try.
  - eapply hoare_conseq; [apply (hoare_initialize_try_spi x)| | |done].
    + intros s [(Hh & _) Hfd]. split; [done|]. unfold closed. lia.
    + intros ok s. apply owning_mono. by intros o ->.
  - intros error. eapply hoare_conseq; [apply hoare_initialize_catch_spi|done| |done].
    intros ok s. apply owning_mono. by intros o [_ ?].
Qed.
End spidev_proofs.

(** ** Interrupted calls *)

Section transfer_proofs.
Context {L : Type} `{Spidev L}.
Implicit Types (s : Env LinuxSpidevOutput L).

(** Whether the first [n] calls are interrupted, and what call [n] gives. *)
Fixpoint interrupted (n : nat) (fd : Z) (t : SpiTransfer) (l : L) : bool :=
  match n with
  | O => true
  | Datatypes.S n =>
      let '(result, l) := ioctl_message fd t (clear_errno l) in
      (result <? 0) && (errno l =? EINTR) && interrupted n fd t l
  end.

Fixpoint attempt (n : nat) (fd : Z) (t : SpiTransfer) (l : L) : Z * L :=
  match n with
  | O => ioctl_message fd t (clear_errno l)
  | Datatypes.S n => attempt n fd t (ioctl_message fd t (clear_errno l)).2
  end.

(** The loop ends at the first call that is not interrupted. *)
Lemma send_message_spec fuel fd t s :
  interrupted fuel fd t (sys s).1 = false →
  ∃ k, (k < fuel)%nat ∧ interrupted k fd t (sys s).1 = true ∧
    interrupted (Datatypes.S k) fd t (sys s).1 = false ∧
    send_message fuel fd t s =
      (Ok (attempt k fd t (sys s).1).1, set_sys ((attempt k fd t (sys s).1).2, (sys s).2) s).
Proof.
  revert s. induction fuel as [|fuel IH]; intros s; [done|]. cbn [interrupted send_message].
  unfold call, get_errno, mbind, Method_bind.
  destruct (ioctl_message fd t (clear_errno (sys s).1)) as [result l] eqn:E. cbn.
  destruct ((result <? 0) && (errno l =? EINTR)) eqn:Hi; cbn [andb]; intros Hf.
  - destruct (IH (set_sys (l, (sys s).2) s) Hf) as (k & Hk & H1 & H2 & Hs).
    exists (Datatypes.S k). cbn [interrupted attempt]. rewrite E. cbn [fst snd]. rewrite Hi. cbn [andb].
    split_and!; [lia|done|done|]. rewrite Hs. done.
  - exists O. cbn [attempt]. rewrite E. split_and!; [lia|done..].
Qed.

(** What the caller of [transfer] gets for what the kernel answered. *)
Definition transfer_result (path : string) (length result : Z) (l : L) : res () :=
  if result <? 0 then Throw (spiError "transfer" path (errno l))
  else if negb (result =? length) then Throw (spiError "transfer (short write)" path EIO)
  else Ok ().

(** A transfer on an open transport is one message of exactly the bytes,
    repeated while it is interrupted. *)
Lemma transfer_spec fuel bytes s :
  let t := mkTransfer bytes (Z.of_nat (length bytes)) stripSpeedHz stripBitsPerWord in
  let fd := fd_ (object s) in
  0 <= fd → bytes ≠ [] → Z.of_nat (length bytes) < 2 ^ 31 →
  interrupted fuel fd t (sys s).1 = false →
  ∃ k, (k < fuel)%nat ∧ interrupted k fd t (sys s).1 = true ∧
    interrupted (Datatypes.S k) fd t (sys s).1 = false ∧
    let '(result, l) := attempt k fd t (sys s).1 in
    transfer fuel (Some bytes) (Z.of_nat (length bytes)) s =
      (transfer_result (devicePath_ (object s)) (Z.of_nat (length bytes)) result l,
       set_sys (l, (sys s).2) s).
Proof.
  intros t fd Hfd Hne Hlen Hi. destruct (send_message_spec fuel fd t s Hi) as (k & Hk & H1 & H2 & Hs).
  exists k. split_and!; [done..|]. assert (0 < Z.of_nat (length bytes)) as Hpos.
  { destruct bytes; [done|]. cbn. lia. }
  destruct (attempt k fd t (sys s).1) as [result l]. cbn [fst snd] in Hs.
  unfold transfer, payload_of, UINT32_MAX, gets at 1, mbind at 1, Method_bind at 1. fold fd.
  destruct (Z.ltb_spec fd 0); [lia|]. rewrite (bool_decide_false (Some bytes = None)) by done. cbn [andb].
  destruct (Z.ltb_spec (2 ^ 32 - 1) (Z.of_nat (length bytes))); [lia|].
  destruct (Z.eqb_spec (Z.of_nat (length bytes)) 0); [lia|].
  rewrite Z.leb_refl, u32_small, s32_small, Nat2Z.id, firstn_all by lia. cbn [andb].
  unfold mbind, Method_bind. fold t. cbn beta. rewrite Hs. unfold transfer_result.
  destruct (result <? 0); [done|]. by destruct (result =? _).
Qed.
End transfer_proofs.

(** ** Any use of a transport *)

Section uses.
Context {L : Type} `{Spidev L}.
Implicit Types (s : Env LinuxSpidevOutput L) (x : list Handle).

(** The kernel does not interrupt a message [fuel] times in a row. *)
Definition patient (fuel : nat) : Prop := ∀ fd t (l : L), interrupted fuel fd t l = false.

Inductive Call := CInitialize | CTransfer (bytes : list Z).

Definition run_call (fuel : nat) (c : Call) : S L (option bool) :=
  match c with
  | CInitialize => ok ← initialize; mret (Some ok)
  | CTransfer bytes => transfer fuel (Some bytes) (Z.of_nat (length bytes));; mret None
  end.

Fixpoint run_calls (fuel : nat) (cs : list Call) s : list (res (option bool)) * Env LinuxSpidevOutput L :=
  match cs with
  | [] => ([], s)
  | c :: cs =>
      let '(r, s) := run_call fuel c s in
      let '(rs, s) := run_calls fuel cs s in (r :: rs, s)
  end.

Lemma payload_of_whole bytes : payload_of (Some bytes) (Z.of_nat (length bytes)) = Ok bytes.
Proof.
  unfold payload_of. destruct (Z.eqb_spec (Z.of_nat (length bytes)) 0).
  - destruct bytes; [done|]. cbn in *. lia.
  - by rewrite Z.leb_refl, Nat2Z.id, firstn_all.
Qed.

Lemma hoare_transfer fuel x bytes :
  patient fuel → keeps x any (transfer fuel (Some bytes) (Z.of_nat (length bytes))).
Proof.
  intros Hp. apply hoare_get. intros fd.
  destruct (fd <? 0); [by apply spi_hoare_fail|].
  rewrite (bool_decide_false (Some bytes = None)) by done. cbn [andb].
  destruct (UINT32_MAX <? _); [by apply spi_hoare_fail|].
  destruct (_ =? 0); [by apply hoare_ret|]. rewrite payload_of_whole.
  apply (hoare_bind _ _ (λ _, owning x any) (owning x any)).
  - intros s Hs.
    destruct (send_message_spec fuel fd
      (mkTransfer bytes (u32 (Z.of_nat (length bytes))) stripSpeedHz stripBitsPerWord) s (Hp _ _ _))
      as (k & _ & _ & _ & ->).
    exact Hs.
  - intros result. destruct (result <? 0); [by apply spi_hoare_fail_errno|].
    destruct (negb _); [by apply spi_hoare_fail|by apply hoare_ret].
Qed.

Lemma hoare_spi_run_call fuel x c : patient fuel → keeps x any (run_call fuel c).
Proof.
  intros Hp. destruct c as [|bytes]; cbn [run_call];
    (eapply hoare_bind; [|intros a; apply hoare_ret; intros s Hs; exact Hs]).
  - eapply hoare_conseq; [apply hoare_initialize_spi|done| |done]. intros ok s. by apply owning_mono.
  - by apply hoare_transfer.
Qed.

(** Whatever the kernel answers and whatever is asked in whatever order, the
    transport holds its device's file, if it is open, and nothing else, never
    closes what it does not hold, and every exception is one of its own; a start
    that fails leaves nothing, and the destructor closes the rest. *)
Theorem spidev_resources fuel x (y : Sys L) cs :
  patient fuel → y.2 ≡ₚ x →
  let '(rs, s) := run_calls fuel cs (mkEnv new y []) in
  (∀ e, Throw e ∈ rs → what_of e ≠ None) ∧
  (sys s).2 ≡ₚ x ++ (if 0 <=? fd_ (object s) then [FileDescriptor (fd_ (object s))] else []) ∧
  (let '(r, s) := initialize s in
   r = Ok true ∨ r = Ok false ∧ failed (object s) ∧ (sys s).2 ≡ₚ x) ∧
  ∃ s', LinuxSpidevOutput_delete s = (Ok (), s') ∧ (sys s').2 ≡ₚ x.
Proof.
  intros Hp Hy. assert (∀ s, owning x any s → owning x any (run_calls fuel cs s).2 ∧
    ∀ e, Throw e ∈ (run_calls fuel cs s).1 → what_of e ≠ None) as Hrun.
  { induction cs as [|c cs IH]; intros s Hs; cbn [run_calls].
    { split; [done|]. intros e He. by apply elem_of_nil in He. }
    pose proof (hoare_spi_run_call fuel x c Hp s Hs) as Ht. destruct (run_call fuel c s) as [r s1].
    destruct (IH s1) as [Hs2 He2]; [by destruct r as [|e]; [|destruct Ht]|].
    destruct (run_calls fuel cs s1) as [rs s2]. split; [done|].
    intros e [<-|He]%elem_of_cons; [by destruct Ht|by apply He2]. }
  destruct (Hrun (mkEnv new y [])) as [Hs He]; [by split; [cbn; rewrite app_nil_r|]|].
  destruct (run_calls fuel cs _) as [rs s]. cbn [fst snd] in *. split_and!; [done|by destruct Hs| |].
  - pose proof (hoare_initialize_spi x (λ _, False) s Hs) as Hi.
    destruct (initialize s) as [[[]|e] s1]; [by left| |by destruct Hi].
    right. destruct Hi as (Hh & Hf). destruct (Hf eq_refl) as [Hfd Hpath]. split_and!; [done|done|].
    rewrite Hh, owes_closed by lia. by rewrite app_nil_r.
  - pose proof (hoare_close_fd x any (λ _, False) s Hs) as Hc. unfold LinuxSpidevOutput_delete.
    destruct (close_fd s) as [[[]|e] s1]; [|by destruct Hc]. exists s1. split; [done|]. apply Hc.
Qed.

(** C35: A strip shown over spidev: on an open transport the driver's [show] is
    one message of three bytes for each LED, the stored ones, and of the zero
    bytes of the latch, at 2 MHz in words of 8 bits; the message is repeated as
    long as a signal interrupts it and not more, nothing is sent besides and no
    handle is taken or lost. [show] returns when the kernel took the whole frame,
    and then forgets what had changed; after an error or a short write it throws
    and the strip is as it was, so that the frame is shown again the next
    time. *)
Theorem strip_frame_on_wire fuel (strip : LPD8806) s :
  let frame := live_bytes (pixels strip) ++ replicate (Z.to_nat ((numLEDs strip + 31) / 32)) 0 in
  let t := mkTransfer frame (Z.of_nat (length frame)) 2000000 8 in
  let fd := fd_ (object s) in
  reachable strip → spiOutput strip = true → 0 < numLEDs strip → 0 <= fd →
  interrupted fuel fd t (sys s).1 = false →
  Z.of_nat (length frame) = 3 * numLEDs strip + (numLEDs strip + 31) / 32 ∧
  ∃ k, (k < fuel)%nat ∧ interrupted k fd t (sys s).1 = true ∧
    interrupted (Datatypes.S k) fd t (sys s).1 = false ∧
    let '(result, l) := attempt k fd t (sys s).1 in
    let s' := set_sys (l, (sys s).2) s in
    show_on (H := spidev_output fuel) strip s =
      if result =? Z.of_nat (length frame) then (Ok (), set_pixels (pixels strip) 0 strip, s')
      else (Throw (if result <? 0 then spiError "transfer" (devicePath_ (object s)) (errno l)
                   else spiError "transfer (short write)" (devicePath_ (object s)) EIO), strip, s').
Proof.
  intros frame t fd Hr Hspi Hn Hfd Hi. apply reachable_inv in Hr as [(Hr & Hl & _) _].
  assert (Z.of_nat (length frame) = 3 * numLEDs strip + (numLEDs strip + 31) / 32) as Hlen.
  { unfold frame. rewrite length_app, length_replicate, Hl. unfold BYTES_PER_LED.
    pose proof (Z.div_pos (numLEDs strip + 31) 32). lia. }
  split; [done|].
  assert (Z.of_nat (length frame) < 2 ^ 31) as Hmax.
  { rewrite Hlen. pose proof (Z.div_le_upper_bound (numLEDs strip + 31) 32 (numLEDs strip + 31)). lia. }
  destruct (transfer_spec fuel frame s Hfd) as (k & Hk & H1 & H2 & Ht); [|done|done|].
  { intros E. rewrite E in Hlen. cbn in Hlen. pose proof (Z.div_pos (numLEDs strip + 31) 32). lia. }
  exists k. split_and!; [done..|]. change (mkTransfer frame _ _ _) with t in Ht. fold fd in Ht. destruct (attempt k fd t (sys s).1) as [result l].
  unfold show_on, show. destruct (Z.eqb_spec (numLEDs strip) 0); [lia|]. rewrite Hspi.
  rewrite (take_ge (live_bytes _)) by (unfold numPixels; rewrite Hl; lia).
  unfold latchByteCount. fold frame. cbn [play spi_transfer spidev_output].
  rewrite Ht. unfold transfer_result. destruct (Z.ltb_spec result 0).
  - destruct (Z.eqb_spec result (Z.of_nat (length frame))); [lia|done].
  - by destruct (Z.eqb_spec result (Z.of_nat (length frame))).
Qed.
End uses.

(** ** The strip on the fake *)

(** Every frame, and nothing else, is recorded in order; before the start the
    exception leaves the strip and the transport as they were. *)
Theorem strip_on_fake (strip : LPD8806) (d : Fake.FakeSpiOutput) :
  spiOutput strip = true →
  let frame := take (Z.to_nat (numLEDs strip * 3)) (live_bytes (pixels strip))
               ++ replicate (Z.to_nat ((numLEDs strip + 31) / 32)) 0 in
  show_on strip d =
    if numLEDs strip =? 0 then (Ok (), strip, d)
    else if Fake.initialized d then
      (Ok (), set_pixels (pixels strip) 0 strip,
       Fake.mkFake (Fake.initializeResult_ d) true (Fake.transfers d ++ [frame]))
    else (Throw (RuntimeError "fake SPI output is not initialized"), strip, d).
Proof.
  intros Hspi frame. unfold show_on, show. destruct (numLEDs strip =? 0); [done|]. rewrite Hspi.
  unfold numPixels, BYTES_PER_LED, latchByteCount. fold frame.
  cbn [play spi_transfer Fake.spi_output]. unfold Fake.transfer, Fake.initialized.
  destruct (Fake.initialized_ d) eqn:E; cbn [negb]; [|done].
  rewrite (bool_decide_false (Some frame = None)) by done. cbn [andb].
  by rewrite payload_of_whole.
Qed.

(** ** A kernel *)

(** Two children, the second with the strip's node; the settings read back as
    they were written; the answers to the messages come from a script, a
    negative one being an error number. *)
Module Kernel.
Record State := mkState {
  script : list Z;
  last_errno : Z;
  settings : list (SpiSetting * Z);
  sent : list SpiTransfer;
}.

Definition answer (r : Z) (l : State) : Z * State :=
  (if r <? 0 then -1 else r, mkState (script l) (if r <? 0 then - r else 0) (settings l) (sent l)).

#[export] Instance SpiSetting_eq_dec : EqDecision SpiSetting.
Proof. solve_decision. Defined.

#[export] Instance kernel : Kernel State := {|
  strerror e := "error " +:+ print_int e;
  errno := last_errno;
  clear_errno l := mkState (script l) 0 (settings l) (sent l);
  lib_release _ l := l;
  glob _ l := ((0, ["/sys/bus/spi/devices/spi0.0"; "/sys/bus/spi/devices/spi1.0"]), l);
  file_open _ := answer 3;
|}.

#[export] Instance spidev : Spidev State := {|
  spidev_kernel := kernel;
  realpath path l :=
    if decide (path = "/sys/bus/spi/devices/spi1.0/of_node")
    then (Some "/sys/firmware/devicetree/base/oclock-strip-spi/lpd8806@0", l)
    else (None, (answer (- ENOENT) l).2);
  stat path l := ((0, bool_decide (path = "/dev/spidev1.0")), l);
  ioctl_write _ setting v l :=
    (0, mkState (script l) (last_errno l) ((setting, v) :: settings l) (sent l));
  ioctl_read _ setting l :=
    ((0, default (-1) (snd <$> List.find (λ e, bool_decide (e.1 = setting)) (settings l))), l);
  ioctl_message _ t l :=
    let r := default (- EINVAL) (head (script l)) in
    answer r (mkState (tail (script l)) (last_errno l) (settings l) (sent l ++ [t]));
|}.

Definition boot (script : list Z) : Env LinuxSpidevOutput State :=
  mkEnv new (mkState script 0 [] [], []) [].

(** The start, with the path it found. *)
Example starts :
  (initialize (boot [])).1 = Ok true ∧
  object (initialize (boot [])).2 = mkSpidev 3 "/dev/spidev1.0" ∧
  (sys (initialize (boot [])).2).2 = [FileDescriptor 3].
Proof. vm_compute. done. Qed.

Definition strip : LPD8806 := mkLPD8806 true 2 1 (Live (replicate 6 0x80)) 0 0 false.
Lemma strip_reachable : reachable strip.
Proof. by apply (reach_spi true 2 strip). Qed.

(** A signal interrupts the first message; the second is taken. *)
Lemma strip_frame_on_wire_witness :
  let s := (initialize (boot [- EINTR; 7])).2 in
  fst (fst (show_on (H := spidev_output 4) strip s)) = Ok () ∧
  ∃ k, (k < 4)%nat ∧
    interrupted k 3 (mkTransfer (replicate 6 0x80 ++ [0]) 7 2000000 8) (sys s).1 = true.
Proof.
  intros s. split; [vm_compute; reflexivity|].
  destruct (strip_frame_on_wire 4 strip s strip_reachable eq_refl eq_refl) as (_ & k & Hk & Hi & _);
    [vm_compute; discriminate|vm_compute; reflexivity|].
  exists k. split; [exact Hk|exact Hi].
Defined.
End Kernel.
