(* ===== verification/Pulsar.v ===== *)
(** * The web server's shell: src/pulsar/conf.c, src/pulsar/logger.c,
      src/pulsar/pulsar.c

    The configuration, the log and the command line of the C code around
    libevent. What is allocated and opened is a handle (System.v); a pointer
    that may be null is an option. The lifetime of the server is in
    Server.v. *)
From S2P Require Import Prelude CLib System.

(** The C library, besides what all backends use: [malloc] stands for the
    allocators, [now_text] for [strftime] on the local time with the log's
    format. *)
Class Libc (L : Type) := {
  libc_kernel :: Kernel L;
  malloc : L → option Z * L;
  getpid : L → Z * L;
  now_text : L → string * L;
  file_write : Z → string → L → Z * L;
  fsync : Z → L → Z * L;
  (** [pid_t] is an [int]. *)
  getpid_int l : - 2 ^ 31 <= (getpid l).1 < 2 ^ 31;
}.

Definition STDERR_FILENO : Z := 2.

(** ** Data *)

(** [struct _conf]; [cfg_at] and the first part of [ip] are addresses. *)
Record conf := mkConf {
  cfg_at : Z;
  ip : option (Z * string);
  port : Z;
  workers : Z;
}.

Definition WEBSERVER_DEFAULT_IP : string := "0.0.0.0".
Definition WEBSERVER_DEFAULT_PORT : Z := 80.
Definition WEBSERVER_DEFAULT_WORKERS : Z := 4.
Definition MQTT_BROKER_DEFAULT_IP : string := "192.168.10.238".
Definition MQTT_BROKER_DEFAULT_PORT : Z := 1883.
Definition MQTT_BROKER_DEFAULT_KA : Z := 182.

(** [log_level] is a number: error, warning, notice, info, debug. *)
Definition PULSAR_DEBUG : Z := 4.

(** [struct _logger] *)
Record logger := mkLogger {
  log_at : Z;
  self : Z;
  log_fd : Z;
  logfile : option string;
  verbosity : Z;
}.

Definition set_port (p : Z) (c : conf) : conf := mkConf (cfg_at c) (ip c) p (workers c).
Definition set_workers (n : Z) (c : conf) : conf := mkConf (cfg_at c) (ip c) (port c) n.
Definition set_ip (i : option (Z * string)) (c : conf) : conf := mkConf (cfg_at c) i (port c) (workers c).
Definition set_log_fd (fd : Z) (f : option string) (g : logger) : logger :=
  mkLogger (log_at g) (self g) fd f (verbosity g).
Definition set_verbosity (v : Z) (g : logger) : logger :=
  mkLogger (log_at g) (self g) (log_fd g) (logfile g) v.

(** A part of the start that may [exit(EXIT_FAILURE)], with what it printed to
    the standard output then. *)
Inductive Outcome (A : Type) := Continue (a : A) | Exit (stdout : string).
Arguments Continue {A} a.
Arguments Exit {A} stdout.

Section pulsar.
Context {L : Type} `{Libc L}.

(** A C function: no object, what it holds goes by its arguments. *)
Definition C : Type → Type := Method () L.

(** [calloc], [strdup]: an address, held, or null. *)
Definition allocate : C (option Z) :=
  p ← call malloc;
  match p with Some a => acquire (Memory a);; mret (Some a) | None => mret None end.
Definition free (p : option Z) : C () :=
  match p with Some a => release (Memory a) | None => mret () end.
Definition strdup (text : string) : C (option (Z * string)) :=
  p ← allocate; mret ((λ a, (a, text)) <$> p).

(** ** conf.c *)

Definition conf_free (c : conf) : C () :=
  free (fst <$> ip c);; release (Memory (cfg_at c)).

Definition conf_new (ip : option (Z * string)) (port workers : Z) : C (option conf) :=
  p ← allocate;
  match p with
  | None => free (fst <$> ip);; mret None
  | Some a => mret (Some (mkConf a ip port workers))
  end.

(** ** logger.c *)

(** Whether the log owns the descriptor it writes to; the standard error is the
    process's own. *)
Definition owned_fd (fd : Z) : bool := (0 <=? fd) && negb (fd =? STDERR_FILENO).

Definition close_log (g : logger) : C () :=
  if owned_fd (log_fd g) then release (FileDescriptor (log_fd g)) else mret ().

Definition log_free (g : option logger) : C () :=
  match g with
  | None => mret ()
  | Some g => close_log g;; release (Memory (log_at g))
  end.

(** The log after it, and what [log_set_file] returns; the descriptor is kept
    as it is when it is below zero. *)
Definition log_set_file (g : logger) (file : option string) : C (logger * Z) :=
  close_log g;;
  match file with
  | None => mret (set_log_fd STDERR_FILENO None g, 0)
  | Some path =>
      fd ← call (file_open path);
      (if owned_fd fd then acquire (FileDescriptor fd) else mret ());;
      mret (set_log_fd fd file g, if fd <? 0 then -1 else 0)
  end.

Definition log_new (file : option string) (level : Z) : C (option logger) :=
  p ← allocate;
  match p with
  | None => mret None
  | Some a =>
      pid ← call getpid;
      r ← log_set_file (mkLogger a pid (-1) file level) file;
      mret (Some r.1)
  end.

(** The characters [c[level]] stands for, the terminator last. *)
Definition level_marks : list Z := [46; 45; 42; 35; 0].

(** [log_it] cuts its text to the 123 bytes of its buffer; the mark of the level
    is printed by [%d]. The line goes through a buffer of 256 bytes, of which
    [write] takes as many as [snprintf] says the whole line has. *)
Definition log_line (g : logger) (level : Z) (body time : string) : res string :=
  match level_marks !! Z.to_nat level with
  | Some mark =>
      let msg := snprintf_s (Nat.min 124 (S (String.length body))) body in
      let line := "[" +:+ print_int (self g) +:+ "] " +:+ snprintf_s 64 time +:+ " "
                  +:+ print_int mark +:+ " " +:+ msg +:+ String (chr 10) EmptyString in
      if (String.length line <? 256)%nat then Ok line
      else Throw (Undefined "the line of the log is read past its buffer")
  | None => Throw (Undefined "a mark of an unknown level")
  end.

Definition log_it (g : logger) (level : Z) (body : string) : C () :=
  if verbosity g <? level then mret ()
  else if log_fd g <? 0 then mret ()
  else
    time ← call now_text;
    match log_line g level body time with
    | Throw e => throw e
    | Ok line =>
        call (file_write (log_fd g) line);;
        call (fsync (log_fd g));;
        mret ()
    end.

(** ** pulsar.c: the command line *)

Definition usage (exe : string) : string :=
  let nl := String (chr 10) EmptyString in
  "Usage: " +:+ exe +:+ " [-b address] [-p port] [-w workers] [-M broker] [-P brokerPort]"
  +:+ " [-K brokerKeepAlive] [-h]" +:+ nl +:+ nl +:+ "Options:" +:+ nl
  +:+ "  -b address       : IPv4 address to bind (default: " +:+ WEBSERVER_DEFAULT_IP +:+ ")" +:+ nl
  +:+ "  -p port          : tcp port number to listen on (default: " +:+ print_int WEBSERVER_DEFAULT_PORT
  +:+ ")" +:+ nl
  +:+ "  -w workers       : number of worker threads to start for accepting connections (default: "
  +:+ print_int WEBSERVER_DEFAULT_WORKERS +:+ ")" +:+ nl
  +:+ "  -v verbosity     : 0 <= verbosity <= 4 (default: 4)" +:+ nl
  +:+ "  -l logfile       : file to log into (default: stderr)" +:+ nl
  +:+ "  -M MqttSrvAddr   : the hostname or ip address of the broker to connect to (default: "
  +:+ MQTT_BROKER_DEFAULT_IP +:+ ")" +:+ nl
  +:+ "  -P MqttSrvPort   : the port of that mqtt server (default: " +:+ print_int MQTT_BROKER_DEFAULT_PORT
  +:+ ")" +:+ nl
  +:+ "  -K MqttKeepAlive : mqtt keep alive interval in seconds (default: "
  +:+ print_int MQTT_BROKER_DEFAULT_KA +:+ ")" +:+ nl
  +:+ "  -h               : display this help message" +:+ nl.

Definition die {A} (message : string) : C (Outcome A) :=
  print_stderr message;; mret (Exit EmptyString).

(** [parse_number]: all of the text is a number of the range, or [None]. *)
Definition in_range (value : string) (minimum maximum : Z) : option Z :=
  match strto_scan 10 (c_str value) with
  | Some (neg, v, EmptyString) =>
      let '(z, erange) := clamp_signed LONG_MIN LONG_MAX neg v in
      if erange || (z <? minimum) || (maximum <? z) then None else Some z
  | _ => None
  end.

Definition parse_number {A} (name value : string) (minimum maximum : Z) (k : Z → C (Outcome A))
    : C (Outcome A) :=
  match in_range value minimum maximum with
  | None => die ("Invalid " +:+ name +:+ ": " +:+ value +:+ String (chr 10) EmptyString)
  | Some z => k z
  end.

(** [pulsarServerInfo] once it is allocated. *)
Record Info := mkInfo { cfg : conf; log : logger }.

(** One option, as [getopt] gives it: its letter, ["?"] for an unknown one or a
    missing argument, and its argument. *)
Definition parse_option (exe : string) (opt : ascii * string) (i : Info) : C (Outcome Info) :=
  let '(o, optarg) := opt in
  if decide (o = "b"%char) then
    free (fst <$> ip (cfg i));;
    s ← strdup optarg;
    match s with
    | None => die ("Unable to allocate bind address" +:+ String (chr 10) EmptyString)
    | Some _ => mret (Continue (mkInfo (set_ip s (cfg i)) (log i)))
    end
  else if decide (o = "p"%char) then
    parse_number "port" optarg 1 65535 (λ z, mret (Continue (mkInfo (set_port (u16 z) (cfg i)) (log i))))
  else if decide (o = "w"%char) then
    parse_number "worker count" optarg 1 64
      (λ z, mret (Continue (mkInfo (set_workers (s32 z) (cfg i)) (log i))))
  else if decide (o = "v"%char) then
    parse_number "verbosity" optarg 0 4 (λ z, mret (Continue (mkInfo (cfg i) (set_verbosity z (log i)))))
  else if decide (o = "l"%char) then
    r ← log_set_file (log i) (Some optarg);
    if negb (r.2 =? 0) then die ("Unable to open log file: " +:+ optarg +:+ String (chr 10) EmptyString)
    else mret (Continue (mkInfo (cfg i) r.1))
  else if decide (o = "M"%char ∨ o = "P"%char ∨ o = "K"%char) then mret (Continue i)
  else mret (Exit (usage exe)).

Fixpoint parse_options (exe : string) (opts : list (ascii * string)) (i : Info) : C (Outcome Info) :=
  match opts with
  | [] => mret (Continue i)
  | opt :: opts =>
      r ← parse_option exe opt i;
      match r with Continue i => parse_options exe opts i | Exit out => mret (Exit out) end
  end.

Definition pulsar_parse_args (exe : string) (opts : list (ascii * string)) : C (Outcome Info) :=
  g ← log_new (Some "log/pulsar.log") PULSAR_DEBUG;
  s ← strdup WEBSERVER_DEFAULT_IP;
  c ← conf_new s WEBSERVER_DEFAULT_PORT WEBSERVER_DEFAULT_WORKERS;
  match g, c with
  | Some g, Some c => parse_options exe opts (mkInfo c g)
  | _, _ => die ("Unable to allocate server configuration" +:+ String (chr 10) EmptyString)
  end.
End pulsar.
Arguments C L A : clear implicits.

(** ** What is held *)

(** C functions hold nothing but what their arguments and results name. *)
#[export] Instance unit_owner : Owner () := λ _, [].

Section held.
Context {L : Type} `{Kernel L}.
Implicit Types (x : list Handle).

Definition held x : Env () L → Prop := owning x (λ _, True).

(** From the handles [x] to those the result tells; [E] says how else it may
    end. *)
Definition runs {A} (E : exn → Env () L → Prop) (x : list Handle) (m : Method () L A)
    (y : A → list Handle) : Prop :=
  spec (held x) m (λ a, held (y a)) E.

Context {E : exn → Env () L → Prop}.

Lemma held_perm x x' s : x ≡ₚ x' → held x s → held x' s.
Proof. intros Hx [Hs _]. split; [|done]. by rewrite Hs, Hx. Qed.

Lemma held_iff x s : held x s ↔ (sys s).2 ≡ₚ x.
Proof.
  unfold held, owning, owes, unit_owner. rewrite app_nil_r. naive_solver.
Qed.

Lemma runs_bind {A B} x (m : Method () L A) y (k : A → Method () L B) z :
  runs E x m y → (∀ a, runs E (y a) (k a) z) → runs E x (m ≫= k) z.
Proof. apply spec_bind. Qed.

Lemma runs_ret {A} x (a : A) y : x ≡ₚ y a → runs E x (mret a) y.
Proof. intros Hx. apply spec_ret. intros s. by apply held_perm. Qed.

Lemma runs_perm {A} x x' (m : Method () L A) y : runs E x' m y → x ≡ₚ x' → runs E x m y.
Proof.
  intros Hm Hx. apply (spec_conseq _ _ _ _ _ _ _ Hm); [|done|done]. intros s. by apply held_perm.
Qed.

Lemma runs_post {A} x (m : Method () L A) y y' : runs E x m y → (∀ a, y a ≡ₚ y' a) → runs E x m y'.
Proof. intros Hm Hy. apply (spec_conseq _ _ _ _ _ _ _ Hm); [done| |done]. intros a s. by apply held_perm. Qed.

Lemma runs_call {A} (f : L → A * L) x : runs E x (call f) (λ _, x).
Proof. apply spec_call. Qed.

Lemma runs_get_errno x : runs E x get_errno (λ _, x).
Proof. by intros s Hs. Qed.

Lemma runs_print t x : runs E x (print_stderr t) (λ _, x).
Proof. by intros s Hs. Qed.

Lemma runs_acquire h x : runs E x (acquire h) (λ _, h :: x).
Proof. apply spec_acquire. Qed.

Lemma runs_release h x y : x ≡ₚ h :: y → runs E x (release h) (λ _, y).
Proof. intros Hx. eapply runs_perm; [apply spec_release|done]. Qed.
End held.

Section pulsar_proofs.
Context {L : Type} `{Libc L}.
Context {E : exn → Env () L → Prop}.
Implicit Types (x : list Handle) (c : conf) (g : logger).

Definition address_handle (p : option Z) : list Handle := match p with Some a => [Memory a] | None => [] end.
Definition conf_handles c : list Handle := address_handle (fst <$> ip c) ++ [Memory (cfg_at c)].
Definition fd_handle (fd : Z) : list Handle := if owned_fd fd then [FileDescriptor fd] else [].
Definition log_handles g : list Handle := fd_handle (log_fd g) ++ [Memory (log_at g)].

Lemma runs_allocate x : runs E x allocate (λ p, address_handle p ++ x).
Proof.
  eapply runs_bind; [apply runs_call|]. intros [a|]; [|by apply runs_ret].
  eapply runs_bind; [apply runs_acquire|]. intros []. by apply runs_ret.
Qed.

Lemma runs_free p x y : x ≡ₚ address_handle p ++ y → runs E x (free p) (λ _, y).
Proof. intros Hx. destruct p; [by apply runs_release|by apply runs_ret]. Qed.

Lemma runs_strdup t x : runs E x (strdup t) (λ p, address_handle (fst <$> p) ++ x).
Proof. eapply runs_bind; [apply runs_allocate|]. intros p. apply runs_ret. by destruct p. Qed.

Lemma runs_conf_free c x y : x ≡ₚ conf_handles c ++ y → runs E x (conf_free c) (λ _, y).
Proof.
  intros Hx. eapply runs_bind.
  - apply (runs_free _ _ (Memory (cfg_at c) :: y)). rewrite Hx. unfold conf_handles. by rewrite <-app_assoc.
  - intros []. by apply runs_release.
Qed.

Lemma runs_conf_new i p n x y :
  x ≡ₚ address_handle (fst <$> i) ++ y →
  runs E x (conf_new i p n) (λ r, match r with Some c => conf_handles c ++ y | None => y end).
Proof.
  intros Hx. eapply runs_bind; [apply runs_allocate|]. intros [a|].
  - apply runs_ret. cbn. rewrite Hx. unfold conf_handles. cbn. solve_Permutation.
  - eapply runs_bind; [by apply (runs_free _ _ y)|]. intros []. by apply runs_ret.
Qed.

Lemma runs_close_log g x y : x ≡ₚ fd_handle (log_fd g) ++ y → runs E x (close_log g) (λ _, y).
Proof.
  intros Hx. unfold close_log. unfold fd_handle in Hx.
  destruct (owned_fd (log_fd g)); [by apply runs_release|by apply runs_ret].
Qed.

Definition option_handles {A} (h : A → list Handle) (o : option A) : list Handle :=
  match o with Some a => h a | None => [] end.

Lemma runs_log_free (g : option logger) x y : x ≡ₚ option_handles log_handles g ++ y → runs E x (log_free g) (λ _, y).
Proof.
  intros Hx. destruct g as [g|]; [|by apply runs_ret].
  eapply runs_bind.
  - apply (runs_close_log g _ (Memory (log_at g) :: y)). rewrite Hx. cbn. unfold log_handles.
    by rewrite <-app_assoc.
  - intros []. by apply runs_release.
Qed.

Lemma runs_log_set_file g f x y :
  x ≡ₚ log_handles g ++ y → runs E x (log_set_file g f) (λ r, log_handles r.1 ++ y).
Proof.
  intros Hx. eapply runs_bind.
  { apply (runs_close_log g _ (Memory (log_at g) :: y)). rewrite Hx. unfold log_handles. by rewrite <-app_assoc. }
  intros []. destruct f as [path|]; [|by apply runs_ret].
  eapply runs_bind; [apply runs_call|]. intros fd.
  apply (runs_bind _ _ (λ _, fd_handle fd ++ Memory (log_at g) :: y)).
  - unfold fd_handle. destruct (owned_fd fd); [apply runs_acquire|by apply runs_ret].
  - intros []. apply runs_ret. unfold log_handles. cbn. by rewrite <-app_assoc.
Qed.

Lemma runs_log_new f level x : runs E x (log_new f level) (λ r, option_handles log_handles r ++ x).
Proof.
  eapply runs_bind; [apply runs_allocate|]. intros [a|]; [|by apply runs_ret].
  eapply runs_bind; [apply runs_call|]. intros pid.
  eapply runs_bind; [by apply (runs_log_set_file _ _ _ x)|]. intros r. by apply runs_ret.
Qed.
End pulsar_proofs.

(** ** The log stays inside of its buffers *)

Section log.
Context {L : Type} `{Libc L}.
Implicit Types (g : logger).

(** Whatever the text, the time and the process, the line is shorter than the
    buffer it goes through, so that [write] reads nothing past it. *)
Lemma log_line_fits g level body time :
  0 <= level <= PULSAR_DEBUG → - 2 ^ 31 <= self g < 2 ^ 31 →
  ∃ line, log_line g level body time = Ok line ∧ (String.length line <= 207)%nat.
Proof.
  unfold PULSAR_DEBUG. intros Hl Hs. unfold log_line.
  destruct (lookup_lt_is_Some_2 level_marks (Z.to_nat level)) as [mark Hm]; [cbn; lia|]. rewrite Hm.
  assert (0 <= mark < 100) as Hmark.
  { apply list_elem_of_lookup_2 in Hm. unfold level_marks in Hm.
    repeat (apply elem_of_cons in Hm as [->|Hm]; [lia|]). by apply elem_of_nil in Hm. }
  set (msg := snprintf_s _ body). set (line := _ +:+ _).
  assert (String.length line <= 207)%nat as Hlen.
  { pose proof (print_int_length (self g) Hs) as H1.
    assert (String.length (print_int mark) <= 2)%nat as H2.
    { unfold print_int. destruct (Z.ltb_spec mark 0); [lia|].
      by apply (print_dec_length 1 100 mark). }
    pose proof (snprintf_s_length 64 time ltac:(lia)) as H3.
    assert (String.length msg < 124)%nat as H4.
    { pose proof (snprintf_s_length (Nat.min 124 (S (String.length body))) body ltac:(lia)). unfold msg. lia. }
    unfold line. rewrite !length_append_str. cbn [String.length]. lia. }
  destruct (Nat.ltb_spec (String.length line) 256); [|lia]. by exists line.
Qed.
End log.

(** ** The command line *)

Section options.
Context {L : Type} `{Libc L}.
Implicit Types (x : list Handle) (i : Info) (opts : list (ascii * string)).

Definition info_handles i : list Handle := conf_handles (cfg i) ++ log_handles (log i).

(** The options that are taken. *)
Definition accepts (opt : ascii * string) : bool :=
  let '(o, optarg) := opt in
  if decide (o = "p"%char) then bool_decide (is_Some (in_range optarg 1 65535))
  else if decide (o = "w"%char) then bool_decide (is_Some (in_range optarg 1 64))
  else if decide (o = "v"%char) then bool_decide (is_Some (in_range optarg 0 4))
  else bool_decide (o ∈ ["b"; "l"; "M"; "P"; "K"]%char).

(** The last number an option gives, and the last text. *)
Definition last_number (o : ascii) (lo hi : Z) (d : Z) opts : Z :=
  foldl (λ d opt, if decide (opt.1 = o) then default d (in_range opt.2 lo hi) else d) d opts.
Definition last_text (o : ascii) (d : option string) opts : option string :=
  foldl (λ d opt, if decide (opt.1 = o) then Some opt.2 else d) d opts.

Definition ranges i : Prop :=
  1 <= port (cfg i) <= 65535 ∧ 1 <= workers (cfg i) <= 64 ∧ 0 <= verbosity (log i) <= 4 ∧
  - 2 ^ 31 <= self (log i) < 2 ^ 31.

(** What the options make of the settings. *)
Definition settings_after opts i i' : Prop :=
  port (cfg i') = last_number "p" 1 65535 (port (cfg i)) opts ∧
  workers (cfg i') = last_number "w" 1 64 (workers (cfg i)) opts ∧
  verbosity (log i') = last_number "v" 0 4 (verbosity (log i)) opts ∧
  snd <$> ip (cfg i') = last_text "b" (snd <$> ip (cfg i)) opts.

(** There is memory, and files can be opened. *)
Definition roomy : Prop := (∀ l : L, (malloc l).1 ≠ None) ∧ ∀ path (l : L), 0 <= (file_open path l).1.

Definition never (e : exn) (s : Env () L) : Prop := False.

Lemma in_range_bounds value lo hi z : in_range value lo hi = Some z → lo <= z <= hi.
Proof.
  unfold in_range. destruct (strto_scan _ _) as [[[neg v] [|]]|]; try done.
  destruct (clamp_signed _ _ _ _) as [y e]. destruct e; [done|]. cbn [orb].
  destruct (Z.ltb_spec y lo); [done|]. destruct (Z.ltb_spec hi y); [done|]. intros [= <-]. lia.
Qed.

(** What an option leads to: the settings after it, or the exit. *)
Definition option_post x opts i (r : Outcome Info) (s : Env () L) : Prop :=
  match r with
  | Continue i' => forallb accepts opts = true ∧ settings_after opts i i' ∧ ranges i' ∧
                   held (info_handles i' ++ x) s
  | Exit _ => roomy → forallb accepts opts = false
  end.

Lemma parse_number_spec {A} name value lo hi (k : Z → C L (Outcome A)) P Q :
  (∀ z, in_range value lo hi = Some z → spec P (k z) Q never) →
  (∀ s, in_range value lo hi = None → Q (Exit EmptyString) s) →
  spec P (parse_number name value lo hi k) Q never.
Proof.
  intros Hk Hn. unfold parse_number. destruct (in_range value lo hi) as [z|]; [by apply Hk|].
  intros s _. by apply Hn.
Qed.

(** A call, and what it answered. *)
Lemma spec_call_value {A} (f : L → A * L) x E :
  spec (held x) (call f) (λ a s, held x s ∧ ∃ l, a = (f l).1) E.
Proof. intros s Hs. unfold call. destruct (f (sys s).1) as [a l] eqn:F. split; [done|]. exists (sys s).1. by rewrite F. Qed.

Lemma spec_held {A} x m y (E : exn → Env () L → Prop) (Q : A → Env () L → Prop) :
  runs E x m y → (∀ a s, held (y a) s → Q a s) → spec (held x) m Q E.
Proof. intros Hm HQ. by apply (spec_conseq _ _ _ _ _ _ _ Hm). Qed.

Lemma spec_allocate x E :
  spec (held x) allocate (λ p s, held (address_handle p ++ x) s ∧ (p = None → ¬ roomy)) E.
Proof.
  eapply spec_bind; [apply spec_call_value|]. intros [a|] s [Hs [l Hl]].
  - split; [|done]. exact (spec_acquire (Memory a) x (λ _, True) E s Hs).
  - split; [done|]. intros _ [Hroom _]. by apply (Hroom l).
Qed.

(** One field of the settings. *)
Ltac settings := unfold settings_after, last_number, last_text; cbn;
  repeat (case_decide; simplify_eq; try done); split_and!; try done.

Lemma spec_die {A} message P (Q : Outcome A → Env () L → Prop) E :
  (∀ s, Q (Exit EmptyString) s) → spec P (die message) Q E.
Proof. intros HQ s _. apply HQ. Qed.

Lemma spec_log_set_file g f x y E :
  x ≡ₚ log_handles g ++ y →
  spec (held x) (log_set_file g f)
    (λ r s, held (log_handles r.1 ++ y) s ∧ verbosity r.1 = verbosity g ∧
            self r.1 = self g ∧ (roomy → r.2 = 0)) E.
Proof.
  intros Hx. eapply spec_bind.
  { apply (runs_close_log g _ (Memory (log_at g) :: y)). rewrite Hx. unfold log_handles. by rewrite <-app_assoc. }
  intros []. destruct f as [path|]; [|apply spec_ret; intros s Hs; by split_and!].
  eapply spec_bind; [apply spec_call_value|]. intros fd.
  apply (spec_bind _ _ (λ _ s, held (fd_handle fd ++ Memory (log_at g) :: y) s ∧ ∃ l, fd = (file_open path l).1)).
  - intros s [Hs Hfd]. unfold fd_handle. destruct (owned_fd fd); [|by split].
    split; [|done]. exact (spec_acquire (FileDescriptor fd) _ (λ _, True) E s Hs).
  - intros []. apply spec_ret. intros s [Hs [l Hl]]. split_and!.
    + unfold log_handles. cbn. by rewrite <-app_assoc.
    + done.
    + done.
    + intros [_ Hf]. cbn. specialize (Hf path l). destruct (Z.ltb_spec fd 0); [lia|done].
Qed.

Lemma spec_strdup t x E :
  spec (held x) (strdup t)
    (λ r s, held (address_handle (fst <$> r) ++ x) s ∧
            match r with Some (_, t') => t' = t | None => ¬ roomy end) E.
Proof.
  eapply spec_bind; [apply spec_allocate|]. intros p. apply spec_ret. intros s [Hs Hp].
  destruct p; [done|]. split; [done|by apply Hp].
Qed.

(** An option with a number: it is set when it is in its range. *)
Ltac number_option :=
  apply parse_number_spec;
  [ intros z Hz; apply spec_ret; intros s Hs; pose proof (in_range_bounds _ _ _ _ Hz);
    cbn; rewrite Hz, ?u16_small, ?s32_small by lia;
    split_and!; [done|settings; by rewrite Hz, ?u16_small, ?s32_small by lia|unfold ranges in *; cbn; lia|done]
  | intros s Hz; cbn; by rewrite Hz ].

Lemma parse_option_spec exe opt x i :
  ranges i → spec (held (info_handles i ++ x)) (parse_option exe opt i) (option_post x [opt] i) never.
Proof.
  intros Hr. destruct opt as [o optarg]. unfold parse_option.
  destruct (decide (o = "b"%char)) as [->|Hb].
  { eapply spec_bind.
    { apply (runs_free _ _ (Memory (cfg_at (cfg i)) :: log_handles (log i) ++ x)).
      unfold info_handles, conf_handles. solve_Permutation. }
    intros []. eapply spec_bind; [apply spec_strdup|]. intros [[a t]|] s [Hs Ht];
      [|intros Hroom; by destruct Ht].
    subst t. cbn. split_and!; [done|settings|done|]. revert Hs. apply held_perm.
    unfold info_handles, conf_handles. cbn. solve_Permutation. }
  destruct (decide (o = "p"%char)) as [->|Hp]; [number_option|].
  destruct (decide (o = "w"%char)) as [->|Hw]; [number_option|].
  destruct (decide (o = "v"%char)) as [->|Hv]; [number_option|].
  assert (accepts (o, optarg) = bool_decide (o ∈ ["b"; "l"; "M"; "P"; "K"]%char)) as Hacc.
  { unfold accepts. by rewrite !decide_False by done. }
  destruct (decide (o = "l"%char)) as [->|Hl].
  { eapply spec_bind.
    { apply (spec_log_set_file _ _ _ (conf_handles (cfg i) ++ x)). unfold info_handles. solve_Permutation. }
    intros [g rc] s (Hs & Hverb & Hself & Hrc). cbn in Hs, Hverb, Hself, Hrc. cbn [snd fst].
    destruct (Z.eqb_spec rc 0) as [->|Hne]; cbn [negb].
    - cbn [mret Method_ret option_post forallb]. rewrite Hacc. split_and!; [done|settings|unfold ranges in *; cbn; lia|].
      revert Hs. apply held_perm. unfold info_handles. cbn. solve_Permutation.
    - intros Hroom. by destruct Hne; apply Hrc. }
  destruct (decide (_ ∨ _)) as [HM|HM].
  - apply spec_ret. intros s Hs. split_and!; [| |done|done].
    + cbn [forallb]. rewrite Hacc. destruct HM as [-> | [-> | ->]]; done.
    + settings.
  - apply spec_ret. intros s Hs _. cbn [forallb]. rewrite Hacc, bool_decide_false; [done|].
    rewrite !elem_of_cons, elem_of_nil. intros Ho. destruct_or! Ho; try done; by destruct HM; auto.
Qed.

Lemma parse_options_spec exe opts x i :
  ranges i →
  spec (held (info_handles i ++ x)) (parse_options exe opts i) (option_post x opts i) never.
Proof.
  revert i. induction opts as [|opt opts IH]; intros i Hr; cbn [parse_options].
  { apply spec_ret. intros s Hs. cbn. split_and!; [done|settings|done..]. }
  eapply spec_bind; [by apply parse_option_spec|]. intros [i1|out] s; cbn [option_post].
  - intros (Ha & (S1 & S2 & S3 & S4) & Hr1 & Hs). cbn [forallb] in Ha. rewrite andb_true_r in Ha.
    pose proof (IH i1 Hr1 s Hs) as Hi. destruct (parse_options exe opts i1 s) as [[[i2|out]|e] s2]; [| |done].
    + destruct Hi as (Ha2 & (T1 & T2 & T3 & T4) & Hr2 & Hs2). cbn [option_post forallb]. rewrite Ha.
      split_and!; [done| |done|done]. unfold settings_after, last_number, last_text in *. cbn in *.
      by rewrite T1, T2, T3, T4, S1, S2, S3, S4.
    + intros Hroom. cbn [option_post forallb]. rewrite Ha. by apply Hi.
  - intros Hout. cbn [mret Method_ret option_post]. intros Hroom. specialize (Hout Hroom). cbn [forallb] in *.
    rewrite andb_true_r in Hout. by rewrite Hout.
Qed.

Lemma spec_log_new f level x E :
  spec (held x) (log_new f level)
    (λ r s, held (option_handles log_handles r ++ x) s ∧
            match r with
            | Some g => verbosity g = level ∧ - 2 ^ 31 <= self g < 2 ^ 31
            | None => ¬ roomy
            end) E.
Proof.
  eapply spec_bind; [apply spec_allocate|].
  intros [a|] s [Hs Ha]; [|split; [done|by apply Ha]].
  clear Ha. revert s Hs. eapply spec_bind; [apply spec_call_value|]. intros pid s [Hs [l Hl]]. revert s Hs.
  pose proof (getpid_int l) as Hpid. rewrite <-Hl in Hpid.
  eapply spec_bind; [by apply (spec_log_set_file _ _ _ x)|].
  intros r. apply spec_ret. intros s (Hs & Hv & Hp & _). by rewrite Hp.
Qed.

Lemma spec_conf_new (i : option (Z * string)) p n x y E :
  x ≡ₚ address_handle (fst <$> i) ++ y →
  spec (held x) (conf_new i p n)
    (λ r s, match r with
            | Some c => held (conf_handles c ++ y) s ∧ ip c = i ∧ port c = p ∧ workers c = n
            | None => ¬ roomy
            end) E.
Proof.
  intros Hx. eapply spec_bind; [apply spec_allocate|]. intros [a|] s [Hs Ha].
  - split_and!; [|done..]. revert Hs. apply held_perm. cbn. rewrite Hx. unfold conf_handles. cbn.
    solve_Permutation.
  - specialize (Ha eq_refl). revert s Hs. eapply spec_bind; [by apply (runs_free _ _ y)|].
    intros []. by apply spec_ret.
Qed.

Lemma pulsar_parse_args_spec exe opts x :
  spec (held x) (pulsar_parse_args exe opts)
    (λ r s, match r with
            | Continue _ =>
                ∃ i0, ranges i0 ∧ port (cfg i0) = 80 ∧ workers (cfg i0) = 4 ∧ verbosity (log i0) = 4 ∧
                  (roomy → snd <$> ip (cfg i0) = Some WEBSERVER_DEFAULT_IP) ∧ option_post x opts i0 r s
            | Exit _ => roomy → forallb accepts opts = false
            end) never.
Proof.
  unfold pulsar_parse_args. eapply spec_bind; [apply spec_log_new|]. intros g.
  intros s [Hs Hg]. revert s Hs.
  eapply spec_bind; [apply spec_strdup|]. intros ipd s [Hs Hip]. revert s Hs.
  eapply spec_bind; [by apply spec_conf_new|].
  intros [c|]; [|intros s Hn; destruct g; intros Hroom; by destruct Hn].
  intros s (Hs & Ei & Ep & En). revert s Hs.
  destruct g as [g|]; [|apply spec_die; intros s Hroom; by destruct Hg].
  assert (ranges (mkInfo c g)) as Hr.
  { destruct Hg as [Hg Hp]. unfold ranges. cbn. rewrite Ep, En, Hg. unfold WEBSERVER_DEFAULT_PORT, WEBSERVER_DEFAULT_WORKERS, PULSAR_DEBUG. lia. }
  eapply spec_conseq; [exact (parse_options_spec exe opts x (mkInfo c g) Hr)| | |done].
  - intros s. apply held_perm. unfold info_handles. cbn. solve_Permutation.
  - intros [i|out] s Hi; [|exact Hi]. exists (mkInfo c g). destruct Hg as [Hg _]. split_and!; try done.
    intros Hroom. cbn. rewrite Ei. destruct ipd as [[a t']|]; [|by destruct Hip]. by subst.
Qed.
End options.

(** C36: The command line of the web server, for every list of options: either
    the program goes on, and then every option was known with its numbers in
    range, port, workers and verbosity are those of the last option that gives
    them or the defaults, always within 1 to 65535, 1 to 64 and 0 to 4, the
    address is the last one given, and what is held is the configuration and the
    log, earlier addresses and log files having been given back; or it exits, and
    then, unless memory ran out or the log could not be opened, some option was
    not acceptable. Options of the MQTT client are let through. *)
Theorem command_line {L} `{Libc L} exe (opts : list (ascii * string)) x (s : Env () L) :
  (sys s).2 ≡ₚ x →
  match pulsar_parse_args exe opts s with
  | (Ok (Continue i), s) =>
      forallb accepts opts = true ∧ ranges i ∧
      port (cfg i) = last_number "p" 1 65535 80 opts ∧
      workers (cfg i) = last_number "w" 1 64 4 opts ∧
      verbosity (log i) = last_number "v" 0 4 4 opts ∧
      (roomy (L := L) → snd <$> ip (cfg i) = last_text "b" (Some "0.0.0.0") opts) ∧
      (sys s).2 ≡ₚ x ++ conf_handles (cfg i) ++ log_handles (log i)
  | (Ok (Exit out), s) => roomy (L := L) → forallb accepts opts = false
  | (Throw e, s) => False
  end.
Proof.
  intros Hx%held_iff. pose proof (pulsar_parse_args_spec exe opts x s Hx) as Hp.
  destruct (pulsar_parse_args exe opts s) as [[[i|out]|e] s']; [|exact Hp|exact Hp].
  destruct Hp as (i0 & Hr0 & E1 & E2 & E3 & E4 & Ha & (S1 & S2 & S3 & S4) & Hr & Hs).
  rewrite E1 in S1. rewrite E2 in S2. rewrite E3 in S3. split_and!; try done.
  - intros Hroom. by rewrite S4, E4.
  - apply held_iff in Hs. rewrite Hs. unfold info_handles. solve_Permutation.
Qed.

(** A system for which there is always memory: addresses are counted. *)
Module Demo.
Definition next (l : Z) : Z * Z := (l, l + 1).

#[export] Instance kernel : Kernel Z := {|
  strerror e := "error " +:+ print_int e;
  errno _ := 0;
  clear_errno l := l;
  lib_release _ l := l;
  glob _ l := ((GLOB_NOMATCH, []), l);
  file_open _ := next;
|}.

#[export] Program Instance libc : Libc Z := {|
  libc_kernel := kernel;
  malloc l := (Some l, l + 1);
  getpid l := (1234, l);
  now_text l := ("01 Jan 00:00:00", l);
  file_write _ _ l := (0, l);
  fsync _ l := (0, l);
|}.
Next Obligation. done. Qed.

Definition opts : list (ascii * string) :=
  [("p"%char, "8080"); ("K"%char, "60"); ("b"%char, "127.0.0.1"); ("p"%char, "65535");
   ("l"%char, "/tmp/log")].

Definition summary (r : res (Outcome Info) * Env () Z) : option (Z * Z * option string * nat) :=
  match r with
  | (Ok (Continue i), s) => Some (port (cfg i), workers (cfg i), snd <$> ip (cfg i), length (sys s).2)
  | _ => None
  end.

(** The last port and the last address; four handles besides the one that was
    there; no port above the range. *)
Lemma command_line_witness :
  summary (pulsar_parse_args "oclock" opts (mkEnv () (100, [Mapping]) [])) =
    Some (65535, 4, Some "127.0.0.1", 5%nat) ∧
  (let r := pulsar_parse_args "oclock" [("p"%char, "65536")] (mkEnv () (100, [Mapping]) []) in
   match r with
   | (Ok (Continue i), _) => False
   | (Ok (Exit out), s) => out = EmptyString ∧ stderr_ s ≠ []
   | (Throw _, _) => False
   end) ∧
  match pulsar_parse_args "oclock" opts (mkEnv () (100, [Mapping]) []) with
  | (Ok (Continue i), s) => forallb accepts opts = true ∧ ranges i
  | _ => True
  end.
Proof.
  split; [vm_compute; reflexivity|]. split; [vm_compute; split; [reflexivity|discriminate]|].
  pose proof (command_line (L := Z) "oclock" opts [Mapping] (mkEnv () (100, [Mapping]) [])
    (Permutation_refl _)) as Hc.
  destruct (pulsar_parse_args "oclock" opts _) as [[[i|out]|e] s]; [|exact I|exact I].
  destruct Hc as (Ha & Hr & _). split; [exact Ha|exact Hr].
Defined.
End Demo.
