(* ===== verification/Server.v ===== *)
(** * The web server's life: src/pulsar/server.c, src/pulsar/worker.c, and
      [pulsar_main] of src/pulsar/pulsar.c

    The listening socket, the worker threads with their socket pairs, the start
    and the end. The functions take and give back the structs they change; a
    worker thread's body runs where it is joined: until then it touches only its
    own base, server, event and end of the socket pair, and its maker touches
    none of these. *)
From S2P Require Import Prelude CLib System Pulsar.

(** libevent, sockets and threads. [send_stop] is the [send] of the stop byte;
    [pthread_create] gives its error and the thread. *)
Class Libevent (L : Type) := {
  libevent_libc :: Libc L;
  inet_pton : string → option Z;
  socket : L → Z * L;
  setsockopt : Z → L → Z * L;
  make_socket_nonblocking : Z → L → Z * L;
  bind : Z → Z → Z → L → Z * L;
  listen : Z → L → Z * L;
  socketpair : L → option (Z * Z) * L;
  send_stop : Z → L → Z * L;
  pthread_self : L → Z * L;
  pthread_create : L → (Z * Z) * L;
  pthread_kill : Z → L → Z * L;
  event_base_new : L → option Z * L;
  event_base_dispatch : Z → L → Z * L;
  event_new : Z → L → option Z * L;
  event_add : Z → L → Z * L;
  event_del : Z → L → L;
  evhttp_new : Z → L → option Z * L;
  evhttp_accept_socket : Z → Z → L → Z * L;
  (** A descriptor is not negative, and -1 is the only failure of [socket]. *)
  socketpair_fds l a b : (socketpair l).1 = Some (a, b) → 0 <= a ∧ 0 <= b;
  socket_fd l : -1 <= (socket l).1;
}.

Definition EAGAIN : Z := 11.
Definition s16 (z : Z) : Z := swrap 16 z.

(** [struct _worker]; [stop_sent] tells whether a byte waits at the first
    socket. *)
Record worker := mkWorker {
  w_at : Z;
  thread : Z;
  started : bool;
  stopRequested : bool;
  stopSocket0 : Z;
  stopSocket1 : Z;
  base : option Z;
  stopEvent : option Z;
  http : option Z;
  stop_sent : bool;
}.

Definition set_sockets (a b : Z) (w : worker) : worker :=
  mkWorker (w_at w) (thread w) (started w) (stopRequested w) a b (base w) (stopEvent w) (http w) (stop_sent w).
Definition set_started (t : Z) (b : bool) (w : worker) : worker :=
  mkWorker (w_at w) t b (stopRequested w) (stopSocket0 w) (stopSocket1 w) (base w) (stopEvent w) (http w)
    (stop_sent w).
Definition set_stopped (w : worker) : worker :=
  mkWorker (w_at w) (thread w) (started w) true (stopSocket0 w) (stopSocket1 w) (base w) (stopEvent w)
    (http w) true.

(** [struct _server] *)
Record server := mkServer {
  s_at : Z;
  s_thread : Z;
  s_cfg : conf;
  s_fd : Z;
  s_base : option Z;
  signalInt : option Z;
  signalHup : option Z;
  array_at : Z;
  s_workers : list worker;
  s_log : logger;
}.

Definition set_s_base (b : option Z) (s : server) : server :=
  mkServer (s_at s) (s_thread s) (s_cfg s) (s_fd s) b (signalInt s) (signalHup s) (array_at s) (s_workers s) (s_log s).
Definition set_s_fd (fd : Z) (s : server) : server :=
  mkServer (s_at s) (s_thread s) (s_cfg s) fd (s_base s) (signalInt s) (signalHup s) (array_at s) (s_workers s) (s_log s).
Definition set_signals (a b : option Z) (s : server) : server :=
  mkServer (s_at s) (s_thread s) (s_cfg s) (s_fd s) (s_base s) a b (array_at s) (s_workers s) (s_log s).
Definition set_s_workers (ws : list worker) (s : server) : server :=
  mkServer (s_at s) (s_thread s) (s_cfg s) (s_fd s) (s_base s) (signalInt s) (signalHup s) (array_at s) ws (s_log s).

Section server.
Context {L : Type} `{Libevent L}.

(** What a library function allocates. *)
Definition make (f : L → option Z * L) (mk : Z → Handle) : C L (option Z) :=
  p ← call f; match p with Some h => acquire (mk h);; mret (Some h) | None => mret None end.
Definition drop (mk : Z → Handle) (p : option Z) : C L () :=
  match p with Some h => release (mk h) | None => mret () end.
Definition close_socket (fd : Z) : C L () :=
  if 0 <=? fd then release (FileDescriptor fd) else mret ().

(** [assert] *)
Definition assert_some {A} (p : option A) : C L A :=
  match p with Some a => mret a | None => throw AssertionFailed end.
Definition assert_zero (rc : Z) : C L () := if rc =? 0 then mret () else throw AssertionFailed.

(** ** worker.c *)

Definition worker_new : C L (option worker) :=
  p ← allocate;
  mret ((λ a, mkWorker a 0 false false (-1) (-1) None None None false) <$> p).

(** [return errno != 0 ? errno : -1;] *)
Definition errno_or_minus_one : C L Z := e ← get_errno; mret (if e =? 0 then -1 else e).

Definition worker_start (w : worker) : C L (Z * worker) :=
  pair ← call socketpair;
  match pair with
  | None => rc ← errno_or_minus_one; mret (rc, w)
  | Some (a, b) =>
      acquire (FileDescriptor a);; acquire (FileDescriptor b);;
      rc ← call (make_socket_nonblocking a);
      rc ← (if negb (rc =? 0) then mret rc else call (make_socket_nonblocking b));
      if negb (rc =? 0) then
        release (FileDescriptor a);; release (FileDescriptor b);;
        rc ← errno_or_minus_one; mret (rc, set_sockets (-1) (-1) w)
      else
        r ← call pthread_create;
        if negb (r.1 =? 0) then
          release (FileDescriptor a);; release (FileDescriptor b);;
          mret (r.1, set_started (thread w) false (set_sockets (-1) (-1) w))
        else
          acquire (Joinable r.2);;
          mret (0, set_started r.2 true (set_sockets a b w))
  end.

(** The loop that sends the stop byte: its result, and [errno]. *)
Fixpoint send_stop_loop (fuel : nat) (fd : Z) : C L (Z * Z) :=
  match fuel with
  | O => throw (Undefined "interrupted forever")
  | S fuel =>
      rc ← call (send_stop fd);
      e ← get_errno;
      if (rc <? 0) && (e =? EINTR) then send_stop_loop fuel fd else mret (rc, e)
  end.

Definition worker_stop (fuel : nat) (w : worker) : C L (Z * worker) :=
  if negb (started w) || stopRequested w then mret (0, w)
  else
    r ← send_stop_loop fuel (stopSocket1 w);
    if (0 <=? r.1) || (r.2 =? EAGAIN) then mret (0, set_stopped w) else mret (-1, w).

(** [worker_main], the thread's body; the loop ends when the stop byte is
    there. *)
Definition worker_main (fd : Z) (w : worker) : C L worker :=
  p ← make event_base_new EventBase; b ← assert_some p;
  p ← make (evhttp_new b) HttpServer; h ← assert_some p;
  p ← make (event_new b) Event; e ← assert_some p;
  rc ← call (event_add e); assert_zero rc;;
  rc ← call (evhttp_accept_socket h fd); assert_zero rc;;
  if negb (stop_sent w) then throw (Undefined "a worker that is never told to stop")
  else
    rc ← call (event_base_dispatch b); assert_zero rc;;
    release (HttpServer h);; release (Event e);; release (EventBase b);;
    release (FileDescriptor (stopSocket0 w));;
    mret (mkWorker (w_at w) (thread w) (started w) (stopRequested w) (-1) (stopSocket1 w) None None None
            false).

Definition pthread_join (fd : Z) (w : worker) : C L worker :=
  w ← worker_main fd w; release (Joinable (thread w));; mret w.

Definition worker_free (fuel : nat) (fd : Z) (w : worker) : C L () :=
  w ← (if started w then r ← worker_stop fuel w; pthread_join fd r.2 else mret w);
  close_socket (stopSocket0 w);;
  close_socket (stopSocket1 w);;
  drop HttpServer (http w);;
  drop Event (stopEvent w);;
  drop EventBase (base w);;
  release (Memory (w_at w)).

(** ** server.c *)

(** The socket, or -1; the port is a [short] that [htons] takes as an unsigned
    number. *)
Definition server_setup_socket (ip : option (Z * string)) (port : Z) : C L Z :=
  let port := u16 (s16 port) in
  match ip with
  | None => throw (Undefined "the address is null")
  | Some (_, text) =>
      match inet_pton text with
      | None => mret (-1)
      | Some addr =>
          fd ← call socket;
          if fd =? -1 then mret (-1)
          else
            acquire (FileDescriptor fd);;
            let failed := release (FileDescriptor fd);; mret (-1) in
            rc ← call (setsockopt fd);
            if rc =? -1 then failed
            else
              rc ← call (make_socket_nonblocking fd);
              if rc =? -1 then failed
              else
                rc ← call (bind fd addr port);
                if rc =? -1 then failed
                else
                  rc ← call (listen fd);
                  if rc =? -1 then failed else mret fd
      end
  end.

Fixpoint free_all (ws : list worker) : C L () :=
  match ws with [] => mret () | w :: ws => release (Memory (w_at w));; free_all ws end.

(** The loop that makes [n] more workers, the last one first in [ws]. *)
Fixpoint new_workers (n : nat) (ws : list worker) : C L (option (list worker)) :=
  match n with
  | O => mret (Some (reverse ws))
  | S n =>
      w ← worker_new;
      match w with
      | None => free_all ws;; mret None
      | Some w => new_workers n (w :: ws)
      end
  end.

Definition server_new (c : conf) (g : logger) : C L (option server) :=
  p ← allocate;
  match p with
  | None => mret None
  | Some a =>
      t ← call pthread_self;
      q ← allocate;
      match q with
      | None => release (Memory a);; mret None
      | Some array =>
          ws ← new_workers (Z.to_nat (workers c)) [];
          match ws with
          | None => release (Memory array);; release (Memory a);; mret None
          | Some ws =>
              log_it g PULSAR_DEBUG "workers initialized ...";;
              mret (Some (mkServer a t c (-1) None None None array ws g))
          end
      end
  end.

Fixpoint stop_workers (fuel : nat) (ws : list worker) : C L (list worker) :=
  match ws with
  | [] => mret []
  | w :: ws => r ← worker_stop fuel w; ws ← stop_workers fuel ws; mret (r.2 :: ws)
  end.

Fixpoint free_workers (fuel : nat) (fd : Z) (ws : list worker) : C L () :=
  match ws with [] => mret () | w :: ws => worker_free fuel fd w;; free_workers fuel fd ws end.

Definition free_signal (p : option Z) : C L () :=
  match p with Some e => call (λ l, ((), event_del e l));; release (Event e) | None => mret () end.

Definition server_free (fuel : nat) (s : server) : C L () :=
  ws ← stop_workers fuel (s_workers s);
  free_workers fuel (s_fd s) ws;;
  free_signal (signalInt s);;
  free_signal (signalHup s);;
  drop EventBase (s_base s);;
  close_socket (s_fd s);;
  release (Memory (array_at s));;
  conf_free (s_cfg s);;
  log_free (Some (s_log s));;
  release (Memory (s_at s)).

(** The loop that starts the workers: whether all did, and the workers. *)
Fixpoint start_workers (ws : list worker) : C L (bool * list worker) :=
  match ws with
  | [] => mret (true, [])
  | w :: ws =>
      r ← worker_start w;
      if negb (r.1 =? 0) then mret (false, r.2 :: ws)
      else r' ← start_workers ws; mret (r'.1, r.2 :: r'.2)
  end.

(** A signal's event, added to the base: whether that worked, and the event. *)
Definition add_signal (b : Z) : C L (bool * option Z) :=
  p ← make (event_new b) Event;
  match p with
  | None => mret (false, None)
  | Some e => rc ← call (event_add e); mret (rc =? 0, Some e)
  end.

(** The server is freed whatever happens. *)
Definition server_start (fuel : nat) (s : server) : C L Z :=
  let failed s := server_free fuel s;; mret (-1) in
  p ← make event_base_new EventBase;
  match p with
  | None => failed s
  | Some b =>
      let s := set_s_base (Some b) s in
      r ← add_signal b;
      let s := set_signals r.2 None s in
      if negb r.1 then failed s
      else
        r' ← add_signal b;
        let s := set_signals r.2 r'.2 s in
        if negb r'.1 then failed s
        else
          fd ← server_setup_socket (ip (s_cfg s)) (port (s_cfg s));
          let s := set_s_fd fd s in
          if fd =? -1 then failed s
          else
            ws ← start_workers (s_workers s);
            let s := set_s_workers ws.2 s in
            if negb ws.1 then failed s
            else
              rc ← call (event_base_dispatch b);
              server_free fuel s;;
              mret (if rc <? 0 then -1 else 0)
  end.

(** [server_stop], called from a worker. *)
Definition server_stop (s : option server) : C L Z :=
  match s with None => mret (-1) | Some s => call (pthread_kill (s_thread s)) end.

(** ** [pulsar_main] *)

Definition EXIT_SUCCESS : Z := 0.
Definition EXIT_FAILURE : Z := 1.

Definition pulsar_main (fuel : nat) (i : Info) : C L Z :=
  s ← server_new (cfg i) (log i);
  match s with
  | None => conf_free (cfg i);; log_free (Some (log i));; mret EXIT_FAILURE
  | Some s => rc ← server_start fuel s; mret (if rc =? 0 then EXIT_SUCCESS else EXIT_FAILURE)
  end.
End server.

(** ** What is held *)

Section server_proofs.
Context {L : Type} `{Libevent L} {E : exn → Env () L → Prop}.
Implicit Types (x y : list Handle) (w : worker) (ws : list worker).

Definition made (mk : Z → Handle) (p : option Z) : list Handle :=
  match p with Some h => [mk h] | None => [] end.
Definition socket_handle (fd : Z) : list Handle := if 0 <=? fd then [FileDescriptor fd] else [].
Definition worker_handles w : list Handle :=
  socket_handle (stopSocket0 w) ++ socket_handle (stopSocket1 w) ++
  made HttpServer (http w) ++ made Event (stopEvent w) ++ made EventBase (base w) ++
  (if started w then [Joinable (thread w)] else []) ++ [Memory (w_at w)].
Definition server_handles (s : server) : list Handle :=
  (s_workers s ≫= worker_handles) ++ made Event (signalInt s) ++ made Event (signalHup s) ++
  made EventBase (s_base s) ++ socket_handle (s_fd s) ++ [Memory (array_at s)] ++
  conf_handles (s_cfg s) ++ log_handles (s_log s) ++ [Memory (s_at s)].

(** A worker as its maker sees it before it is joined. *)
Definition worker_ok w : Prop :=
  base w = None ∧ stopEvent w = None ∧ http w = None ∧
  (started w = true → 0 <= stopSocket0 w) ∧
  (stopRequested w = true → stop_sent w = true).

Lemma runs_make f mk x : runs E x (make f mk) (λ p, made mk p ++ x).
Proof.
  eapply runs_bind; [apply runs_call|]. intros [h|]; [|by apply runs_ret].
  eapply runs_bind; [apply runs_acquire|]. intros []. by apply runs_ret.
Qed.

Lemma runs_drop mk p x y : x ≡ₚ made mk p ++ y → runs E x (drop mk p) (λ _, y).
Proof. intros Hx. destruct p; [by apply runs_release|by apply runs_ret]. Qed.

Lemma runs_close_socket fd x y : x ≡ₚ socket_handle fd ++ y → runs E x (close_socket fd) (λ _, y).
Proof.
  unfold socket_handle, close_socket. intros Hx.
  destruct (0 <=? fd); [by apply runs_release|by apply runs_ret].
Qed.

(** ** Workers *)

(** A worker that has not been started. *)
Definition unstarted w : Prop :=
  worker_ok w ∧ started w = false ∧ stopSocket0 w = -1 ∧ stopSocket1 w = -1.

Lemma spec_worker_new x :
  spec (held x) worker_new
    (λ r s, match r with
            | Some w => held (worker_handles w ++ x) s ∧ unstarted w
            | None => held x s
            end) E.
Proof.
  eapply spec_bind; [apply runs_allocate|]. intros p. apply spec_ret. intros s Hs. by destruct p.
Qed.

Lemma runs_errno_or x : runs E x errno_or_minus_one (λ _, x).
Proof. eapply runs_bind; [apply runs_get_errno|]. intros e. by apply runs_ret. Qed.

Lemma spec_worker_start w x y :
  unstarted w → x ≡ₚ worker_handles w ++ y →
  spec (held x) (worker_start w) (λ r s, held (worker_handles r.2 ++ y) s ∧ worker_ok r.2) E.
Proof.
  intros ((Hb & He & Hh & Hs0 & Hr) & Hst & H0 & H1) Hx.
  assert (worker_handles w = [Memory (w_at w)]) as Hw.
  { unfold worker_handles. by rewrite Hb, He, Hh, Hst, H0, H1. }
  rewrite Hw in Hx.
  assert (worker_handles (set_sockets (-1) (-1) w) = [Memory (w_at w)] ∧
          worker_ok (set_sockets (-1) (-1) w)) as [Hw1 Hok1].
  { unfold worker_handles, worker_ok. cbn. rewrite Hb, He, Hh, Hst. by split_and!. }
  eapply spec_bind; [apply spec_call_value|]. intros [[a b]|] s [Hs [l Hl]]; revert s Hs.
  2:{ eapply spec_bind; [apply (runs_errno_or x)|]. intros rc. apply spec_ret. intros s Hs. cbn. rewrite Hw.
      split; [by apply (held_perm _ _ _ Hx)|by split_and!]. }
  destruct (socketpair_fds l a b (eq_sym Hl)) as [Ha Hb'].
  eapply spec_bind; [apply runs_acquire|]. intros [].
  eapply spec_bind; [apply runs_acquire|]. intros [].
  eapply spec_bind; [apply runs_call|]. intros rc.
  eapply spec_bind.
  { instantiate (1 := λ _, held (FileDescriptor b :: FileDescriptor a :: x)).
    destruct (negb (rc =? 0)); [by apply spec_ret|apply runs_call]. }
  intros rc'. destruct (negb (rc' =? 0)).
  { eapply spec_bind; [apply (runs_release _ _ (FileDescriptor b :: x)); apply Permutation_swap|]. intros [].
    eapply spec_bind; [by apply (runs_release _ _ x)|]. intros [].
    eapply spec_bind; [apply runs_errno_or|]. intros e. apply spec_ret. intros s Hs. cbn [snd]. rewrite Hw1.
    split; [by apply (held_perm _ _ _ Hx)|done]. }
  eapply spec_bind; [apply runs_call|]. intros r. destruct (negb (r.1 =? 0)).
  { eapply spec_bind; [apply (runs_release _ _ (FileDescriptor b :: x)); apply Permutation_swap|]. intros [].
    eapply spec_bind; [by apply (runs_release _ _ x)|]. intros [].
    apply spec_ret. intros s Hs. cbn [snd].
    assert (set_started (thread w) false (set_sockets (-1) (-1) w) = set_sockets (-1) (-1) w) as ->.
    { unfold set_started. cbn. by rewrite <-Hst. }
    rewrite Hw1. split; [by apply (held_perm _ _ _ Hx)|done]. }
  eapply spec_bind; [apply runs_acquire|]. intros []. apply spec_ret. intros s Hs. cbn [snd]. split.
  - revert Hs. apply held_perm. unfold worker_handles, socket_handle. cbn. rewrite Hb, He, Hh, Hx.
    destruct (Z.leb_spec 0 a); [|lia]. destruct (Z.leb_spec 0 b); [|lia]. cbn. solve_Permutation.
  - unfold worker_ok. cbn. by split_and!.
Qed.

(** The stop byte gets through: a signal interrupts [send] less often than the
    fuel allows, and nothing else but a full socket stops it. *)
Fixpoint told (fuel : nat) (fd : Z) (l : L) : bool :=
  match fuel with
  | O => false
  | S fuel =>
      let '(rc, l) := send_stop fd l in
      if (rc <? 0) && (errno l =? EINTR) then told fuel fd l else (0 <=? rc) || (errno l =? EAGAIN)
  end.

Lemma spec_send_stop_loop fuel fd x :
  (∀ l, told fuel fd l = true) →
  spec (held x) (send_stop_loop fuel fd)
    (λ r s, held x s ∧ (0 <=? r.1) || (r.2 =? EAGAIN) = true) E.
Proof.
  intros Ht s Hs. specialize (Ht (sys s).1). revert s Hs Ht.
  induction fuel as [|fuel IH]; intros s Hs Ht; [done|]. cbn [send_stop_loop told] in *.
  unfold call, get_errno, mbind, Method_bind. destruct (send_stop fd (sys s).1) as [rc l] eqn:F. cbn in *.
  destruct ((rc <? 0) && (errno l =? EINTR)); [by apply IH|by split].
Qed.

Lemma spec_worker_stop fuel w x :
  (∀ fd l, told fuel fd l = true) → worker_ok w →
  spec (held x) (worker_stop fuel w)
    (λ r s, held x s ∧ worker_ok r.2 ∧ worker_handles r.2 = worker_handles w ∧
            started r.2 = started w ∧ (started w = true → stop_sent r.2 = true)) E.
Proof.
  intros Ht Hok. pose proof Hok as (Hb & He & Hh & Hs0 & Hr). unfold worker_stop.
  destruct (started w) eqn:Hst; cbn [negb orb].
  2:{ apply spec_ret. intros s Hs. by split_and!. }
  destruct (stopRequested w) eqn:Hreq; [apply spec_ret; intros s Hs; by split_and!; auto|].
  eapply spec_bind; [by apply spec_send_stop_loop|]. intros r s [Hs Hrc]. rewrite Hrc.
  split_and!; [done| |done|done|done]. unfold worker_ok. cbn. by rewrite Hst.
Qed.

(** ** The server *)

Lemma runs_server_setup_socket a text port x :
  runs E x (server_setup_socket (Some (a, text)) port) (λ fd, socket_handle fd ++ x).
Proof.
  unfold server_setup_socket. destruct (inet_pton text) as [addr|]; [|by apply runs_ret].
  eapply spec_bind; [apply spec_call_value|]. intros fd s [Hs [l Hl]]. revert s Hs.
  pose proof (socket_fd l) as Hfd. rewrite <-Hl in Hfd.
  destruct (Z.eqb_spec fd (-1)) as [->|Hne]; [by apply spec_ret|].
  assert (socket_handle fd = [FileDescriptor fd]) as Hh.
  { unfold socket_handle. destruct (Z.leb_spec 0 fd); [done|lia]. }
  assert (runs E (FileDescriptor fd :: x) (release (FileDescriptor fd);; mret (-1))
            (λ fd, socket_handle fd ++ x)) as Hfail.
  { eapply runs_bind; [by apply runs_release|]. intros []. by apply runs_ret. }
  eapply spec_bind; [apply runs_acquire|]. intros [].
  eapply spec_bind; [apply runs_call|]. intros rc. destruct (rc =? -1); [exact Hfail|].
  eapply spec_bind; [apply runs_call|]. intros rc1. destruct (rc1 =? -1); [exact Hfail|].
  eapply spec_bind; [apply runs_call|]. intros rc2. destruct (rc2 =? -1); [exact Hfail|].
  eapply spec_bind; [apply runs_call|]. intros rc3. destruct (rc3 =? -1); [exact Hfail|].
  apply spec_ret. intros s. by rewrite Hh.
Qed.

Lemma unstarted_handles w : unstarted w → worker_handles w = [Memory (w_at w)].
Proof.
  intros ((Hb & He & Hh & _) & Hst & H0 & H1). unfold worker_handles. by rewrite Hb, He, Hh, Hst, H0, H1.
Qed.

Lemma runs_free_all ws x y :
  Forall unstarted ws → x ≡ₚ (ws ≫= worker_handles) ++ y → runs E x (free_all ws) (λ _, y).
Proof.
  intros Hws. revert x. induction Hws as [|w ws Hw _ IH]; intros x Hx; [by apply runs_ret|].
  cbn in Hx. rewrite (unstarted_handles w Hw) in Hx. cbn in Hx.
  eapply runs_bind; [by apply (runs_release _ _ ((ws ≫= worker_handles) ++ y))|]. intros []. by apply IH.
Qed.

Lemma workers_perm ws ws' : ws ≡ₚ ws' → (ws ≫= worker_handles) ≡ₚ (ws' ≫= worker_handles).
Proof. intros Hp. induction Hp; cbn; [done|by rewrite IHHp|solve_Permutation|etrans; eassumption]. Qed.

Lemma spec_new_workers n ws x y :
  Forall unstarted ws → x ≡ₚ (ws ≫= worker_handles) ++ y →
  spec (held x) (new_workers n ws)
    (λ r s, match r with
            | Some ws' => held ((ws' ≫= worker_handles) ++ y) s ∧ Forall unstarted ws' ∧
                          length ws' = (n + length ws)%nat
            | None => held y s
            end) E.
Proof.
  revert ws x. induction n as [|n IH]; intros ws x Hws Hx; cbn [new_workers].
  { apply spec_ret. intros s Hs. split_and!; [| |by rewrite length_reverse].
    - revert Hs. apply held_perm. rewrite Hx. by rewrite (workers_perm ws (reverse ws)) by (by rewrite reverse_Permutation).
    - by apply Forall_reverse. }
  eapply spec_bind; [apply spec_worker_new|]. intros [w|].
  - intros s (Hs & Hw). revert s Hs.
    eapply spec_conseq; [apply (IH (w :: ws)); [by constructor|]|done| |done].
    + cbn. rewrite Hx. by rewrite app_assoc.
    + intros [ws'|] s; [|done]. intros (Hs & Hws' & Hlen). split_and!; [done..|].
      rewrite Hlen. cbn. lia.
  - eapply spec_bind; [by apply (runs_free_all ws _ y)|]. intros []. by apply spec_ret.
Qed.

Lemma runs_log_it g level body x :
  0 <= level <= PULSAR_DEBUG → - 2 ^ 31 <= self g < 2 ^ 31 → runs E x (log_it g level body) (λ _, x).
Proof.
  intros Hl Hg. unfold log_it. destruct (verbosity g <? level); [by apply runs_ret|].
  destruct (log_fd g <? 0); [by apply runs_ret|].
  eapply runs_bind; [apply runs_call|]. intros time.
  destruct (log_line_fits g level body time Hl Hg) as (line & -> & _).
  eapply runs_bind; [apply runs_call|]. intros rc. eapply runs_bind; [apply runs_call|]. intros rc'.
  by apply runs_ret.
Qed.

(** The server before it starts, with its workers. *)
Definition fresh (n : nat) (s : server) : Prop :=
  Forall unstarted (s_workers s) ∧ length (s_workers s) = n ∧
  s_base s = None ∧ signalInt s = None ∧ signalHup s = None ∧ s_fd s = -1.

Lemma spec_server_new c g x y :
  - 2 ^ 31 <= self g < 2 ^ 31 → x ≡ₚ conf_handles c ++ log_handles g ++ y →
  spec (held x) (server_new c g)
    (λ r s, match r with
            | Some v => held (server_handles v ++ y) s ∧ fresh (Z.to_nat (workers c)) v ∧
                        s_cfg v = c ∧ s_log v = g
            | None => held x s
            end) E.
Proof.
  intros Hg Hx. eapply spec_bind; [apply runs_allocate|]. intros [a|]; [|by apply spec_ret].
  eapply spec_bind; [apply runs_call|]. intros t.
  eapply spec_bind; [apply runs_allocate|]. intros [q|].
  2:{ eapply spec_bind; [by apply (runs_release _ _ x)|]. intros []. by apply spec_ret. }
  eapply spec_bind; [by apply (spec_new_workers _ [] _ (Memory q :: Memory a :: x))|]. intros [ws|].
  2:{ eapply spec_bind; [by apply (runs_release _ _ (Memory a :: x))|]. intros [].
      eapply spec_bind; [by apply (runs_release _ _ x)|]. intros []. by apply spec_ret. }
  intros s (Hs & Hws & Hlen). revert s Hs.
  eapply spec_bind; [apply runs_log_it; [unfold PULSAR_DEBUG; lia|done]|]. intros [].
  apply spec_ret. intros s Hs. split_and!; [|unfold fresh; cbn; split_and!; try done; rewrite Hlen; cbn; lia|done..].
  revert Hs. apply held_perm. unfold server_handles. cbn. rewrite Hx. solve_Permutation.
Qed.

Lemma spec_stop_workers fuel ws x :
  (∀ fd l, told fuel fd l = true) → Forall worker_ok ws →
  spec (held x) (stop_workers fuel ws)
    (λ ws' s, held x s ∧ Forall worker_ok ws' ∧ (ws' ≫= worker_handles) = (ws ≫= worker_handles)) E.
Proof.
  intros Ht Hws. induction Hws as [|w ws Hw _ IH]; [apply spec_ret; intros s Hs; split_and!; [done|constructor|done]|]. cbn [stop_workers].
  eapply spec_bind; [by apply spec_worker_stop|]. intros r s (Hs & Hok & Hh & _). revert s Hs.
  eapply spec_bind; [apply IH|]. intros ws' s (Hs & Hok' & Hh'). split_and!; [done|by constructor|].
  cbn. by rewrite Hh, Hh'.
Qed.

Lemma spec_start_workers ws x y :
  Forall unstarted ws → x ≡ₚ (ws ≫= worker_handles) ++ y →
  spec (held x) (start_workers ws)
    (λ r s, held ((r.2 ≫= worker_handles) ++ y) s ∧ Forall worker_ok r.2) E.
Proof.
  intros Hws. revert x y. induction Hws as [|w ws Hw Hws IH]; intros x y Hx.
  { apply spec_ret. intros s Hs. split; [by apply (held_perm _ _ _ Hx)|constructor]. }
  cbn [start_workers]. cbn in Hx. rewrite <-app_assoc in Hx.
  eapply spec_bind; [by apply (spec_worker_start w _ ((ws ≫= worker_handles) ++ y))|].
  intros r s (Hs & Hok). destruct (negb (r.1 =? 0)).
  - split; [|constructor; [done|]].
    + revert Hs. apply held_perm. cbn. by rewrite <-app_assoc.
    + eapply Forall_impl; [exact Hws|]. by intros w' [? _].
  - revert s Hs. eapply spec_bind; [apply (IH _ (worker_handles r.2 ++ y)); solve_Permutation|].
    intros r' s (Hs & Hok'). split; [|by constructor].
    revert Hs. apply held_perm. cbn. solve_Permutation.
Qed.

Lemma runs_add_signal b x : runs E x (add_signal b) (λ r, made Event r.2 ++ x).
Proof.
  eapply runs_bind; [apply runs_make|]. intros [e|]; [|by apply runs_ret].
  eapply runs_bind; [apply runs_call|]. intros rc. by apply runs_ret.
Qed.

Lemma runs_free_signal p x y : x ≡ₚ made Event p ++ y → runs E x (free_signal p) (λ _, y).
Proof.
  intros Hx. destruct p as [e|]; [|by apply runs_ret].
  eapply runs_bind; [apply runs_call|]. intros []. by apply runs_release.
Qed.
End server_proofs.

(** ** Threads that may abort *)

Section aborting.
Context {L : Type} `{Libevent L}.
Implicit Types (x y : list Handle) (w : worker) (ws : list worker).

(** The only way out besides a result is a failed assertion. *)
Definition aborts (e : exn) (s : Env () L) : Prop := e = AssertionFailed.

Lemma runs_assert_zero rc x : runs aborts x (assert_zero rc) (λ _, x).
Proof. unfold assert_zero. destruct (rc =? 0); [by apply runs_ret|]. by intros s _. Qed.

(** [assert(p != NULL)] on what was just made. *)
Lemma spec_made {A} f mk (k : Z → C L A) x Q :
  (∀ h, spec (held (mk h :: x)) (k h) Q aborts) →
  spec (held x) (p ← make f mk; h ← assert_some p; k h) Q aborts.
Proof.
  intros Hk. eapply spec_bind; [apply runs_make|]. intros [h|]; [apply (Hk h)|]. by intros s _.
Qed.

(** A joined worker has only its second socket and itself. *)
Lemma spec_join fd w x y :
  worker_ok w → started w = true → stop_sent w = true → x ≡ₚ worker_handles w ++ y →
  spec (held x) (pthread_join fd w)
    (λ w' s, held (socket_handle (stopSocket1 w) ++ Memory (w_at w) :: y) s ∧
             w' = mkWorker (w_at w) (thread w) true (stopRequested w) (-1) (stopSocket1 w) None None None
                    false) aborts.
Proof.
  intros (Hb & He & Hh & Hs0 & Hr) Hst Hsent Hx. specialize (Hs0 Hst).
  assert (x ≡ₚ FileDescriptor (stopSocket0 w) :: Joinable (thread w) ::
               socket_handle (stopSocket1 w) ++ Memory (w_at w) :: y) as Hx'.
  { rewrite Hx. unfold worker_handles. rewrite Hb, He, Hh, Hst. unfold socket_handle at 1.
    destruct (Z.leb_spec 0 (stopSocket0 w)); [|lia]. cbn. solve_Permutation. }
  unfold pthread_join. eapply spec_bind; [|intros w'; apply (spec_bind _ _ (λ _ s,
    held (socket_handle (stopSocket1 w) ++ Memory (w_at w) :: y) s ∧
    w' = mkWorker (w_at w) (thread w) true (stopRequested w) (-1) (stopSocket1 w) None None None false));
    [|intros []; by apply spec_ret]].
  - unfold worker_main. apply spec_made. intros b. apply spec_made. intros h. apply spec_made. intros e.
    eapply spec_bind; [apply runs_call|]. intros rc. eapply spec_bind; [apply runs_assert_zero|]. intros [].
    eapply spec_bind; [apply runs_call|]. intros rc'. eapply spec_bind; [apply runs_assert_zero|]. intros [].
    rewrite Hsent. cbn [negb].
    eapply spec_bind; [apply runs_call|]. intros rc2. eapply spec_bind; [apply runs_assert_zero|]. intros [].
    eapply spec_bind; [apply (runs_release _ _ (Event e :: EventBase b :: x)); solve_Permutation|]. intros [].
    eapply spec_bind; [by apply (runs_release _ _ (EventBase b :: x))|]. intros [].
    eapply spec_bind; [by apply (runs_release _ _ x)|]. intros [].
    eapply spec_bind; [apply (runs_release _ _ _ Hx')|]. intros [].
    apply spec_ret. intros s Hs. instantiate (1 := λ w' s,
      held (Joinable (thread w) :: socket_handle (stopSocket1 w) ++ Memory (w_at w) :: y) s ∧
      w' = mkWorker (w_at w) (thread w) (started w) (stopRequested w) (-1) (stopSocket1 w) None None None false).
    by split.
  - intros s [Hs ->]. cbn [thread]. rewrite Hst.
    pose proof (runs_release (E := aborts) (Joinable (thread w)) _ _ (Permutation_refl _) s Hs) as Hrel.
    destruct (release _ s) as [[[]|e'] s']; [by split|done].
Qed.

Lemma runs_worker_free fuel fd w x y :
  (∀ fd l, told fuel fd l = true) → worker_ok w → x ≡ₚ worker_handles w ++ y →
  runs aborts x (worker_free fuel fd w) (λ _, y).
Proof.
  intros Ht Hok Hx. unfold worker_free.
  apply (spec_bind _ _ (λ w' s, held (worker_handles (set_started (thread w') false w') ++ y) s)).
  - destruct (started w) eqn:Hst.
    + eapply spec_bind; [by apply spec_worker_stop|].
      intros [rc w1] s (Hs & Hok1 & Hh1 & Hst1 & Hsent1). cbn [snd] in *. rewrite Hst in Hst1.
      rewrite <-Hh1 in Hx. revert s Hs.
      apply (spec_conseq _ _ _ _ _ _ _ (spec_join fd w1 x y Hok1 Hst1 (Hsent1 Hst) Hx)); [done| |done].
      intros w2 s [Hs ->]. revert Hs. apply held_perm. unfold worker_handles. cbn. by rewrite <-app_assoc.
    + apply spec_ret. intros s Hs. revert Hs. apply held_perm. rewrite Hx. unfold worker_handles. cbn.
      by rewrite Hst.
  - intros w'. unfold worker_handles. cbn [stopSocket0 stopSocket1 http stopEvent base started w_at set_started].
    eapply runs_bind; [apply runs_close_socket; by rewrite <-!app_assoc|]. intros [].
    eapply runs_bind; [by apply runs_close_socket|]. intros [].
    eapply runs_bind; [by apply runs_drop|]. intros [].
    eapply runs_bind; [by apply runs_drop|]. intros [].
    eapply runs_bind; [by apply runs_drop|]. intros [].
    by apply runs_release.
Qed.
(** ** The end of the server *)

Lemma runs_free_workers fuel fd ws x y :
  (∀ fd l, told fuel fd l = true) → Forall worker_ok ws → x ≡ₚ (ws ≫= worker_handles) ++ y →
  runs aborts x (free_workers fuel fd ws) (λ _, y).
Proof.
  intros Ht Hws. revert x. induction Hws as [|w ws Hw _ IH]; intros x Hx; [by apply runs_ret|].
  cbn in Hx. rewrite <-app_assoc in Hx. cbn [free_workers].
  eapply runs_bind; [by eapply runs_worker_free|]. intros []. by apply IH.
Qed.

Lemma runs_server_free fuel s x y :
  (∀ fd l, told fuel fd l = true) → Forall worker_ok (s_workers s) → x ≡ₚ server_handles s ++ y →
  runs aborts x (server_free fuel s) (λ _, y).
Proof.
  intros Ht Hws Hx. unfold server_free. eapply spec_bind; [by apply spec_stop_workers|].
  intros ws st (Hs & Hws' & Hh). revert st Hs. unfold server_handles in Hx. rewrite <-Hh in Hx.
  rewrite <-!app_assoc in Hx.
  eapply runs_bind; [by eapply runs_free_workers|]. intros [].
  eapply runs_bind; [by apply runs_free_signal|]. intros [].
  eapply runs_bind; [by apply runs_free_signal|]. intros [].
  eapply runs_bind; [by apply runs_drop|]. intros [].
  eapply runs_bind; [by apply runs_close_socket|]. intros [].
  eapply runs_bind; [by apply (runs_release _ _ (conf_handles (s_cfg s) ++ log_handles (s_log s) ++ [Memory (s_at s)] ++ y))|]. intros [].
  eapply runs_bind; [by apply runs_conf_free|]. intros [].
  eapply runs_bind; [by apply runs_log_free|]. intros [].
  by apply runs_release.
Qed.

Lemma runs_server_start fuel s n x y :
  (∀ fd l, told fuel fd l = true) → fresh n s → ip (s_cfg s) ≠ None →
  x ≡ₚ server_handles s ++ y → runs aborts x (server_start fuel s) (λ _, y).
Proof.
  intros Ht (Hun & _ & Hb & H1 & H2 & Hfd) Hip Hx.
  assert (Forall worker_ok (s_workers s)) as Hok.
  { eapply Forall_impl; [exact Hun|]. by intros w [? _]. }
  assert (∀ v z, Forall worker_ok (s_workers v) → z ≡ₚ server_handles v ++ y →
            runs aborts z (server_free fuel v;; mret (-1)) (λ _, y)) as Hfail.
  { intros v z Hv Hz. eapply runs_bind; [by eapply runs_server_free|]. intros []. by apply runs_ret. }
  unfold server_start. eapply runs_bind; [apply runs_make|]. intros [b|]; [|by apply Hfail].
  set (s1 := set_s_base (Some b) s).
  assert (EventBase b :: x ≡ₚ server_handles s1 ++ y) as Hx1.
  { rewrite Hx. unfold server_handles. cbn. rewrite Hb. cbn. solve_Permutation. }
  eapply runs_bind; [apply runs_add_signal|]. intros r.
  set (s2 := set_signals r.2 None s1).
  assert (made Event r.2 ++ EventBase b :: x ≡ₚ server_handles s2 ++ y) as Hx2.
  { rewrite Hx1. unfold server_handles. cbn. rewrite H1, H2. cbn. solve_Permutation. }
  destruct (negb r.1); [by apply (Hfail s2)|].
  eapply runs_bind; [apply runs_add_signal|]. intros r'.
  set (s3 := set_signals r.2 r'.2 s2).
  assert (made Event r'.2 ++ made Event r.2 ++ EventBase b :: x ≡ₚ server_handles s3 ++ y) as Hx3.
  { rewrite Hx2. unfold server_handles. cbn. solve_Permutation. }
  destruct (negb r'.1); [by apply (Hfail s3)|].
  destruct (ip (s_cfg s)) as [[a text]|] eqn:Eip; [|done].
  change (ip (s_cfg s3)) with (ip (s_cfg s)). rewrite Eip.
  eapply runs_bind; [apply runs_server_setup_socket|]. intros fd.
  set (s4 := set_s_fd fd s3).
  assert (socket_handle fd ++ made Event r'.2 ++ made Event r.2 ++ EventBase b :: x ≡ₚ
          server_handles s4 ++ y) as Hx4.
  { rewrite Hx3. unfold server_handles. cbn. rewrite Hfd. cbn. solve_Permutation. }
  destruct (fd =? -1); [by apply (Hfail s4)|].
  set (rest := made Event r.2 ++ made Event r'.2 ++ [EventBase b] ++ socket_handle fd ++
    [Memory (array_at s)] ++ conf_handles (s_cfg s) ++ log_handles (s_log s) ++ [Memory (s_at s)] ++ y).
  eapply spec_bind.
  { apply (spec_start_workers (s_workers s4) _ rest); [done|].
    rewrite Hx4. unfold rest, server_handles. cbn. solve_Permutation. }
  intros ws st (Hs & Hws). revert st Hs. set (s5 := set_s_workers ws.2 s4).
  assert ((ws.2 ≫= worker_handles) ++ rest ≡ₚ server_handles s5 ++ y) as Hx5.
  { unfold rest, server_handles. cbn. solve_Permutation. }
  destruct (negb ws.1); [by apply (Hfail s5)|].
  eapply runs_bind; [apply runs_call|]. intros rc.
  eapply runs_bind; [by apply (runs_server_free fuel s5)|]. intros []. by apply runs_ret.
Qed.
End aborting.

(** ** The program around the server *)

Section life.
Context {L : Type} `{Libevent L}.

Lemma runs_pulsar_main fuel i x y :
  (∀ fd l, told fuel fd l = true) → ip (cfg i) ≠ None → - 2 ^ 31 <= self (log i) < 2 ^ 31 →
  x ≡ₚ info_handles i ++ y →
  spec (held x) (pulsar_main fuel i)
    (λ code s, (code = EXIT_SUCCESS ∨ code = EXIT_FAILURE) ∧ held y s) aborts.
Proof.
  intros Ht Hip Hself Hx. unfold pulsar_main. unfold info_handles in Hx. rewrite <-app_assoc in Hx.
  eapply spec_bind; [by apply (spec_server_new _ _ _ y)|]. intros [v|].
  - intros s (Hs & Hf & Hc & Hl). revert s Hs.
    eapply spec_bind; [eapply runs_server_start; [done|done|by rewrite Hc|done]|].
    intros rc. apply spec_ret. intros s Hs. split; [|done]. destruct (rc =? 0); auto.
  - eapply spec_bind; [by apply runs_conf_free|]. intros [].
    eapply spec_bind; [by apply (runs_log_free (Some (log i)) _ y)|]. intros [].
    apply spec_ret. auto.
Qed.

End life.

(** ** A system *)

(** Numbers are counted; the first message is interrupted; descriptors are
    handed out by the count. The second part tells after how many steps
    [pthread_create] fails. *)
Module Demo.
Definition lib : Type := Z * Z.
Definition next {A} (f : Z → A) (l : lib) : A * lib := (f (Z.max 0 l.1), (Z.max 0 l.1 + 1, l.2)).

#[export] Instance kernel : Kernel lib := {|
  strerror e := "error " +:+ print_int e;
  errno l := if Z.odd l.1 then EINTR else EAGAIN;
  clear_errno l := l;
  lib_release _ l := l;
  glob _ l := ((GLOB_NOMATCH, []), l);
  file_open _ := next id;
|}.

#[export] Program Instance libc : Libc lib := {|
  libc_kernel := kernel;
  malloc := next Some;
  getpid l := (1234, l);
  now_text l := ("01 Jan 00:00:00", l);
  file_write _ _ l := (0, l);
  fsync _ l := (0, l);
|}.
Next Obligation. done. Qed.

#[export] Program Instance libevent : Libevent lib := {|
  libevent_libc := libc;
  inet_pton t := if decide (t = "127.0.0.1") then Some 2130706433 else None;
  socket := next id;
  setsockopt _ l := (0, l);
  make_socket_nonblocking _ l := (0, l);
  bind _ _ port l := (if port =? 40000 then 0 else -1, l);
  listen _ l := (0, l);
  socketpair := next (λ n, Some (n, n + 100));
  send_stop _ := next (λ _, -1);
  pthread_self l := (0, l);
  pthread_create l := next (λ n, (if l.2 <? n then 11 else 0, n)) l;
  pthread_kill _ l := (0, l);
  event_base_new := next Some;
  event_base_dispatch _ l := (0, l);
  event_new _ := next Some;
  event_add _ l := (0, l);
  event_del _ l := l;
  evhttp_new _ := next Some;
  evhttp_accept_socket _ _ l := (0, l);
|}.
Next Obligation. intros l a b [= <- <-]. unfold next. lia. Qed.
Next Obligation. intros l. unfold next, id. cbn. lia. Qed.

Lemma told_here fd (l : lib) : told 2 fd l = true.
Proof.
  cbn. destruct (Z.odd (Z.max 0 l.1 + 1)) eqn:E1; cbn; [|done].
  rewrite Z.max_r by lia.
  replace (Z.odd (Z.max 0 l.1 + 1 + 1)) with false; [done|].
  symmetry. rewrite Z.add_1_r, Z.odd_succ, <-Z.negb_odd. by rewrite E1.
Qed.

Definition opts (port : string) : list (ascii * string) :=
  [("b"%char, "127.0.0.1"); ("p"%char, port); ("w"%char, "3"); ("l"%char, "oclock.log")].

Definition life (limit : Z) (port : string) : option (Z * list Handle) :=
  match pulsar_parse_args "oclock" (opts port) (mkEnv () ((10, limit), [Mapping]) []) with
  | (Ok (Continue i), s) =>
      match pulsar_main 2 i s with (Ok code, s) => Some (code, (sys s).2) | _ => None end
  | _ => None
  end.

End Demo.
