(* ===== verification/Mcp300x.v ===== *)
(** * The bit-banged ADC: src/mcp300x/mcp300x.h, src/mcp300x/mcp300x.cpp

    The driver talks to the converter through the [Gpio] interface, so it is
    written once for every device; the chip is the interface [Mcp300xChip]
    (the two virtual methods). *)
From S2P Require Import Prelude StdMap Gpio.

Record Mcp300x := mkMcp300x {
  pinClock : Z;
  pinDigitalOut : Z;
  pinDigitalIn : Z;
  pinChipSelect : Z;
}.

(** ** The chips: command byte and number of command bits *)
Class Mcp300xChip := {
  lastChannelPin : Z;
  getCmdOutInfo : Z → Z * Z;
}.

Definition Mcp3002 : Mcp300xChip := {|
  lastChannelPin := 1;
  getCmdOutInfo ch := (u8 (Z.shiftl (u8 (Z.lor 0x6 ch)) (8 - 3)), 3);
|}.

Definition Mcp3008 : Mcp300xChip := {|
  lastChannelPin := 7;
  getCmdOutInfo ch := (u8 (Z.shiftl (u8 (Z.lor 0x18 ch)) (8 - 5)), 5);
|}.

(** ** The driver *)
Definition construct (p : Mcp300x) : list GpioOperation :=
  [op_configureOutput (pinClock p) low; op_configureInput (pinDigitalOut p);
   op_configureOutput (pinChipSelect p) high; op_configureOutput (pinDigitalIn p) low].

Definition destruct_ (p : Mcp300x) : list GpioOperation :=
  [op_configureInput (pinClock p); op_configureInput (pinChipSelect p);
   op_configureInput (pinDigitalIn p)].

Definition _tickClock (p : Mcp300x) : list GpioOperation :=
  [op_write (pinClock p) high; op_write (pinClock p) low].

(** The loop that shifts the command out of the high end of the byte. *)
Fixpoint send_command (p : Mcp300x) (n : nat) (cmdOut : Z) : list GpioOperation :=
  match n with
  | O => []
  | S n =>
      op_write (pinDigitalIn p) (value_of_bool (negb (Z.land cmdOut 0x80 =? 0)))
      :: _tickClock p ++ send_command p n (u8 (Z.shiftl cmdOut 1))
  end.

(** The loop that reads the ten bits. *)
Fixpoint read_bits `{GpioDevice G} (p : Mcp300x) (n : nat) (valueOut : Z) (g : G)
    : res (Z * G) :=
  match n with
  | O => Ok (valueOut, g)
  | S n =>
      let! g1 := run_ops (_tickClock p) g in
      let! (v, g2) := gpio_read (pinDigitalOut p) g1 in
      read_bits p n (Z.lor (Z.shiftl valueOut 1) (b2z (is_high v))) g2
  end.

Definition readAnalog `{GpioDevice G} `{Mcp300xChip} (p : Mcp300x) (pinChannel : Z) (g : G)
    : res (Z * G) :=
  if (pinChannel <? 0) || (lastChannelPin <? pinChannel) then Ok (-1, g)
  else
    let '(cmdOut, cmdOutBits) := getCmdOutInfo pinChannel in
    let! g1 := run_ops ([op_write (pinChipSelect p) high; op_write (pinClock p) low;
                         op_write (pinChipSelect p) low]
                        ++ send_command p (Z.to_nat cmdOutBits) cmdOut ++ _tickClock p) g in
    let! (v, g2) := read_bits p 10 0 g1 in
    let! g3 := run_ops (_tickClock p ++ [op_write (pinChipSelect p) high]) g2 in
    Ok (v, g3).

(** ** Lemmas *)

Lemma read_bits_range `{GpioDevice G} p n v g v' g' :
  0 <= v → read_bits p n v g = Ok (v', g') →
  v * 2 ^ Z.of_nat n <= v' < (v + 1) * 2 ^ Z.of_nat n.
Proof.
  revert v g. induction n as [|n IH]; intros v g Hv; cbn [read_bits].
  - intros [= <- <-]. lia.
  - destruct (run_ops (_tickClock p) g) as [g1|]; simpl; [|done].
    destruct (gpio_read _ g1) as [[x g2]|]; simpl; [|done].
    rewrite shift_in_bit by done. intros Hr%IH; [|destruct x; simpl; lia].
    rewrite Nat2Z.inj_succ, Z.pow_succ_r by lia. destruct x; simpl in Hr; nia.
Qed.

Lemma send_command_S p n c :
  send_command p (S n) c =
  op_write (pinDigitalIn p) (value_of_bool (negb (Z.land c (2 ^ 7) =? 0)))
  :: _tickClock p ++ send_command p n (u8 (Z.shiftl c 1)).
Proof. done. Qed.

(** The receiver reads the command's high bits, and the line keeps the last. *)
Lemma send_command_wire p n cmdOut d :
  pinDigitalIn p ≠ pinClock p →
  sample (pinDigitalIn p) (pinClock p) d (send_command p (S n) cmdOut) =
  (value_of_bool (Z.testbit cmdOut (7 - Z.of_nat n)),
   (λ i, Z.testbit cmdOut (7 - i)) <$> seqZ 0 (Z.of_nat (S n))).
Proof.
  intros Hne. revert cmdOut d. induction n as [|n IH]; intros cmdOut d;
    rewrite send_command_S; cbn [_tickClock app];
    rewrite sample_data, sample_clock_high, sample_clock_low by done;
    rewrite land_pow2_eqb, negb_involutive, is_high_value_of_bool by lia.
  - done.
  - rewrite IH, (seqZ_cons 0 (Z.of_nat (S (S n)))), fmap_cons by lia. f_equal; [f_equal; unfold u8|f_equal].
    + destruct (Z.ltb_spec (7 - Z.of_nat n) 1).
      * destruct (Z.ltb_spec (7 - Z.of_nat n) 0); [rewrite !Z.testbit_neg_r by lia; done|].
        rewrite Z.mod_pow2_bits_low, Z.shiftl_spec by lia. f_equal. lia.
      * rewrite Z.mod_pow2_bits_low, Z.shiftl_spec by lia. f_equal. lia.
    + replace (Z.pred (Z.of_nat (S (S n)))) with (Z.of_nat (S n)) by lia.
      rewrite <-(fmap_add_seqZ 1 0), <-list_fmap_compose.
      apply list_fmap_ext. intros i x Hx%lookup_seqZ. simpl. unfold u8.
      destruct (Z.ltb_spec (7 - x) 0); [rewrite !Z.testbit_neg_r by lia; done|].
      rewrite Z.mod_pow2_bits_low, Z.shiftl_spec by lia. f_equal. lia.
Qed.

Section fake.
Variable p : Mcp300x.

Definition ops_ok (ops : list GpioOperation) : Prop := Forall FakeGpio.output_op ops.

Lemma writes_ok pin v ops : ops_ok ops → ops_ok (op_write pin v :: ops).
Proof. intros. constructor; [|done]. right; right; left. by eexists _, _. Qed.

Lemma conv_tick_ok ops : ops_ok ops → ops_ok (_tickClock p ++ ops).
Proof. intros. by repeat apply writes_ok. Qed.

Lemma conv_tick_ok_nil : ops_ok (_tickClock p).
Proof. apply (conv_tick_ok []). constructor. Qed.

Lemma send_command_ok n c : ops_ok (send_command p n c).
Proof.
  revert c. induction n as [|n IH]; intros c; [constructor|]. cbn [send_command _tickClock app].
  by repeat apply writes_ok.
Qed.

Definition read_op (v : GpioValue) : GpioOperation := mkOperation read (pinDigitalOut p) v 0.

(** What the ten reads leave in the fake. *)
Definition read_trace (vs : list GpioValue) : list GpioOperation :=
  vs ≫= λ v, _tickClock p ++ [read_op v].

Lemma read_bits_fake vs rest acc g :
  FakeGpio.queue_of (pinDigitalOut p) g = vs ++ rest → 0 <= acc →
  ∃ g', read_bits p (length vs) acc g =
      Ok (foldl (λ a b, 2 * a + Z.b2z b) acc (is_high <$> vs), g') ∧
    FakeGpio.queue_of (pinDigitalOut p) g' = rest ∧
    FakeGpio.operationHistory g' = FakeGpio.operationHistory g ++ read_trace vs.
Proof.
  revert acc g. induction vs as [|v vs IH]; intros acc g Hq Ha; cbn [length read_bits].
  - exists g. split_and!; [done|done|]. by rewrite app_nil_r.
  - rewrite FakeGpio.run_ops_history by apply conv_tick_ok_nil. cbn [res_bind gpio_read FakeGpio.device].
    unfold FakeGpio.read. cbn [FakeGpio.queuedInputValues]. unfold FakeGpio.queue_of in *.
    cbn [FakeGpio.queuedInputValues]. rewrite Hq. cbn [app].
    cbn [FakeGpio.record FakeGpio.operationHistory FakeGpio.inputValues snd
         FakeGpio.initializeResult FakeGpio.realTimeDelays FakeGpio.yieldAfterOperation].
    rewrite shift_in_bit by done. cbn [fmap list_fmap foldl].
    edestruct IH as (g' & Hr & Hq' & Hh); [| |exists g'; split_and!; [exact Hr|exact Hq'|]].
    + cbn [FakeGpio.queuedInputValues]. by rewrite map_find_set_eq.
    + destruct v; simpl; lia.
    + rewrite Hh. cbn. by rewrite <-!app_assoc.
Qed.

Lemma read_trace_wire d vs :
  pinDigitalIn p ≠ pinClock p →
  sample (pinDigitalIn p) (pinClock p) d (read_trace vs) =
  (d, replicate (length vs) (is_high d)).
Proof.
  intros Hne. induction vs as [|v vs IH]; [done|].
  unfold read_trace in *. cbn [mbind list_bind app _tickClock].
  rewrite sample_clock_high, sample_clock_low by done.
  assert (sample (pinDigitalIn p) (pinClock p) d
            (read_op v :: (vs ≫= λ v0, [op_write (pinClock p) high; op_write (pinClock p) low]
               ++ [read_op v0])) =
          sample (pinDigitalIn p) (pinClock p) d
            (vs ≫= λ v0, [op_write (pinClock p) high; op_write (pinClock p) low]
               ++ [read_op v0])) as E.
  { reflexivity. }
  cbn [app _tickClock] in *. rewrite E, IH. done.
Qed.
End fake.

(** ** Properties *)

(** The command the converter's datasheet asks for: start bit, single-ended
    bit, and the channel in [k] bits. *)
Definition command_bits (k : nat) (ch : Z) : list bool :=
  true :: true :: bits_msb (Z.of_nat k) ch.

Lemma chip_command (chip : Mcp300xChip) k ch :
  (chip = Mcp3002 ∧ k = 1%nat) ∨ (chip = Mcp3008 ∧ k = 3%nat) →
  0 <= ch < 2 ^ Z.of_nat k →
  lastChannelPin = 2 ^ Z.of_nat k - 1 ∧
  ∃ c, getCmdOutInfo ch = (c, Z.of_nat (S (S k))) ∧
    ((λ i, Z.testbit c (7 - i)) <$> seqZ 0 (Z.of_nat (S (S k)))) = command_bits k ch ∧
    Z.testbit c (7 - Z.of_nat (S k)) = Z.testbit ch 0.
Proof.
  intros [[-> ->]|[-> ->]] Hch; (split; [done|]); simpl in Hch.
  - assert (ch = 0 ∨ ch = 1) as [->| ->] by lia; by eexists.
  - assert (ch = 0 ∨ ch = 1 ∨ ch = 2 ∨ ch = 3 ∨ ch = 4 ∨ ch = 5 ∨ ch = 6 ∨ ch = 7)
      as [->|[->|[->|[->|[->|[->|[->| ->]]]]]]] by lia; by eexists.
Qed.

(** one conversion, end to end, on a recording GPIO whose data-out line is
    scripted. The result is the number the ten scripted levels spell, most
    significant first, exactly those ten are consumed, and a converter sampling
    the data-in line sees the start bit, the single-ended bit and the channel,
    then twelve clocks that complete the conversion. *)
Theorem readAnalog_conversion chip k ch p g d vs rest :
  (chip = Mcp3002 ∧ k = 1%nat) ∨ (chip = Mcp3008 ∧ k = 3%nat) →
  0 <= ch < 2 ^ Z.of_nat k →
  pinDigitalIn p ≠ pinClock p → pinChipSelect p ≠ pinDigitalIn p →
  pinChipSelect p ≠ pinClock p →
  FakeGpio.queue_of (pinDigitalOut p) g = vs ++ rest → length vs = 10%nat →
  ∃ g' trace, readAnalog p ch g = Ok (of_bits_msb (is_high <$> vs), g') ∧
    FakeGpio.queue_of (pinDigitalOut p) g' = rest ∧
    FakeGpio.operationHistory g' = FakeGpio.operationHistory g ++ trace ∧
    sampledBits trace (pinDigitalIn p) (pinClock p) d =
      command_bits k ch ++ replicate 12 (Z.testbit ch 0).
Proof.
  intros Hchip Hch H1 H2 H3 Hq Hlen.
  destruct (chip_command chip k ch Hchip Hch) as (Hl & c & Hcmd & Hbits & Hlast).
  set (pre := [op_write (pinChipSelect p) high; op_write (pinClock p) low;
               op_write (pinChipSelect p) low]
              ++ send_command p (S (S k)) c ++ _tickClock p).
  set (post := _tickClock p ++ [op_write (pinChipSelect p) high]).
  assert (Hpre : ops_ok pre).
  { apply Forall_app. split; [repeat apply writes_ok; constructor|].
    apply Forall_app. split; [apply send_command_ok|apply conv_tick_ok_nil]. }
  assert (Hpost : ops_ok post) by (repeat apply writes_ok; constructor).
  unfold readAnalog. rewrite Hl, Hcmd, Nat2Z.id.
  destruct (Z.ltb_spec ch 0); [lia|].
  destruct (Z.ltb_spec (2 ^ Z.of_nat k - 1) ch); [lia|]. cbn [orb]. fold pre.
  rewrite FakeGpio.run_ops_history by done. cbn [res_bind]. set (g1 := FakeGpio.mkFakeGpio _ _ _ _ _ _).
  destruct (read_bits_fake p vs rest 0 g1 Hq ltac:(done)) as (g2 & Hr & Hq2 & Hh2).
  rewrite Hlen in Hr. rewrite Hr. cbn [res_bind]. fold post.
  rewrite FakeGpio.run_ops_history by done. cbn [res_bind].
  eexists _, (pre ++ read_trace p vs ++ post). split_and!; [done|exact Hq2| |].
  - cbn [FakeGpio.operationHistory]. rewrite Hh2. unfold g1.
    cbn [FakeGpio.operationHistory]. by rewrite <-!app_assoc.
  - unfold sampledBits, pre. cbn [app].
    rewrite sample_other, sample_clock_low, sample_other by (by simpl).
    rewrite <-app_assoc, sample_app, send_command_wire, Hbits, Hlast by done.
    cbn [app _tickClock]. rewrite sample_clock_high, sample_clock_low, sample_app by done.
    rewrite read_trace_wire by done. unfold post. cbn [app _tickClock].
    rewrite sample_clock_high, sample_clock_low, sample_other by (by simpl).
    cbn [sample snd]. rewrite Hlen, is_high_value_of_bool. done.
Qed.

(** [readAnalog] keeps the contract its header states, on any device: an
    invalid channel reads -1 and touches no line, and a conversion that
    completes yields ten bits. *)
Theorem readAnalog_range `{GpioDevice G} `{Mcp300xChip} p ch (g g' : G) v :
  readAnalog p ch g = Ok (v, g') →
  if (0 <=? ch) && (ch <=? lastChannelPin) then 0 <= v <= 1023 else v = -1 ∧ g' = g.
Proof.
  unfold readAnalog. rewrite Z.ltb_antisym, (Z.ltb_antisym ch), <-negb_andb.
  destruct ((0 <=? ch) && (ch <=? lastChannelPin)); cbn [negb]; [|by intros [= <- <-]].
  destruct (getCmdOutInfo ch) as [c n].
  destruct (run_ops _ g) as [g1|]; cbn [res_bind]; [|done].
  destruct (read_bits p 10 0 g1) as [[x g2]|] eqn:E; cbn [res_bind]; [|done].
  apply read_bits_range in E; [|done]. destruct (run_ops _ g2); cbn [res_bind]; [|done].
  intros [= <- <-]. simpl in E. lia.
Qed.

(** ** Witnesses *)

Definition demo_adc : Mcp300x := mkMcp300x 11 9 10 8.
Definition demo_levels : list GpioValue :=
  [high; low; high; low; high; low; high; low; high; low].

Lemma readAnalog_conversion_witness :
  ∃ g' trace, (readAnalog (H0 := Mcp3002) demo_adc 1
      (FakeGpio.queueInputValues 9 demo_levels (FakeGpio.new false))) = Ok (682, g') ∧
    FakeGpio.queue_of 9 g' = [] ∧
    FakeGpio.operationHistory g' = [] ++ trace ∧
    sampledBits trace 10 11 low = [true; true; true] ++ replicate 12 true.
Proof.
  apply (readAnalog_conversion Mcp3002 1 1 demo_adc
    (FakeGpio.queueInputValues 9 demo_levels (FakeGpio.new false)) low demo_levels []);
    try done. by left.
Defined.

Lemma readAnalog_range_witness :
  if (0 <=? 7) && (7 <=? 1) then 0 <= -1 <= 1023
  else -1 = -1 ∧ FakeGpio.new false = FakeGpio.new false.
Proof.
  exact (@readAnalog_range _ FakeGpio.device Mcp3002 demo_adc 7 (FakeGpio.new false)
    (FakeGpio.new false) (-1) eq_refl).
Defined.
