(* ===== verification/Inbox.v ===== *)
(** * Mailboxes: src/src/inbox.h, src/src/inbox.cpp, src/src/threadsMain.h

    Every thread owns an [Inbox]; the registry finds it by thread id and
    broadcasts. Every method holds the inbox's mutex from its first to its last
    statement, so an execution of many threads is a sequence of the operations
    below. *)
From S2P Require Import Prelude.

(** ** Thread ids ([ThreadId_t]) *)
Definition threadIdDisplay : Z := 0.
Definition threadIdLedStrip : Z := 1.
Definition threadIdLightSensor : Z := 2.
Definition threadIdMotionSensor : Z := 3.
Definition threadIdMqttClient : Z := 4.
Definition threadIdDictionary : Z := 5.
Definition threadIdTimerTick : Z := 6.
Definition threadIdCount : Z := 7.
Definition threadIdIgnore : Z := threadIdCount.

(** Each component lets one thread register itself as the one that runs its
    loop; [None] is the default-constructed, invalid id. *)
Definition register_main_thread (caller : Z) (mainThread : option Z) : res (option Z) :=
  match mainThread with
  | Some t =>
      if t =? caller then Ok (Some caller)
      else Throw (RuntimeError "double register or invalid main timer thread")
  | None => Ok (Some caller)
  end.

(** ** Messages *)
Inductive InboxMsgType :=
  | inboxMsgTypeNoop
  | inboxMsgTypeTerminate
  | inboxMsgTypeMotionOn
  | inboxMsgTypeMotionOff
  | inboxMsgTypeTimerTickMessage
  | inboxMsgTypeDisplayBrightHigh
  | inboxMsgTypeDisplayBrightLow
  | inboxMsgTypeDisplayModeNothing
  | inboxMsgTypeDisplayModeBasicClock
  | inboxMsgTypeDisplayModeMessage.

#[export] Instance InboxMsgType_eq_dec : EqDecision InboxMsgType.
Proof. solve_decision. Defined.

Definition maxPayloadSize : Z := 64.

Record InboxMsg := mkInboxMsg {
  inboxMsgType : InboxMsgType;
  payload : list Z;
}.

#[export] Instance InboxMsg_eq_dec : EqDecision InboxMsg.
Proof. solve_decision. Defined.

Definition initPayload : list Z := replicate (Z.to_nat maxPayloadSize) 0.

(** [InboxMsg(InboxMsgType)], and the default constructor. *)
Definition InboxMsg_of (t : InboxMsgType) : InboxMsg := mkInboxMsg t initPayload.
Definition InboxMsg_new : InboxMsg := InboxMsg_of inboxMsgTypeNoop.

Definition timerTickMessage : InboxMsg := InboxMsg_of inboxMsgTypeTimerTickMessage.

(** ** One mailbox *)
Record Inbox := mkInbox {
  msgs : list InboxMsg;
  msgCount : Z;
}.

Definition Inbox_new : Inbox := mkInbox [] 0.

Definition addMessage (msg : InboxMsg) (ib : Inbox) : Inbox :=
  mkInbox (msgs ib ++ [msg]) (u32 (msgCount ib + 1)).

(** [msgs.pop_front(); --msgCount;] after [msgs.front()]. *)
Definition pop (ib : Inbox) : option (InboxMsg * Inbox) :=
  match msgs ib with
  | [] => None
  | m :: rest => Some (m, mkInbox rest (u32 (msgCount ib - 1)))
  end.

(** [getMessage(msg)]: the flag, [msg] afterwards, and the inbox. *)
Definition getMessage (msg : InboxMsg) (ib : Inbox) : bool * InboxMsg * Inbox :=
  match pop ib with
  | None => (false, msg, ib)
  | Some (m, ib') => (true, m, ib')
  end.

(** [waitForMessage()]; [None] while the predicate of the wait is false, when
    the thread stays blocked. *)
Definition waitForMessage (ib : Inbox) : option (InboxMsg * Inbox) := pop ib.

Definition empty (ib : Inbox) : bool := match msgs ib with [] => true | _ => false end.

Definition getMsgCount (ib : Inbox) : Z := msgCount ib.

Definition clear (ib : Inbox) : Inbox := mkInbox [] 0.

(** ** The registry *)

(** The inboxes by thread id; [std::unordered_map] fixes no order, and none of
    the operations below depends on one. *)
Abbreviation InboxRegistry := (gmap Z Inbox).

Definition getInbox (threadId : Z) (reg : InboxRegistry) : Inbox * InboxRegistry :=
  match reg !! threadId with
  | Some ib => (ib, reg)
  | None => (Inbox_new, <[threadId := Inbox_new]> reg)
  end.

Definition broadcast (msg : InboxMsg) (threadIdFrom : Z) (reg : InboxRegistry)
    : InboxRegistry :=
  map_imap (λ tid ib, Some (if tid =? threadIdFrom then ib else addMessage msg ib)) reg.

(** [getInbox(id).addMessage(msg)] *)
Definition send (msg : InboxMsg) (threadId : Z) (reg : InboxRegistry) : InboxRegistry :=
  let '(ib, reg') := getInbox threadId reg in <[threadId := addMessage msg ib]> reg'.

Definition shutdown (reg : InboxRegistry) : InboxRegistry := ∅.

(** ** An inbox implements a queue *)

(** The abstract queue an inbox stands for; its counter is the 32-bit length. *)
Definition inbox_rep (ib : Inbox) (q : list InboxMsg) : Prop :=
  msgs ib = q ∧ msgCount ib = u32 (Z.of_nat (length q)).

Lemma inbox_rep_new : inbox_rep Inbox_new [].
Proof. done. Qed.

Lemma addMessage_rep m ib q : inbox_rep ib q → inbox_rep (addMessage m ib) (q ++ [m]).
Proof.
  intros [Hm Hc]. split; simpl; [by rewrite Hm|].
  rewrite Hc, length_app. simpl. unfold u32. rewrite Zplus_mod_idemp_l. f_equal. lia.
Qed.

Lemma pop_rep ib q :
  inbox_rep ib q →
  match q with
  | [] => pop ib = None
  | m :: q' => ∃ ib', pop ib = Some (m, ib') ∧ inbox_rep ib' q'
  end.
Proof.
  intros [Hm Hc]. unfold pop. rewrite Hm. destruct q as [|m q]; [done|].
  eexists. split; [done|]. split; [done|]. simpl. rewrite Hc. simpl length.
  unfold u32. rewrite Zminus_mod_idemp_l. f_equal. lia.
Qed.

(** ** Executions *)
Inductive inbox_op :=
  | OAdd (m : InboxMsg)
  | OGet
  | OWait
  | OClear.

(** One operation: the inbox afterwards and the message it handed out. *)
Definition inbox_step (op : inbox_op) (ib : Inbox) : Inbox * option InboxMsg :=
  match op with
  | OAdd m => (addMessage m ib, None)
  | OGet => let '(b, m, ib') := getMessage InboxMsg_new ib in
            (ib', if b then Some m else None)
  | OWait => match waitForMessage ib with
             | Some (m, ib') => (ib', Some m)
             | None => (ib, None)
             end
  | OClear => (clear ib, None)
  end.

Fixpoint run (ops : list inbox_op) (ib : Inbox) : Inbox * list InboxMsg :=
  match ops with
  | [] => (ib, [])
  | op :: ops =>
      let '(ib1, out) := inbox_step op ib in
      let '(ib2, outs) := run ops ib1 in
      (ib2, option_list out ++ outs)
  end.

(** What was put in since the last clear and what was taken out since. *)
Definition sent (ops : list inbox_op) : list InboxMsg :=
  omap (λ op, match op with OAdd m => Some m | _ => None end) ops.

Lemma run_fifo ops ib q :
  inbox_rep ib q → OClear ∉ ops →
  inbox_rep (run ops ib).1 (msgs (run ops ib).1) ∧
  (run ops ib).2 ++ msgs (run ops ib).1 = q ++ sent ops.
Proof.
  revert ib q. induction ops as [|op ops IH]; intros ib q Hrep Hc; cbn [run].
  - destruct Hrep as [Hm Hc']. simpl. rewrite app_nil_r, Hm. done.
  - apply not_elem_of_cons in Hc as [Hc1 Hc2].
    destruct op as [m| | |]; cbn [inbox_step]; [| | |done].
    + pose proof (IH _ _ (addMessage_rep m _ _ Hrep) Hc2) as H.
      destruct (run ops (addMessage m ib)). simpl in *. by rewrite <-app_assoc in H.
    + unfold getMessage. pose proof (pop_rep _ _ Hrep) as Hp. destruct q as [|m q].
      * rewrite Hp. pose proof (IH _ _ Hrep Hc2). by destruct (run ops ib).
      * destruct Hp as (ib' & -> & Hr). pose proof (IH _ _ Hr Hc2) as [? H].
        destruct (run ops ib'). simpl in *. by rewrite H.
    + unfold waitForMessage. pose proof (pop_rep _ _ Hrep) as Hp. destruct q as [|m q].
      * rewrite Hp. pose proof (IH _ _ Hrep Hc2). by destruct (run ops ib).
      * destruct Hp as (ib' & -> & Hr). pose proof (IH _ _ Hr Hc2) as [? H].
        destruct (run ops ib'). simpl in *. by rewrite H.
Qed.

Lemma run_app ops1 ops2 ib :
  run (ops1 ++ ops2) ib =
  let '(ib1, o1) := run ops1 ib in let '(ib2, o2) := run ops2 ib1 in (ib2, o1 ++ o2).
Proof.
  revert ib. induction ops1 as [|op ops IH]; intros ib; simpl.
  - by destruct (run ops2 ib).
  - destruct (inbox_step op ib) as [ib1 o1]. rewrite IH.
    destruct (run ops ib1) as [ib2 o2]. destruct (run ops2 ib2). by rewrite app_assoc.
Qed.

(** ** Laws of the registry *)

Lemma broadcast_lookup msg from reg tid :
  broadcast msg from reg !! tid =
  (λ ib, if tid =? from then ib else addMessage msg ib) <$> reg !! tid.
Proof.
  unfold broadcast. rewrite map_lookup_imap. by destruct (reg !! tid).
Qed.

Lemma getInbox_lookup tid reg : (getInbox tid reg).2 !! tid = Some (getInbox tid reg).1.
Proof.
  unfold getInbox. destruct (reg !! tid) eqn:E; simpl; [done|]. by rewrite lookup_insert_eq.
Qed.

(** Asking for an inbox never changes another one, nor an existing one. *)
Lemma getInbox_mono tid reg t ib :
  reg !! t = Some ib → (getInbox tid reg).2 !! t = Some ib.
Proof.
  intros Ht. unfold getInbox. destruct (reg !! tid) eqn:E; simpl; [done|].
  rewrite lookup_insert_ne; [done|]. intros ->. congruence.
Qed.

Lemma send_lookup msg tid reg t :
  send msg tid reg !! t =
  if decide (t = tid) then Some (addMessage msg (default Inbox_new (reg !! tid)))
  else reg !! t.
Proof.
  unfold send, getInbox. case_decide as E.
  - subst. destruct (reg !! tid) eqn:E; by rewrite lookup_insert_eq.
  - destruct (reg !! tid) eqn:E'; by rewrite !lookup_insert_ne by done.
Qed.

(** ** Properties *)

(** C13: an inbox is a FIFO queue under any interleaving of its operations.
    After a clear followed by any sequence of adds and (polling or waiting)
    receives, the messages handed out followed by those still queued are
    exactly the messages added, in their order, none lost, duplicated or made
    up, and the message counter is the queue's length in 32 bits. *)
Theorem inbox_fifo before ops :
  OClear ∉ ops →
  let ib := (run (before ++ [OClear]) Inbox_new).1 in
  let '(ib', received) := run ops ib in
  received ++ msgs ib' = sent ops ∧
  getMsgCount ib' = u32 (Z.of_nat (length (msgs ib'))).
Proof.
  intros Hc ib. assert (inbox_rep ib []) as Hr.
  { unfold ib. rewrite run_app. destruct (run before Inbox_new). by simpl. }
  pose proof (run_fifo ops ib [] Hr Hc) as [[_ Hn] Hf].
  destruct (run ops ib). by simpl in *.
Qed.

(** ** Witnesses *)

Lemma inbox_fifo_witness :
  let ib := (run ([] ++ [OClear]) Inbox_new).1 in
  let '(ib', received) := run [OAdd timerTickMessage; OGet; OWait; OAdd InboxMsg_new] ib in
  received ++ msgs ib' = [timerTickMessage; InboxMsg_new] ∧
  getMsgCount ib' = u32 (Z.of_nat (length (msgs ib'))).
Proof.
  apply (inbox_fifo [] [OAdd timerTickMessage; OGet; OWait; OAdd InboxMsg_new]).
  repeat (apply not_elem_of_cons; split; [done|]). apply not_elem_of_nil.
Defined.
