(* ===== verification/TimerTick.v ===== *)
(** * The tick timer: src/src/timerTick.h, src/src/timerTick.cpp

    Clients own [TimerTickService] objects and register them; the timer thread
    wakes every twelve milliseconds and counts every registered service down.
    The table holds pointers, so objects live in a store indexed by their
    address, and both sides of that aliasing are part of the state. All methods
    run under [instanceMutex]; one pass of the thread's loop is [tick]. *)
From S2P Require Import Prelude CLib Inbox.

(** ** Service objects *)

(** The derived classes, by what their [expireTrigger] does. A message service
    posts to the inbox of a thread, when its condition (if any) allows it. *)
Inductive Trigger :=
  | ServiceBool
  | ServiceCv
  | ServiceMessage (inboxOf : Z) (condFunction : bool).

Record TimerTickService := mkService {
  interval : Z;
  periodic : bool;
  cookie : Z;
  ticksLeft : Z;
  trigger : Trigger;
  expired : bool;
}.

Definition nullCookie : Z := 0.
Definition millisPerTick : Z := 12.

Definition new_service (intervalP : Z) (periodicP : bool) (t : Trigger)
    : TimerTickService := mkService intervalP periodicP nullCookie 0 t false.

Definition getCookie (s : TimerTickService) : Z := cookie s.
Definition getIsRegistered (s : TimerTickService) : bool := negb (cookie s =? nullCookie).
Definition getIsExpired (s : TimerTickService) : bool := ticksLeft s =? 0.

Definition set_ticksLeft (n : Z) (s : TimerTickService) : TimerTickService :=
  mkService (interval s) (periodic s) (cookie s) n (trigger s) (expired s).
Definition set_cookie (c : Z) (s : TimerTickService) : TimerTickService :=
  mkService (interval s) (periodic s) c (ticksLeft s) (trigger s) (expired s).
Definition set_expired (b : bool) (s : TimerTickService) : TimerTickService :=
  mkService (interval s) (periodic s) (cookie s) (ticksLeft s) (trigger s) b.

(** [TimerTickServiceBool::getAndResetExpired] *)
Definition getAndResetExpired (s : TimerTickService) : bool * TimerTickService :=
  (expired s, set_expired false s).

(** [TimerTickServiceCv::wait]; [None] while the thread stays blocked. *)
Definition wait (s : TimerTickService) : option TimerTickService :=
  if expired s then Some (set_expired false s) else None.

(** [expireTrigger]: the object afterwards and the thread that gets a
    timer-tick message; [cond] is what the condition function returns. *)
Definition expireTrigger (cond : bool) (s : TimerTickService)
    : TimerTickService * option Z :=
  match trigger s with
  | ServiceBool | ServiceCv => (set_expired true s, None)
  | ServiceMessage tid condFunction =>
      (s, if negb condFunction || cond then Some tid else None)
  end.

Definition _startTimerTickService2 (s : TimerTickService) : TimerTickService :=
  if 0 <=? interval s then set_ticksLeft (1 + Z.quot (interval s) millisPerTick) s
  else set_ticksLeft 1 s.

(** ** The table *)
Record TimerTick := mkTimerTick {
  nextTimerTickId : Z;
  timerTickServices : gmap Z Z;          (* cookie -> address *)
  objects : gmap Z TimerTickService;     (* address -> object *)
}.

Definition TimerTick_new : TimerTick := mkTimerTick (nullCookie + 1) ∅ ∅.

Definition set_object (p : Z) (s : TimerTickService) (t : TimerTick) : TimerTick :=
  mkTimerTick (nextTimerTickId t) (timerTickServices t) (<[p := s]> (objects t)).

(** A client constructs and destroys its objects. *)
Definition alloc_service (s : TimerTickService) (t : TimerTick) : Z * TimerTick :=
  let p := fresh (dom (objects t)) in (p, set_object p s t).

Definition free_service (p : Z) (t : TimerTick) : TimerTick :=
  mkTimerTick (nextTimerTickId t) (timerTickServices t) (delete p (objects t)).

Definition registerTimerTickService (p : Z) (start : bool) (t : TimerTick)
    : res (Z * TimerTick) :=
  match objects t !! p with
  | None => Throw (Undefined "registering a dead service")
  | Some s =>
      if getIsRegistered s then
        Throw (RuntimeError ("double register or invalid cookie for: " +:+
                             print_dec (cookie s)))
      else
        let id := nextTimerTickId t in
        if id =? nullCookie then Throw (RuntimeError "too many timerTickServices?")
        else match timerTickServices t !! id with
        | Some _ => Throw (RuntimeError ("could not insert TimerTickService for: " +:+
                                         print_dec id))
        | None =>
            let s1 := set_cookie id s in
            let s2 := if start then _startTimerTickService2 s1 else s1 in
            Ok (id, mkTimerTick (u64 (id + 1)) (<[id := p]> (timerTickServices t))
                      (<[p := s2]> (objects t)))
        end
  end.

(** A service declared on the stack of a thread, and registered. *)
Definition add_service (s : TimerTickService) (start : bool) (t : TimerTick) : res (Z * TimerTick) :=
  let '(p, t) := alloc_service s t in
  let! (_, t) := registerTimerTickService p start t in Ok (p, t).

Definition startTimerTickService (c : Z) (t : TimerTick) : bool * TimerTick :=
  match timerTickServices t !! c with
  | None => (false, t)
  | Some p =>
      match objects t !! p with
      | None => (false, t)
      | Some s => (true, set_object p (_startTimerTickService2 s) t)
      end
  end.

Definition unregisterTimerTickService (c : Z) (t : TimerTick) : TimerTick :=
  match timerTickServices t !! c with
  | None => t
  | Some p =>
      mkTimerTick (nextTimerTickId t) (delete c (timerTickServices t))
        (alter (λ s, set_ticksLeft 0 (set_cookie nullCookie s)) p (objects t))
  end.

(** What the loop body does to one entry: the object, whether it expired, and
    the inbox that gets a message. *)
Definition tick_service (cond : bool) (s : TimerTickService)
    : TimerTickService * bool * option Z :=
  if 0 <? ticksLeft s then
    let s1 := set_ticksLeft (ticksLeft s - 1) s in
    if ticksLeft s1 =? 0 then
      let '(s2, msg) := expireTrigger cond s1 in
      (if periodic s2 && getIsRegistered s2 then _startTimerTickService2 s2 else s2,
       true, msg)
    else (s1, false, None)
  else (s, false, None).

(** [for (auto& entry : timerTickServices)] in the order [entries] the hash map
    gives, with the addresses that expired and the inboxes that got a message. *)
Definition tick_entry (cond : Z → bool) (e : Z * Z)
    (st : gmap Z TimerTickService * list Z * list Z)
    : gmap Z TimerTickService * list Z * list Z :=
  let '(objs, fired, posted) := st in
  match objs !! e.2 with
  | None => st
  | Some s =>
      let '(s', f, msg) := tick_service (cond e.2) s in
      (<[e.2 := s']> objs, fired ++ (if f then [e.2] else []), posted ++ option_list msg)
  end.

Definition tick_entries (cond : Z → bool) (entries : list (Z * Z)) (t : TimerTick)
    : TimerTick * list Z * list Z :=
  let '(objs, fired, posted) :=
    foldl (λ st e, tick_entry cond e st) (objects t, [], []) entries in
  (mkTimerTick (nextTimerTickId t) (timerTickServices t) objs, fired, posted).

Definition tick (cond : Z → bool) (t : TimerTick) : TimerTick * list Z * list Z :=
  tick_entries cond (map_to_list (timerTickServices t)) t.

(** One iteration of [runThreadLoop]: the timer's inbox is polled first, and
    [None] says that the loop was left. *)
Definition runThreadLoop (cond : Z → bool) (ib : Inbox) (msg : InboxMsg) (t : TimerTick)
    : Inbox * InboxMsg * option (TimerTick * list Z * list Z) :=
  let '(got, msg', ib') := getMessage msg ib in
  if got && bool_decide (inboxMsgType msg' = inboxMsgTypeTerminate) then (ib', msg', None)
  else (ib', msg', Some (tick cond t)).

(** [bind] and [shutdown] on the singleton pointer. *)
Definition bind (instance : option TimerTick) : TimerTick := default TimerTick_new instance.
Definition shutdown (instance : option TimerTick) : option TimerTick := None.

Definition registerTimerTickMainThread (caller : Z) (mainThread : option Z)
    : res (option Z) := register_main_thread caller mainThread.

(** The loop: [n] wake-ups of the timer thread; the passes in which [p]'s
    service expired are counted. *)
Fixpoint ticks (cond : Z → bool) (n : nat) (t : TimerTick) : TimerTick :=
  match n with O => t | S n => (tick cond (ticks cond n t)).1.1 end.

Fixpoint expiries (cond : Z → bool) (p : Z) (n : nat) (t : TimerTick) : nat :=
  match n with
  | O => 0%nat
  | S n => (expiries cond p n t +
            length (filter (p =.) (tick cond (ticks cond n t)).1.2))%nat
  end.

(** ** The table's invariant: cookies and pointers agree *)
Record table_ok (t : TimerTick) : Prop := {
  ok_next : 0 <= nextTimerTickId t < 2 ^ 64;
  ok_null : timerTickServices t !! nullCookie = None;
  ok_used c p : timerTickServices t !! c = Some p →
    nextTimerTickId t ≠ 0 → c < nextTimerTickId t;
  ok_entry c p : timerTickServices t !! c = Some p →
    ∃ s, objects t !! p = Some s ∧ cookie s = c;
  ok_cookie p s : objects t !! p = Some s → cookie s ≠ nullCookie →
    timerTickServices t !! cookie s = Some p;
}.

Lemma table_ok_new : table_ok TimerTick_new.
Proof. constructor; simpl; try (intros *; rewrite lookup_empty; done); done. Qed.

Lemma ok_inj t c c' p :
  table_ok t → timerTickServices t !! c = Some p → timerTickServices t !! c' = Some p → c = c'.
Proof.
  intros Ht (s & Hs & <-)%(ok_entry _ Ht) (s' & Hs' & <-)%(ok_entry _ Ht). by simplify_eq.
Qed.

(** Replacing an object by one with the same cookie. *)
Lemma set_object_ok t p s s' :
  table_ok t → objects t !! p = Some s → cookie s' = cookie s →
  table_ok (set_object p s' t).
Proof.
  intros [H1 H2 H3 H4 H5] Hp Hc. constructor; simpl; try done.
  - intros c q Hq. destruct (H4 c q Hq) as (s1 & Hs1 & Hc1).
    destruct (decide (p = q)) as [<-|].
    + exists s'. rewrite lookup_insert_eq. split; [done|]. simplify_eq. congruence.
    + exists s1. by rewrite lookup_insert_ne.
  - intros q s1. rewrite lookup_insert_Some. intros [[<- <-]|[? ?]]; [|by apply H5].
    rewrite Hc. by apply H5.
Qed.

Lemma start_cookie s : cookie (_startTimerTickService2 s) = cookie s.
Proof. unfold _startTimerTickService2. by destruct (0 <=? interval s). Qed.

Lemma tick_service_cookie cond s : cookie (tick_service cond s).1.1 = cookie s.
Proof.
  unfold tick_service, expireTrigger. repeat (case_match; simplify_eq/=; try done);
    by rewrite start_cookie.
Qed.

Lemma alloc_fresh s t : objects t !! (alloc_service s t).1 = None.
Proof. apply not_elem_of_dom. simpl. apply is_fresh. Qed.

Lemma alloc_ok s t : table_ok t → cookie s = nullCookie → table_ok (alloc_service s t).2.
Proof.
  intros [H1 H2 H3 H4 H5] Hc. pose proof (alloc_fresh s t) as Hf. simpl in Hf.
  constructor; simpl; try done.
  - intros c q Hq. destruct (H4 c q Hq) as (s1 & Hs1 & Hc1). exists s1. split; [|done].
    rewrite lookup_insert_ne; [done|]. intros <-. congruence.
  - intros q s1. rewrite lookup_insert_Some. intros [[<- <-]|[? ?]]; [done|by apply H5].
Qed.

Lemma free_ok p t :
  table_ok t → (∀ s, objects t !! p = Some s → cookie s = nullCookie) →
  table_ok (free_service p t).
Proof.
  intros [H1 H2 H3 H4 H5] Hp. constructor; simpl; try done.
  - intros c q Hq. destruct (H4 c q Hq) as (s1 & Hs1 & Hc1). exists s1. split; [|done].
    rewrite lookup_delete_ne; [done|]. intros <-. rewrite (Hp s1 Hs1) in Hc1. congruence.
  - intros q s1 [? ?]%lookup_delete_Some. by apply H5.
Qed.

(** What a successful registration does, and when it succeeds. *)
Lemma register_spec p start t s :
  table_ok t → objects t !! p = Some s → cookie s = nullCookie → nextTimerTickId t ≠ 0 →
  ∃ s', registerTimerTickService p start t =
    Ok (nextTimerTickId t,
        mkTimerTick (u64 (nextTimerTickId t + 1))
          (<[nextTimerTickId t := p]> (timerTickServices t)) (<[p := s']> (objects t))) ∧
    s' = (if start then _startTimerTickService2 else id)
           (set_cookie (nextTimerTickId t) s) ∧ cookie s' = nextTimerTickId t.
Proof.
  intros Ht Hs Hc Hn. unfold registerTimerTickService. rewrite Hs.
  unfold getIsRegistered. rewrite Hc. simpl.
  destruct (Z.eqb_spec (nextTimerTickId t) nullCookie); [done|].
  destruct (timerTickServices t !! nextTimerTickId t) as [q|] eqn:E.
  { pose proof (ok_used _ Ht _ _ E Hn). lia. }
  eexists. split; [done|]. split; [by destruct start|]. destruct start; [|done].
  by rewrite start_cookie.
Qed.

Lemma register_ok p start t id t' :
  table_ok t → registerTimerTickService p start t = Ok (id, t') → table_ok t'.
Proof.
  intros Ht Hr. unfold registerTimerTickService in Hr.
  destruct (objects t !! p) as [s|] eqn:Hs; [|done].
  destruct (getIsRegistered s) eqn:Hreg; [done|].
  destruct (Z.eqb_spec (nextTimerTickId t) nullCookie) as [|Hn]; [done|].
  destruct (timerTickServices t !! nextTimerTickId t) eqn:E; simplify_eq/=.
  unfold getIsRegistered in Hreg. apply negb_false_iff, Z.eqb_eq in Hreg.
  set (s' := if start then _ else _).
  assert (cookie s' = nextTimerTickId t) as Hc'.
  { unfold s'. destruct start; [by rewrite start_cookie|done]. }
  destruct Ht as [H1 H2 H3 H4 H5]. constructor; simpl.
  - apply u64_range.
  - by rewrite lookup_insert_ne.
  - intros c q Hq Hu. assert (u64 (nextTimerTickId t + 1) = nextTimerTickId t + 1) as Hu'.
    { destruct (decide (nextTimerTickId t + 1 = 2 ^ 64)) as [Heq|].
      - by rewrite Heq in Hu.
      - apply u64_small. lia. }
    rewrite Hu'. apply lookup_insert_Some in Hq as [[<- _]|[_ Hq]]; [lia|].
    pose proof (H3 _ _ Hq Hn). lia.
  - intros c q [[<- <-]|[Hne Hq]]%lookup_insert_Some.
    + exists s'. by rewrite lookup_insert_eq.
    + destruct (H4 c q Hq) as (s1 & Hs1 & Hc1). exists s1. split; [|done].
      rewrite lookup_insert_ne; [done|]. intros <-. simplify_eq. congruence.
  - intros q s1 [[<- <-]|[Hne Hq]]%lookup_insert_Some Hc1.
    + by rewrite Hc', lookup_insert_eq.
    + pose proof (H5 _ _ Hq Hc1) as Hq'. rewrite lookup_insert_ne; [done|].
      intros Heq. rewrite <-Heq in Hq'. congruence.
Qed.

(** What the declaration and registration of a service do. *)
Lemma add_service_spec s start t :
  table_ok t → cookie s = nullCookie → 0 < nextTimerTickId t < 2 ^ 64 - 1 →
  ∃ p t', add_service s start t = Ok (p, t') ∧ table_ok t' ∧
    nextTimerTickId t' = nextTimerTickId t + 1 ∧ objects t !! p = None ∧
    objects t' = <[p := (if start then _startTimerTickService2 else id)
                          (set_cookie (nextTimerTickId t) s)]> (objects t).
Proof.
  intros Ht Hc Hn. unfold add_service. pose proof (alloc_ok s t Ht Hc) as Ha.
  pose proof (alloc_fresh s t) as Hf. destruct (alloc_service s t) as [p t1] eqn:E1.
  injection E1 as Ep Et. cbn [fst snd] in *.
  assert (objects t1 !! p = Some s) as Ho by (by rewrite <-Et; cbn; rewrite Ep, lookup_insert_eq).
  assert (nextTimerTickId t1 = nextTimerTickId t) as En by (by rewrite <-Et).
  destruct (register_spec p start t1 s Ha Ho Hc ltac:(lia)) as (s' & Hr & Es & _).
  pose proof (register_ok _ _ _ _ _ Ha Hr) as Hok. rewrite Hr in *. cbn.
  eexists _, _. split; [done|]. split; [done|]. cbn [nextTimerTickId objects]. split_and!.
  - rewrite En. apply u64_small. lia.
  - exact Hf.
  - rewrite Es, En, <-Et. unfold set_object. cbn [objects]. rewrite Ep. by rewrite insert_insert_eq.
Qed.

Lemma start_ok c t : table_ok t → table_ok (startTimerTickService c t).2.
Proof.
  intros Ht. unfold startTimerTickService.
  destruct (timerTickServices t !! c) as [p|]; [|done].
  destruct (objects t !! p) as [s|] eqn:E; [|done]. simpl.
  eapply set_object_ok; [done..|]. apply start_cookie.
Qed.

Lemma unregister_ok c t : table_ok t → table_ok (unregisterTimerTickService c t).
Proof.
  intros Ht. unfold unregisterTimerTickService.
  destruct (timerTickServices t !! c) as [p|] eqn:E; [|done].
  pose proof (ok_inj t) as Hinj. destruct Ht as [H1 H2 H3 H4 H5] eqn:Ht'.
  constructor; simpl; try done.
  - rewrite lookup_delete_None. by right.
  - intros c' q [_ Hq]%lookup_delete_Some. by apply (H3 _ q).
  - intros c' q [Hne Hq]%lookup_delete_Some. destruct (H4 _ _ Hq) as (s & Hs & Hc).
    exists s. split; [|done]. rewrite lookup_alter_ne; [done|]. intros <-.
    destruct Hne. by eapply Hinj.
  - intros q s Hq Hc. apply lookup_alter_Some in Hq as [(-> & s0 & Hq & ->)|[Hne Hq]]; [done|].
    pose proof (H5 _ _ Hq Hc) as Hq'. rewrite lookup_delete_ne; [done|].
    intros Heq. rewrite <-Heq in Hq'. congruence.
Qed.

(** ** One pass, entry by entry *)

Definition tick_obj (cond : Z → bool) (p : Z) (s : TimerTickService) : TimerTickService :=
  (tick_service (cond p) s).1.1.

(** The pass ticks exactly the listed objects, each once; what expires and
    what is posted does not depend on the order but for its own order. *)
Lemma tick_entries_fold cond entries objs f m :
  NoDup entries.*2 →
  let '(objs', f', m') := foldl (λ st e, tick_entry cond e st) (objs, f, m) entries in
  (∀ p, objs' !! p = if decide (p ∈ entries.*2) then tick_obj cond p <$> objs !! p
                     else objs !! p) ∧
  f' = f ++ (entries.*2 ≫= λ p, match objs !! p with
                             | Some s => if (tick_service (cond p) s).1.2 then [p] else []
                             | None => [] end) ∧
  m' = m ++ (entries.*2 ≫= λ p, match objs !! p with
                             | Some s => option_list (tick_service (cond p) s).2
                             | None => [] end).
Proof.
  revert objs f m. induction entries as [|[c p] es IH]; intros objs f m Hnd; cbn [foldl].
  - rewrite !app_nil_r. split_and!; try done.
  - rewrite fmap_cons in *. apply NoDup_cons in Hnd as [Hp Hnd]. cbn [snd] in *.
    unfold tick_entry at 2. cbn [snd]. destruct (objs !! p) as [s|] eqn:E.
    + destruct (tick_service (cond p) s) as [[s' b] msg] eqn:Et.
      set (objs1 := <[p:=s']> objs).
      assert (Hsame : ∀ q, q ∈ es.*2 → objs1 !! q = objs !! q).
      { intros q Hq. unfold objs1. rewrite lookup_insert_ne; [done|]. intros <-. done. }
      specialize (IH objs1 (f ++ (if b then [p] else [])) (m ++ option_list msg) Hnd).
      destruct (foldl _ _ _) as [[objs' f'] m']. destruct IH as (Ho & Hf & Hm).
      split_and!.
      * intros q. rewrite Ho. destruct (decide (q ∈ es.*2)) as [Hq|Hq].
        { rewrite decide_True by (by right). by rewrite Hsame. }
        unfold objs1. destruct (decide (q = p)) as [->|Hne].
        { rewrite lookup_insert_eq, decide_True by left. rewrite E. simpl.
          unfold tick_obj. by rewrite Et. }
        rewrite lookup_insert_ne by done. rewrite decide_False; [done|].
        by intros [?|?]%elem_of_cons.
      * rewrite Hf. cbn. rewrite E, Et. cbn. rewrite <-app_assoc. do 2 f_equal.
        apply Forall_bind_ext, Forall_forall. intros q Hq. by rewrite Hsame.
      * rewrite Hm. cbn. rewrite E, Et. cbn. rewrite <-app_assoc. do 2 f_equal.
        apply Forall_bind_ext, Forall_forall. intros q Hq. by rewrite Hsame.
    + specialize (IH objs f m Hnd). destruct (foldl _ _ _) as [[objs' f'] m'].
      destruct IH as (Ho & Hf & Hm). split_and!.
      * intros q. rewrite Ho. destruct (decide (q ∈ es.*2)) as [Hq|Hq].
        { by rewrite decide_True by (by right). }
        case_decide as Hq2; [|done]. apply elem_of_cons in Hq2 as [->|]; [|done].
        by rewrite E.
      * rewrite Hf. cbn. by rewrite E.
      * rewrite Hm. cbn. by rewrite E.
Qed.

Lemma entries_nodup t : table_ok t → NoDup (map_to_list (timerTickServices t)).*2.
Proof.
  intros Ht. apply NoDup_fmap_2_strong; [|apply NoDup_map_to_list].
  intros [c p] [c' p'] H1%elem_of_map_to_list H2%elem_of_map_to_list. simpl.
  intros ->. f_equal. by eapply ok_inj.
Qed.

Lemma registered_elem t p s :
  table_ok t → objects t !! p = Some s →
  p ∈ (map_to_list (timerTickServices t)).*2 ↔ cookie s ≠ nullCookie.
Proof.
  intros Ht Hs. rewrite list_elem_of_fmap. split.
  - intros ([c q] & -> & Hq%elem_of_map_to_list). simpl in *.
    destruct (ok_entry _ Ht _ _ Hq) as (s' & Hs' & <-). simplify_eq.
    intros Hc. rewrite Hc in Hq. pose proof (ok_null _ Ht). congruence.
  - intros Hc. pose proof (ok_cookie _ Ht _ _ Hs Hc). exists (cookie s, p).
    by rewrite elem_of_map_to_list.
Qed.

Definition registered_obj (s : TimerTickService) : bool := negb (cookie s =? nullCookie).

Section pass.
Variables (cond : Z → bool) (t : TimerTick) (order : list (Z * Z)).
Hypothesis t_ok : table_ok t.
Hypothesis order_ok : order ≡ₚ map_to_list (timerTickServices t).

Lemma order_nodup : NoDup order.*2.
Proof. rewrite order_ok. by apply entries_nodup. Qed.

Lemma order_elem p s :
  objects t !! p = Some s → p ∈ order.*2 ↔ cookie s ≠ nullCookie.
Proof. intros Hs. rewrite order_ok. by apply registered_elem. Qed.

Lemma tick_entries_lookup p :
  objects (tick_entries cond order t).1.1 !! p =
  (λ s, if registered_obj s then tick_obj cond p s else s) <$> objects t !! p.
Proof.
  unfold tick_entries.
  pose proof (tick_entries_fold cond order (objects t) [] [] order_nodup) as H.
  destruct (foldl _ _ _) as [[objs f] m]. destruct H as (Ho & _). simpl. rewrite Ho.
  destruct (objects t !! p) as [s|] eqn:E; simpl; [|by case_decide].
  unfold registered_obj. pose proof (order_elem p s E).
  case_decide; destruct (Z.eqb_spec (cookie s) nullCookie); simpl; tauto.
Qed.

Lemma tick_entries_table :
  nextTimerTickId (tick_entries cond order t).1.1 = nextTimerTickId t ∧
  timerTickServices (tick_entries cond order t).1.1 = timerTickServices t.
Proof. unfold tick_entries. by destruct (foldl _ _ _) as [[objs f] m]. Qed.

Lemma tick_entries_fired p s :
  objects t !! p = Some s →
  length (filter (p =.) (tick_entries cond order t).1.2) =
  (if registered_obj s && (tick_service (cond p) s).1.2 then 1 else 0)%nat.
Proof.
  intros Hs. unfold tick_entries.
  pose proof (tick_entries_fold cond order (objects t) [] [] order_nodup) as H.
  destruct (foldl _ _ _) as [[objs f] m]. destruct H as (_ & -> & _). simpl.
  pose proof (order_elem p s Hs) as He. pose proof order_nodup as Hnd.
  assert (Hreg : registered_obj s = bool_decide (p ∈ order.*2)).
  { unfold registered_obj.
    case_bool_decide; destruct (Z.eqb_spec (cookie s) nullCookie); simpl; tauto. }
  rewrite Hreg. clear He Hreg. induction order.*2 as [|q l IH]; [done|].
  apply NoDup_cons in Hnd as [Hq Hnd]. cbn [mbind list_bind].
  rewrite filter_app, length_app, (IH Hnd). destruct (decide (q = p)) as [->|Hne].
  - rewrite Hs, (bool_decide_false (p ∈ l)), (bool_decide_true (p ∈ p :: l)) by (done || left).
    destruct (tick_service (cond p) s).1.2; simpl; [|done].
    by rewrite filter_cons, decide_True.
  - rewrite (bool_decide_ext (p ∈ q :: l) (p ∈ l)) by (rewrite elem_of_cons; intuition congruence).
    destruct (objects t !! q) as [s'|]; [|done].
    destruct (tick_service (cond q) s').1.2; [|done].
    rewrite filter_cons, decide_False by done. done.
Qed.
End pass.

Lemma tick_lookup cond t p :
  table_ok t → objects (tick cond t).1.1 !! p =
  (λ s, if registered_obj s then tick_obj cond p s else s) <$> objects t !! p.
Proof. intros. by apply tick_entries_lookup. Qed.

Lemma tick_ok cond t : table_ok t → table_ok (tick cond t).1.1.
Proof.
  intros Ht. pose proof (tick_entries_table cond t (map_to_list (timerTickServices t)))
    as [E1 E2]. pose proof (λ p, tick_lookup cond t p Ht) as Hl. unfold tick in *.
  set (t' := (tick_entries _ _ _).1.1) in *. destruct Ht as [H1 H2 H3 H4 H5].
  constructor; rewrite ?E1, ?E2; try done.
  - intros c p Hp. destruct (H4 _ _ Hp) as (s & Hs & Hc). rewrite Hl, Hs. eexists.
    split; [done|]. destruct (registered_obj s); [|done]. unfold tick_obj.
    by rewrite tick_service_cookie.
  - intros p s'. rewrite Hl. intros (s & Hs & ->)%fmap_Some Hc.
    assert (Hcs : cookie (if registered_obj s then tick_obj cond p s else s) = cookie s).
    { destruct (registered_obj s); [apply tick_service_cookie|done]. }
    rewrite Hcs in *. by apply H5.
Qed.

Lemma ticks_ok cond n t : table_ok t → table_ok (ticks cond n t).
Proof. intros Ht. induction n as [|n IH]; [done|]. by apply tick_ok. Qed.

(** ** Timing of one service *)

(** Ticks from a start to the expiry. *)
Definition period (s : TimerTickService) : Z :=
  if 0 <=? interval s then 1 + interval s / millisPerTick else 1.

Lemma period_pos s : 0 < period s.
Proof.
  unfold period, millisPerTick. destruct (Z.leb_spec 0 (interval s)); [|lia].
  pose proof (Z.div_pos (interval s) 12). lia.
Qed.

Lemma start_ticksLeft s : _startTimerTickService2 s = set_ticksLeft (period s) s.
Proof.
  unfold _startTimerTickService2, period. destruct (Z.leb_spec 0 (interval s)); [|done].
  by rewrite Z.quot_div_nonneg by (unfold millisPerTick; lia).
Qed.

(** The parts of a service its clock does not touch. *)
Definition same_service (s s' : TimerTickService) : Prop :=
  interval s' = interval s ∧ periodic s' = periodic s ∧ cookie s' = cookie s ∧
  trigger s' = trigger s.

#[local] Arguments _startTimerTickService2 : simpl never.

Lemma tick_service_timing cond s :
  cookie s ≠ nullCookie → 0 <= ticksLeft s →
  same_service s (tick_service cond s).1.1 ∧
  (tick_service cond s).1.2 = (ticksLeft s =? 1) ∧
  ticksLeft (tick_service cond s).1.1 =
    if ticksLeft s =? 0 then 0
    else if ticksLeft s =? 1 then (if periodic s then period s else 0)
    else ticksLeft s - 1.
Proof.
  intros Hc Hn. unfold tick_service.
  destruct (Z.ltb_spec 0 (ticksLeft s)).
  - destruct (Z.eqb_spec (ticksLeft s) 0); [lia|]. simpl.
    destruct (Z.eqb_spec (ticksLeft s) 1) as [E|E].
    + rewrite E. simpl. unfold expireTrigger. simpl.
      assert (negb (cookie s =? nullCookie) = true) as Hr.
      { apply negb_true_iff, Z.eqb_neq. done. }
      destruct (trigger s) eqn:Et; simpl; unfold getIsRegistered; simpl;
        rewrite Hr, andb_true_r; destruct (periodic s) eqn:Ep; rewrite ?start_ticksLeft; simpl;
        unfold same_service; simpl; rewrite ?Et, ?Ep; done.
    + destruct (Z.eqb_spec (ticksLeft s - 1) 0); [lia|]. done.
  - destruct (Z.eqb_spec (ticksLeft s) 0); [|lia]. simpl.
    destruct (Z.eqb_spec (ticksLeft s) 1); [lia|]. done.
Qed.

Lemma same_service_trans s1 s2 s3 :
  same_service s1 s2 → same_service s2 s3 → same_service s1 s3.
Proof. unfold same_service. intros (-> & -> & -> & ->) (-> & -> & -> & ->). done. Qed.

Lemma same_service_period s s' : same_service s s' → period s' = period s.
Proof. unfold same_service, period. by intros (-> & _). Qed.

Section timing.
Variables (cond : Z → bool) (t : TimerTick) (p : Z) (s : TimerTickService).
Hypothesis t_ok : table_ok t.
Hypothesis s_at : objects t !! p = Some s.
Hypothesis s_reg : cookie s ≠ nullCookie.

(** One more tick, seen from the object at [p]. *)
Lemma ticks_step n s' :
  objects (ticks cond n t) !! p = Some s' → same_service s s' → 0 <= ticksLeft s' →
  objects (ticks cond (S n) t) !! p = Some (tick_obj cond p s') ∧
  same_service s (tick_obj cond p s') ∧
  expiries cond p (S n) t =
    (expiries cond p n t + if (ticksLeft s' =? 1)%Z then 1 else 0)%nat ∧
  ticksLeft (tick_obj cond p s') =
    if ticksLeft s' =? 0 then 0
    else if ticksLeft s' =? 1 then (if periodic s then period s else 0)
    else ticksLeft s' - 1.
Proof.
  intros Hs' Hsame Hn. cbn [ticks expiries].
  assert (Hc : cookie s' ≠ nullCookie) by (destruct Hsame as (_ & _ & -> & _); done).
  destruct (tick_service_timing (cond p) s' Hc Hn) as (H1 & H2 & H3).
  assert (Hr : registered_obj s' = true) by (by apply negb_true_iff, Z.eqb_neq).
  pose proof (ticks_ok cond n t t_ok) as Hok. split_and!.
  - by rewrite tick_lookup, Hs'; simpl; rewrite ?Hr.
  - by eapply same_service_trans.
  - unfold tick. erewrite tick_entries_fired by done. rewrite Hr, H2. done.
  - unfold tick_obj. rewrite H3, (same_service_period s s' Hsame).
    by destruct Hsame as (_ & -> & _).
Qed.

Lemma periodic_timing (n : nat) :
  periodic s = true → ticksLeft s = period s →
  ∃ s', objects (ticks cond n t) !! p = Some s' ∧ same_service s s' ∧
    ticksLeft s' = period s - Z.of_nat n mod period s ∧
    Z.of_nat (expiries cond p n t) = Z.of_nat n / period s.
Proof.
  intros Hp Hl. pose proof (period_pos s) as Hpos. induction n as [|n IH].
  - exists s. split_and!; [done..| |]; simpl; rewrite ?Zmod_0_l, ?Zdiv_0_l; lia.
  - destruct IH as (s' & Hs' & Hsame & Htl & Hex).
    pose proof (Z.mod_pos_bound (Z.of_nat n) (period s) Hpos).
    destruct (ticks_step n s' Hs' Hsame ltac:(lia)) as (G1 & G2 & G3 & G4).
    exists (tick_obj cond p s'). split_and!; [done..| |]; rewrite ?G3, ?G4, ?Hp.
    + destruct (Z.eqb_spec (ticksLeft s') 0); [lia|].
      rewrite Nat2Z.inj_succ. destruct (Z.eqb_spec (ticksLeft s') 1).
      * replace (Z.succ (Z.of_nat n)) with ((Z.of_nat n / period s + 1) * period s).
        { rewrite Z_mod_mult. lia. }
        pose proof (Z.div_mod (Z.of_nat n) (period s)). nia.
      * rewrite <-(Z.mod_unique (Z.succ (Z.of_nat n)) (period s)
          (Z.of_nat n / period s) (Z.of_nat n mod period s + 1)); [lia|lia|].
        pose proof (Z.div_mod (Z.of_nat n) (period s)). lia.
    + rewrite Nat2Z.inj_add, Hex, Nat2Z.inj_succ. destruct (Z.eqb_spec (ticksLeft s') 1).
      * rewrite <-(Z.div_unique (Z.succ (Z.of_nat n)) (period s)
          (Z.of_nat n / period s + 1) 0); [lia|lia|].
        pose proof (Z.div_mod (Z.of_nat n) (period s)). lia.
      * rewrite <-(Z.div_unique (Z.succ (Z.of_nat n)) (period s)
          (Z.of_nat n / period s) (Z.of_nat n mod period s + 1)); [lia|lia|].
        pose proof (Z.div_mod (Z.of_nat n) (period s)). lia.
Qed.

Lemma oneshot_timing (n : nat) :
  periodic s = false → ticksLeft s = period s →
  ∃ s', objects (ticks cond n t) !! p = Some s' ∧ same_service s s' ∧
    ticksLeft s' = Z.max 0 (period s - Z.of_nat n) ∧
    expiries cond p n t = if period s <=? Z.of_nat n then 1%nat else 0%nat.
Proof.
  intros Hp Hl. pose proof (period_pos s) as Hpos. induction n as [|n IH].
  - exists s. split_and!; [done..|simpl; lia|].
    destruct (Z.leb_spec (period s) (Z.of_nat 0)); [lia|done].
  - destruct IH as (s' & Hs' & Hsame & Htl & Hex).
    destruct (ticks_step n s' Hs' Hsame ltac:(lia)) as (G1 & G2 & G3 & G4).
    exists (tick_obj cond p s'). split_and!; [done..| |]; rewrite ?G3, ?G4, ?Hp, ?Hex, ?Htl.
    + destruct (Z.eqb_spec (Z.max 0 (period s - Z.of_nat n)) 0); [lia|].
      destruct (Z.eqb_spec (Z.max 0 (period s - Z.of_nat n)) 1); lia.
    + destruct (Z.leb_spec (period s) (Z.of_nat n));
        destruct (Z.leb_spec (period s) (Z.of_nat (S n)));
        destruct (Z.eqb_spec (Z.max 0 (period s - Z.of_nat n)) 1); lia.
Qed.
End timing.

(** ** Properties *)

(** C10: a registered timer fires on time. Registering and starting a fresh
    service with an interval of I milliseconds succeeds; then, whatever other
    services the table holds, during the first [n] passes of the timer thread
    a periodic service fires exactly [n / (1 + I / 12)] times, and a one-shot
    service fires once the count reaches [1 + I / 12] and never again, being
    expired from then on. *)
Theorem timer_fires_on_time cond t p s (n : nat) :
  table_ok t → nextTimerTickId t ≠ 0 → objects t !! p = Some s →
  cookie s = nullCookie → 0 <= interval s →
  ∃ id t', registerTimerTickService p true t = Ok (id, t') ∧
    let P := 1 + interval s / 12 in
    (∃ s', objects (ticks cond n t') !! p = Some s' ∧ cookie s' = id ∧
      getIsExpired s' = negb (periodic s) && (P <=? Z.of_nat n)) ∧
    Z.of_nat (expiries cond p n t') =
      if periodic s then Z.of_nat n / P else if P <=? Z.of_nat n then 1 else 0.
Proof.
  intros Ht Hn Hs Hc Hi.
  destruct (register_spec p true t s Ht Hs Hc Hn) as (s1 & Hr & Hs1 & Hc1).
  pose proof (register_ok _ _ _ _ _ Ht Hr) as Ht1.
  eexists _, _. split; [exact Hr|]. cbv zeta. set (t1 := mkTimerTick _ _ _) in *.
  assert (Hp1 : objects t1 !! p = Some s1) by (by apply lookup_insert_eq).
  rewrite start_ticksLeft in Hs1.
  assert (HP : period s1 = 1 + interval s / 12).
  { rewrite Hs1. unfold period. simpl. by destruct (Z.leb_spec 0 (interval s)); [|lia]. }
  assert (Hl : ticksLeft s1 = period s1) by (by rewrite Hs1).
  assert (Hpd : periodic s1 = periodic s) by (by rewrite Hs1).
  assert (Hnn : cookie s1 ≠ nullCookie) by (by rewrite Hc1). pose proof (period_pos s1).
  unfold getIsExpired. rewrite <-HP, <-Hpd. destruct (periodic s1) eqn:Hper.
  - destruct (periodic_timing cond t1 p s1 Ht1 Hp1 Hnn n Hper Hl)
      as (s' & Hs' & Hsame & Htl & Hex).
    split; [|done]. exists s'. split_and!; [done|destruct Hsame as (_ & _ & -> & _); done|].
    pose proof (Z.mod_pos_bound (Z.of_nat n) (period s1)).
    simpl. apply Z.eqb_neq. lia.
  - destruct (oneshot_timing cond t1 p s1 Ht1 Hp1 Hnn n Hper Hl)
      as (s' & Hs' & Hsame & Htl & Hex).
    split; [|rewrite Hex; by destruct (_ <=? _)].
    exists s'. split_and!; [done|destruct Hsame as (_ & _ & -> & _); done|]. simpl.
    destruct (Z.leb_spec (period s1) (Z.of_nat n)); [apply Z.eqb_eq|apply Z.eqb_neq]; lia.
Qed.

(** a pass of the timer does not depend on the order in which the hash map
    is walked. Any two enumerations of the table leave the same objects and
    fire and notify the same services. *)
Theorem tick_order_irrelevant cond t order :
  table_ok t → order ≡ₚ map_to_list (timerTickServices t) →
  let '(t1, fired1, posted1) := tick cond t in
  let '(t2, fired2, posted2) := tick_entries cond order t in
  t1 = t2 ∧ fired1 ≡ₚ fired2 ∧ posted1 ≡ₚ posted2.
Proof.
  intros Ht Ho. pose proof (tick_entries_fold cond _ (objects t) [] [] (entries_nodup t Ht)) as H1.
  pose proof (tick_entries_fold cond _ (objects t) [] [] (order_nodup t order Ht Ho)) as H2.
  unfold tick, tick_entries.
  destruct (foldl _ _ (map_to_list _)) as [[o1 f1] m1].
  destruct (foldl _ _ order) as [[o2 f2] m2].
  destruct H1 as (O1 & -> & ->), H2 as (O2 & -> & ->). split_and!.
  - f_equal. apply map_eq. intros q. rewrite O1, O2.
    assert (q ∈ order.*2 ↔ q ∈ (map_to_list (timerTickServices t)).*2) by (by rewrite Ho).
    repeat case_decide; tauto.
  - simpl. by rewrite Ho.
  - simpl. by rewrite Ho.
Qed.

(** C29: the table and its clients' objects stay consistent. Registration never
    succeeds twice for one object, and every successful operation keeps cookies
    and pointers in one-to-one correspondence with no dangling entry (destroying
    an object is allowed once it is unregistered). *)
Theorem timer_table_safe t p c start s cond :
  table_ok t →
  (∀ id t', registerTimerTickService p start t = Ok (id, t') →
    table_ok t' ∧ (∀ b e, registerTimerTickService p b t' ≠ Ok e)) ∧
  table_ok (startTimerTickService c t).2 ∧
  (∃ t', unregisterTimerTickService c t = t' ∧ table_ok t' ∧
    unregisterTimerTickService c t' = t' ∧
    (objects t !! p = Some s → cookie s = c → table_ok (free_service p t'))) ∧
  table_ok (alloc_service (new_service (interval s) (periodic s) (trigger s)) t).2 ∧
  table_ok (tick cond t).1.1.
Proof.
  intros Ht. split_and!.
  - intros id t' Hr. pose proof (register_ok _ _ _ _ _ Ht Hr) as Ht'. split; [done|].
    intros b e. unfold registerTimerTickService in Hr |- *.
    destruct (objects t !! p) as [s0|]; [|done]. destruct (getIsRegistered s0); [done|].
    destruct (Z.eqb_spec (nextTimerTickId t) nullCookie) as [|Hn]; [done|].
    destruct (timerTickServices t !! nextTimerTickId t); simplify_eq/=.
    rewrite lookup_insert_eq. unfold getIsRegistered.
    destruct start; rewrite ?start_cookie; simpl;
      by rewrite (proj2 (Z.eqb_neq _ _) Hn).
  - by apply start_ok.
  - exists (unregisterTimerTickService c t). pose proof (unregister_ok c t Ht) as Hu.
    split_and!; [done|done| |].
    + unfold unregisterTimerTickService at 2 3.
      destruct (timerTickServices t !! c) as [q|] eqn:E; unfold unregisterTimerTickService;
        simpl; [by rewrite lookup_delete_eq|by rewrite E].
    + intros Hp <-. apply free_ok; [done|]. intros s' Hs'.
      unfold unregisterTimerTickService in Hs'.
      destruct (decide (cookie s = nullCookie)) as [Hz|Hz].
      * rewrite Hz, (ok_null _ Ht) in Hs'. congruence.
      * rewrite (ok_cookie _ Ht _ _ Hp Hz) in Hs'. simpl in Hs'.
        rewrite lookup_alter_eq, Hp in Hs'. by simplify_eq/=.
  - by apply alloc_ok.
  - by apply tick_ok.
Qed.

(** ** Witnesses *)

Definition demo_timer : TimerTick :=
  (alloc_service (new_service 1000 true ServiceCv) TimerTick_new).2.
Definition demo_addr : Z :=
  (alloc_service (new_service 1000 true ServiceCv) TimerTick_new).1.

Lemma demo_timer_ok : table_ok demo_timer.
Proof. by apply alloc_ok; [apply table_ok_new|]. Qed.

Lemma timer_fires_on_time_witness :
  ∃ id t', registerTimerTickService demo_addr true demo_timer = Ok (id, t') ∧
    let P := 1 + 1000 / 12 in
    (∃ s', objects (ticks (λ _, true) 84 t') !! demo_addr = Some s' ∧ cookie s' = id ∧
      getIsExpired s' = negb true && (P <=? 84)) ∧
    Z.of_nat (expiries (λ _, true) demo_addr 84 t') = 84 / P.
Proof.
  apply (timer_fires_on_time (λ _, true) demo_timer demo_addr
           (new_service 1000 true ServiceCv) 84 demo_timer_ok); [done|done|done|done].
Defined.

Lemma tick_order_irrelevant_witness :
  let '(t1, fired1, posted1) := tick (λ _, true) demo_timer in
  let '(t2, fired2, posted2) :=
    tick_entries (λ _, true) (map_to_list (timerTickServices demo_timer)) demo_timer in
  t1 = t2 ∧ fired1 ≡ₚ fired2 ∧ posted1 ≡ₚ posted2.
Proof. exact (tick_order_irrelevant (λ _, true) demo_timer _ demo_timer_ok (Permutation_refl _)). Defined.

Lemma timer_table_safe_witness :
  let s := new_service 1000 true ServiceCv in
  (∀ id t', registerTimerTickService demo_addr true demo_timer = Ok (id, t') →
    table_ok t' ∧ (∀ b e, registerTimerTickService demo_addr b t' ≠ Ok e)) ∧
  table_ok (startTimerTickService 1 demo_timer).2 ∧
  (∃ t', unregisterTimerTickService 1 demo_timer = t' ∧ table_ok t' ∧
    unregisterTimerTickService 1 t' = t' ∧
    (objects demo_timer !! demo_addr = Some s → cookie s = 1 →
      table_ok (free_service demo_addr t'))) ∧
  table_ok (alloc_service (new_service 1000 true ServiceCv) demo_timer).2 ∧
  table_ok (tick (λ _, true) demo_timer).1.1.
Proof. exact (timer_table_safe demo_timer demo_addr 1 true (new_service 1000 true ServiceCv) (λ _, true) demo_timer_ok). Defined.
