(* ===== verification/Services.v ===== *)
(** * The timers of a polling loop: src/src/display.cpp, src/src/ledStrip.cpp,
      src/src/motionSensor.cpp, src/src/lightSensor.cpp

    The polling threads declare a [TimerTickServiceCv] and some
    [TimerTickServiceBool]s on their stacks, register them, wait on the first
    and ask the others in every iteration, and unregister them all at the end.
    What they all share, on the table of TimerTick.v: that such a thread leaves
    the timer as it would be without it, and which ticks it is given. *)
From S2P Require Import Prelude CLib TimerTick.

(** ** What the loops do with their services *)

(** The declarations at the top of [runThreadLoop], then the registrations. *)
Fixpoint declare (l : list TimerTickService) (t : TimerTick) : list Z * TimerTick :=
  match l with
  | [] => ([], t)
  | s :: l =>
      let '(p, t) := alloc_service s t in
      let '(ps, t) := declare l t in (p :: ps, t)
  end.

Fixpoint register_all (ps : list Z) (t : TimerTick) : res TimerTick :=
  match ps with
  | [] => Ok t
  | p :: ps => let! (_, t) := registerTimerTickService p true t in register_all ps t
  end.

Definition enter (l : list TimerTickService) (t : TimerTick) : res (list Z * TimerTick) :=
  let '(ps, t) := declare l t in
  let! t := register_all ps t in Ok (ps, t).

(** [timerTick.unregisterTimerTickService(service.getCookie())] *)
Definition unregister_at (p : Z) (t : TimerTick) : TimerTick :=
  match objects t !! p with
  | Some s => unregisterTimerTickService (getCookie s) t
  | None => t
  end.

(** The end of [runThreadLoop]; the objects die in the opposite order. *)
Definition leave (ps : list Z) (t : TimerTick) : TimerTick :=
  foldr free_service (foldl (λ t p, unregister_at p t) t ps) ps.

(** [service.wait()] on the object at [p]; [None] while the thread is blocked. *)
Definition wait_at (p : Z) (t : TimerTick) : option TimerTick :=
  s ← objects t !! p; s' ← wait s; Some (set_object p s' t).

(** [service.getAndResetExpired()] *)
Definition read_at (p : Z) (t : TimerTick) : bool * TimerTick :=
  match objects t !! p with
  | Some s => let '(b, s) := getAndResetExpired s in (b, set_object p s t)
  | None => (false, t)
  end.

Fixpoint read_all (ps : list Z) (t : TimerTick) : list bool * TimerTick :=
  match ps with
  | [] => ([], t)
  | p :: ps =>
      let '(b, t) := read_at p t in
      let '(bs, t) := read_all ps t in (b :: bs, t)
  end.

(** Passes of the timer's thread. *)
Definition passes (conds : list (Z → bool)) (t : TimerTick) : TimerTick :=
  foldl (λ t cond, (tick cond t).1.1) t conds.

(** ** The table without some objects *)
Definition forget (ps : list Z) (t : TimerTick) : TimerTick :=
  mkTimerTick (nextTimerTickId t) (filter (λ e, e.2 ∉ ps) (timerTickServices t))
    (filter (λ e, e.1 ∉ ps) (objects t)).

Lemma forget_ok ps t : table_ok t → table_ok (forget ps t).
Proof.
  intros [H1 H2 H3 H4 H5]. constructor; cbn; try done.
  - apply map_lookup_filter_None. left. done.
  - intros c p [Hc _]%map_lookup_filter_Some. by eapply H3.
  - intros c p [Hc Hp]%map_lookup_filter_Some. destruct (H4 _ _ Hc) as (s & Hs & E).
    exists s. split; [|done]. by apply map_lookup_filter_Some.
  - intros p s [Hs Hp]%map_lookup_filter_Some Hc. apply map_lookup_filter_Some. auto.
Qed.

Lemma unregister_at_spec p t :
  table_ok t →
  table_ok (unregister_at p t) ∧ nextTimerTickId (unregister_at p t) = nextTimerTickId t ∧
  timerTickServices (unregister_at p t) = filter (λ e, e.2 ≠ p) (timerTickServices t) ∧
  ∀ q, q ≠ p → objects (unregister_at p t) !! q = objects t !! q.
Proof.
  intros Ht. unfold unregister_at.
  assert (timerTickServices t !! nullCookie = None) as Hnull by apply (ok_null _ Ht).
  assert ((∀ c, timerTickServices t !! c ≠ Some p) →
          timerTickServices t = filter (λ e, e.2 ≠ p) (timerTickServices t)) as Hno.
  { intros Hno. symmetry. apply map_filter_id. intros c q Hq. cbn. intros ->. by apply (Hno c). }
  destruct (objects t !! p) as [s|] eqn:E.
  - split; [by apply unregister_ok|]. unfold unregisterTimerTickService, getCookie.
    destruct (timerTickServices t !! cookie s) as [q|] eqn:Eq.
    + assert (q = p) as ->.
      { destruct (decide (cookie s = nullCookie)) as [Ez|Hz]; [congruence|].
        pose proof (ok_cookie _ Ht _ _ E Hz). congruence. }
      cbn. split_and!; [done| |].
      * apply map_eq. intros c. destruct (decide (c = cookie s)) as [->|Hc].
        { rewrite lookup_delete_eq. symmetry. apply map_lookup_filter_None. right.
          intros q Hq. cbn. naive_solver. }
        rewrite lookup_delete_ne by done. destruct (timerTickServices t !! c) as [q|] eqn:Ec.
        -- symmetry. apply map_lookup_filter_Some. split; [done|]. cbn. intros ->.
           apply Hc. by eapply ok_inj.
        -- symmetry. apply map_lookup_filter_None. by left.
      * intros q Hq. by rewrite lookup_alter_ne.
    + split_and!; [done| |done]. apply Hno. intros c Hc.
      destruct (ok_entry _ Ht _ _ Hc) as (s' & Hs' & <-). congruence.
  - split_and!; [done..| |done]. apply Hno. intros c Hc.
    destruct (ok_entry _ Ht _ _ Hc) as (s' & Hs' & _). congruence.
Qed.

Lemma free_all_spec ps t :
  nextTimerTickId (foldr free_service t ps) = nextTimerTickId t ∧
  timerTickServices (foldr free_service t ps) = timerTickServices t ∧
  ∀ q, objects (foldr free_service t ps) !! q = if decide (q ∈ ps) then None else objects t !! q.
Proof.
  induction ps as [|p ps (IH1 & IH2 & IH3)]; [done|]. cbn. split_and!; [done..|]. intros q.
  destruct (decide (q = p)) as [->|Hne].
  - rewrite lookup_delete_eq, decide_True by left. done.
  - rewrite lookup_delete_ne, IH3 by done. repeat case_decide; set_solver.
Qed.

Lemma unregister_all_spec ps t :
  table_ok t → let t' := foldl (λ t p, unregister_at p t) t ps in
  table_ok t' ∧ nextTimerTickId t' = nextTimerTickId t ∧
  timerTickServices t' = filter (λ e, e.2 ∉ ps) (timerTickServices t) ∧
  ∀ q, q ∉ ps → objects t' !! q = objects t !! q.
Proof.
  revert t. induction ps as [|p ps IH]; intros t Ht; cbn.
  - split_and!; [done..| |done]. symmetry. apply map_filter_id. intros c q _. apply not_elem_of_nil.
  - destruct (unregister_at_spec p t Ht) as (H1 & H2 & H3 & H4).
    destruct (IH _ H1) as (G1 & G2 & G3 & G4). split_and!; [done|congruence| |].
    + rewrite G3, H3, map_filter_filter. apply map_filter_ext. intros c q _. cbn.
      rewrite not_elem_of_cons. tauto.
    + intros q Hq%not_elem_of_cons. rewrite G4, H4; tauto.
Qed.

(** The end of a loop takes the services out, and nothing else. *)
Lemma leave_is_forget ps t : table_ok t → leave ps t = forget ps t.
Proof.
  intros Ht. destruct (unregister_all_spec ps t Ht) as (_ & H2 & H3 & H4). unfold leave.
  destruct (free_all_spec ps (foldl (λ t p, unregister_at p t) t ps)) as (G1 & G2 & G3).
  destruct (foldr _ _ _) as [n ss os]. cbn in *. unfold forget. f_equal; [congruence..|].
  apply map_eq. intros q. rewrite G3. case_decide as Hq.
  - symmetry. apply map_lookup_filter_None. right. intros s _ Hn. by apply Hn.
  - rewrite H4 by done. destruct (objects t !! q) as [s|] eqn:E.
    + symmetry. by apply map_lookup_filter_Some.
    + symmetry. apply map_lookup_filter_None. by left.
Qed.

(** ** What the registrations do *)

Lemma declare_spec l t :
  table_ok t → Forall (λ s, cookie s = nullCookie) l →
  let '(ps, t') := declare l t in
  table_ok t' ∧ nextTimerTickId t' = nextTimerTickId t ∧
  timerTickServices t' = timerTickServices t ∧ NoDup ps ∧
  Forall2 (λ p s, objects t' !! p = Some s) ps l ∧
  (∀ p, p ∈ ps → objects t !! p = None) ∧ ∀ q, q ∉ ps → objects t' !! q = objects t !! q.
Proof.
  revert t. induction l as [|s l IH]; intros t Ht Hl; cbn [declare].
  - split_and!; [done..|apply NoDup_nil_2|constructor| |done]. by intros p ?%not_elem_of_nil.
  - apply Forall_cons in Hl as [Hs Hl]. pose proof (alloc_ok s t Ht Hs) as Ha.
    pose proof (alloc_fresh s t) as Hf. destruct (alloc_service s t) as [p t1] eqn:E.
    injection E as Ep Et. cbn [fst snd] in *. specialize (IH t1 Ha Hl).
    destruct (declare l t1) as [ps t2]. destruct IH as (H1 & H2 & H3 & H4 & H5 & H6 & H7).
    assert (objects t1 = <[p := s]> (objects t)) as Eo by (by rewrite <-Et, Ep).
    assert (p ∉ ps) as Hp.
    { intros Hp%H6. rewrite Eo, lookup_insert_eq in Hp. done. }
    split_and!; [done|by rewrite H2, <-Et|by rewrite H3, <-Et|by constructor| | |].
    + constructor; [|done]. by rewrite H7, Eo, lookup_insert_eq.
    + intros q [->|Hq]%elem_of_cons; [done|]. apply H6 in Hq. rewrite Eo in Hq.
      by apply lookup_insert_None in Hq as [? _].
    + intros q [Hne Hq]%not_elem_of_cons. by rewrite H7, Eo, lookup_insert_ne.
Qed.

(** A service as registration leaves it, whatever its id. *)
Definition started (s s' : TimerTickService) : Prop :=
  ∃ c, c ≠ nullCookie ∧ s' = _startTimerTickService2 (set_cookie c s).

Lemma register_all_spec ps l t :
  table_ok t → NoDup ps → Forall2 (λ p s, objects t !! p = Some s) ps l →
  Forall (λ s, cookie s = nullCookie) l → 0 < nextTimerTickId t →
  nextTimerTickId t + Z.of_nat (length ps) < 2 ^ 64 →
  ∃ t', register_all ps t = Ok t' ∧ table_ok t' ∧
    nextTimerTickId t' = nextTimerTickId t + Z.of_nat (length ps) ∧
    filter (λ e, e.2 ∉ ps) (timerTickServices t') = filter (λ e, e.2 ∉ ps) (timerTickServices t) ∧
    Forall2 (λ p s, ∃ s', objects t' !! p = Some s' ∧ started s s') ps l ∧
    ∀ q, q ∉ ps → objects t' !! q = objects t !! q.
Proof.
  revert l t. induction ps as [|p ps IH]; intros l t Ht Hnd Hl Hc Hn Hm; cbn [register_all].
  - apply Forall2_nil_inv_l in Hl as ->. exists t. split_and!; try done. cbn. lia.
  - apply Forall2_cons_inv_l in Hl as (s & l' & Hs & Hl & ->). apply Forall_cons in Hc as [Hcs Hc].
    apply NoDup_cons in Hnd as [Hp Hnd]. cbn [length] in Hm.
    destruct (register_spec p true t s Ht Hs Hcs ltac:(lia)) as (s' & Hr & Es & Ec).
    pose proof (register_ok _ _ _ _ _ Ht Hr) as Ht1. rewrite Hr. cbn [res_bind].
    set (t1 := mkTimerTick _ _ _) in *.
    assert (nextTimerTickId t1 = nextTimerTickId t + 1) as En by (cbn; apply u64_small; lia).
    assert (timerTickServices t !! nextTimerTickId t = None) as Hfresh.
    { destruct (timerTickServices t !! _) eqn:E; [|done]. pose proof (ok_used _ Ht _ _ E). lia. }
    destruct (IH l' t1 Ht1 Hnd) as (t' & G1 & G2 & G3 & G4 & G5 & G6); [|done|lia|lia|].
    { apply Forall2_same_length_lookup. split; [by eapply Forall2_length|].
      intros i q s1 Hq Hs1. cbn. rewrite lookup_insert_ne by (intros <-; by apply list_elem_of_lookup_2 in Hq).
      by eapply (Forall2_lookup_lr _ _ _ _ _ _ Hl). }
    exists t'. split_and!; [done|done|rewrite G3, En; cbn [length]; lia| | |].
    + transitivity (filter (λ e, e.2 ≠ p) (filter (λ e, e.2 ∉ ps) (timerTickServices t'))).
      { rewrite map_filter_filter. apply map_filter_ext. intros c q _. cbn.
        rewrite not_elem_of_cons. tauto. }
      rewrite G4. cbn [t1 timerTickServices]. rewrite map_filter_filter.
      rewrite map_filter_insert_False by (cbn; tauto). rewrite delete_id by done.
      apply map_filter_ext. intros c q _. cbn. rewrite not_elem_of_cons. tauto.
    + constructor; [|done]. exists s'. split; [by rewrite G6 by done; apply lookup_insert_eq|].
      exists (nextTimerTickId t). split; [unfold nullCookie; lia|done].
    + intros q [Hne Hq]%not_elem_of_cons. rewrite G6 by done. cbn. by rewrite lookup_insert_ne.
Qed.

(** A loop's services can be registered while there are ids left, and do not
    disturb what the table held. *)
Definition room (l : list TimerTickService) (t : TimerTick) : Prop :=
  0 < nextTimerTickId t ∧ nextTimerTickId t + Z.of_nat (length l) < 2 ^ 64.

Lemma filter_absent {A} (ps : list Z) (m : gmap Z A) :
  (∀ p, p ∈ ps → m !! p = None) → filter (λ e, e.1 ∉ ps) m = m.
Proof. intros H. apply map_filter_id. intros p s Hp Hin. cbn in Hin. rewrite H in Hp; done. Qed.

Lemma enter_spec l t :
  table_ok t → Forall (λ s, cookie s = nullCookie) l → room l t →
  ∃ ps t', enter l t = Ok (ps, t') ∧ table_ok t' ∧
    nextTimerTickId t' = nextTimerTickId t + Z.of_nat (length l) ∧
    Forall2 (λ p s, ∃ s', objects t' !! p = Some s' ∧ started s s') ps l ∧ NoDup ps ∧
    timerTickServices (forget ps t') = timerTickServices t ∧ objects (forget ps t') = objects t.
Proof.
  intros Ht Hl [Hn Hm]. unfold enter. pose proof (declare_spec l t Ht Hl) as H.
  destruct (declare l t) as [ps t1]. destruct H as (H1 & H2 & H3 & H4 & H5 & H6 & H7).
  pose proof (Forall2_length _ _ _ H5) as Hlen.
  destruct (register_all_spec ps l t1 H1 H4 H5 Hl ltac:(lia) ltac:(lia))
    as (t' & G1 & G2 & G3 & G4 & G5 & G6).
  rewrite G1. cbn [res_bind]. exists ps, t'. split_and!; [done|done|lia|done|done| |]; cbn.
  - rewrite G4, H3. apply map_filter_id. intros c p Hp Hin. cbn in Hin.
    destruct (ok_entry _ Ht _ _ Hp) as (s & Hs & _). rewrite H6 in Hs; done.
  - apply map_eq. intros q. destruct (decide (q ∈ ps)) as [Hq|Hq].
    + rewrite (H6 q Hq). apply map_lookup_filter_None. right. intros s _ Hn'. by apply Hn'.
    + rewrite <-(H7 q Hq), <-(G6 q Hq). destruct (objects t' !! q) eqn:E.
      * by apply map_lookup_filter_Some.
      * apply map_lookup_filter_None. by left.
Qed.

(** ** The rest of the table does not see the loop *)

(** Equal but for the counter of the ids. *)
Definition same_table (t t' : TimerTick) : Prop :=
  timerTickServices t = timerTickServices t' ∧ objects t = objects t'.

#[local] Instance same_table_equivalence : Equivalence same_table.
Proof.
  split; unfold same_table; [done|intros ?? [-> ->]; done|intros ??? [-> ->] [-> ->]; done].
Qed.

#[local] Instance tick_same cond : Proper (same_table ==> same_table) (λ t, (tick cond t).1.1).
Proof.
  intros [n ss os] [n' ss' os'] [E1 E2]. cbn in *. subst. unfold tick, tick_entries. cbn.
  by destruct (foldl _ _ _) as [[? ?] ?].
Qed.

#[local] Instance forget_same ps : Proper (same_table ==> same_table) (forget ps).
Proof. intros [n ss os] [n' ss' os'] [E1 E2]. cbn in *. by subst. Qed.

Lemma forget_tick ps cond t :
  table_ok t → same_table (forget ps (tick cond t).1.1) (tick cond (forget ps t)).1.1.
Proof.
  intros Ht. split; unfold tick at 1; [|].
  - destruct (tick_entries_table cond (forget ps t) (map_to_list (timerTickServices (forget ps t))))
      as [_ E]. unfold tick. rewrite E. cbn.
    by destruct (tick_entries_table cond t (map_to_list (timerTickServices t))) as [_ ->].
  - apply map_eq. intros q. rewrite (tick_lookup cond (forget ps t) q) by (by apply forget_ok).
    pose proof (tick_lookup cond t q Ht) as El. unfold tick in El. unfold forget at 1 2.
    cbn [objects]. rewrite !map_lookup_filter, El.
    destruct (objects t !! q) as [s|]; [|done]. cbn. by case_guard.
Qed.

Lemma forget_set_object ps p s t :
  p ∈ ps → forget ps (set_object p s t) = forget ps t.
Proof.
  intros Hp. unfold forget, set_object. cbn. f_equal. apply map_eq. intros q.
  destruct (decide (q = p)) as [->|Hne].
  - transitivity (@None TimerTickService); [|symmetry];
      apply map_lookup_filter_None; right; intros s' _ Hn; by apply Hn.
  - by rewrite !map_lookup_filter, lookup_insert_ne.
Qed.

#[local] Instance passes_same conds : Proper (same_table ==> same_table) (passes conds).
Proof.
  induction conds as [|cond conds IH]; intros t t' Heq; [exact Heq|]. cbn. apply IH.
  by apply (tick_same cond).
Qed.

(** ** The ticks a responsive loop is given *)

(** One pass of the timer and, when the loop's first service lets it go on,
    what it reads of the others. *)
Definition answer (cond : Z → bool) (p : Z) (ps : list Z) (t : TimerTick)
    : option (list bool) * TimerTick :=
  let t := (tick cond t).1.1 in
  match wait_at p t with
  | Some t => let '(flags, t) := read_all ps t in (Some flags, t)
  | None => (None, t)
  end.

(** [n] passes: what was read in each iteration. *)
Fixpoint answers (cond : Z → bool) (p : Z) (ps : list Z) (n : nat) (t : TimerTick)
    : list (list bool) * TimerTick :=
  match n with
  | O => ([], t)
  | S n =>
      let '(log, t) := answers cond p ps n t in
      let '(flags, t) := answer cond p ps t in (log ++ option_list flags, t)
  end.

(** How often the [i]-th of the others was found expired. *)
Definition raised (i : nat) (log : list (list bool)) : Z :=
  Z.of_nat (length (filter (λ flags, flags !! i = Some true) log)).

(** A periodic service after [n] passes, of which the even ones were answered. *)
Definition clock (n : Z) (s s' : TimerTickService) : Prop :=
  cookie s' ≠ nullCookie ∧ interval s' = interval s ∧ periodic s' = true ∧
  trigger s' = trigger s ∧ ticksLeft s' = period s - n mod period s ∧
  expired s' = Z.odd n && (n mod period s =? 0).

(** The services of a loop set flags, periodically, and not at every pass. *)
Definition flag_service (s : TimerTickService) : Prop :=
  cookie s = nullCookie ∧ periodic s = true ∧ 2 <= period s ∧ expired s = false ∧
  (trigger s = ServiceBool ∨ trigger s = ServiceCv).

Lemma started_clock s s' : flag_service s → started s s' → clock 0 s s'.
Proof.
  intros (H1 & H2 & H3 & H4 & H5) (c & Hc & ->). rewrite start_ticksLeft. unfold clock. cbn.
  rewrite Zmod_0_l. split_and!; try done. change (period s = period s - 0). lia.
Qed.

(** What a pass makes of it, before the loop answers. *)
Lemma clock_tick cond p n s s' :
  flag_service s → 0 <= n → clock n s s' →
  let s'' := tick_obj cond p s' in
  cookie s'' ≠ nullCookie ∧ interval s'' = interval s ∧ periodic s'' = true ∧
  trigger s'' = trigger s ∧ ticksLeft s'' = period s - (n + 1) mod period s ∧
  expired s'' = Z.odd n && (n mod period s =? 0) || ((n + 1) mod period s =? 0).
Proof.
  intros (H1 & H2 & H3 & H4 & H5) Hn (G1 & G2 & G3 & G4 & G5 & G6).
  assert (registered_obj s' = true) as Hr by (by apply negb_true_iff, Z.eqb_neq).
  assert (period s' = period s) as Ep by (unfold period; by rewrite G2).
  pose proof (Z.mod_pos_bound n (period s) ltac:(lia)) as Hb.
  pose proof (Z.div_mod n (period s) ltac:(lia)) as Hd.
  unfold tick_obj, tick_service. rewrite G5.
  destruct (Z.ltb_spec 0 (period s - n mod period s)); [|lia].
  destruct (Z.eqb_spec (period s - n mod period s - 1) 0) as [E|E].
  - assert ((n + 1) mod period s = 0) as Em.
    { symmetry. apply (Z.mod_unique _ _ (n / period s + 1)); [lia|]. nia. }
    cbn [ticksLeft set_ticksLeft]. destruct (Z.eqb_spec (period s - n mod period s - 1) 0); [|lia].
    unfold expireTrigger. cbn [trigger set_ticksLeft]. rewrite Em.
    assert (∀ x, getIsRegistered (set_expired true (set_ticksLeft x s')) = true) as Hg by done.
    destruct H5 as [E5|E5]; rewrite E5 in G4 |- *; rewrite G4; cbn [periodic set_expired set_ticksLeft];
      rewrite G3, Hg; cbn [andb fst]; rewrite start_ticksLeft; cbn; rewrite orb_true_r;
      split_and!; try done; rewrite Z.sub_0_r; exact Ep.
  - assert ((n + 1) mod period s = n mod period s + 1) as Em.
    { symmetry. apply (Z.mod_unique _ _ (n / period s)); [lia|]. nia. }
    cbn [ticksLeft set_ticksLeft]. destruct (Z.eqb_spec (period s - n mod period s - 1) 0); [lia|].
    cbn. rewrite Em, G6. destruct (Z.eqb_spec (n mod period s + 1) 0); [lia|].
    rewrite orb_false_r. split_and!; try done. lia.
Qed.

(** The objects at [ps] are related to the services [l] they started as. *)
Definition objects_are (R : TimerTickService → TimerTickService → Prop) (ps : list Z)
    (l : list TimerTickService) (t : TimerTick) : Prop :=
  Forall2 (λ p s, ∃ s', objects t !! p = Some s' ∧ R s s') ps l.

Lemma objects_are_lookup R ps l t t' :
  (∀ p, p ∈ ps → objects t' !! p = objects t !! p) → objects_are R ps l t → objects_are R ps l t'.
Proof.
  intros He H. apply Forall2_same_length_lookup. split; [by eapply Forall2_length|].
  intros i p' s Hp Hs. destruct (Forall2_lookup_lr _ _ _ _ _ _ H Hp Hs) as (s' & Ho & HR).
  exists s'. split; [|done]. rewrite He; [done|]. by apply list_elem_of_lookup_2 in Hp.
Qed.

(** Reading gives the flags and takes them down. *)
Lemma read_all_spec (R R' : TimerTickService → TimerTickService → Prop) flag ps l t :
  table_ok t → NoDup ps → objects_are R ps l t →
  (∀ s s', s ∈ l → R s s' → expired s' = flag s ∧ R' s (set_expired false s')) →
  let '(flags, t') := read_all ps t in
  flags = flag <$> l ∧ table_ok t' ∧ objects_are R' ps l t' ∧
  ∀ q, q ∉ ps → objects t' !! q = objects t !! q.
Proof.
  intros Ht Hnd Hl HR. revert t Ht Hl. revert l HR.
  induction ps as [|p ps IH]; intros l HR t Ht Hl; cbn [read_all].
  - apply Forall2_nil_inv_l in Hl as ->. split_and!; try done. constructor.
  - apply Forall2_cons_inv_l in Hl as (s & l' & (s' & Hs & Hss) & Hl & ->).
    apply NoDup_cons in Hnd as [Hp Hnd]. unfold read_at. rewrite Hs. cbn [getAndResetExpired].
    set (t1 := set_object p _ t).
    assert (table_ok t1) as Ht1 by (by eapply set_object_ok).
    destruct (HR s s' ltac:(left) Hss) as [Ef Hf].
    specialize (IH Hnd l' (λ s s' Hin, HR s s' ltac:(by right)) t1 Ht1).
    assert (∀ q, q ≠ p → objects t1 !! q = objects t !! q) as Eo.
    { intros q Hq. cbn. by rewrite lookup_insert_ne. }
    destruct (read_all ps t1) as [flags t2].
    destruct IH as (G1 & G2 & G3 & G4).
    { apply (objects_are_lookup R ps l' t); [|done]. intros q Hq. rewrite Eo; [done|].
      by intros ->. }
    split_and!; [by rewrite Ef, G1|done| |].
    + constructor; [|done]. exists (set_expired false s'). split; [|done].
      rewrite G4 by done. apply lookup_insert_eq.
    + intros q [Hne Hq]%not_elem_of_cons. by rewrite G4, Eo.
Qed.

Lemma odd_next n : Z.odd (n + 1) = negb (Z.odd n).
Proof. by rewrite Z.add_1_r, Z.odd_succ, Z.negb_odd. Qed.

Section schedule.
Variables (cond : Z → bool) (p0 : Z) (ps : list Z) (fast : TimerTickService)
  (slow : list TimerTickService).
Hypothesis flag_services : Forall flag_service (fast :: slow).
Hypothesis fast_period : period fast = 2.

(** What the others' flags are when pass [n + 1] is answered. *)
Definition due (n : Z) (s : TimerTickService) : bool :=
  Z.odd n && (n mod period s =? 0) || ((n + 1) mod period s =? 0).

(** After [n] passes. *)
Definition in_step (n : Z) (t : TimerTick) : Prop :=
  table_ok t ∧ NoDup (p0 :: ps) ∧ objects_are (clock n) (p0 :: ps) (fast :: slow) t.

Lemma clock_read n s s' :
  Z.odd n = true → cookie s' ≠ nullCookie → interval s' = interval s → periodic s' = true →
  trigger s' = trigger s → ticksLeft s' = period s - (n + 1) mod period s →
  clock (n + 1) s (set_expired false s').
Proof.
  intros Ho. unfold clock. cbn. intros. split_and!; try done.
  by rewrite odd_next, Ho.
Qed.

(** The first service lets the loop go on at the even passes. *)
Lemma due_fast n : due n fast = Z.odd n.
Proof.
  unfold due. rewrite fast_period, (Zmod_odd n), (Zmod_odd (n + 1)), odd_next.
  by destruct (Z.odd n).
Qed.

Lemma in_step_answer n t :
  0 <= n → in_step n t →
  let '(flags, t') := answer cond p0 ps t in
  in_step (n + 1) t' ∧ flags = if Z.odd n then Some (due n <$> slow) else None.
Proof.
  intros Hn (Ht & Hnd & Ho). unfold answer. set (t1 := (tick cond t).1.1).
  assert (table_ok t1) as Ht1 by (by apply tick_ok).
  set (R s s'' := cookie s'' ≠ nullCookie ∧ interval s'' = interval s ∧ periodic s'' = true ∧
    trigger s'' = trigger s ∧ ticksLeft s'' = period s - (n + 1) mod period s ∧
    expired s'' = due n s).
  assert (objects_are R (p0 :: ps) (fast :: slow) t1) as HR.
  { apply Forall2_same_length_lookup. split; [by eapply Forall2_length|]. intros i p s Hp Hs.
    destruct (Forall2_lookup_lr _ _ _ _ _ _ Ho Hp Hs) as (s' & Es & Hc).
    exists (tick_obj cond p s'). split.
    - unfold t1. rewrite tick_lookup by done. rewrite Es. cbn.
      assert (registered_obj s' = true) as ->; [|done].
      apply negb_true_iff, Z.eqb_neq. apply Hc.
    - apply clock_tick; [|done|done]. by eapply Forall_lookup_1. }
  assert (Z.odd n = true ∨ Z.odd n = false) as [Hodd|Hodd] by (destruct (Z.odd n); auto).
  - rewrite Hodd. pose proof HR as HR0. apply Forall2_cons_1 in HR0 as [(s0 & Es0 & Hs0) HRs].
    assert (expired s0 = true) as He.
    { destruct Hs0 as (_ & _ & _ & _ & _ & ->). by rewrite due_fast. }
    unfold wait_at. rewrite Es0. cbn. unfold wait. rewrite He. cbn [mbind option_bind].
    set (t2 := set_object p0 _ t1).
    assert (table_ok t2) as Ht2 by (by eapply set_object_ok). apply NoDup_cons in Hnd as [Hp0 Hnd].
    assert (∀ q, q ≠ p0 → objects t2 !! q = objects t1 !! q) as Eo.
    { intros q Hq. cbn. by rewrite lookup_insert_ne. }
    pose proof (read_all_spec R (clock (n + 1)) (due n) ps slow t2 Ht2 Hnd) as Hr.
    destruct (read_all ps t2) as [flags t3]. destruct Hr as (G1 & G2 & G3 & G4).
    + apply (objects_are_lookup R ps slow t1); [|done]. intros q Hq. rewrite Eo; [done|].
      by intros ->.
    + intros s s' _ (A1 & A2 & A3 & A4 & A5 & A6). split; [done|]. by apply clock_read.
    + split; [|by rewrite G1]. split; [done|]. split; [by constructor|]. constructor; [|done].
      exists (set_expired false s0). split; [rewrite G4 by done; apply lookup_insert_eq|].
      destruct Hs0 as (A1 & A2 & A3 & A4 & A5 & A6). by apply clock_read.
  - rewrite Hodd. apply Forall2_cons_1 in HR as HR0. destruct HR0 as [(s0 & Es0 & Hs0) HRs].
    assert (expired s0 = false) as He.
    { destruct Hs0 as (_ & _ & _ & _ & _ & ->). by rewrite due_fast. }
    unfold wait_at. rewrite Es0. cbn. unfold wait. rewrite He. cbn [mbind option_bind].
    split; [|done]. split; [done|]. split; [done|]. eapply Forall2_impl; [exact HR|]. cbn.
    intros p s (s' & Es & A1 & A2 & A3 & A4 & A5 & A6). exists s'. split; [done|].
    split_and!; try done. rewrite A6. unfold due. by rewrite odd_next, Hodd.
Qed.

(** How many multiples of a period the answered passes have seen. *)
Lemma count_step n s :
  2 <= period s → 0 <= n → Z.odd n = true →
  (n + 1) / period s = (n - 1) / period s + (if due n s then 1 else 0).
Proof.
  intros HP Hn Ho. unfold due. rewrite Ho. cbn [andb]. set (P := period s) in *.
  pose proof (Z.div_mod n P ltac:(lia)). pose proof (Z.mod_pos_bound n P ltac:(lia)).
  pose proof (Z.div_mod (n + 1) P ltac:(lia)). pose proof (Z.mod_pos_bound (n + 1) P ltac:(lia)).
  destruct (Z.eqb_spec (n mod P) 0) as [E|E]; cbn [orb].
  - rewrite <-(Z.div_unique (n + 1) P (n / P) 1), <-(Z.div_unique (n - 1) P (n / P - 1) (P - 1)); lia.
  - destruct (Z.eqb_spec ((n + 1) mod P) 0) as [E'|E'].
    + rewrite <-(Z.div_unique (n - 1) P ((n + 1) / P - 1) (P - 2)); nia.
    + assert ((n + 1) / P = n / P) as ->.
      { symmetry. apply (Z.div_unique _ _ _ (n mod P + 1)); [|lia].
        destruct (decide (n mod P + 1 = P)); [|lia]. exfalso. apply E'.
        symmetry. apply (Z.mod_unique _ _ (n / P + 1)); nia. }
      rewrite <-(Z.div_unique (n - 1) P (n / P) (n mod P - 1)); lia.
Qed.

Lemma raised_app i log flags :
  raised i (log ++ [flags]) = raised i log + (if decide (flags !! i = Some true) then 1 else 0).
Proof.
  unfold raised. rewrite filter_app, length_app, filter_cons. case_decide; simpl; lia.
Qed.

(** Up to the last answered pass, [n] or the one before. *)
Lemma answers_count t (n : nat) :
  in_step 0 t →
  let '(log, t') := answers cond p0 ps n t in
  let m := Z.of_nat n in
  in_step m t' ∧ Z.of_nat (length log) = m / 2 ∧
  ∀ i s, slow !! i = Some s → raised i log = 2 * (m / 2) / period s.
Proof.
  intros Ht. induction n as [|n IH]; cbn [answers].
  - split_and!; [done|done|]. intros i s Hs. unfold raised. cbn. by rewrite Zdiv_0_l.
  - destruct (answers cond p0 ps n t) as [log t1]. destruct IH as (H1 & H2 & H3).
    pose proof (in_step_answer (Z.of_nat n) t1 ltac:(lia) H1) as Ha.
    destruct (answer cond p0 ps t1) as [flags t2]. destruct Ha as [Hst ->].
    cbv zeta. rewrite Nat2Z.inj_succ, <-Z.add_1_r.
    pose proof (Zdiv2_odd_eqn (Z.of_nat n)) as Hd. rewrite Zdiv2_div in Hd.
    destruct (Z.odd (Z.of_nat n)) eqn:Ho.
    + assert ((Z.of_nat n + 1) / 2 = Z.of_nat n / 2 + 1) as E
        by (symmetry; apply (Z.div_unique _ _ _ 0); lia).
      split_and!; [done|rewrite length_app; cbn; lia|]. intros i s Hs.
      change (option_list (Some ?x)) with [x]. rewrite raised_app, list_lookup_fmap, Hs, (H3 i s Hs), E. cbn.
      replace (2 * (Z.of_nat n / 2 + 1)) with (Z.of_nat n + 1) by lia.
      assert (2 <= period s) as HP.
      { apply Forall_cons in flag_services as [_ Hf]. by apply (Forall_lookup_1 _ _ _ _ Hf Hs). }
      rewrite (count_step (Z.of_nat n) s HP ltac:(lia) Ho).
      replace (2 * (Z.of_nat n / 2)) with (Z.of_nat n - 1) by lia.
      destruct (due (Z.of_nat n) s); case_decide; congruence || lia.
    + assert ((Z.of_nat n + 1) / 2 = Z.of_nat n / 2) as E
        by (symmetry; apply (Z.div_unique _ _ _ 1); lia).
      rewrite app_nil_r, E. by split_and!.
Qed.
End schedule.

(** C11: the ticks a polling loop is given. When the loop answers every pass of
    the timer in time, then after [n] passes of twelve milliseconds it has run
    [n / 2] iterations, and its service of interval I was found expired in
    exactly [2 * (n / 2) / (1 + I / 12)] of them: no expiry is lost and none is
    seen twice, whatever else the table holds. *)
Theorem loop_tick_schedule cond fast slow t (n : nat) :
  table_ok t → room (fast :: slow) t → Forall flag_service (fast :: slow) → period fast = 2 →
  ∃ p ps t1, enter (fast :: slow) t = Ok (p :: ps, t1) ∧
    let '(log, _) := answers cond p ps n t1 in
    Z.of_nat (length log) = Z.of_nat n / 2 ∧
    ∀ i s, slow !! i = Some s →
      raised i log = 2 * (Z.of_nat n / 2) / (1 + interval s / 12).
Proof.
  intros Ht Hr Hf Hp.
  assert (Forall (λ s, cookie s = nullCookie) (fast :: slow)) as Hc
    by (eapply Forall_impl; [exact Hf|]; intros s Hs; apply Hs).
  destruct (enter_spec _ t Ht Hc Hr) as (ps & t1 & E & H1 & _ & H3 & H4 & _).
  destruct ps as [|p ps]; [by apply Forall2_nil_inv_l in H3|]. exists p, ps, t1. split; [done|].
  assert (in_step p ps fast slow 0 t1) as Hin.
  { split_and!; [done|done|]. apply Forall2_same_length_lookup.
    split; [by eapply Forall2_length|]. intros i q s Hq Hs.
    destruct (Forall2_lookup_lr _ _ _ _ _ _ H3 Hq Hs) as (s' & Es & Hst). exists s'.
    split; [done|]. apply started_clock; [|done]. by eapply Forall_lookup_1. }
  pose proof (answers_count cond p ps fast slow Hf Hp t1 n Hin) as Ha.
  destruct (answers cond p ps n t1) as [log t2]. destruct Ha as (_ & G2 & G3).
  split; [done|]. intros i s Hs. rewrite (G3 i s Hs). f_equal.
  apply Forall_cons in Hf as [_ Hf]. destruct (Forall_lookup_1 _ _ _ _ Hf Hs) as (_ & _ & Hp2 & _).
  unfold period, millisPerTick in *. destruct (Z.leb_spec 0 (interval s)); [done|lia].
Qed.

(** ** The polling threads, as the timer sees them *)

(** What a polling thread does between its ticks; [X] is what other threads
    hand to it. *)
Class PollingLoop (D X : Type) := {
  loop_services : TimerTickService * list TimerTickService;
  loop_iterate : list bool → D → res D;
  loop_post : X → D → D;
}.

(** The iterations keep an invariant, which may count them, up to a limit on
    their number. *)
Class PollingLaws (D X : Type) `{PollingLoop D X} (inv : Z → D → Prop) (post_ok : X → Prop)
    (within : Z → Prop) : Prop := {
  law_services : Forall (λ s, cookie s = nullCookie) (loop_services.1 :: loop_services.2);
  law_post n d x : inv n d → post_ok x → inv n (loop_post x d);
  law_iterate n d flags : inv n d → within (n + 1) →
    ∃ d', loop_iterate flags d = Ok d' ∧ inv (n + 1) d';
}.

Inductive PollingEvent (X : Type) :=
  | Timer (cond : Z → bool)
  | Request (x : X)
  | Iterate.
Arguments Timer {X}.
Arguments Request {X}.
Arguments Iterate {X}.

Section polling.
Context {D X : Type} `{PollingLoop D X}.

Definition all_services : list TimerTickService := loop_services.1 :: loop_services.2.

(** The body of the loop once a message did not end it; the outer [None] when
    the thread is blocked. *)
Definition loop_body (ps : list Z) (t : TimerTick) (d : D) : option (res (TimerTick * D)) :=
  match ps with
  | [] => None
  | p :: ps =>
      t ← wait_at p t;
      let '(flags, t) := read_all ps t in
      Some (let! d := loop_iterate flags d in Ok (t, d))
  end.

Definition polling_event (ps : list Z) (e : PollingEvent X) (t : TimerTick) (d : D)
    : option (res (TimerTick * D)) :=
  match e with
  | Timer cond => Some (Ok ((tick cond t).1.1, d))
  | Request x => Some (Ok (t, loop_post x d))
  | Iterate => loop_body ps t d
  end.

Fixpoint polling_run (ps : list Z) (es : list (PollingEvent X)) (t : TimerTick) (d : D)
    : option (res (TimerTick * D)) :=
  match es with
  | [] => Some (Ok (t, d))
  | e :: es =>
      r ← polling_event ps e t d;
      match r with
      | Ok (t, d) => polling_run ps es t d
      | Throw x => Some (Throw x)
      end
  end.

Definition timer_events (es : list (PollingEvent X)) : list (Z → bool) :=
  omap (λ e, match e with Timer cond => Some cond | _ => None end) es.

Definition is_iterate (e : PollingEvent X) : bool := match e with Iterate => true | _ => false end.
Definition iterations (es : list (PollingEvent X)) : Z :=
  Z.of_nat (length (filter (λ e, is_iterate e = true) es)).

Lemma read_all_frame ps qs t :
  table_ok t → (∀ p, p ∈ qs → p ∈ ps) →
  table_ok (read_all qs t).2 ∧ nextTimerTickId (read_all qs t).2 = nextTimerTickId t ∧
  forget ps (read_all qs t).2 = forget ps t.
Proof.
  revert t. induction qs as [|q qs IH]; intros t Ht Hq; cbn [read_all]; [done|].
  assert (table_ok (read_at q t).2 ∧ nextTimerTickId (read_at q t).2 = nextTimerTickId t ∧
          forget ps (read_at q t).2 = forget ps t) as (H1 & H2 & H3).
  { unfold read_at. destruct (objects t !! q) as [s|] eqn:E; [|done]. cbn. split_and!; [|done|].
    - by eapply set_object_ok.
    - apply forget_set_object, Hq. by left. }
  destruct (read_at q t) as [b t1]. cbn [snd] in *.
  destruct (IH t1 H1 ltac:(intros; apply Hq; by right)) as (G1 & G2 & G3).
  destruct (read_all qs t1) as [bs t2]. cbn [snd] in *. split_and!; congruence.
Qed.

(** Waiting and reading only take flags down. *)
Definition flags_down (t t' : TimerTick) : Prop :=
  ∀ p s, objects t !! p = Some s → ∃ b, objects t' !! p = Some (set_expired b s).

Lemma flags_down_refl t : flags_down t t.
Proof. intros p s Hs. exists (expired s). by destruct s. Qed.

Lemma flags_down_trans t1 t2 t3 : flags_down t1 t2 → flags_down t2 t3 → flags_down t1 t3.
Proof. intros H12 H23 p s (b & Hs)%H12. by destruct (H23 _ _ Hs) as [b' Hs']; exists b'. Qed.

Lemma flags_down_set p s b t :
  objects t !! p = Some s → flags_down t (set_object p (set_expired b s) t).
Proof.
  intros Hp q s' Hq. cbn. destruct (decide (p = q)) as [<-|Hne].
  - exists b. rewrite lookup_insert_eq. congruence.
  - rewrite lookup_insert_ne by done. by apply flags_down_refl.
Qed.

Lemma read_all_down ps t : flags_down t (read_all ps t).2.
Proof.
  revert t. induction ps as [|q ps IH]; intros t; [apply flags_down_refl|]. cbn [read_all].
  assert (flags_down t (read_at q t).2) as H1.
  { unfold read_at. destruct (objects t !! q) eqn:E; [by apply flags_down_set|apply flags_down_refl]. }
  destruct (read_at q t) as [b t1]. specialize (IH t1). destruct (read_all ps t1).
  by eapply flags_down_trans.
Qed.

Lemma loop_body_frame ps t d r :
  table_ok t → loop_body ps t d = Some r →
  ∃ flags t', r = (let! d := loop_iterate flags d in Ok (t', d)) ∧ table_ok t' ∧
    nextTimerTickId t' = nextTimerTickId t ∧ forget ps t' = forget ps t ∧
    flags_down t t'.
Proof.
  intros Ht E. unfold loop_body in E. destruct ps as [|p ps]; [done|].
  destruct (wait_at p t) as [t1|] eqn:E1; [|done]. cbn [mbind option_bind] in E.
  assert (table_ok t1 ∧ nextTimerTickId t1 = nextTimerTickId t ∧
          forget (p :: ps) t1 = forget (p :: ps) t ∧
          flags_down t t1) as (H1 & H2 & H3 & H4).
  { unfold wait_at in E1. destruct (objects t !! p) as [s|] eqn:Es; [|done]. cbn in E1.
    unfold wait in E1. destruct (expired s); [|done]. injection E1 as <-. split_and!; [|done| |].
    - by eapply set_object_ok.
    - apply forget_set_object. by left.
    - by apply flags_down_set. }
  destruct (read_all_frame (p :: ps) ps t1 H1 ltac:(intros; by right)) as (G1 & G2 & G3).
  pose proof (flags_down_trans _ _ _ H4 (read_all_down ps t1)) as H5.
  destruct (read_all ps t1) as [flags t2]. cbn [snd] in *. injection E as <-.
  exists flags, t2. split_and!; congruence || exact H5.
Qed.

Context (inv : Z → D → Prop) (post_ok : X → Prop) (within : Z → Prop)
  `{!PollingLaws D X inv post_ok within}.

Lemma polling_run_ok ps es t d n r :
  table_ok t → inv n d → (∀ m, m <= n + iterations es → within m) →
  Forall (λ e, match e with Request x => post_ok x | _ => True end) es →
  polling_run ps es t d = Some r →
  ∃ t' d', r = Ok (t', d') ∧ inv (n + iterations es) d' ∧ table_ok t' ∧
    nextTimerTickId t' = nextTimerTickId t ∧
    same_table (forget ps t') (passes (timer_events es) (forget ps t)).
Proof.
  revert t d n. induction es as [|e es IH]; intros t d n Ht Hd Hn Hes E; cbn [polling_run] in E.
  - injection E as <-. exists t, d. unfold iterations. cbn. rewrite Z.add_0_r. by split_and!.
  - apply Forall_cons in Hes as [He Hes].
    destruct e as [cond|x|]; cbn [polling_event] in E; cbn [mbind option_bind] in E.
    + destruct (IH _ _ n (tick_ok cond t Ht) Hd Hn Hes E) as (t' & d' & -> & H1 & H2 & H3 & H4).
      exists t', d'. split_and!; [done..| |].
      * rewrite H3. apply tick_entries_table.
      * rewrite H4. cbn. exact (passes_same _ _ _ (forget_tick ps cond t Ht)).
    + by destruct (IH _ _ n Ht (law_post _ _ _ Hd He) Hn Hes E) as (t' & d' & G); exists t', d'.
    + destruct (loop_body ps t d) as [rb|] eqn:Eb; [|done]. cbn [mbind option_bind] in E.
      destruct (loop_body_frame ps t d rb Ht Eb) as (flags & t1 & -> & H1 & H2 & H3 & _).
      assert (iterations (Iterate :: es) = iterations es + 1) as En
        by (unfold iterations; rewrite filter_cons_True by done; cbn [length]; lia).
      assert (0 <= iterations es) by (unfold iterations; lia). rewrite En in *.
      destruct (law_iterate (within := within) n d flags Hd (Hn (n + 1) ltac:(lia))) as (d1 & E1 & Hd1). rewrite E1 in E.
      cbn [res_bind] in E.
      destruct (IH t1 d1 (n + 1) H1 Hd1 ltac:(intros; apply Hn; lia) Hes E) as (t' & d' & -> & G1 & G2 & G3 & G4).
      exists t', d'. replace (n + (iterations es + 1)) with (n + 1 + iterations es) by lia.
      split_and!; [done..|congruence|]. by rewrite G4, H3.
Qed.

(** From the registration of the services to their removal. *)
Lemma polling_thread_ok t d n :
  table_ok t → room all_services t → inv n d →
  ∃ ps t1, enter all_services t = Ok (ps, t1) ∧
    ∀ es r, (∀ m, m <= n + iterations es → within m) →
      Forall (λ e, match e with Request x => post_ok x | _ => True end) es →
      polling_run ps es t1 d = Some r →
      ∃ t2 d', r = Ok (t2, d') ∧ inv (n + iterations es) d' ∧
        leave ps t2 = mkTimerTick (nextTimerTickId t + Z.of_nat (length all_services))
          (timerTickServices (passes (timer_events es) t)) (objects (passes (timer_events es) t)).
Proof.
  intros Ht Hr Hd. destruct (enter_spec _ t Ht law_services Hr)
    as (ps & t1 & E & H1 & H2 & _ & _ & H5).
  exists ps, t1. split; [done|]. intros es r Hn Hes Er.
  destruct (polling_run_ok ps es t1 d n r H1 Hd Hn Hes Er) as (t2 & d' & -> & G1 & G2 & G3 & G4).
  exists t2, d'. split_and!; [done|done|].
  rewrite (passes_same _ (forget ps t1) t H5) in G4. destruct G4 as [<- <-].
  rewrite leave_is_forget by done. unfold forget. cbn. by rewrite G3, H2.
Qed.
End polling.

(** ** Witnesses *)

Definition demo_fast : TimerTickService := new_service millisPerTick true ServiceCv.
Definition demo_slow : list TimerTickService :=
  [new_service 100 true ServiceBool; new_service 1000 true ServiceBool].

(** Two seconds of the timer: 84 iterations, in 18 and 2 of which the services
    of a tenth of a second and of a second are found expired. *)
Example demo_schedule :
  match enter (demo_fast :: demo_slow) TimerTick_new with
  | Ok (p :: ps, t) =>
      let '(log, _) := answers (λ _, true) p ps 168 t in
      length log = 84%nat ∧ raised 0 log = 18 ∧ raised 1 log = 2
  | _ => False
  end.
Proof. vm_compute. done. Qed.

Lemma loop_tick_schedule_witness :
  ∃ p ps t1, enter (demo_fast :: demo_slow) TimerTick_new = Ok (p :: ps, t1) ∧
    let '(log, _) := answers (λ _, true) p ps 168 t1 in
    Z.of_nat (length log) = Z.of_nat 168 / 2 ∧
    ∀ i s, demo_slow !! i = Some s → raised i log = 2 * (Z.of_nat 168 / 2) / (1 + interval s / 12).
Proof.
  apply (loop_tick_schedule (λ _, true) demo_fast demo_slow TimerTick_new 168).
  - apply table_ok_new.
  - split; reflexivity.
  - repeat constructor; auto; vm_compute; done.
  - reflexivity.
Defined.
