(* ===== verification/ThreadSystem.v ===== *)
(** * Several polling threads on one timer

    The polling threads of Services.v together: they start, iterate and end
    in any order, interleaved with the passes of the timer and with the other
    clients of its table (the dictionary's entries, the services of the MQTT
    client). The specification is the timer without these threads: what they
    do to the table is invisible but for the ids they use up. *)
From stdpp Require Import finite functions.
From S2P Require Import Prelude CLib TimerTick Services.

(** ** The other clients of the table *)

(** An object lives where its owner put it. *)
Inductive ClientOp :=
  | ClientNew (p : Z) (s : TimerTickService)
  | ClientRegister (p : Z) (start : bool)
  | ClientStart (p : Z)
  | ClientUnregister (p : Z)
  | ClientDelete (p : Z).

Definition client_object (op : ClientOp) : Z :=
  match op with
  | ClientNew p _ | ClientRegister p _ | ClientStart p | ClientUnregister p | ClientDelete p => p
  end.

(** The operation, if its object is not one of [own]; [None] is a client that
    makes an object where another lives, registers twice, or deletes an object
    the table still has. *)
Definition client_step (own : list Z) (op : ClientOp) (t : TimerTick) : option TimerTick :=
  if decide (client_object op ∈ own) then None
  else match op with
  | ClientNew p s =>
      match objects t !! p with
      | Some _ => None
      | None => if getIsRegistered s then None else Some (set_object p s t)
      end
  | ClientRegister p start =>
      match registerTimerTickService p start t with Ok (_, t) => Some t | Throw _ => None end
  | ClientStart p => s ← objects t !! p; Some (startTimerTickService (getCookie s) t).2
  | ClientUnregister p => Some (unregister_at p t)
  | ClientDelete p =>
      s ← objects t !! p; if getIsRegistered s then None else Some (free_service p t)
  end.

Definition add_ids (k : Z) (t : TimerTick) : TimerTick :=
  mkTimerTick (nextTimerTickId t + k) (timerTickServices t) (objects t).

(** ** The timer without the threads *)

Inductive EnvEvent :=
  | EnvPass (cond : Z → bool)
  | EnvClient (op : ClientOp)
  | EnvIds (k : Z).

Definition env_step (e : EnvEvent) (t : TimerTick) : option TimerTick :=
  match e with
  | EnvPass cond => Some (tick cond t).1.1
  | EnvClient op => client_step [] op t
  | EnvIds k => Some (add_ids k t)
  end.

Definition env_run (es : list EnvEvent) (t : TimerTick) : option TimerTick := ofold env_step es t.

(** ** Steps of others leave an owner's objects alone, and do not see them *)

Lemma forget_lookup ps t p : p ∉ ps → objects (forget ps t) !! p = objects t !! p.
Proof.
  intros Hp. cbn. rewrite map_lookup_filter. destruct (objects t !! p); [|done]. cbn.
  by rewrite option_guard_True.
Qed.

Lemma forget_entry ps t c : table_ok t →
  (∀ p, timerTickServices t !! c = Some p → p ∉ ps) →
  timerTickServices (forget ps t) !! c = timerTickServices t !! c.
Proof.
  intros Ht Hc. cbn. rewrite map_lookup_filter. destruct (timerTickServices t !! c) eqn:E; [|done].
  cbn. rewrite option_guard_True; [done|]. by apply Hc.
Qed.

Lemma forget_nil t : forget [] t = t.
Proof.
  destruct t as [n ss os]. unfold forget. cbn. f_equal; apply map_filter_id; intros ? ? _;
    apply not_elem_of_nil.
Qed.

Lemma forget_ext ps qs t : (∀ p, p ∈ ps ↔ p ∈ qs) → forget ps t = forget qs t.
Proof.
  intros H. unfold forget. f_equal; apply map_filter_ext; intros ? ? _; cbn; by rewrite H.
Qed.

Lemma forget_app ps qs t : forget (ps ++ qs) t = forget ps (forget qs t).
Proof.
  unfold forget. cbn. rewrite !map_filter_filter.
  f_equal; apply map_filter_ext; intros ? ? _; cbn; rewrite not_elem_of_app; tauto.
Qed.

Lemma forget_put ps p s t :
  p ∉ ps → forget ps (set_object p s t) = set_object p s (forget ps t).
Proof.
  intros Hp. unfold forget, set_object. cbn. f_equal. by rewrite map_filter_insert_True.
Qed.

Lemma forget_free ps p t : forget ps (free_service p t) = free_service p (forget ps t).
Proof. unfold forget, free_service. cbn. f_equal. by rewrite map_filter_delete. Qed.

Lemma forget_add_ids ps k t : forget ps (add_ids k t) = add_ids k (forget ps t).
Proof. done. Qed.

(** The entry of an object is its cookie's. *)
Lemma own_entry t p s q :
  table_ok t → objects t !! p = Some s → timerTickServices t !! cookie s = Some q → q = p.
Proof.
  intros Ht Hs Hq. destruct (decide (cookie s = nullCookie)) as [E|E].
  - rewrite E, (ok_null _ Ht) in Hq. done.
  - rewrite (ok_cookie _ Ht _ _ Hs E) in Hq. congruence.
Qed.

Lemma forget_register ps p b t id t' :
  table_ok t → p ∉ ps → registerTimerTickService p b t = Ok (id, t') →
  registerTimerTickService p b (forget ps t) = Ok (id, forget ps t').
Proof.
  intros Ht Hp. unfold registerTimerTickService. rewrite forget_lookup by done.
  destruct (objects t !! p) as [s|]; [|done]. destruct (getIsRegistered s); [done|].
  change (nextTimerTickId (forget ps t)) with (nextTimerTickId t).
  destruct (Z.eqb_spec (nextTimerTickId t) nullCookie); [done|].
  destruct (timerTickServices t !! nextTimerTickId t) eqn:E; [done|].
  rewrite forget_entry, E by (done || by intros q Hq; rewrite E in Hq).
  intros [= <- <-]. unfold forget. cbn. do 3 f_equal; by rewrite map_filter_insert_True.
Qed.

Lemma forget_start ps p s t :
  table_ok t → p ∉ ps → objects t !! p = Some s →
  (startTimerTickService (getCookie s) (forget ps t)).2 =
  forget ps (startTimerTickService (getCookie s) t).2.
Proof.
  intros Ht Hp Hs. unfold startTimerTickService, getCookie.
  rewrite forget_entry by (done || by intros q Hq; rewrite (own_entry t p s q)).
  destruct (timerTickServices t !! cookie s) as [q|] eqn:E; [|done].
  rewrite (own_entry t p s q Ht Hs E). rewrite forget_lookup, Hs by done. cbn. symmetry. by apply forget_put.
Qed.

Lemma forget_unregister ps p t :
  table_ok t → p ∉ ps → forget ps (unregister_at p t) = unregister_at p (forget ps t).
Proof.
  intros Ht Hp. unfold unregister_at. rewrite forget_lookup by done.
  destruct (objects t !! p) as [s|] eqn:Hs; [|done]. unfold unregisterTimerTickService, getCookie.
  rewrite forget_entry by (done || by intros q Hq; rewrite (own_entry t p s q)).
  destruct (timerTickServices t !! cookie s) as [q|] eqn:E; [|done].
  rewrite (own_entry t p s q Ht Hs E). unfold forget. cbn. f_equal.
  - by rewrite map_filter_delete.
  - apply map_eq. intros r. rewrite map_lookup_filter. destruct (decide (r = p)) as [->|Hr].
    + rewrite !lookup_alter_eq, map_lookup_filter, Hs. cbn. by rewrite !option_guard_True.
    + rewrite !lookup_alter_ne by done. by rewrite map_lookup_filter.
Qed.

Lemma client_step_ok own op t t' :
  table_ok t → client_step own op t = Some t' → table_ok t'.
Proof.
  intros Ht. unfold client_step. destruct (decide _) as [|_]; [done|]. destruct op as [p s|p b|p|p|p].
  - destruct (objects t !! p) eqn:E; [done|]. unfold getIsRegistered.
    destruct (Z.eqb_spec (cookie s) nullCookie) as [Ec|]; [|done]. intros [= <-].
    destruct Ht as [H1 H2 H3 H4 H5]. constructor; cbn; try done.
    + intros c q Hq. destruct (H4 c q Hq) as (s1 & Hs1 & Hc1). exists s1. split; [|done].
      rewrite lookup_insert_ne; [done|]. congruence.
    + intros q s1. rewrite lookup_insert_Some. intros [[<- <-]|[? ?]]; [done|by apply H5].
  - destruct (registerTimerTickService p b t) as [[id t1]|] eqn:E; [|done]. intros [= <-].
    by eapply register_ok.
  - destruct (objects t !! p); [|done]. intros [= <-]. by apply start_ok.
  - intros [= <-]. by apply unregister_at_spec.
  - destruct (objects t !! p) as [s|] eqn:E; [|done]. cbn. unfold getIsRegistered.
    destruct (Z.eqb_spec (cookie s) nullCookie); [|done]. intros [= <-].
    apply free_ok; [done|]. intros s' Hs'. congruence.
Qed.

(** A client that leaves [ps] alone does the same where they are not. *)
Lemma client_frame own ps op t t' :
  table_ok t → (∀ p, p ∈ ps → p ∈ own) → client_step own op t = Some t' →
  client_step [] op (forget ps t) = Some (forget ps t') ∧
  ∀ p, p ∈ own → objects t' !! p = objects t !! p.
Proof.
  intros Ht Hsub. unfold client_step. destruct (decide (client_object op ∈ own)) as [|Ho]; [done|].
  rewrite (decide_False (P := client_object op ∈ [])) by apply not_elem_of_nil.
  assert (client_object op ∉ ps) as Hp by (intros ?; by apply Ho, Hsub).
  assert (∀ p, p ∈ own → p ≠ client_object op) as Hne by (intros p Hp' ->; done).
  destruct op as [p s|p b|p|p|p]; cbn [client_object] in *; rewrite ?forget_lookup by done.
  - destruct (objects t !! p); [done|]. destruct (getIsRegistered s); [done|]. intros [= <-].
    split; [by rewrite forget_put|]. intros q Hq. cbn. rewrite lookup_insert_ne; [done|]. intros <-. by eapply Hne.
  - destruct (registerTimerTickService p b t) as [[id t1]|] eqn:E; [|done]. intros [= <-].
    rewrite (forget_register ps p b t id t1) by done. split; [done|]. intros q Hq.
    unfold registerTimerTickService in E. destruct (objects t !! p); [|done].
    repeat (destruct (_ : bool) in E; [done|]). destruct (timerTickServices t !! _); [done|].
    injection E as <- <-. cbn. rewrite lookup_insert_ne; [done|]. intros <-. by eapply Hne.
  - destruct (objects t !! p) as [s|] eqn:E; [|done]. cbn. intros [= <-].
    split; [by rewrite (forget_start ps p s t)|]. intros q Hq. unfold startTimerTickService, getCookie.
    destruct (timerTickServices t !! _) as [r|] eqn:Er; [|done]. rewrite (own_entry t p s r Ht E Er).
    rewrite E. cbn. rewrite lookup_insert_ne; [done|]. intros <-. by eapply Hne.
  - intros [= <-]. split; [by rewrite forget_unregister|]. intros q Hq.
    destruct (unregister_at_spec p t Ht) as (_ & _ & _ & ->); [done|]. by apply Hne.
  - destruct (objects t !! p) as [s|] eqn:E; [|done]. cbn. destruct (getIsRegistered s); [done|].
    intros [= <-]. split; [by rewrite forget_free|]. intros q Hq. cbn. rewrite lookup_delete_ne; [done|].
    intros <-. by eapply Hne.
Qed.

Lemma forget_tick_eq ps cond t :
  table_ok t → forget ps (tick cond t).1.1 = (tick cond (forget ps t)).1.1.
Proof.
  intros Ht. destruct (forget_tick ps cond t Ht) as [E1 E2].
  assert (nextTimerTickId (forget ps (tick cond t).1.1) = nextTimerTickId (tick cond (forget ps t)).1.1) as E.
  { cbn. unfold tick. by destruct (tick_entries_table cond t (map_to_list (timerTickServices t))) as [-> _],
      (tick_entries_table cond (forget ps t) (map_to_list (timerTickServices (forget ps t)))) as [-> _]. }
  destruct (forget _ _), (tick _ _) as [[[] ?] ?]. cbn in *. by subst.
Qed.

(** ** The threads *)

(** What a thread does between the registration of its services and its loop,
    and between its loop and their removal. *)
Class ThreadEnds (D : Type) := {
  thread_begin : D → res D;
  thread_end : D → res D;
}.

(** A service that sets its flag again and again. *)
Definition repeats (s : TimerTickService) : Prop :=
  periodic s = true ∧ (trigger s = ServiceBool ∨ trigger s = ServiceCv).

(** [idle] is what a component is while its thread does not run. *)
Class ThreadLaws (D X : Type) `{PollingLoop D X} `{ThreadEnds D} (inv : Z → D → Prop)
    (post_ok : X → Prop) (idle : D → Prop) : Prop := {
  law_repeats : Forall repeats (all_services (D := D) (X := X));
  law_idle_post d x : idle d → post_ok x → idle (loop_post x d);
  law_begin d : idle d → ∃ d', thread_begin d = Ok d' ∧ inv 0 d';
  law_end n d : inv n d → ∃ d', thread_end d = Ok d' ∧ idle d';
}.

(** *** A registered service of a thread, from its start on *)

Definition ticking (s s' : TimerTickService) : Prop :=
  cookie s' ≠ nullCookie ∧ periodic s' = true ∧ trigger s' = trigger s ∧ interval s' = interval s ∧
  1 <= ticksLeft s' <= period s.

Lemma ticking_started s s' : repeats s → started s s' → ticking s s'.
Proof.
  intros [Hp _] (c & Hc & ->). pose proof (period_pos s). rewrite start_ticksLeft. unfold ticking. cbn.
  change (period (set_cookie c s)) with (period s). split_and!; done || lia.
Qed.

Lemma ticking_down s s' b : ticking s s' → ticking s (set_expired b s').
Proof. done. Qed.

Lemma ticking_tick cond p s s' :
  repeats s → ticking s s' →
  registered_obj s' = true ∧ ticking s (tick_obj cond p s') ∧
  (expired s' = true ∨ ticksLeft s' = 1 → expired (tick_obj cond p s') = true) ∧
  (1 < ticksLeft s' → ticksLeft (tick_obj cond p s') = ticksLeft s' - 1).
Proof.
  intros [Hp Ht] (H1 & H2 & H3 & H4 & H5).
  assert (registered_obj s' = true) as Hr by (by apply negb_true_iff, Z.eqb_neq).
  assert (period s' = period s) as Ep by (unfold period; by rewrite H4).
  pose proof (period_pos s) as Hpos. split; [done|]. unfold tick_obj, tick_service.
  destruct (Z.ltb_spec 0 (ticksLeft s')); [|lia]. cbn [ticksLeft set_ticksLeft].
  destruct (Z.eqb_spec (ticksLeft s' - 1) 0) as [E|E].
  - unfold expireTrigger. cbn [trigger set_ticksLeft].
    assert (∀ x, getIsRegistered (set_expired true (set_ticksLeft x s')) = true) as Hg by done.
    destruct Ht as [Ht|Ht]; rewrite Ht in H3; rewrite H3; cbn [periodic set_expired set_ticksLeft];
      rewrite H2, Hg; cbn [andb fst]; rewrite start_ticksLeft; unfold ticking; cbn;
      change (period (set_expired _ _)) with (period s'); rewrite Ep, Ht; split_and!; done || lia.
  - unfold ticking. cbn. split_and!; try done; try lia. intros [?|?]; [done|lia].
Qed.

Section system.
Context {I : Type} `{Finite I}.
Context {D X : I → Type} `{L : ∀ i, PollingLoop (D i) (X i)} `{∀ i, ThreadEnds (D i)}.

Record Threaded := mkThreaded {
  timer : TimerTick;
  slots : I → option (list Z);     (* the addresses of a running thread's services *)
  begun : I → bool;                (* a thread is started once *)
  data : ∀ i, D i;
}.

Definition set_data (i : I) (v : D i) (d : ∀ i, D i) : ∀ i, D i := λ j,
  match decide (i = j) with left e => eq_rect i D v j e | right _ => d j end.

Lemma set_data_eq i v d : set_data i v d i = v.
Proof. unfold set_data. destruct (decide (i = i)) as [e|]; [|done]. by rewrite (proof_irrel e eq_refl). Qed.

Lemma set_data_ne i j v d : i ≠ j → set_data i v d j = d j.
Proof. intros Hne. unfold set_data. by destruct (decide (i = j)). Qed.

Inductive ThreadEvent :=
  | TimerPass (cond : Z → bool)
  | Client (op : ClientOp)
  | Start (i : I)
  | Ask (i : I) (x : X i)
  | Loop (i : I)
  | Stop (i : I).

(** The services of all running threads. *)
Definition running (s : Threaded) : list Z := enum I ≫= λ i, default [] (slots s i).

(** [None] where the step cannot be taken now. *)
Definition threads_step (e : ThreadEvent) (s : Threaded) : option (res Threaded) :=
  match e with
  | TimerPass cond => Some (Ok (mkThreaded (tick cond (timer s)).1.1 (slots s) (begun s) (data s)))
  | Client op => t ← client_step (running s) op (timer s); Some (Ok (mkThreaded t (slots s) (begun s) (data s)))
  | Ask i x => Some (Ok (mkThreaded (timer s) (slots s) (begun s) (set_data i (loop_post x (data s i)) (data s))))
  | Start i =>
      if begun s i then None
      else match slots s i with
      | Some _ => None
      | None => Some (
          let! (ps, t) := enter (all_services (D := D i)) (timer s) in
          let! d := thread_begin (data s i) in
          Ok (mkThreaded t (<[i := Some ps]> (slots s)) (<[i := true]> (begun s)) (set_data i d (data s))))
      end
  | Loop i =>
      ps ← slots s i;
      r ← loop_body ps (timer s) (data s i);
      Some (let! (t, d) := r in Ok (mkThreaded t (slots s) (begun s) (set_data i d (data s))))
  | Stop i =>
      ps ← slots s i;
      Some (let! d := thread_end (data s i) in
            Ok (mkThreaded (leave ps (timer s)) (<[i := None]> (slots s)) (begun s) (set_data i d (data s))))
  end.

Fixpoint threads_run (es : list ThreadEvent) (s : Threaded) : option (res Threaded) :=
  match es with
  | [] => Some (Ok s)
  | e :: es =>
      r ← threads_step e s;
      match r with Ok s => threads_run es s | Throw x => Some (Throw x) end
  end.

Lemma threads_run_app es1 es2 s :
  threads_run (es1 ++ es2) s =
  match threads_run es1 s with Some (Ok s) => threads_run es2 s | o => o end.
Proof.
  revert s. induction es1 as [|e es IH]; intros s; [done|]. cbn [app threads_run].
  destruct (threads_step e s) as [[s1|x]|]; [apply IH|done|done].
Qed.

(** ** What the timer sees of it *)
Definition env_of (e : ThreadEvent) : list EnvEvent :=
  match e with
  | TimerPass cond => [EnvPass cond]
  | Client op => [EnvClient op]
  | Start i => [EnvIds (Z.of_nat (length (all_services (D := D i))))]
  | _ => []
  end.

(** The ids an event uses up. *)
Definition ids_of (e : ThreadEvent) : Z :=
  match e with
  | Client (ClientRegister _ _) => 1
  | Start i => Z.of_nat (length (all_services (D := D i)))
  | _ => 0
  end.

Definition is_loop (i : I) (e : ThreadEvent) : bool :=
  match e with Loop j => bool_decide (i = j) | _ => false end.

(** How often a thread's loop went round. *)
Definition loops (i : I) (es : list ThreadEvent) : Z :=
  Z.of_nat (length (filter (λ e, is_loop i e = true) es)).

Definition ids (es : list ThreadEvent) : Z := foldr (λ e n, ids_of e + n) 0 es.

Lemma elem_of_running s p : p ∈ running s ↔ ∃ i ps, slots s i = Some ps ∧ p ∈ ps.
Proof.
  unfold running. rewrite list_elem_of_bind. split.
  - intros (i & Hp & _). destruct (slots s i) as [ps|] eqn:E; [by exists i, ps|].
    by apply not_elem_of_nil in Hp.
  - intros (i & ps & E & Hp). exists i. rewrite E. split; [done|apply elem_of_enum].
Qed.

Lemma running_start s s' i ps p :
  slots s i = None → slots s' = <[i := Some ps]> (slots s) →
  p ∈ running s' ↔ p ∈ running s ++ ps.
Proof.
  intros Ei Es. rewrite elem_of_app, !elem_of_running, Es. split.
  - intros (j & qs & Ej & Hp). destruct (decide (i = j)) as [<-|Hne].
    + rewrite fn_lookup_insert in Ej. injection Ej as <-. by right.
    + rewrite fn_lookup_insert_ne in Ej by done. left. by exists j, qs.
  - intros [(j & qs & Ej & Hp)|Hp].
    + exists j, qs. by rewrite fn_lookup_insert_ne by congruence.
    + exists i, ps. by rewrite fn_lookup_insert.
Qed.

Context (inv : ∀ i, Z → D i → Prop) (post_ok : ∀ i, X i → Prop) (within : ∀ i, Z → Prop)
  (idle : ∀ i, D i → Prop)
  `{PL : ∀ i, PollingLaws (D i) (X i) (inv i) (post_ok i) (within i)}
  `{TL : ∀ i, ThreadLaws (D i) (X i) (inv i) (post_ok i) (idle i)}.

(** The threads' services tick, and are their own; a running component has its
    invariant, for no more iterations than there were, the others are idle. *)
Record threads_ok (n : I → Z) (s : Threaded) : Prop := {
  sys_table : table_ok (timer s);
  sys_next : 0 < nextTimerTickId (timer s);
  sys_count i : 0 <= n i;
  sys_services i ps : slots s i = Some ps →
    objects_are ticking ps (all_services (D := D i)) (timer s);
  sys_apart i j ps qs p : slots s i = Some ps → slots s j = Some qs → p ∈ ps → p ∈ qs → i = j;
  sys_data i : match slots s i with
               | Some _ => ∃ m, m <= n i ∧ inv i m (data s i)
               | None => idle i (data s i)
               end;
}.

Definition event_ok (e : ThreadEvent) : Prop :=
  match e with Ask i x => post_ok i x | _ => True end.

(** What a step from [s] must lead to. *)
Definition good_step (n n' : I → Z) (e : ThreadEvent) (s : Threaded) (r : res Threaded) : Prop :=
  ∃ s', r = Ok s' ∧ threads_ok n' s' ∧
    nextTimerTickId (timer s') = nextTimerTickId (timer s) + ids_of e ∧
    env_run (env_of e) (forget (running s) (timer s)) = Some (forget (running s') (timer s')).

Lemma sys_objects n s (Hs : threads_ok n s) p : p ∈ running s → is_Some (objects (timer s) !! p).
Proof.
  intros (i & ps & Ei & Hp)%elem_of_running. pose proof (sys_services _ _ Hs i ps Ei) as Ho.
  apply list_elem_of_lookup in Hp as [k Hk].
  destruct (Forall2_lookup_l _ _ _ _ _ Ho Hk) as (v & _ & o & Eo & _). by exists o.
Qed.

Lemma slot_running s i ps p : slots s i = Some ps → p ∈ ps → p ∈ running s.
Proof. intros Ei Hp. apply elem_of_running. by exists i, ps. Qed.

(** A thread's slot and those of the others. *)
Lemma sys_data_update n s t b i (o : option (list Z)) v :
  threads_ok n s →
  match o with Some _ => ∃ m, m <= n i ∧ inv i m v | None => idle i v end →
  ∀ j, match slots (mkThreaded t (<[i := o]> (slots s)) b (set_data i v (data s))) j with
       | Some _ => ∃ m, m <= n j ∧ inv j m (data (mkThreaded t (<[i := o]> (slots s)) b (set_data i v (data s))) j)
       | None => idle j (data (mkThreaded t (<[i := o]> (slots s)) b (set_data i v (data s))) j)
       end.
Proof.
  intros Hs Hv j. cbn [slots data]. destruct (decide (i = j)) as [<-|Hne].
  - by rewrite fn_lookup_insert, set_data_eq.
  - rewrite fn_lookup_insert_ne, set_data_ne by done. apply (sys_data _ _ Hs).
Qed.

Lemma step_pass n cond s :
  threads_ok n s → good_step n n (TimerPass cond) s (Ok (mkThreaded (tick cond (timer s)).1.1 (slots s) (begun s) (data s))).
Proof.
  intros [Ht Hx Hc Ho Ha Hd]. destruct (tick_entries_table cond (timer s)
    (map_to_list (timerTickServices (timer s)))) as [En _].
  eexists. split; [done|]. split; [|split].
  - constructor; try done; cbn [timer].
    + by apply tick_ok.
    + unfold tick. by rewrite En.
    + intros i ps Ei. pose proof (law_repeats (ThreadLaws := TL i)) as Hrep.
      apply Forall2_same_length_lookup. split; [by eapply Forall2_length, Ho|].
      intros k p v Hp Hv. destruct (Forall2_lookup_lr _ _ _ _ _ _ (Ho i ps Ei) Hp Hv) as (v' & Ev & Htk).
      destruct (ticking_tick cond p v v' (Forall_lookup_1 _ _ _ _ Hrep Hv) Htk) as (Er & Htk' & _).
      exists (tick_obj cond p v'). split; [|done]. rewrite tick_lookup, Ev by done. cbn. by rewrite Er.
  - cbn [timer ids_of]. unfold tick. rewrite En. lia.
  - cbn [env_of env_run ofold env_step mbind option_bind timer]. by rewrite (forget_tick_eq (running s)).
Qed.

Lemma step_client n op s t :
  threads_ok n s → nextTimerTickId (timer s) + ids_of (Client op) < 2 ^ 64 →
  client_step (running s) op (timer s) = Some t →
  good_step n n (Client op) s (Ok (mkThreaded t (slots s) (begun s) (data s))).
Proof.
  intros [Ht Hx Hc Ho Ha Hd] Hb E.
  destruct (client_frame (running s) (running s) op (timer s) t Ht (λ _ H, H) E) as [Ef Eo].
  pose proof (client_step_ok _ _ _ _ Ht E) as Ht'.
  assert (nextTimerTickId t = nextTimerTickId (timer s) + ids_of (Client op)) as En.
  { unfold client_step in E. destruct (decide _); [done|]. destruct op as [p v|p b|p|p|p]; cbn [ids_of] in *.
    - destruct (objects _ !! p); [done|]. destruct (getIsRegistered v); [done|]. injection E as <-. cbn. lia.
    - unfold registerTimerTickService in E. destruct (objects _ !! p); [|done].
      repeat (destruct (_ : bool) in E; [done|]). destruct (timerTickServices _ !! _); [done|].
      injection E as <-. cbn. apply u64_small. lia.
    - destruct (objects _ !! p); [|done]. injection E as <-. unfold startTimerTickService.
      destruct (timerTickServices _ !! _); [|cbn; lia]. destruct (objects _ !! _); cbn; lia.
    - injection E as <-. destruct (unregister_at_spec p (timer s) Ht) as (_ & -> & _). lia.
    - destruct (objects _ !! p) as [v|]; [|done]. cbn in E. destruct (getIsRegistered v); [done|].
      injection E as <-. cbn. lia. }
  eexists. split; [done|]. split; [|split; [done|]].
  - constructor; try done; cbn [timer].
    + rewrite En. destruct op; cbn; lia.
    + intros i ps Ei. apply (objects_are_lookup _ _ _ (timer s)); [|by apply Ho].
      intros p Hp. apply Eo. by eapply slot_running.
  - cbn [env_of env_run ofold env_step]. by rewrite Ef.
Qed.

Lemma step_ask n i x s :
  threads_ok n s → post_ok i x →
  good_step n n (Ask i x) s (Ok (mkThreaded (timer s) (slots s) (begun s) (set_data i (loop_post x (data s i)) (data s)))).
Proof.
  intros [Ht Hx Hc Ho Ha Hd] Hp. eexists. split; [done|]. split; [|split; [cbn; lia|done]].
  constructor; try done; cbn [slots data]. intros j.
  destruct (decide (i = j)) as [<-|Hne]; [|rewrite set_data_ne by done; apply Hd].
  rewrite set_data_eq. specialize (Hd i). destruct (slots s i).
  - destruct Hd as (m & Hm & Hi). exists m. split; [done|]. by apply (law_post (PollingLaws := PL i)).
  - by apply (law_idle_post (ThreadLaws := TL i)).
Qed.

Lemma step_start n i s r :
  threads_ok n s → nextTimerTickId (timer s) + ids_of (Start i) < 2 ^ 64 →
  threads_step (Start i) s = Some r → good_step n n (Start i) s r.
Proof.
  intros Hs Hb E. pose proof Hs as [Ht Hx Hc Ho Ha Hd]. cbn [threads_step] in E.
  destruct (begun s i); [done|].
  destruct (slots s i) as [?|] eqn:Ei; [done|]. injection E as <-.
  destruct (enter_spec (all_services (D := D i)) (timer s) Ht
    (law_services (PollingLaws := PL i)) (conj Hx Hb)) as (ps & t & -> & Ht' & En & Hps & _ & Es & Eos).
  specialize (Hd i) as Hi. rewrite Ei in Hi.
  destruct (law_begin (ThreadLaws := TL i) _ Hi) as (d & Ed & Hd0). cbn [res_bind]. rewrite Ed. cbn [res_bind].
  assert (∀ p, p ∈ ps → objects (timer s) !! p = None) as Hfresh.
  { intros p Hp. rewrite <-Eos. cbn. apply map_lookup_filter_None. right. by intros ? _ Hn. }
  assert (∀ p, p ∈ ps → p ∉ running s) as Hnew.
  { intros p Hp Hr. destruct (sys_objects n s Hs p Hr) as [o Eo]. by rewrite Hfresh in Eo. }
  set (s' := mkThreaded t (<[i := Some ps]> (slots s)) (<[i := true]> (begun s)) (set_data i d (data s))).
  assert (∀ p, p ∈ running s' ↔ p ∈ running s ++ ps) as Hr by (intros p; by eapply running_start).
  exists s'. split; [done|]. split; [constructor; cbn [timer slots s']|split; [exact En|]].
  - done.
  - lia.
  - done.
  - intros j qs Ej. destruct (decide (i = j)) as [<-|Hne].
    + rewrite fn_lookup_insert in Ej. injection Ej as <-. pose proof (law_repeats (ThreadLaws := TL i)) as Hrep.
      apply Forall2_same_length_lookup. split; [by eapply Forall2_length|]. intros k p v Hp Hv.
      destruct (Forall2_lookup_lr _ _ _ _ _ _ Hps Hp Hv) as (v' & Ev & Hst). exists v'. split; [done|].
      apply ticking_started; [by eapply Forall_lookup_1|done].
    + rewrite fn_lookup_insert_ne in Ej by done. apply (objects_are_lookup _ _ _ (timer s)); [|by apply Ho].
      intros p Hp. assert (p ∉ ps) as Hn by (intros Hq; apply (Hnew p Hq); by eapply slot_running).
      by rewrite <-(forget_lookup ps t), Eos.
  - intros j k qs rs p. destruct (decide (i = j)) as [<-|Hj], (decide (i = k)) as [<-|Hk];
      rewrite ?fn_lookup_insert, ?fn_lookup_insert_ne by done; try done.
    + intros [= <-] Ek Hp Hq. destruct (Hnew p Hp). apply elem_of_running. by exists k, rs.
    + intros Ej [= <-] Hp Hq. destruct (Hnew p Hq). apply elem_of_running. by exists j, qs.
    + by apply Ha.
  - apply (sys_data_update n s t _ i (Some ps) d Hs). by exists 0.
  - cbn [env_of env_run ofold env_step mbind option_bind]. f_equal.
    change (timer s') with t. rewrite (forget_ext _ _ t Hr), forget_app.
    unfold add_ids. change (nextTimerTickId (forget (running s) (timer s))) with (nextTimerTickId (timer s)).
    rewrite <-En. unfold forget at 1 2 3. cbn [timerTickServices objects]. by rewrite <-Es, <-Eos.
Qed.

Lemma step_loop n i s r :
  threads_ok n s → (∀ m, m <= n i + 1 → within i m) →
  threads_step (Loop i) s = Some r → good_step n (λ j, n j + b2z (bool_decide (j = i))) (Loop i) s r.
Proof.
  intros Hs Hw E. pose proof Hs as [Ht Hx Hc Ho Ha Hd]. cbn [threads_step] in E.
  destruct (slots s i) as [ps|] eqn:Ei; [|done]. cbn [mbind option_bind] in E.
  destruct (loop_body ps (timer s) (data s i)) as [rb|] eqn:Eb; [|done]. injection E as <-.
  destruct (loop_body_frame ps (timer s) (data s i) rb Ht Eb) as (flags & t & -> & Ht' & En & Ef & Hdown).
  specialize (Hd i) as Hi. rewrite Ei in Hi. destruct Hi as (m & Hm & Hi).
  assert (within i (m + 1)) as Hm1 by (apply Hw; lia).
  destruct (law_iterate (PollingLaws := PL i) m (data s i) flags Hi Hm1) as (d & -> & Hd').
  cbn [res_bind]. set (s' := mkThreaded t (slots s) (begun s) (set_data i d (data s))).
  assert (∀ p, p ∈ ps → p ∈ running s) as Hsub by (intros p Hp; apply elem_of_running; by exists i, ps).
  exists s'. split; [done|]. split; [constructor; cbn [timer slots s']|split].
  - done.
  - lia.
  - intros j. specialize (Hc j). destruct (bool_decide _); cbn; lia.
  - intros j qs Ej. eapply Forall2_impl; [by apply (Ho j qs)|]. intros p v (v' & Ev & Htk).
    destruct (Hdown p v' Ev) as [b Eb']. by exists (set_expired b v').
  - done.
  - intros j. cbn [slots data s']. destruct (decide (i = j)) as [<-|Hne].
    + rewrite Ei, set_data_eq. exists (m + 1). rewrite bool_decide_true by done. cbn. split; [lia|done].
    + rewrite set_data_ne, bool_decide_false by done. cbn. rewrite Z.add_0_r. apply Hd.
  - change (nextTimerTickId t = nextTimerTickId (timer s) + 0). lia.
  - cbn [env_of env_run ofold]. f_equal. change (running s') with (running s). cbn [timer s'].
    assert (∀ u, forget (running s) u = forget (running s) (forget ps u)) as Hall.
    { intros u. rewrite <-forget_app. apply forget_ext. intros p. rewrite elem_of_app. naive_solver. }
    by rewrite (Hall t), Ef, <-Hall.
Qed.

Lemma step_stop n i s r :
  threads_ok n s → threads_step (Stop i) s = Some r → good_step n n (Stop i) s r.
Proof.
  intros Hs E. pose proof Hs as [Ht Hx Hc Ho Ha Hd]. cbn [threads_step] in E.
  destruct (slots s i) as [ps|] eqn:Ei; [|done]. cbn [mbind option_bind] in E. injection E as <-.
  specialize (Hd i) as Hi. rewrite Ei in Hi. destruct Hi as (m & Hm & Hi).
  destruct (law_end (ThreadLaws := TL i) m _ Hi) as (d & -> & Hd'). cbn [res_bind].
  set (s' := mkThreaded (leave ps (timer s)) (<[i := None]> (slots s)) (begun s) (set_data i d (data s))).
  assert (∀ p, p ∈ running s' ↔ p ∈ running s ∧ p ∉ ps) as Hr.
  { intros p. rewrite !elem_of_running. cbn [slots s']. split.
    - intros (j & qs & Ej & Hp). destruct (decide (i = j)) as [<-|Hne].
      + by rewrite fn_lookup_insert in Ej.
      + rewrite fn_lookup_insert_ne in Ej by done. split; [by exists j, qs|]. intros Hq.
        by apply Hne, (Ha i j ps qs p).
    - intros [(j & qs & Ej & Hp) Hn]. exists j, qs. rewrite fn_lookup_insert_ne; [done|].
      intros <-. rewrite Ei in Ej. by injection Ej as <-. }
  exists s'. split; [done|]. split; [constructor; cbn [timer slots s']|split].
  - rewrite leave_is_forget by done. by apply forget_ok.
  - by rewrite leave_is_forget.
  - done.
  - intros j qs Ej. destruct (decide (i = j)) as [<-|Hne]; [by rewrite fn_lookup_insert in Ej|].
    rewrite fn_lookup_insert_ne in Ej by done. rewrite leave_is_forget by done.
    apply (objects_are_lookup _ _ _ (timer s)); [|by apply Ho]. intros p Hp. apply forget_lookup.
    intros Hq. by apply Hne, (Ha i j ps qs p).
  - intros j k qs rs p. destruct (decide (i = j)) as [<-|Hj], (decide (i = k)) as [<-|Hk];
      rewrite ?fn_lookup_insert, ?fn_lookup_insert_ne by done; try done. by apply Ha.
  - by apply (sys_data_update n s _ _ i None d Hs).
  - cbn [timer s' ids_of]. rewrite leave_is_forget by done. cbn. lia.
  - cbn [env_of env_run ofold timer s']. rewrite leave_is_forget, <-forget_app by done. f_equal.
    apply forget_ext. intros p. rewrite elem_of_app, Hr. destruct (decide (p ∈ ps)) as [Hp|Hp]; [|tauto].
    split; [by right|]. intros _. apply elem_of_running. by exists i, ps.
Qed.

Lemma loops_cons i e es : loops i (e :: es) = b2z (is_loop i e) + loops i es.
Proof. unfold loops. rewrite filter_cons. destruct (is_loop i e); case_decide; cbn [length b2z]; done || lia. Qed.

Lemma loops_nonneg i es : 0 <= loops i es.
Proof. unfold loops. lia. Qed.

Lemma ids_nonneg es : 0 <= ids es.
Proof.
  assert (∀ e, 0 <= ids_of e) as Hpos by (intros [| [] | | | |]; unfold ids_of; lia).
  unfold ids. induction es as [|e es IH]; cbn [foldr]; [done|]. specialize (Hpos e). lia.
Qed.

Lemma step_good n e s r :
  threads_ok n s → (∀ i m, m <= n i + b2z (is_loop i e) → within i m) →
  nextTimerTickId (timer s) + ids_of e < 2 ^ 64 → event_ok e → threads_step e s = Some r →
  ∃ n', (∀ i, n' i = n i + b2z (is_loop i e)) ∧ good_step n n' e s r.
Proof.
  intros Hs Hw Hb He E. destruct e as [cond|op|i|i x|i|i]; cbn [threads_step] in E;
    try (exists n; split; [intros; cbn; lia|]).
  - injection E as <-. by apply step_pass.
  - destruct (client_step _ _ _) as [t|] eqn:Ec; [|done]. injection E as <-. by apply step_client.
  - by apply step_start.
  - injection E as <-. by apply step_ask.
  - exists (λ j, n j + b2z (bool_decide (j = i))). split; [done|]. apply step_loop; [done| |done].
    intros m Hm. apply (Hw i). cbn. by rewrite bool_decide_true.
  - by apply step_stop.
Qed.

(** Every run of the system: no step fails, the invariant holds at its end,
    and the timer without the threads makes the corresponding run. *)
Lemma threads_run_ok es n s r :
  threads_ok n s → (∀ i m, m <= n i + loops i es → within i m) →
  nextTimerTickId (timer s) + ids es < 2 ^ 64 → Forall event_ok es → threads_run es s = Some r →
  ∃ s' n', r = Ok s' ∧ threads_ok n' s' ∧ (∀ i, n' i = n i + loops i es) ∧
    env_run (es ≫= env_of) (forget (running s) (timer s)) = Some (forget (running s') (timer s')).
Proof.
  revert n s. induction es as [|e es IH]; intros n s Hs Hw Hb Hes E; cbn [threads_run] in E.
  - injection E as <-. exists s, n. split_and!; try done. intros i. unfold loops. cbn. lia.
  - apply Forall_cons in Hes as [He Hes]. change (ids (e :: es)) with (ids_of e + ids es) in Hb.
    pose proof (ids_nonneg es).
    destruct (threads_step e s) as [re|] eqn:Ee; [|done]. cbn [mbind option_bind] in E.
    destruct (step_good n e s re Hs) as (n1 & En1 & s1 & -> & Hs1 & Ex & Eenv); try done; [|lia|].
    { intros i m Hm. apply Hw. rewrite loops_cons. pose proof (loops_nonneg i es). lia. }
    destruct (IH n1 s1 Hs1) as (s' & n' & -> & Hs' & En & Er); try done; [|lia|].
    { intros i m Hm. apply Hw. rewrite loops_cons, Z.add_assoc, <-En1. done. }
    exists s', n'. split_and!; try done.
    + intros i. rewrite En, En1, loops_cons. lia.
    + cbn [mbind list_bind]. unfold env_run in *. rewrite ofold_app, Eenv. exact Er.
Qed.

(** *** No thread is stuck *)

Lemma passes_expire conds n s i p ps v :
  threads_ok n s → slots s i = Some (p :: ps) → objects (timer s) !! p = Some v →
  ticksLeft v <= Z.of_nat (length conds) ∨ expired v = true →
  ∃ s' v', threads_run (TimerPass <$> conds) s = Some (Ok s') ∧ slots s' = slots s ∧
    objects (timer s') !! p = Some v' ∧ expired v' = true.
Proof.
  revert s v. induction conds as [|cond conds IH]; intros s v Hs Ei Ev Hv;
    pose proof (sys_services _ _ Hs i _ Ei) as Ho;
    apply Forall2_cons_inv_l in Ho as (s0 & l & (v1 & Ev1 & Htk) & _ & El); simplify_eq.
  - exists s, v. split_and!; try done. destruct Hv as [Hv|]; [|done].
    destruct Htk as (_ & _ & _ & _ & Hb). cbn in Hv. lia.
  - destruct (step_pass n cond s Hs) as (s1 & [= <-] & Hs1 & _). cbn [fmap list_fmap threads_run].
    cbn [threads_step mbind option_bind].
    pose proof (law_repeats (ThreadLaws := TL i)) as Hrep. rewrite El in Hrep. apply Forall_cons in Hrep as [Hrep _].
    destruct (ticking_tick cond p s0 v Hrep Htk) as (Er & _ & Hexp & Hleft).
    destruct (IH _ (tick_obj cond p v) Hs1 Ei) as (s' & v' & Hr & Es & Ev' & Hx).
    + cbn [timer]. rewrite tick_lookup, Ev by apply Hs. cbn. by rewrite Er.
    + destruct Htk as (_ & _ & _ & _ & Hb). cbn [length] in Hv.
      destruct (decide (expired v = true)); [right; auto|]. destruct (decide (ticksLeft v = 1)); [right; auto|].
      left. rewrite Hleft by lia. destruct Hv; [lia|done].
    + by exists s', v'.
Qed.

Lemma passes_keep conds n s s' :
  threads_ok n s → threads_run (TimerPass <$> conds) s = Some (Ok s') → threads_ok n s'.
Proof.
  revert s. induction conds as [|cond conds IH]; intros s Hs E; [by injection E as <-|].
  destruct (step_pass n cond s Hs) as (s1 & [= <-] & Hs1 & _). by apply (IH _ Hs1).
Qed.

(** When the timer passes as often as the period of a running thread's first
    service, its loop can go round. *)
Lemma thread_goes_on conds n s i ps :
  threads_ok n s → slots s i = Some ps → (∀ m, m <= n i + 1 → within i m) →
  period (loop_services (D := D i)).1 <= Z.of_nat (length conds) →
  ∃ s', threads_run ((TimerPass <$> conds) ++ [Loop i]) s = Some (Ok s').
Proof.
  intros Hs Ei Hw Hlen. pose proof (sys_services _ _ Hs i _ Ei) as Ho. unfold all_services in Ho.
  apply Forall2_cons_inv_r in Ho as (p & ps' & (v & Ev & Htk) & _ & ->).
  assert (ticksLeft v <= Z.of_nat (length conds)) as Hv by (destruct Htk as (_ & _ & _ & _ & Hb); lia).
  destruct (passes_expire conds n s i p ps' v Hs Ei Ev (or_introl Hv)) as (s1 & v1 & Hr & Es & Ev1 & Hx).
  pose proof (passes_keep conds n s s1 Hs Hr) as Hs1.
  assert (∃ r, threads_step (Loop i) s1 = Some r) as [r Er].
  { cbn [threads_step]. rewrite Es, Ei. cbn [mbind option_bind]. unfold loop_body, wait_at. rewrite Ev1.
    cbn [mbind option_bind]. unfold wait. rewrite Hx. cbn [mbind option_bind]. destruct (read_all _ _). by eexists. }
  destruct (step_loop n i s1 r Hs1) as (s' & -> & _); [done..|].
  exists s'. rewrite threads_run_app, Hr. cbn [threads_run]. by rewrite Er.
Qed.

(** Before any thread is started. *)
Definition all_idle (t : TimerTick) (d : ∀ i, D i) : Threaded := mkThreaded t (λ _, None) (λ _, false) d.

Lemma all_idle_ok t d :
  table_ok t → 0 < nextTimerTickId t → (∀ i, idle i (d i)) → threads_ok (λ _, 0) (all_idle t d).
Proof. intros Ht Hn Hd. by constructor. Qed.

Lemma running_idle t d : running (all_idle t d) = [].
Proof.
  unfold running. cbn [slots all_idle]. induction (enum I) as [|i l IH]; [done|]. cbn. exact IH.
Qed.
End system.
Arguments Threaded {I} D.
Arguments ThreadEvent {I} X.
