(* ===== verification/Sensors.v ===== *)
(** * The sensor threads: src/src/motionSensor.cpp, src/src/motionInput.cpp,
      src/src/lightSensor.cpp and the analog inputs of src/src/adc/ *)
From S2P Require Import Prelude CLib Gpio Inbox.

(** ** Motion *)
Module Motion.

Definition sensorGpioPin : Z := 10.

Record MotionInfo := mkMotionInfo {
  currMotionDetected : bool;
  lastChangedSec : Z;
  lastChangedMin : Z;
  lastChangedHour : Z;
}.

Definition initial : MotionInfo := mkMotionInfo false 0 0 0.

Definition configureMotionInput (pin : Z) : list GpioOperation := [op_configureInput pin].

Definition readMotionDetected `{GpioDevice G} (pin : Z) (g : G) : res (bool * G) :=
  let! (v, g') := gpio_read pin g in Ok (is_high v, g').

(** The four bytes of the struct, copied over the start of the payload. *)
Definition info_bytes (m : MotionInfo) : list Z :=
  [b2z (currMotionDetected m); lastChangedSec m; lastChangedMin m; lastChangedHour m].

Definition notifyMotionSensorChange (m : MotionInfo) : InboxMsg :=
  mkInboxMsg (if currMotionDetected m then inboxMsgTypeMotionOn else inboxMsgTypeMotionOff)
    (info_bytes m ++ drop 4 initPayload).

(** The update of [checkMotionSensor] for one reading: the return value, the
    state, and the message that is broadcast. *)
Definition update (detected : bool) (m : MotionInfo) : bool * MotionInfo * option InboxMsg :=
  if bool_decide (currMotionDetected m = detected) then
    let sec := u8 (lastChangedSec m + 1) in
    if 59 <? sec then
      let min := u8 (lastChangedMin m + 1) in
      if 59 <? min then
        let hour := lastChangedHour m in
        (false, mkMotionInfo detected 0 0 (if hour <? 254 then u8 (hour + 1) else hour), None)
      else (false, mkMotionInfo detected 0 min (lastChangedHour m), None)
    else (false, mkMotionInfo detected sec (lastChangedMin m) (lastChangedHour m), None)
  else
    let m1 := mkMotionInfo detected (lastChangedSec m) (lastChangedMin m)
                (lastChangedHour m) in
    (true, mkMotionInfo detected 0 0 0, Some (notifyMotionSensorChange m1)).

Definition checkMotionSensor `{GpioDevice G} (g : G) (m : MotionInfo) (reg : InboxRegistry)
    : res (bool * G * MotionInfo * InboxRegistry) :=
  let! (detected, g') := readMotionDetected sensorGpioPin g in
  let '(changed, m', msg) := update detected m in
  Ok (changed, g', m',
      match msg with
      | Some msg => broadcast msg threadIdMotionSensor reg
      | None => reg
      end).

Definition getMotionValue (m : MotionInfo) : bool * MotionInfo := (currMotionDetected m, m).

(** The readings of the loop, one a second: the state after them and what
    was broadcast. *)
Fixpoint readings (l : list bool) (m : MotionInfo) : MotionInfo * list InboxMsg :=
  match l with
  | [] => (m, [])
  | d :: l =>
      let '(_, m1, msg) := update d m in
      let '(m2, msgs) := readings l m1 in (m2, option_list msg ++ msgs)
  end.

(** The state after [n] seconds without a change. *)
Definition unchanged_for (d : bool) (n : Z) : MotionInfo :=
  mkMotionInfo d (n mod 60) (n / 60 mod 60) (Z.min 254 (n / 3600)).

Lemma update_same d n :
  0 <= n → update d (unchanged_for d n) = (false, unchanged_for d (n + 1), None).
Proof.
  intros Hn. unfold update, unchanged_for. cbn [currMotionDetected lastChangedSec
    lastChangedMin lastChangedHour]. cbv zeta. rewrite bool_decide_true by done.
  pose proof (Z.mod_pos_bound n 60 ltac:(lia)).
  pose proof (Z.mod_pos_bound (n / 60) 60 ltac:(lia)).
  pose proof (Z.div_mod n 60 ltac:(lia)). pose proof (Z.div_mod (n / 60) 60 ltac:(lia)).
  assert (Hh : ∀ k, k / 3600 = k / 60 / 60) by (intros; by rewrite Z.div_div by lia).
  rewrite !Hh. pose proof (Z.div_pos (n / 60) 60) as Hpos. pose proof (Z.div_pos n 60).
  rewrite (u8_small (n mod 60 + 1)), (u8_small (n / 60 mod 60 + 1)) by lia.
  destruct (Z.ltb_spec 59 (n mod 60 + 1)).
  - assert ((n + 1) / 60 = n / 60 + 1) as E1.
    { symmetry. apply Z.div_unique with 0; lia. }
    assert ((n + 1) mod 60 = 0) as E2 by (pose proof (Z.div_mod (n + 1) 60); lia).
    rewrite E1, E2. destruct (Z.ltb_spec 59 (n / 60 mod 60 + 1)).
    + assert ((n / 60 + 1) / 60 = n / 60 / 60 + 1) as E3.
      { symmetry. apply Z.div_unique with 0; lia. }
      assert ((n / 60 + 1) mod 60 = 0) as E4 by (pose proof (Z.div_mod (n / 60 + 1) 60); lia).
      rewrite E3, E4. destruct (Z.ltb_spec (Z.min 254 (n / 60 / 60)) 254).
      * rewrite u8_small by lia. do 3 f_equal. lia.
      * do 3 f_equal. lia.
    + assert ((n / 60 + 1) / 60 = n / 60 / 60) as E3.
      { symmetry. apply Z.div_unique with (n / 60 mod 60 + 1); lia. }
      assert ((n / 60 + 1) mod 60 = n / 60 mod 60 + 1) as E4
        by (pose proof (Z.div_mod (n / 60 + 1) 60); lia).
      by rewrite E3, E4.
  - assert ((n + 1) / 60 = n / 60) as E1.
    { symmetry. apply Z.div_unique with (n mod 60 + 1); lia. }
    assert ((n + 1) mod 60 = n mod 60 + 1) as E2 by (pose proof (Z.div_mod (n + 1) 60); lia).
    by rewrite E1, E2.
Qed.

Lemma readings_same d n (k : nat) :
  0 <= n → readings (replicate k d) (unchanged_for d n) = (unchanged_for d (n + Z.of_nat k), []).
Proof.
  revert n. induction k as [|k IH]; intros n Hn; cbn [replicate readings].
  - by rewrite Z.add_0_r.
  - rewrite update_same, IH by lia. do 2 f_equal. lia.
Qed.

Lemma readings_app l1 l2 m :
  readings (l1 ++ l2) m =
  let '(m1, o1) := readings l1 m in let '(m2, o2) := readings l2 m1 in (m2, o1 ++ o2).
Proof.
  revert m. induction l1 as [|d l IH]; intros m; simpl.
  - by destruct (readings l2 m).
  - destruct (update d m) as [[? m1] msg]. rewrite IH. destruct (readings l m1) as [m2 o].
    destruct (readings l2 m2). by rewrite app_assoc.
Qed.

End Motion.

(** ** Analog inputs *)

(** What the light sensor needs of an [AnalogInput]: a reading per channel, a
    ten-bit sample or -1. *)
Class AnalogInput (A : Type) := {
  readAnalog : A → Z → Z;
  analog_range a ch : -1 <= readAnalog a ch <= 1023;
}.

(** src/src/adc/fakeAnalogInput.cpp *)
Definition fake_readAnalog (channel : Z) : Z :=
  if (0 <=? channel) && (channel <=? 1) then 512 else -1.

#[export] Program Instance FakeAnalogInput : AnalogInput () := {|
  readAnalog _ := fake_readAnalog;
|}.
Next Obligation. intros. unfold fake_readAnalog. destruct (_ && _); lia. Qed.

(** src/src/adc/linuxIioAnalogInput.cpp: the sysfs file system is a parameter,
    [getline] giving the first line of a file it could open and read. *)
Module Iio.

Definition lastAdcChannel : Z := 1.
Definition maxAdcValue : Z := 1023.
Definition adcDeviceTreeSuffix : string := "/oclock-adc-spi/mcp3002@0".
Definition adcDriverName : string := "mcp3002".

Record LinuxIioAnalogInput := mkIio {
  getline : string → option string;
  access_ok : string → bool;
  devicePath_ : string;
}.

Definition endsWith (value suffix : string) : bool :=
  (String.length suffix <=? String.length value)%nat &&
  bool_decide (string_drop (String.length value - String.length suffix) value = suffix).

(** Carriage return, line feed, blank, tab. *)
Definition trailing_blank (c : ascii) : bool :=
  (byte c =? 13) || (byte c =? 10) || (byte c =? 32) || (byte c =? 9).

Fixpoint trim_right (s : string) : string :=
  match s with
  | EmptyString => EmptyString
  | String c s =>
      match trim_right s with
      | EmptyString => if trailing_blank c then EmptyString else String c EmptyString
      | s' => String c s'
      end
  end.

Definition readSingleLine (d : LinuxIioAnalogInput) (path : string) : string :=
  match getline d path with
  | None => EmptyString
  | Some line => trim_right line
  end.

(** [strtol] with its [errno] and end-pointer checks, then the range check. *)
Definition parse_sample (text : string) : Z :=
  match strto_scan 10 (c_str text) with
  | Some (neg, v, EmptyString) =>
      let '(z, erange) := clamp_signed LONG_MIN LONG_MAX neg v in
      if erange || (z <? 0) || (maxAdcValue <? z) then -1 else z
  | _ => -1
  end.

Definition attribute (dev : string) (channel : Z) : string :=
  dev +:+ "/in_voltage" +:+ print_int channel +:+ "_raw".

Definition readAnalog (d : LinuxIioAnalogInput) (channel : Z) : Z :=
  if (channel <? 0) || (lastAdcChannel <? channel) || string_empty (devicePath_ d) then -1
  else
    let text := readSingleLine d (attribute (devicePath_ d) channel) in
    if string_empty text then -1 else parse_sample text.

(** [initialize]: [listing] is the directory (with the resolved [of_node] of
    every entry that has one), or [None] when it cannot be read. *)
Definition initialize (root : string) (listing : option (list (string * option string)))
    (d : LinuxIioAnalogInput) : bool * LinuxIioAnalogInput :=
  let cleared := mkIio (getline d) (access_ok d) EmptyString in
  match listing with
  | None => (false, cleared)
  | Some entries =>
      let matches := omap (λ e : string * option string,
        if bool_decide (string_take 10 e.1 = "iio:device") then
          match e.2 with
          | Some resolved =>
              if endsWith resolved adcDeviceTreeSuffix then Some (root +:+ "/" +:+ e.1)
              else None
          | None => None
          end
        else None) entries in
      match matches with
      | [dev] =>
          if bool_decide (readSingleLine d (dev +:+ "/name") = adcDriverName) then
            if forallb (λ ch, access_ok d (attribute dev ch)) [0; 1] then
              (true, mkIio (getline d) (access_ok d) dev)
            else (false, cleared)
          else (false, cleared)
      | _ => (false, cleared)
      end
  end.

Lemma parse_sample_range text : -1 <= parse_sample text <= 1023.
Proof.
  unfold parse_sample. destruct (strto_scan _ _) as [[[neg v] [|]]|]; try lia.
  destruct (clamp_signed _ _ neg v) as [z e].
  destruct e; cbn [orb]; [lia|]. unfold maxAdcValue.
  destruct (Z.ltb_spec z 0), (Z.ltb_spec 1023 z); cbn [orb]; lia.
Qed.

End Iio.

#[export] Program Instance IioAnalogInput : AnalogInput Iio.LinuxIioAnalogInput := {|
  readAnalog := Iio.readAnalog;
|}.
Next Obligation.
  intros d ch. unfold Iio.readAnalog. destruct (_ || _); [lia|].
  destruct (string_empty _); [lia|]. apply Iio.parse_sample_range.
Qed.

(** ** Light *)
Module Light.

Definition darkRoomThresholdLowWaterMark : Z := 460.
Definition darkRoomThresholdHighWaterMark : Z := 600.
Definition maxLightValuesSize : nat := 10.

(** [while (lightValues.size() >= maxLightValuesSize) lightValues.pop_front();] *)
Definition trim (lightValues : list Z) : list Z :=
  drop (length lightValues - (maxLightValuesSize - 1)) lightValues.

Definition doSensorRead `{AnalogInput A} (a : A) (lightValues : list Z) : res (list Z) :=
  let currRead0 := readAnalog a 0 in
  let currRead1 := readAnalog a 1 in
  if (currRead0 <? 0) || (currRead1 <? 0) then
    Throw (RuntimeError "failed to read analog value for light sensor")
  else Ok (trim lightValues ++ [Z.quot (currRead0 + currRead1) 2]).

Definition getLightValue (lightValues : list Z) : Z :=
  let '(entries, sum) :=
    foldl (λ '(n, s) v, (n + 1, s + v)) (0, 0) lightValues in
  if entries =? 0 then 0 else u32 (Z.quot sum entries).

(** The loop over the states the input has at each reading. *)
Fixpoint doSensorReads `{AnalogInput A} (l : list A) (lightValues : list Z) : res (list Z) :=
  match l with
  | [] => Ok lightValues
  | a :: l => let! v := doSensorRead a lightValues in doSensorReads l v
  end.

Definition sample_of `{AnalogInput A} (a : A) : Z := Z.quot (readAnalog a 0 + readAnalog a 1) 2.
Definition read_ok `{AnalogInput A} (a : A) : bool :=
  (0 <=? readAnalog a 0) && (0 <=? readAnalog a 1).

(** The last ten of a history. *)
Definition window (history : list Z) : list Z :=
  drop (length history - maxLightValuesSize) history.

Lemma window_snoc h v : trim (window h) ++ [v] = window (h ++ [v]).
Proof.
  unfold trim, window, maxLightValuesSize. rewrite length_drop, length_app, drop_drop. simpl.
  rewrite drop_app_le by lia. f_equal. f_equal. lia.
Qed.

Lemma doSensorReads_window `{AnalogInput A} (l : list A) h :
  doSensorReads l (window h) =
  if forallb read_ok l then Ok (window (h ++ (sample_of <$> l)))
  else Throw (RuntimeError "failed to read analog value for light sensor").
Proof.
  revert h. induction l as [|a l IH]; intros h; cbn [doSensorReads forallb fmap list_fmap].
  - by rewrite app_nil_r.
  - unfold doSensorRead, read_ok at 1.
    rewrite !Z.leb_antisym. destruct (readAnalog a 0 <? 0), (readAnalog a 1 <? 0); try done.
    cbn [orb negb andb res_bind]. fold (sample_of a). rewrite window_snoc, IH.
    by rewrite <-app_assoc.
Qed.

Lemma getLightValue_avg l :
  getLightValue l = if decide (l = []) then 0 else u32 (Z.quot (foldr Z.add 0 l) (Z.of_nat (length l))).
Proof.
  unfold getLightValue.
  assert (∀ l n s, foldl (λ '(n, s) v, (n + 1, s + v)) (n, s) l =
    (n + Z.of_nat (length l), s + foldr Z.add 0 l)) as H.
  { clear l. induction l as [|v l IH]; intros n s; simpl.
    - f_equal; lia.
    - rewrite IH. f_equal; lia. }
  rewrite H, !Z.add_0_l. destruct l as [|v l]; [done|].
  rewrite decide_False by done. by destruct (Z.eqb_spec (Z.of_nat (length (v :: l))) 0).
Qed.

Lemma sum_bounds lo hi l :
  Forall (λ v, lo <= v <= hi) l →
  lo * Z.of_nat (length l) <= foldr Z.add 0 l <= hi * Z.of_nat (length l).
Proof. induction 1; simpl length; simpl foldr; lia. Qed.

End Light.

(** ** Properties *)

(** C30: the motion sensor's stopwatch. When the reading changes to [d] and
    then stays for [n] more seconds, one message is broadcast, the published
    time since the change is [n] seconds in base 60 (the hours stop at 254),
    and the next change broadcasts how long the old state lasted, before the
    counters restart from zero. *)
Theorem motion_stopwatch d (n : nat) m :
  Motion.currMotionDetected m = negb d →
  let N := Z.of_nat n in
  let '(m1, out) := Motion.readings (d :: replicate n d) m in
  Motion.lastChangedSec m1 = N mod 60 ∧ Motion.lastChangedMin m1 = N / 60 mod 60 ∧
  Motion.lastChangedHour m1 = Z.min 254 (N / 3600) ∧
  Motion.currMotionDetected m1 = d ∧ length out = 1%nat ∧
  Motion.readings [negb d] m1 =
    (Motion.mkMotionInfo (negb d) 0 0 0,
     [mkInboxMsg (if negb d then inboxMsgTypeMotionOn else inboxMsgTypeMotionOff)
        ([b2z (negb d); N mod 60; N / 60 mod 60; Z.min 254 (N / 3600)] ++ replicate 60 0)]).
Proof.
  intros Hm N.
  assert (Motion.update d m = (true, Motion.unchanged_for d 0,
            Some (Motion.notifyMotionSensorChange (Motion.mkMotionInfo d
              (Motion.lastChangedSec m) (Motion.lastChangedMin m)
              (Motion.lastChangedHour m))))) as Hu.
  { unfold Motion.update. rewrite Hm. by destruct d. }
  cbn [Motion.readings]. rewrite Hu, Motion.readings_same, Z.add_0_l by done.
  split_and!; [done..|]. fold N. cbn [Motion.readings].
  unfold Motion.update, Motion.unchanged_for. by destruct d.
Qed.

(** the light level is the average of the last ten samples. Over any
    sequence of readings of any analog input that all succeed, the sensor holds
    exactly the last ten samples, reports the integer part of their mean, and
    stays within ten bits; one failed reading stops the thread with an error. *)
Theorem light_moving_average `{AnalogInput A} (l : list A) :
  let samples := Light.window (Light.sample_of <$> l) in
  Light.doSensorReads l [] =
    (if forallb Light.read_ok l then Ok samples
     else Throw (RuntimeError "failed to read analog value for light sensor")) ∧
  (forallb Light.read_ok l = true → l ≠ [] →
   Light.getLightValue samples =
     foldr Z.add 0 samples / Z.of_nat (length samples) ∧
   (length samples = min 10 (length l)) ∧
   ∀ lo hi, Forall (λ v, lo <= v <= hi) samples → lo <= Light.getLightValue samples <= hi).
Proof.
  intros samples. split; [exact (Light.doSensorReads_window l [])|]. intros Hok Hne.
  assert (Hlen : length samples = min 10 (length l)).
  { unfold samples, Light.window, Light.maxLightValuesSize.
    rewrite length_drop, length_fmap. lia. }
  assert (0 < length l)%nat by (destruct l; simpl; lia || done).
  assert (Hr : Forall (λ v, 0 <= v <= 1023) samples).
  { apply Forall_drop, Forall_fmap, Forall_forall. intros a Ha. unfold compose, Light.sample_of.
    rewrite forallb_forall in Hok. specialize (Hok a).
    pose proof (analog_range a 0). pose proof (analog_range a 1).
    apply list_elem_of_In, Hok, andb_true_iff in Ha as [R0%Z.leb_le R1%Z.leb_le].
    rewrite Z.quot_div_nonneg by lia. split; [apply Z.div_pos; lia|].
    apply Z.div_le_upper_bound; lia. }
  assert (Hv : Light.getLightValue samples =
               foldr Z.add 0 samples / Z.of_nat (length samples)).
  { rewrite Light.getLightValue_avg. case_decide as E; [rewrite E in Hlen; cbn [length] in Hlen; lia|].
    pose proof (Light.sum_bounds _ _ _ Hr). rewrite Z.quot_div_nonneg by lia.
    apply u32_small. split; [apply Z.div_pos; lia|].
    apply Z.div_lt_upper_bound; lia. }
  split_and!; [done|done|]. intros lo hi Hb. rewrite Hv.
  pose proof (Light.sum_bounds _ _ _ Hb).
  split; [apply Z.div_le_lower_bound; lia|apply Z.div_le_upper_bound; lia].
Qed.

(** ** Witnesses *)

Lemma motion_stopwatch_witness :
  let '(m1, out) := Motion.readings (true :: replicate 61 true) Motion.initial in
  Motion.lastChangedSec m1 = 1 ∧ Motion.lastChangedMin m1 = 1 ∧
  Motion.lastChangedHour m1 = 0 ∧
  Motion.currMotionDetected m1 = true ∧ length out = 1%nat ∧
  Motion.readings [false] m1 =
    (Motion.mkMotionInfo false 0 0 0,
     [mkInboxMsg inboxMsgTypeMotionOff ([0; 1; 1; 0] ++ replicate 60 0)]).
Proof. exact (motion_stopwatch true 61 Motion.initial eq_refl). Defined.

Lemma light_moving_average_witness :
  let samples := Light.window (Light.sample_of <$> [(); (); ()]) in
  Light.doSensorReads [(); (); ()] [] = Ok samples ∧
  (true = true → [(); (); ()] ≠ [] →
   Light.getLightValue samples =
     foldr Z.add 0 samples / Z.of_nat (length samples) ∧
   (length samples = 3%nat) ∧
   ∀ lo hi, Forall (λ v, lo <= v <= hi) samples → lo <= Light.getLightValue samples <= hi).
Proof. exact (light_moving_average [(); (); ()]). Defined.
