(* ===== verification/Dictionary.v ===== *)
(** * The dictionary: src/src/dictionary.h, src/src/dictionary.cpp

    Key/value entries that may expire. Expiry is delegated to the tick timer:
    every entry owns a one-shot [TimerTickServiceBool]. What the dictionary
    needs of the timer is the interface [TimerService]; the dictionary is
    defined and proved against it, and [TimerTick] implements it. *)
From S2P Require Import Prelude StdMap CLib CommonUtils Inbox TimerTick.

(** ** What the dictionary needs of the timer

    [ts_view t h] is the interval and the remaining ticks of the one-shot
    service at the address [h]. *)
Class TimerService (T : Type) := {
  ts_ok : T → Prop;
  ts_view : T → Z → option (Z * Z);
  (** construct a one-shot service and register it if its interval is not negative *)
  ts_new : Z → T → res (Z * T);
  (** unregister it and destroy it *)
  ts_delete : Z → T → T;
  ts_interval : T → Z → Z;
  ts_expired : T → Z → bool;
  ts_tick : T → T;
  ts_read_ok t h i n : ts_view t h = Some (i, n) →
    ts_interval t h = i ∧ ts_expired t h = (n =? 0);
  ts_new_ok i t h t' : ts_ok t → ts_new i t = Ok (h, t') →
    ts_ok t' ∧ ts_view t h = None ∧
    ∀ h', ts_view t' h' =
      if decide (h' = h) then Some (i, if 0 <=? i then 1 + i / 12 else 0) else ts_view t h';
  ts_delete_ok h t : ts_ok t → ts_ok (ts_delete h t) ∧
    ∀ h', ts_view (ts_delete h t) h' = if decide (h' = h) then None else ts_view t h';
  ts_tick_ok t : ts_ok t → ts_ok (ts_tick t) ∧
    ∀ h, ts_view (ts_tick t) h =
      (λ '(i, n), (i, Z.max 0 (n - 1))) <$> ts_view t h;
  ts_nonneg t h i n : ts_ok t → ts_view t h = Some (i, n) → 0 <= n;
}.

(** ** The tick timer implements it *)
Module TickTimers.

Definition view (t : TimerTick) (p : Z) : option (Z * Z) :=
  s ← objects t !! p;
  if periodic s then None else Some (interval s, ticksLeft s).

(** [DictionaryData]'s timer: constructed, and registered for intervals >= 0. *)
Definition new (i : Z) (t : TimerTick) : res (Z * TimerTick) :=
  let '(p, t1) := alloc_service (new_service i false ServiceBool) t in
  if 0 <=? i then
    let! (_, t2) := registerTimerTickService p true t1 in Ok (p, t2)
  else Ok (p, t1).

(** [~DictionaryData]: unregister by cookie, then the object goes. *)
Definition delete (p : Z) (t : TimerTick) : TimerTick :=
  match objects t !! p with
  | None => t
  | Some s => free_service p (unregisterTimerTickService (getCookie s) t)
  end.

Definition ok (t : TimerTick) : Prop :=
  table_ok t ∧
  ∀ p s, objects t !! p = Some s → 0 <= ticksLeft s ∧ (cookie s = nullCookie → ticksLeft s = 0).

Lemma view_set p s t q :
  view (set_object p s t) q =
  if decide (q = p) then (if periodic s then None else Some (interval s, ticksLeft s))
  else view t q.
Proof.
  unfold view, set_object. simpl. case_decide as E.
  - subst. by rewrite lookup_insert_eq.
  - by rewrite lookup_insert_ne.
Qed.

Lemma new_ok i t h t' :
  ok t → new i t = Ok (h, t') →
  ok t' ∧ view t h = None ∧
  ∀ h', view t' h' =
    if decide (h' = h) then Some (i, if 0 <=? i then 1 + i / 12 else 0) else view t h'.
Proof.
  intros [Ht Hn] Hnew. unfold new in Hnew.
  pose proof (alloc_fresh (new_service i false ServiceBool) t) as Hf.
  pose proof (alloc_ok (new_service i false ServiceBool) t Ht eq_refl) as Ht1.
  unfold alloc_service in *. set (p := fresh _) in *. cbn [fst snd] in *.
  assert (Hv : view t p = None) by (unfold view; by rewrite Hf).
  destruct (Z.leb_spec 0 i) as [Hi|Hi].
  - set (t1 := set_object p _ t) in *.
    destruct (registerTimerTickService p true t1) as [[id t2]|] eqn:Hr; [|done].
    cbn [res_bind] in Hnew. injection Hnew as <- <-.
    pose proof (register_ok _ _ _ _ _ Ht1 Hr) as Ht2.
    assert (Hp1 : objects t1 !! p = Some (new_service i false ServiceBool)).
    { unfold t1. simpl. apply lookup_insert_eq. }
    destruct (decide (nextTimerTickId t1 = 0)) as [Hz|Hnz].
    { unfold registerTimerTickService in Hr. rewrite Hp1, Hz in Hr. done. }
    destruct (register_spec p true t1 _ Ht1 Hp1 eq_refl Hnz) as (s' & Hr' & Hs' & Hc').
    rewrite Hr' in Hr. injection Hr as <- <-. rewrite start_ticksLeft in Hs'.
    assert (Hpd : period s' = 1 + i / 12).
    { rewrite Hs'. unfold period. simpl. by destruct (Z.leb_spec 0 i); [|lia]. }
    split_and!; [split; [done|]|done|].
    + intros q s. cbn [objects]. rewrite lookup_insert_Some.
      intros [[<- <-]|[Hne Hq]].
      * assert (ticksLeft s' = 1 + i / 12) as -> by (by rewrite <-Hpd, Hs').
        pose proof (Z.div_pos i 12). split; [lia|]. by rewrite Hc'.
      * unfold t1 in Hq. cbn in Hq. rewrite lookup_insert_ne in Hq by done. by apply (Hn q).
    + intros q. unfold view. cbn [objects]. case_decide as E.
      * subst q. rewrite lookup_insert_eq. cbn [mbind option_bind].
        assert (periodic s' = false) as -> by (by rewrite Hs').
        assert (ticksLeft s' = 1 + i / 12) as -> by (by rewrite <-Hpd, Hs').
        assert (interval s' = i) as -> by (by rewrite Hs'). done.
      * rewrite lookup_insert_ne by done. unfold t1. cbn [objects set_object].
        by rewrite lookup_insert_ne.
  - injection Hnew as <- <-. split_and!; [split; [done|]|done|].
    + intros q s. cbn. rewrite lookup_insert_Some. intros [[<- <-]|[Hne Hq]]; [done|].
      by apply (Hn q).
    + intros q. rewrite view_set. done.
Qed.

Lemma unregister_view c t p :
  objects (unregisterTimerTickService c t) !! p =
  if decide (timerTickServices t !! c = Some p) then
    (λ s, set_ticksLeft 0 (set_cookie nullCookie s)) <$> objects t !! p
  else objects t !! p.
Proof.
  unfold unregisterTimerTickService. destruct (timerTickServices t !! c) as [q|] eqn:E.
  - simpl. case_decide as Hd; simplify_eq; [by rewrite lookup_alter_eq|].
    rewrite lookup_alter_ne; [done|]. congruence.
  - by case_decide.
Qed.

Lemma delete_ok h t :
  ok t → ok (delete h t) ∧
  ∀ h', view (delete h t) h' = if decide (h' = h) then None else view t h'.
Proof.
  intros [Ht Hn]. unfold delete. destruct (objects t !! h) as [s|] eqn:Hs.
  2:{ split; [done|]. intros h'. case_decide; [|done]. subst. unfold view. by rewrite Hs. }
  set (t1 := unregisterTimerTickService (getCookie s) t).
  assert (Ho : ∀ q, q ≠ h → objects t1 !! q = objects t !! q).
  { intros q Hq. unfold t1. rewrite unregister_view. case_decide as Hd; [|done].
    destruct (ok_entry _ Ht _ _ Hd) as (s' & Hs' & Hc). unfold getCookie in *.
    destruct (decide (cookie s = nullCookie)) as [Hz|Hz].
    - rewrite Hz, (ok_null _ Ht) in Hd. done.
    - pose proof (ok_cookie _ Ht _ _ Hs Hz). congruence. }
  assert (Hc1 : ∀ s', objects t1 !! h = Some s' → cookie s' = nullCookie).
  { intros s'. unfold t1. rewrite unregister_view, Hs. case_decide as Hd; simpl.
    - by intros [= <-].
    - intros [= <-]. destruct (decide (cookie s = nullCookie)) as [|Hz]; [done|].
      by pose proof (ok_cookie _ Ht _ _ Hs Hz). }
  split; [split|].
  - apply free_ok; [by apply unregister_ok|done].
  - intros q s'. cbn. intros [Hne Hq]%lookup_delete_Some. rewrite Ho in Hq by done.
    by apply (Hn q).
  - intros q. unfold view. cbn. case_decide as E.
    + subst. by rewrite lookup_delete_eq.
    + rewrite lookup_delete_ne, Ho by done. done.
Qed.

Definition tick_ (t : TimerTick) : TimerTick := (tick (λ _, true) t).1.1.

(** What a tick does to one service, registered or not. *)
Lemma tick_one s :
  0 <= ticksLeft s → (cookie s = nullCookie → ticksLeft s = 0) →
  let s' := if registered_obj s then tick_obj (λ _, true) 0 s else s in
  0 <= ticksLeft s' ∧ (cookie s' = nullCookie → ticksLeft s' = 0) ∧
  periodic s' = periodic s ∧ interval s' = interval s ∧
  (periodic s = false → ticksLeft s' = Z.max 0 (ticksLeft s - 1)).
Proof.
  intros Hp Hc. unfold registered_obj, tick_obj.
  destruct (Z.eqb_spec (cookie s) nullCookie) as [E|E]; cbn [negb].
  - rewrite (Hc E). split_and!; done || lia.
  - destruct (tick_service_timing true s E Hp) as ((E1 & E2 & E3 & _) & _ & E4).
    pose proof (period_pos s).
    rewrite E4, E2, E1, E3. split_and!; try done.
    + repeat case_match; lia.
    + intros ->. destruct (Z.eqb_spec (ticksLeft s) 0), (Z.eqb_spec (ticksLeft s) 1); lia.
Qed.

Lemma tick_view_ok t :
  ok t → ok (tick_ t) ∧
  ∀ h, view (tick_ t) h = (λ '(i, n), (i, Z.max 0 (n - 1))) <$> view t h.
Proof.
  intros [Ht Hn]. unfold tick_. pose proof (tick_lookup (λ _, true) t) as Hl.
  split; [split|].
  - by apply tick_ok.
  - intros q s'. rewrite Hl by done. intros (s & Hs & ->)%fmap_Some.
    destruct (Hn q s Hs). pose proof (tick_one s) as (? & ? & _); done.
  - intros q. unfold view. rewrite Hl by done. destruct (objects t !! q) as [s|] eqn:Hs; [|done].
    cbn [fmap option_fmap option_map mbind option_bind].
    destruct (Hn q s Hs). pose proof (tick_one s) as (_ & _ & E1 & E2 & E3); [done..|].
    change (tick_obj (λ _, true) q s) with (tick_obj (λ _, true) 0 s).
    rewrite E1, E2. destruct (periodic s); [done|]. simpl. by rewrite E3.
Qed.

Definition object (t : TimerTick) (h : Z) : TimerTickService :=
  default (new_service 0 false ServiceBool) (objects t !! h).

End TickTimers.

#[export] Program Instance TimerTick_service : TimerService TimerTick := {|
  ts_ok := TickTimers.ok;
  ts_view := TickTimers.view;
  ts_new := TickTimers.new;
  ts_delete := TickTimers.delete;
  ts_interval t h := interval (TickTimers.object t h);
  ts_expired t h := getIsExpired (TickTimers.object t h);
  ts_tick := TickTimers.tick_;
  ts_new_ok := TickTimers.new_ok;
  ts_delete_ok := TickTimers.delete_ok;
  ts_tick_ok := TickTimers.tick_view_ok;
|}.
Next Obligation.
  intros t h i n. unfold TickTimers.view, TickTimers.object.
  destruct (objects t !! h) as [s|]; [|done]. simpl. destruct (periodic s); [done|].
  by intros [= <- <-].
Qed.
Next Obligation.
  intros t h i n [_ Hn]. unfold TickTimers.view.
  destruct (objects t !! h) as [s|] eqn:Hs; [|done]. simpl. destruct (periodic s); [done|].
  intros [= <- <-]. by apply (Hn h).
Qed.

(** ** The component *)

Record DictionaryData := mkData {
  data : string;
  timerTickServiceBool : Z;   (* address of the entry's timer *)
}.

Record DictionaryStatus := mkStatus {
  ticks : Z;
  entriesAdded : Z;
  entriesRemoved : Z;
  entriesExpired : Z;
}.

Definition noExpiration : Z := -1.
Definition noData : string := EmptyString.

Definition dictionaryParamOperation : string := "dictionaryOperation".
Definition dictionaryParamOperationSet : string := "set".
Definition dictionaryParamOperationAdd : string := "add".
Definition dictionaryParamOperationDel : string := "del".
Definition dictionaryParamKey : string := "dictionaryKey".
Definition dictionaryParamData : string := "dictionaryData".
Definition dictionaryParamTimeout : string := "dictionaryTimeout".

Section dictionary.
Context {T : Type} `{TimerService T}.

(** The dictionary and the timer it shares the process with. *)
Record Dictionary := mkDictionary {
  dictionaryEntries : list (string * DictionaryData);
  dictionaryStatus : DictionaryStatus;
  timers : T;
}.

Definition Dictionary_new (t : T) : Dictionary := mkDictionary [] (mkStatus 0 0 0 0) t.

(** [DictionaryData::getIsExpired] *)
Definition getIsExpired (d : DictionaryData) (t : T) : bool :=
  if ts_interval t (timerTickServiceBool d) =? noExpiration then false
  else ts_expired t (timerTickServiceBool d).

Definition empty (w : Dictionary) : bool :=
  match dictionaryEntries w with [] => true | _ => false end.
Definition size (w : Dictionary) : Z := Z.of_nat (length (dictionaryEntries w)).

Definition count_added (n : Z) (s : DictionaryStatus) : DictionaryStatus :=
  mkStatus (ticks s) (u32 (entriesAdded s + n)) (entriesRemoved s) (entriesExpired s).
Definition count_removed (n : Z) (s : DictionaryStatus) : DictionaryStatus :=
  mkStatus (ticks s) (entriesAdded s) (u32 (entriesRemoved s + n)) (entriesExpired s).
Definition count_expired (n : Z) (s : DictionaryStatus) : DictionaryStatus :=
  mkStatus (ticks s) (entriesAdded s) (entriesRemoved s) (u32 (entriesExpired s + n)).

Definition _remove (key : string) (d : DictionaryData) (w : Dictionary) : Dictionary :=
  mkDictionary (map_erase key (dictionaryEntries w)) (count_removed 1 (dictionaryStatus w))
    (ts_delete (timerTickServiceBool d) (timers w)).

(** [get(key, &found)]: found, the value, and the state. *)
Definition get (key : string) (w : Dictionary) : bool * string * Dictionary :=
  match map_find key (dictionaryEntries w) with
  | None => (false, noData, w)
  | Some d =>
      if getIsExpired d (timers w) then
        (false, noData,
         _remove key d (mkDictionary (dictionaryEntries w)
                          (count_expired 1 (dictionaryStatus w)) (timers w)))
      else (true, data d, w)
  end.

(** [add]: the outcome, and the state also when it throws. *)
Definition add (key dataP : string) (expirationInMilliseconds : Z) (w : Dictionary)
    : res bool * Dictionary :=
  if string_empty key then (Ok false, w)
  else
    let '(found, _, w1) := get key w in
    if found then (Ok false, w1)
    else
      match ts_new expirationInMilliseconds (timers w1) with
      | Throw e => (Throw e, w1)
      | Ok (h, t2) =>
          let '(entries, inserted) :=
            map_insert key (mkData dataP h) (dictionaryEntries w1) in
          if negb inserted then
            (Throw (RuntimeError ("could not insert DictionaryEntry for: " +:+ key)),
             mkDictionary (dictionaryEntries w1) (dictionaryStatus w1) t2)
          else (Ok true, mkDictionary entries (count_added 1 (dictionaryStatus w1)) t2)
      end.

Definition remove (key : string) (w : Dictionary) : bool * Dictionary :=
  match map_find key (dictionaryEntries w) with
  | None => (false, w)
  | Some d => (true, _remove key d w)
  end.

Definition clear (w : Dictionary) : Dictionary :=
  mkDictionary [] (count_removed (size w) (dictionaryStatus w))
    (foldl (λ t e, ts_delete (timerTickServiceBool e.2) t) (timers w) (dictionaryEntries w)).

(** The loop of [getNext]; [key] is the in-out parameter. *)
Fixpoint getNext_loop (fuel : nat) (key : string) (w : Dictionary)
    : option (bool * string * string * Dictionary) :=
  match fuel with
  | O => None
  | S fuel =>
      match map_upper_bound key (dictionaryEntries w) with
      | None => Some (false, key, noData, w)
      | Some (key', _) =>
          let '(found, v, w') := get key' w in
          if found then Some (true, key', v, w') else getNext_loop fuel key' w'
      end
  end.

Definition getNext (key : string) (w : Dictionary) : option (bool * string * string * Dictionary) :=
  getNext_loop (S (length (dictionaryEntries w))) key w.

Definition getFirst (w : Dictionary) : option (bool * string * string * Dictionary) :=
  getNext EmptyString w.

Definition getDictionaryStatus (w : Dictionary) : DictionaryStatus := dictionaryStatus w.

(** [while (found) getNext(currKey, &found);] *)
Fixpoint purge_loop (fuel : nat) (currKey : string) (w : Dictionary) : option Dictionary :=
  match fuel with
  | O => None
  | S fuel =>
      '(found, key, _, w') ← getNext currKey w;
      if found : bool then purge_loop fuel key w' else Some w'
  end.

Definition purgeExpiredDictionaryEntries (w : Dictionary) : option Dictionary :=
  purge_loop (S (length (dictionaryEntries w))) EmptyString w.

(** One message of the thread's loop; the flag says that the loop goes on. *)
Definition handle_message (msg : InboxMsg) (w : Dictionary) : option (bool * Dictionary) :=
  if decide (inboxMsgType msg = inboxMsgTypeTerminate) then Some (false, w)
  else if decide (inboxMsgType msg = inboxMsgTypeTimerTickMessage) then
    w' ← purgeExpiredDictionaryEntries w;
    let s := dictionaryStatus w' in
    Some (true, mkDictionary (dictionaryEntries w')
                  (mkStatus (u32 (ticks s + 1)) (entriesAdded s) (entriesRemoved s)
                     (entriesExpired s)) (timers w'))
  else Some (true, w).

Definition parsePostRequest (postValues : StringMap) (w : Dictionary)
    : bool * Dictionary :=
  let '(_, intervalStr) :=
    getParamValue postValues dictionaryParamTimeout (print_int noExpiration) in
  let '(_, operation) :=
    getParamValue postValues dictionaryParamOperation dictionaryParamOperationSet in
  let isDel := bool_decide (operation = dictionaryParamOperationDel) in
  let isSet := bool_decide (operation = dictionaryParamOperationSet) in
  let isAdd := bool_decide (operation = dictionaryParamOperationAdd) in
  let '(hasKey, key) := getParamValue postValues dictionaryParamKey EmptyString in
  if negb hasKey && negb isDel then (false, w)
  else
    let removeAll := isDel && string_empty key in
    let '(hasData, dataV) := getParamValue postValues dictionaryParamData noData in
    if negb hasData && negb isDel then (false, w)
    else if negb isDel && negb isSet && negb isAdd then (false, w)
    else
      let w1 :=
        if isDel || isSet then (if removeAll then clear w else (remove key w).2) else w in
      if negb isDel then
        match stoi intervalStr 10 with
        | Throw _ => (false, w1)
        | Ok interval =>
            let '(r, w2) := add key dataV interval w1 in (catch_all r false, w2)
        end
      else (true, w1).

End dictionary.

Arguments Dictionary T : clear implicits.

(** ** The abstract dictionary

    A finite map from keys to a value and a lifetime: [None] for an entry that
    never expires, [Some n] for one that has [n] more ticks to live. *)
Section spec.
Context {T : Type} `{TimerService T}.
Implicit Types (w : Dictionary T) (k : string).

Definition life_ok (l : option Z) : Prop := match l with Some n => 0 < n | None => True end.

(** The lifetime of an entry; [None] when it has expired. *)
Definition lifetime (d : DictionaryData) (t : T) : option (option Z) :=
  '(i, n) ← ts_view t (timerTickServiceBool d);
  if i =? noExpiration then Some None else if n =? 0 then None else Some (Some n).

Definition lookup_dict w k : option (string * option Z) :=
  d ← map_find k (dictionaryEntries w);
  l ← lifetime d (timers w);
  Some (data d, l).

(** The representation invariant. *)
Record dict_ok w : Prop := {
  do_sorted : map_sorted (dictionaryEntries w);
  do_timers : ts_ok (timers w);
  do_keys k d : map_find k (dictionaryEntries w) = Some d → k ≠ EmptyString;
  do_view k d : map_find k (dictionaryEntries w) = Some d →
    is_Some (ts_view (timers w) (timerTickServiceBool d));
  do_inj k1 k2 d1 d2 : map_find k1 (dictionaryEntries w) = Some d1 →
    map_find k2 (dictionaryEntries w) = Some d2 →
    timerTickServiceBool d1 = timerTickServiceBool d2 → k1 = k2;
  do_count : u32 (entriesAdded (dictionaryStatus w) - entriesRemoved (dictionaryStatus w)) =
    u32 (size w);
}.

Definition dict_rep w (m : gmap string (string * option Z)) : Prop :=
  dict_ok w ∧ ∀ k, lookup_dict w k = m !! k.

Lemma getIsExpired_lifetime d (t : T) :
  is_Some (ts_view t (timerTickServiceBool d)) →
  getIsExpired d t = match lifetime d t with None => true | Some _ => false end.
Proof.
  intros [[i n] Hv]. pose proof (ts_read_ok _ _ _ _ Hv) as [Hi He].
  unfold getIsExpired, lifetime. rewrite Hi, He, Hv. simpl.
  destruct (i =? noExpiration); [done|]. by destruct (n =? 0).
Qed.

Lemma get_dict_spec k w :
  dict_ok w →
  get k w = match lookup_dict w k with
            | Some (v, _) => (true, v, w)
            | None => (false, noData,
                match map_find k (dictionaryEntries w) with
                | None => w
                | Some d => _remove k d (mkDictionary (dictionaryEntries w)
                              (count_expired 1 (dictionaryStatus w)) (timers w))
                end)
            end.
Proof.
  intros Hok. unfold get, lookup_dict.
  destruct (map_find k (dictionaryEntries w)) as [d|] eqn:E; [|done]. cbn [mbind option_bind].
  rewrite getIsExpired_lifetime by (by eapply do_view).
  by destruct (lifetime d (timers w)).
Qed.

Lemma u32_sub_eq a b c : u32 a = u32 b → u32 (a - c) = u32 (b - c).
Proof. unfold u32. intros E. by rewrite <-Zminus_mod_idemp_l, E, Zminus_mod_idemp_l. Qed.

(** Removing an entry removes exactly its key. *)
Lemma _remove_ok k d w st :
  dict_ok w → map_find k (dictionaryEntries w) = Some d →
  entriesAdded st = entriesAdded (dictionaryStatus w) →
  entriesRemoved st = entriesRemoved (dictionaryStatus w) →
  let w' := _remove k d (mkDictionary (dictionaryEntries w) st (timers w)) in
  dict_ok w' ∧ dictionaryEntries w' = map_erase k (dictionaryEntries w) ∧
  ∀ k', lookup_dict w' k' = if decide (k' = k) then None else lookup_dict w k'.
Proof.
  intros [Hs Ht Hk Hv Hi Hc] Hd Ha Hr w'.
  destruct (ts_delete_ok (timerTickServiceBool d) _ Ht) as [Ht' Hview].
  assert (He : ∀ k' d', map_find k' (map_erase k (dictionaryEntries w)) = Some d' →
    k' ≠ k ∧ map_find k' (dictionaryEntries w) = Some d' ∧
    timerTickServiceBool d' ≠ timerTickServiceBool d).
  { intros k' d' Hd'. destruct (decide (k' = k)) as [->|Hne].
    - by rewrite map_find_erase_eq in Hd'.
    - rewrite map_find_erase_ne in Hd' by done. split_and!; [done|done|].
      intros E. destruct Hne. by eapply Hi. }
  split_and!; [constructor; unfold w', _remove; cbn|done|].
  - by apply map_erase_sorted.
  - done.
  - intros k' d' (? & ? & ?)%He. by eapply Hk.
  - intros k' d' (? & Hd' & ?)%He. rewrite Hview, decide_False by done. by eapply Hv.
  - intros k1 k2 d1 d2 (? & ? & ?)%He (? & ? & ?)%He. by eapply Hi.
  - unfold size in *. cbn. pose proof (map_erase_length k (dictionaryEntries w)) as Hl.
    rewrite Hd in Hl. specialize (Hl ltac:(done)). rewrite Ha, Hr.
    replace (Z.of_nat (length (map_erase k (dictionaryEntries w))))
      with (Z.of_nat (length (dictionaryEntries w)) - 1) by lia.
    rewrite <-(u32_sub_eq _ _ 1 Hc). unfold u32. rewrite Zminus_mod_idemp_r. f_equal. lia.
  - intros k'. unfold lookup_dict, w', _remove. cbn. case_decide as E.
    + subst. by rewrite map_find_erase_eq.
    + rewrite map_find_erase_ne by done.
      destruct (map_find k' (dictionaryEntries w)) as [d'|] eqn:Hd'; [|done].
      cbn [mbind option_bind]. unfold lifetime. rewrite Hview, decide_False; [done|].
      intros E'. destruct E. by eapply Hi.
Qed.

Definition same_dict w w' : Prop := ∀ k, lookup_dict w' k = lookup_dict w k.

Lemma lookup_dict_find w k : lookup_dict w k ≠ None → map_find k (dictionaryEntries w) ≠ None.
Proof. unfold lookup_dict. by destruct (map_find k _). Qed.

Lemma map_erase_sublist k (m : list (string * DictionaryData)) :
  map_erase k m `sublist_of` m.
Proof.
  induction m as [|[j d] m IH]; cbn [map_erase]; [constructor|].
  destruct (less k j); [reflexivity|].
  destruct (less j k); [by apply sublist_skip|by apply sublist_cons].
Qed.

(** [get] only ever changes the state by dropping an expired entry. *)
Lemma get_ok k w :
  dict_ok w →
  ∃ f v w', get k w = (f, v, w') ∧ dict_ok w' ∧ same_dict w w' ∧
    dictionaryEntries w' `sublist_of` dictionaryEntries w ∧
    if f : bool then w' = w ∧ ∃ l, lookup_dict w k = Some (v, l)
    else lookup_dict w k = None ∧ v = noData ∧ map_find k (dictionaryEntries w') = None ∧
         (map_find k (dictionaryEntries w) ≠ None →
          length (dictionaryEntries w) = S (length (dictionaryEntries w'))).
Proof.
  intros Hok. rewrite get_dict_spec by done.
  destruct (lookup_dict w k) as [[v l]|] eqn:El.
  { eexists _, _, _. split; [done|]. split_and!; [done|done|reflexivity|done|by eexists]. }
  destruct (map_find k (dictionaryEntries w)) as [d|] eqn:Ed.
  - destruct (_remove_ok k d w (count_expired 1 (dictionaryStatus w)) Hok Ed eq_refl eq_refl)
      as (Hok' & He & Hlk).
    eexists _, _, _. split; [done|]. split_and!; [done| | |done|done| |].
    + intros k'. rewrite Hlk. case_decide; [by subst|done].
    + rewrite He. apply map_erase_sublist.
    + rewrite He. apply map_find_erase_eq, Hok.
    + intros Hne. rewrite He. by apply map_erase_length; rewrite Ed.
  - eexists _, _, _. split; [done|]. split_and!; done || reflexivity.
Qed.

Lemma string_less_empty k : k ≠ EmptyString → less EmptyString k = true.
Proof. by destruct k. Qed.

(** [getNext] terminates, and visits the least live key above the given one. *)
(** [upper_bound] is the least entry above a key. *)
Lemma upper_bound_none k w :
  map_upper_bound k (dictionaryEntries w) = None →
  ∀ k'', map_find k'' (dictionaryEntries w) ≠ None → less k k'' = false.
Proof.
  intros Hu k'' Hk''. pose proof (proj1 (map_upper_bound_None k (dictionaryEntries w)) Hu) as Hnone. destruct (map_find k'' _) as [d|] eqn:E; [|done].
  apply map_find_elem in E. by apply (Hnone (k'', d)).
Qed.

Lemma upper_bound_least k k1 d1 w :
  dict_ok w → map_upper_bound k (dictionaryEntries w) = Some (k1, d1) →
  map_find k1 (dictionaryEntries w) ≠ None ∧ less k k1 = true ∧
  ∀ k'', map_find k'' (dictionaryEntries w) ≠ None → less k k'' = true → k'' = k1 ∨ less k1 k'' = true.
Proof.
  intros Hok Hu. apply map_upper_bound_Some in Hu as (Hin & Hlt & Hmin); [|apply Hok]. split_and!; [|done|].
  - by rewrite (elem_map_find k1 d1) by (done || apply Hok).
  - intros k'' Hk'' Hl. destruct (map_find k'' _) as [d|] eqn:E; [|done].
    apply map_find_elem in E. destruct (Hmin (k'', d) E Hl) as [Heq|]; [|by right].
    left. cbn in Heq. congruence.
Qed.

Lemma sublist_find k w w' :
  dict_ok w → dictionaryEntries w' `sublist_of` dictionaryEntries w →
  map_find k (dictionaryEntries w') ≠ None → map_find k (dictionaryEntries w) ≠ None.
Proof.
  intros Hok Hsub Hk. destruct (map_find k (dictionaryEntries w')) as [d|] eqn:Ed; [|done].
  apply map_find_elem in Ed. erewrite elem_map_find; [done|apply Hok|]. by eapply elem_of_sublist.
Qed.

Lemma getNext_loop_ok fuel k w :
  dict_ok w → (length (dictionaryEntries w) < fuel)%nat →
  ∃ f k' v w', getNext_loop fuel k w = Some (f, k', v, w') ∧ dict_ok w' ∧ same_dict w w' ∧
    dictionaryEntries w' `sublist_of` dictionaryEntries w ∧
    (∀ k'', map_find k'' (dictionaryEntries w') ≠ None → less k k'' = true →
       lookup_dict w k'' ≠ None ∨ (f = true ∧ less k' k'' = true)) ∧
    if f : bool then
      less k k' = true ∧ (∃ l, lookup_dict w k' = Some (v, l)) ∧
      ∀ k'', lookup_dict w k'' ≠ None → less k k'' = true → k'' = k' ∨ less k' k'' = true
    else v = noData ∧ ∀ k'', lookup_dict w k'' ≠ None → less k k'' = false.
Proof.
  revert k w. induction fuel as [|fuel IH]; intros k w Hok Hf; [lia|]. cbn [getNext_loop].
  destruct (map_upper_bound k (dictionaryEntries w)) as [[k1 d1]|] eqn:Eu.
  2:{ pose proof (upper_bound_none k w Eu) as Hno. eexists _, _, _, _. split; [done|]. split_and!; try (done || reflexivity).
      - intros k'' Hk'' Hl. by rewrite (Hno _ Hk'') in Hl.
      - intros k'' Hk''. by apply Hno, lookup_dict_find. }
  destruct (upper_bound_least k k1 d1 w Hok Eu) as (Hk1 & Hlt & Hleast).
  destruct (get_ok k1 w Hok) as (f & v & w1 & -> & Hok1 & Hsame & Hsub & Hcase).
  destruct f.
  - destruct Hcase as [-> Hl]. eexists _, _, _, _. split; [done|].
    split_and!; try (done || reflexivity).
    + intros k'' Hk'' Hl''. destruct (Hleast k'' Hk'' Hl'') as [->|]; [left|by right].
      destruct Hl as [l ->]. done.
    + intros k'' Hk''. by apply Hleast, lookup_dict_find.
  - destruct Hcase as (Hnone & _ & Hgone & Hlen).
    destruct (IH k1 w1 Hok1 ltac:(specialize (Hlen Hk1); lia))
      as (f & k' & v' & w' & E & Hok' & Hsame' & Hsub' & Hclean & Hres).
    exists f, k', v', w'. split; [done|].
    assert (Hlow : ∀ k'', lookup_dict w k'' ≠ None → less k k'' = true → less k1 k'' = true).
    { intros k'' Hk'' Hl. destruct (Hleast k'' (lookup_dict_find _ _ Hk'') Hl) as [->|]; done. }
    split_and!; [done| | | |].
    + intros k''. by rewrite Hsame', Hsame.
    + by etransitivity.
    + intros k'' Hk'' Hl. rewrite <-Hsame. apply Hclean; [done|].
      pose proof (sublist_find k'' w1 w' Hok1 Hsub' Hk'') as Hk1''.
      pose proof (sublist_find k'' w w1 Hok Hsub Hk1'') as Hk0.
      destruct (Hleast k'' Hk0 Hl) as [->|]; [|done]. by rewrite Hgone in Hk1''.
    + destruct f.
      * destruct Hres as (Hl & Hlk & Hm). split_and!.
        { by eapply less_trans. }
        { destruct Hlk as [l Hlk]. exists l. by rewrite <-Hsame. }
        intros k'' Hk'' Hl''. apply Hm; [by rewrite Hsame|by apply Hlow].
      * destruct Hres as (-> & Hm). split; [done|]. intros k'' Hk''.
        destruct (less k k'') eqn:E'; [|done].
        pose proof (Hlow _ Hk'' E') as Hl1. rewrite Hm in Hl1; [done|by rewrite Hsame].
Qed.

Lemma filter_sublist_length {A} (P : A → Prop) `{∀ x, Decision (P x)} l1 l2 :
  l1 `sublist_of` l2 → (length (filter P l1) <= length (filter P l2))%nat.
Proof.
  induction 1 as [|x l1 l2 _ IH|x l1 l2 _ IH]; [done| |];
    rewrite !filter_cons; case_decide; simpl; lia.
Qed.

Lemma filter_strict {A} (P Q : A → Prop) `{∀ x, Decision (P x)} `{∀ x, Decision (Q x)} l x :
  (∀ y, Q y → P y) → x ∈ l → P x → ¬ Q x →
  (length (filter Q l) < length (filter P l))%nat.
Proof.
  intros Himp Hx HP HQ. assert (∀ l, length (filter Q l) <= length (filter P l))%nat as Hle.
  { clear -Himp. induction l as [|y l IH]; [done|]. rewrite !filter_cons.
    repeat case_decide; simpl; try lia. naive_solver. }
  induction l as [|y l IH]; [by apply elem_of_nil in Hx|]. rewrite !filter_cons.
  apply elem_of_cons in Hx as [<-|Hx].
  - rewrite (decide_True _ _ HP), (decide_False _ _ HQ). simpl. specialize (Hle l). lia.
  - specialize (IH Hx). repeat case_decide; simpl; try lia. naive_solver.
Qed.

Definition above key (e : string * DictionaryData) : Prop := less key e.1 = true.
#[global] Instance above_dec key e : Decision (above key e).
Proof. unfold above. apply _. Defined.

(** The purge terminates, keeps the live entries and nothing else. *)
Lemma purge_loop_ok fuel key w :
  dict_ok w → (length (filter (above key) (dictionaryEntries w)) < fuel)%nat →
  (∀ k, map_find k (dictionaryEntries w) ≠ None → less key k = false → lookup_dict w k ≠ None) →
  ∃ w', purge_loop fuel key w = Some w' ∧ dict_ok w' ∧ same_dict w w' ∧
    ∀ k, map_find k (dictionaryEntries w') ≠ None → lookup_dict w k ≠ None.
Proof.
  revert key w. induction fuel as [|fuel IH]; intros key w Hok Hf Hclean; [lia|].
  cbn [purge_loop]. unfold getNext.
  destruct (getNext_loop_ok (S (length (dictionaryEntries w))) key w Hok ltac:(lia))
    as (f & k' & v & w1 & -> & Hok1 & Hsame & Hsub & Hc & Hres).
  cbn [mbind option_bind].
  assert (Hfind : ∀ k, map_find k (dictionaryEntries w1) ≠ None →
    map_find k (dictionaryEntries w) ≠ None).
  { intros k Hk. destruct (map_find k (dictionaryEntries w1)) as [d|] eqn:Ed; [|done].
    apply map_find_elem in Ed. erewrite elem_map_find; [done|apply Hok|].
    by eapply elem_of_sublist. }
  destruct f.
  - destruct Hres as (Hlt & [l Hl] & Hleast).
    destruct (IH k' w1 Hok1) as (w' & E & Hok' & Hsame' & Hall).
    + assert (map_find k' (dictionaryEntries w1) ≠ None) as Hk'.
      { apply lookup_dict_find. by rewrite Hsame, Hl. }
      destruct (map_find k' (dictionaryEntries w1)) as [d|] eqn:Ed; [|done].
      apply map_find_elem in Ed.
      pose proof (filter_sublist_length (above key) _ _ Hsub).
      pose proof (filter_strict (above key) (above k') (dictionaryEntries w1) (k', d)
        ltac:(intros y Hy; unfold above in *; by eapply less_trans) Ed Hlt) as Hst.
      unfold above in Hst at 1. cbn [fst] in Hst. rewrite less_irrefl in Hst.
      specialize (Hst ltac:(done)). lia.
    + intros k Hk Hnk. rewrite Hsame. destruct (less key k) eqn:Ek.
      * destruct (Hc k Hk Ek) as [|[_ Hk']]; [done|congruence].
      * apply Hclean; [by apply Hfind|done].
    + exists w'. split; [done|]. split_and!; [done| |].
      * intros k. by rewrite Hsame', Hsame.
      * intros k Hk. rewrite <-Hsame. by apply Hall.
  - exists w1. split; [done|]. split_and!; [done|done|]. intros k Hk.
    destruct (less key k) eqn:Ek.
    + by destruct (Hc k Hk Ek) as [|[? _]].
    + apply Hclean; [by apply Hfind|done].
Qed.

(** The lifetime a new entry gets; [None] when it is expired from the start. *)
Definition new_life (e : Z) : option (option Z) :=
  if e =? noExpiration then Some None
  else if e <? 0 then None else Some (Some (1 + e / 12)).

(** A new entry with a new timer. *)
Lemma insert_ok k v e h t2 w :
  dict_ok w → string_empty k = false → map_find k (dictionaryEntries w) = None →
  ts_new e (timers w) = Ok (h, t2) →
  let w' := mkDictionary (map_set k (mkData v h) (dictionaryEntries w))
              (count_added 1 (dictionaryStatus w)) t2 in
  dict_ok w' ∧
  ∀ k', lookup_dict w' k' =
    if decide (k' = k) then l ← new_life e; Some (v, l) else lookup_dict w k'.
Proof.
  intros [Hs Ht Hk Hv Hi Hc] Ek Hgone Et.
  destruct (ts_new_ok e (timers w) h t2 Ht Et) as (Ht2 & Hfresh & Hview).
  assert (Hh : ∀ k' d', map_find k' (dictionaryEntries w) = Some d' →
    timerTickServiceBool d' ≠ h).
  { intros k' d' Hd' E. destruct (Hv _ _ Hd') as [? Hv']. rewrite E in Hv'. congruence. }
  assert (Hset : ∀ k' d', map_find k' (map_set k (mkData v h) (dictionaryEntries w)) = Some d' →
    (k' = k ∧ d' = mkData v h) ∨ (k' ≠ k ∧ map_find k' (dictionaryEntries w) = Some d')).
  { intros k' d'. destruct (decide (k' = k)) as [->|Hne].
    - rewrite map_find_set_eq. intros [= <-]. by left.
    - rewrite map_find_set_ne by done. by right. }
  split; [constructor; cbn|].
  - by apply map_set_sorted.
  - done.
  - intros k' d' [[-> ->]|[_ Hd']]%Hset; [by destruct k|by eapply Hk].
  - intros k' d' [[-> ->]|[_ Hd']]%Hset; rewrite Hview; cbn [timerTickServiceBool].
    + rewrite decide_True by done. by eexists.
    + rewrite decide_False by (by eapply Hh). by eapply Hv.
  - intros k1 k2 d1 d2 [[-> ->]|[? E1]]%Hset [[-> ->]|[? E2]]%Hset; cbn; try done.
    + intros E. destruct (Hh _ _ E2). done.
    + intros E. destruct (Hh _ _ E1). done.
    + by eapply Hi.
  - unfold size in *. cbn. rewrite map_set_length by done.
    replace (Z.of_nat (S (length (dictionaryEntries w))))
      with (Z.of_nat (length (dictionaryEntries w)) - -1) by lia.
    rewrite <-(u32_sub_eq _ _ (-1) Hc). unfold u32. rewrite Zminus_mod_idemp_l. f_equal. lia.
  - intros k'. unfold lookup_dict at 1. cbn. case_decide as E.
    + subst. rewrite map_find_set_eq. cbn [mbind option_bind]. unfold lifetime, new_life.
      rewrite Hview. cbn [timerTickServiceBool]. rewrite decide_True by done.
      cbn [mbind option_bind data]. destruct (Z.eqb_spec e noExpiration); [done|].
      destruct (Z.leb_spec 0 e); destruct (Z.ltb_spec e 0); try lia; cbn; [|done].
      pose proof (Z.div_pos e 12). by destruct (Z.eqb_spec (1 + e / 12) 0); [lia|].
    + rewrite map_find_set_ne by done. unfold lookup_dict.
      destruct (map_find k' (dictionaryEntries w)) as [d'|] eqn:Ed; [|done].
      cbn [mbind option_bind]. unfold lifetime. rewrite Hview, decide_False; [done|].
      by eapply Hh.
Qed.

Lemma add_ok k v e w :
  dict_ok w →
  let '(r, w') := add k v e w in
  dict_ok w' ∧
  if string_empty k || bool_decide (lookup_dict w k ≠ None) then r = Ok false ∧ same_dict w w'
  else match r with
       | Ok b => b = true ∧ ∀ k', lookup_dict w' k' =
           if decide (k' = k) then l ← new_life e; Some (v, l) else lookup_dict w k'
       | Throw _ => same_dict w w'
       end.
Proof.
  intros Hok. unfold add. destruct (string_empty k) eqn:Ek; [done|]. cbn [orb].
  destruct (get_ok k w Hok) as (f & v0 & w1 & -> & Hok1 & Hsame & _ & Hcase). destruct f.
  { destruct Hcase as [-> [l Hl]]. rewrite bool_decide_true by (by rewrite Hl).
    split; [done|]. split; [done|by intros ?]. }
  destruct Hcase as (Hn & _ & Hgone & _). rewrite bool_decide_false by (rewrite Hn; by intros []).
  destruct (ts_new e (timers w1)) as [[h t2]|ex] eqn:Et; [|done].
  unfold map_insert. rewrite Hgone. cbn [negb].
  destruct (insert_ok k v e h t2 w1 Hok1 Ek Hgone Et) as [Hok' Hl]. split; [done|].
  split; [done|]. intros k'. by rewrite Hl, Hsame.
Qed.

Lemma remove_ok k w :
  dict_ok w →
  dict_ok (remove k w).2 ∧
  (lookup_dict w k ≠ None → (remove k w).1 = true) ∧
  ∀ k', lookup_dict (remove k w).2 k' = if decide (k' = k) then None else lookup_dict w k'.
Proof.
  intros Hok. unfold remove. destruct (map_find k (dictionaryEntries w)) as [d|] eqn:E; cbn.
  - destruct w as [es st t].
    destruct (_remove_ok k d (mkDictionary es st t) st Hok E eq_refl eq_refl)
      as (Hok' & _ & Hl). split_and!; done.
  - split_and!; [done| |].
    + by intros ?%lookup_dict_find.
    + intros k'. case_decide; [|done]. subst. unfold lookup_dict. by rewrite E.
Qed.

Lemma clear_ok w : dict_ok w → dict_ok (clear w) ∧ ∀ k, lookup_dict (clear w) k = None.
Proof.
  intros Hok. split; [|done]. constructor; cbn; try done.
  - apply map_sorted_nil.
  - pose proof (do_timers _ Hok) as Ht. revert Ht. generalize (timers w).
    induction (dictionaryEntries w) as [|e es IH]; intros t Ht; [done|].
    cbn. apply IH. by apply ts_delete_ok.
  - change (size (clear w)) with 0.
    pose proof (u32_sub_eq _ _ (size w) (do_count _ Hok)) as Hc. rewrite Z.sub_diag in Hc.
    rewrite <-Hc. unfold u32. rewrite Zminus_mod_idemp_r. f_equal. lia.
Qed.

(** One pass of the timer thread, as the dictionary sees it. *)
Definition tick_timers w : Dictionary T :=
  mkDictionary (dictionaryEntries w) (dictionaryStatus w) (ts_tick (timers w)).

Definition age (e : string * option Z) : option (string * option Z) :=
  match e with
  | (v, None) => Some (v, None)
  | (v, Some n) => if n =? 1 then None else Some (v, Some (n - 1))
  end.

Lemma tick_timers_ok w :
  dict_ok w → dict_ok (tick_timers w) ∧
  ∀ k, lookup_dict (tick_timers w) k = lookup_dict w k ≫= age.
Proof.
  intros [Hs Ht Hk Hv Hi Hc]. destruct (ts_tick_ok _ Ht) as [Ht' Hview]. split.
  - constructor; cbn; try done. intros k d Hd. rewrite Hview.
    destruct (Hv _ _ Hd) as [[i n] ->]. by eexists.
  - intros k. unfold lookup_dict. cbn.
    destruct (map_find k (dictionaryEntries w)) as [d|] eqn:Ed; [|done].
    cbn [mbind option_bind]. unfold lifetime. rewrite Hview.
    destruct (Hv _ _ Ed) as [[i n] E]. rewrite E. pose proof (ts_nonneg _ _ _ _ Ht E).
    cbn. destruct (i =? noExpiration); [done|].
    destruct (Z.eqb_spec n 0) as [->|]; [done|]. cbn.
    destruct (Z.eqb_spec n 1) as [->|]; [done|].
    destruct (Z.eqb_spec (Z.max 0 (n - 1)) 0); [lia|]. cbn. do 3 f_equal. lia.
Qed.
End spec.

(** ** Properties *)
Section properties.
Context {T : Type} `{TimerService T}.
Implicit Types (w : Dictionary T) (k v : string).

Inductive dict_op :=
  | OpGet (k : string)
  | OpAdd (k v : string) (e : Z)
  | OpRemove (k : string)
  | OpClear
  | OpNext (k : string)
  | OpPurge
  | OpTick.

Inductive dict_out :=
  | Found (b : bool) (v : string)
  | Flag (b : bool)
  | Visited (b : bool) (k v : string)
  | Done
  | Failed (e : exn).

Definition run_dict (op : dict_op) w : option (dict_out * Dictionary T) :=
  match op with
  | OpGet k => let '(f, v, w') := get k w in Some (Found f v, w')
  | OpAdd k v e =>
      let '(r, w') := add k v e w in
      Some (match r with Ok b => Flag b | Throw ex => Failed ex end, w')
  | OpRemove k => let '(b, w') := remove k w in Some (Flag b, w')
  | OpClear => Some (Done, clear w)
  | OpNext k => '(f, k', v, w') ← getNext k w; Some (Visited f k' v, w')
  | OpPurge => w' ← purgeExpiredDictionaryEntries w; Some (Done, w')
  | OpTick => Some (Done, tick_timers w)
  end.

(** What an operation does to the abstract dictionary [m] and answers. *)
Definition spec_dict (op : dict_op) (m : gmap string (string * option Z))
    (out : dict_out) (m' : gmap string (string * option Z)) : Prop :=
  match op with
  | OpGet k => m' = m ∧
      out = match m !! k with Some (v, _) => Found true v | None => Found false EmptyString end
  | OpAdd k v e =>
      if string_empty k || bool_decide (is_Some (m !! k)) then out = Flag false ∧ m' = m
      else (out = Flag true ∧
            m' = match new_life e with Some l => <[k := (v, l)]> m | None => m end) ∨
           ((∃ ex, out = Failed ex) ∧ m' = m)
  | OpRemove k => m' = base.delete k m ∧ ∃ b, out = Flag b ∧ (is_Some (m !! k) → b = true)
  | OpClear => m' = ∅ ∧ out = Done
  | OpNext k => m' = m ∧
      ((∃ k' v l, out = Visited true k' v ∧ m !! k' = Some (v, l) ∧ less k k' = true ∧
          ∀ k'', is_Some (m !! k'') → less k k'' = true → k'' = k' ∨ less k' k'' = true) ∨
       (∃ k', out = Visited false k' EmptyString ∧
          ∀ k'', is_Some (m !! k'') → less k k'' = false))
  | OpPurge => m' = m ∧ out = Done
  | OpTick => m' = omap age m ∧ out = Done
  end.

Lemma is_Some_ne {A} (o : option A) : is_Some o ↔ o ≠ None.
Proof. destruct o; naive_solver. Qed.

(** Two of the operations on their own: [add] and the step of an iteration. *)
Definition refines (op : dict_op) : Prop := ∀ w m,
  dict_rep w m → ∃ out w' m', run_dict op w = Some (out, w') ∧ spec_dict op m out m' ∧ dict_rep w' m'.

Lemma add_refines k v e : refines (OpAdd k v e).
Proof.
  intros w m [Hok Hm]. cbn [run_dict spec_dict].
  pose proof (add_ok k v e w Hok) as Ha. destruct (add k v e w) as [r w'].
  destruct Ha as [Hok' Ha]. rewrite Hm in Ha.
  rewrite (bool_decide_ext _ _ (is_Some_ne (m !! k))).
  destruct (string_empty k || bool_decide (m !! k ≠ None)) eqn:Eb.
  { destruct Ha as [-> Hsame]. exists (Flag false), w', m.
    split_and!; [done|done|done|split; [done|by intros k'; rewrite Hsame]]. }
  apply orb_false_iff in Eb as [_ Eb%bool_decide_eq_false]. destruct r as [b|ex].
  - destruct Ha as [-> Hl]. eexists _, w', _. split_and!; [done|by left|split; [done|]].
    intros k'. rewrite Hl, Hm. destruct (new_life e) as [l|]; simpl;
      destruct (decide (k' = k)) as [->|Hne]; rewrite ?lookup_insert_eq; try done.
    { by rewrite lookup_insert_ne. }
    destruct (m !! k); [|done]. by destruct Eb.
  - exists (Failed ex), w', m.
    split_and!; [done|right; split; [by eexists|done]|split; [done|by intros k'; rewrite Ha]].
Qed.

Lemma next_refines k : refines (OpNext k).
Proof.
  intros w m [Hok Hm]. cbn [run_dict spec_dict]. unfold getNext.
  destruct (getNext_loop_ok (S (length (dictionaryEntries w))) k w Hok ltac:(lia))
    as (f & k' & v & w' & -> & Hok' & Hsame & _ & _ & Hres).
  exists (Visited f k' v), w', m.
  split_and!; [done|done| |split; [done|by intros k''; rewrite Hsame]]. destruct f.
  - destruct Hres as (Hlt & [l Hl] & Hmin). left. exists k', v, l. rewrite <-Hm.
    split_and!; [done..|]. intros k'' Hk''%is_Some_ne. rewrite <-Hm in Hk''. by apply Hmin.
  - destruct Hres as [-> Hno]. right. exists k'. split; [done|].
    intros k'' Hk''%is_Some_ne. rewrite <-Hm in Hk''. by apply Hno.
Qed.

(** C9: the dictionary implements a finite map with lifetimes. On a state that
    represents the map [m], every operation terminates, answers what the
    abstract operation answers, and leaves a state that represents the abstract
    result: get and iteration see exactly the unexpired entries, iteration in
    ascending key order, add never replaces a live entry, remove and clear
    delete, the purge changes nothing observable, and a timer tick ages every
    entry. The representation includes that the added and removed counters
    account for the number of entries. *)
Theorem dictionary_refines_map op w m :
  dict_rep w m →
  ∃ out w' m', run_dict op w = Some (out, w') ∧ spec_dict op m out m' ∧ dict_rep w' m'.
Proof.
  intros [Hok Hm]. destruct op as [k|k v e|k| |k| |]; cbn [run_dict spec_dict].
  - destruct (get_ok k w Hok) as (f & v & w' & -> & Hok' & Hsame & _ & Hcase).
    exists (Found f v), w', m. split_and!; [done|done| |split; [done|by intros k'; rewrite Hsame]].
    rewrite <-Hm. destruct f; [by destruct Hcase as [_ [l ->]]|].
    by destruct Hcase as (-> & -> & _).
  - by apply add_refines.
  - destruct (remove_ok k w Hok) as (Hok' & Hb & Hl). destruct (remove k w) as [b w'].
    exists (Flag b), w', (base.delete k m). split_and!; [done|done| |split; [done|]].
    + exists b. split; [done|]. rewrite is_Some_ne, <-Hm. done.
    + intros k'. cbn in Hl. rewrite Hl, Hm. case_decide as E; [subst|].
      * by rewrite lookup_delete_eq.
      * by rewrite lookup_delete_ne.
  - destruct (clear_ok w Hok) as [Hok' Hl]. exists Done, (clear w), ∅.
    by split_and!.
  - by apply next_refines.
  - unfold purgeExpiredDictionaryEntries.
    destruct (purge_loop_ok (S (length (dictionaryEntries w))) EmptyString w Hok)
      as (w' & -> & Hok' & Hsame & _).
    + pose proof (length_filter (above EmptyString) (dictionaryEntries w)). lia.
    + intros k Hk Hl. destruct (map_find k (dictionaryEntries w)) as [d|] eqn:E; [|done].
      pose proof (do_keys _ Hok _ _ E) as Hne. by rewrite string_less_empty in Hl.
    + exists Done, w', m. split_and!; try done. split; [done|]. intros k. by rewrite Hsame.
  - destruct (tick_timers_ok w Hok) as [Hok' Hl]. exists Done, (tick_timers w), (omap age m).
    split_and!; try done. split; [done|]. intros k. by rewrite Hl, lookup_omap, Hm.
Qed.

(** The state after [n] passes of the timer thread. *)
Fixpoint after_ticks (n : nat) w : Dictionary T :=
  match n with O => w | S n => tick_timers (after_ticks n w) end.

Lemma after_ticks_ok n w :
  dict_ok w → dict_ok (after_ticks n w).
Proof. intros Hok. induction n as [|n IH]; [done|]. by apply tick_timers_ok. Qed.

Lemma after_ticks_lookup n w k v l :
  dict_ok w → lookup_dict w k = Some (v, l) →
  lookup_dict (after_ticks n w) k =
  match l with
  | None => Some (v, None)
  | Some j => if j <=? Z.of_nat n then None else Some (v, Some (j - Z.of_nat n))
  end.
Proof.
  intros Hok Hl.
  assert (Hpos : match l with Some j => 0 < j | None => True end).
  { unfold lookup_dict in Hl. destruct (map_find k _) as [d|] eqn:Ed; [|done].
    destruct (do_view _ Hok _ _ Ed) as [[i j] Hv]. cbn in Hl. unfold lifetime in Hl.
    rewrite Hv in Hl. cbn in Hl. pose proof (ts_nonneg _ _ _ _ (do_timers _ Hok) Hv).
    destruct (i =? noExpiration); simplify_eq/=; [done|].
    destruct (Z.eqb_spec j 0); simplify_eq/=. lia. }
  induction n as [|n IH].
  - cbn [after_ticks]. change (Z.of_nat 0) with 0. rewrite Hl. destruct l as [j|]; [|done].
    destruct (Z.leb_spec j 0); [lia|]. by rewrite Z.sub_0_r.
  - cbn [after_ticks]. rewrite (proj2 (tick_timers_ok _ (after_ticks_ok n w Hok))), IH.
    destruct l as [j|]; [|done].
    destruct (Z.leb_spec j (Z.of_nat n)), (Z.leb_spec j (Z.of_nat (S n))); try lia; [done| |];
      cbn; destruct (Z.eqb_spec (j - Z.of_nat n) 1); try lia; [done|]. do 3 f_equal. lia.
Qed.

Lemma after_ticks_none n w k :
  dict_ok w → lookup_dict w k = None → lookup_dict (after_ticks n w) k = None.
Proof.
  intros Hok Hl. induction n as [|n IH]; [done|]. cbn [after_ticks].
  by rewrite (proj2 (tick_timers_ok _ (after_ticks_ok n w Hok))), IH.
Qed.

(** C26: entries live exactly as long as they were given. After a successful
    add with an expiration of [e] milliseconds and [n] passes of the timer, the
    entry is still found (with its value) exactly while [n] is below
    [1 + e / 12]; with the expiration -1 it is found for ever; and with any
    other negative expiration it is never found, although the add succeeded. *)
Theorem entry_lifetime w w' k v e n :
  dict_ok w → add k v e w = (Ok true, w') →
  let '(found, value, _) := get k (after_ticks n w') in
  found = (if e =? noExpiration then true
           else if e <? 0 then false else Z.of_nat n <? 1 + e / 12) ∧
  value = (if found then v else noData).
Proof.
  intros Hok Ha. pose proof (add_ok k v e w Hok) as Hs. rewrite Ha in Hs.
  destruct Hs as [Hok' Hs]. destruct (string_empty k || _); [by destruct Hs|].
  destruct Hs as [_ Hl]. specialize (Hl k). rewrite decide_True in Hl by done.
  rewrite get_dict_spec by (by apply after_ticks_ok). unfold new_life in Hl.
  destruct (Z.eqb_spec e noExpiration).
  - by rewrite (after_ticks_lookup n w' k v None Hok' Hl).
  - destruct (Z.ltb_spec e 0).
    + by rewrite (after_ticks_none n w' k Hok' Hl).
    + rewrite (after_ticks_lookup n w' k v _ Hok' Hl).
      by destruct (Z.leb_spec (1 + e / 12) (Z.of_nat n)), (Z.ltb_spec (Z.of_nat n) (1 + e / 12));
        try lia.
Qed.

(** what a set request does. With a key and data, the entry of that key is
    replaced and lives as long as the timeout says; but when the timeout does
    not parse, the request fails after the old entry has already gone. *)
Theorem post_set w params k v t :
  dict_ok w → k ≠ EmptyString →
  map_find dictionaryParamKey params = Some k →
  map_find dictionaryParamData params = Some v →
  map_find dictionaryParamTimeout params = Some t →
  default dictionaryParamOperationSet (map_find dictionaryParamOperation params) =
    dictionaryParamOperationSet →
  let '(ok, w') := parsePostRequest params w in
  dict_ok w' ∧
  (∀ k', k' ≠ k → lookup_dict w' k' = lookup_dict w k') ∧
  lookup_dict w' k =
    (if ok then match stoi t 10 with Ok e => l ← new_life e; Some (v, l) | Throw _ => None end
     else None) ∧
  (is_ok (stoi t 10) = false → ok = false).
Proof.
  intros Hok Hk Fk Fd Ft Fo. unfold parsePostRequest.
  rewrite !getParamValue_eq, Fk, Fd, Ft, Fo. cbn [from_option id].
  rewrite bool_decide_false, bool_decide_true by done. cbn [negb andb orb].
  destruct (remove_ok k w Hok) as (Hok1 & _ & Hl1). set (w1 := (remove k w).2) in *.
  destruct (stoi t 10) as [e|ex] eqn:Es.
  - pose proof (add_ok k v e w1 Hok1) as Ha. destruct (add k v e w1) as [r w2].
    destruct Ha as [Hok2 Ha]. rewrite Hl1, decide_True in Ha by done.
    destruct k as [|c k]; [done|]. cbn [string_empty orb] in Ha.
    rewrite bool_decide_false in Ha by (by intros []).
    destruct r as [b|ex]; cbn [catch_all].
    + destruct Ha as [-> Hl2]. split; [done|split; [|split; [|done]]].
      * intros k' Hne. by rewrite Hl2, decide_False, Hl1, decide_False by done.
      * by rewrite Hl2, decide_True by done.
    + split; [done|split; [|split; [|done]]].
      * intros k' Hne. by rewrite Ha, Hl1, decide_False by done.
      * by rewrite Ha, Hl1, decide_True by done.
  - split; [done|split; [|split; [|done]]].
    + intros k' Hne. by rewrite Hl1, decide_False by done.
    + by rewrite Hl1, decide_True by done.
Qed.
End properties.

(** Requests keep the representation. *)
Lemma parsePostRequest_ok `{TimerService T} params (w : Dictionary T) : dict_ok w → dict_ok (parsePostRequest params w).2.
Proof.
  intros Hw. unfold parsePostRequest.
  destruct (getParamValue params dictionaryParamTimeout _) as [? t].
  destruct (getParamValue params dictionaryParamOperation _) as [? op].
  destruct (getParamValue params dictionaryParamKey _) as [hasKey k].
  case_match; [done|]. destruct (getParamValue params dictionaryParamData _) as [hasData v].
  do 2 (case_match; [done|]). set (w1 := if _ || _ then _ else w).
  assert (dict_ok w1) as Hw1.
  { unfold w1. case_match; [|done]. case_match; [apply clear_ok, Hw|by apply remove_ok]. }
  case_match; [|done]. destruct (stoi t 10) as [z|]; [|done].
  pose proof (add_ok k v z w1 Hw1) as Ha. destruct (add k v z w1) as [r w2]. apply Ha.
Qed.

(** ** Witnesses, on the tick timer *)

Definition demo_dictionary : Dictionary TimerTick := Dictionary_new TimerTick_new.

Lemma Dictionary_new_ok : dict_ok demo_dictionary.
Proof.
  constructor; done || apply map_sorted_nil.
Qed.

Lemma dictionary_refines_map_witness :
  ∃ out w' m', run_dict (OpAdd "k" "v" 100) demo_dictionary = Some (out, w') ∧
    spec_dict (OpAdd "k" "v" 100) ∅ out m' ∧ dict_rep w' m'.
Proof.
  apply (dictionary_refines_map (OpAdd "k" "v" 100) demo_dictionary ∅).
  split; [apply Dictionary_new_ok|]. intros k. by rewrite lookup_empty.
Defined.

Lemma entry_lifetime_witness :
  let '(found, value, _) := get "k" (after_ticks 9 (add "k" "v" 100 demo_dictionary).2) in
  found = false ∧ value = EmptyString.
Proof.
  exact (entry_lifetime demo_dictionary (add "k" "v" 100 demo_dictionary).2 "k" "v" 100 9
    Dictionary_new_ok eq_refl).
Defined.

Definition demo_post : StringMap :=
  [(dictionaryParamData, "v"); (dictionaryParamKey, "k"); (dictionaryParamTimeout, "x")].

Lemma post_set_witness :
  let '(ok, w') := parsePostRequest demo_post demo_dictionary in
  dict_ok w' ∧
  (∀ k', k' ≠ "k" → lookup_dict w' k' = lookup_dict demo_dictionary k') ∧
  lookup_dict w' "k" =
    (if ok then match stoi "x" 10 with Ok e => l ← new_life e; Some ("v", l) | Throw _ => None end
     else None) ∧
  (is_ok (stoi "x" 10) = false → ok = false).
Proof.
  apply (post_set demo_dictionary demo_post "k" "v" "x" Dictionary_new_ok); done.
Defined.
