(* ===== verification/Fonts.v ===== *)
(** * Fonts and images: src/ht1632/font_*.h, src/ht1632/images.h

    The tables as the headers have them: an image is stored by columns, four
    rows a word, the lowest bit the top row; a font is an array of glyphs, one
    every [font_glyph_step] words, with a width for each. *)
From S2P Require Import Prelude.

Record Font := mkFont {
  font_data : list Z;
  font_width : list Z;
  font_height : Z;
  font_glyph_step : Z;
}.

Record Image := mkImage {
  img_data : list Z;
  img_width : Z;
  img_height : Z;
}.

(** ** font_5x4.h *)
Definition FONT_5X4 : list Z :=
  [0; 0; 0; 0; 0; 0; 0; 0; 0; 0;
   7; 1; 0; 0; 0; 0; 0; 0; 0; 0;
   3; 0; 0; 0; 3; 0; 0; 0; 0; 0;
   10; 0; 15; 1; 10; 0; 15; 1; 10; 0;
   0; 0; 0; 0; 0; 0; 0; 0; 0; 0;
   3; 1; 11; 0; 4; 0; 10; 1; 9; 1;
   10; 0; 5; 1; 9; 1; 10; 1; 0; 0;
   3; 0; 0; 0; 0; 0; 0; 0; 0; 0;
   14; 0; 1; 1; 0; 0; 0; 0; 0; 0;
   1; 1; 14; 0; 0; 0; 0; 0; 0; 0;
   5; 0; 2; 0; 5; 0; 0; 0; 0; 0;
   4; 0; 4; 0; 15; 1; 4; 0; 4; 0;
   0; 1; 8; 0; 0; 0; 0; 0; 0; 0;
   4; 0; 4; 0; 4; 0; 0; 0; 0; 0;
   0; 1; 0; 0; 0; 0; 0; 0; 0; 0;
   0; 1; 12; 0; 6; 0; 1; 0; 0; 0;
   14; 0; 1; 1; 14; 0; 0; 0; 0; 0;
   2; 1; 15; 1; 0; 1; 0; 0; 0; 0;
   2; 1; 9; 1; 5; 1; 2; 1; 0; 0;
   5; 1; 5; 1; 10; 0; 0; 0; 0; 0;
   12; 0; 10; 0; 15; 1; 8; 0; 0; 0;
   7; 1; 5; 1; 13; 0; 0; 0; 0; 0;
   14; 0; 5; 1; 5; 1; 8; 0; 0; 0;
   1; 0; 13; 1; 5; 0; 3; 0; 0; 0;
   10; 0; 5; 1; 5; 1; 10; 0; 0; 0;
   2; 0; 5; 0; 5; 1; 14; 0; 0; 0;
   10; 0; 0; 0; 0; 0; 0; 0; 0; 0;
   0; 1; 10; 0; 0; 0; 0; 0; 0; 0;
   4; 0; 10; 0; 1; 1; 0; 0; 0; 0;
   10; 0; 10; 0; 10; 0; 0; 0; 0; 0;
   1; 1; 10; 0; 4; 0; 0; 0; 0; 0;
   2; 0; 1; 0; 9; 1; 6; 0; 0; 0;
   14; 0; 1; 0; 13; 0; 5; 1; 15; 0;
   14; 1; 5; 0; 14; 1; 0; 0; 0; 0;
   15; 1; 5; 1; 10; 0; 0; 0; 0; 0;
   14; 0; 1; 1; 1; 1; 10; 0; 0; 0;
   15; 1; 1; 1; 14; 0; 0; 0; 0; 0;
   15; 1; 5; 1; 1; 1; 0; 0; 0; 0;
   15; 1; 5; 0; 5; 0; 0; 0; 0; 0;
   14; 0; 1; 1; 9; 1; 10; 0; 0; 0;
   15; 1; 4; 0; 4; 0; 15; 1; 0; 0;
   1; 1; 15; 1; 1; 1; 0; 0; 0; 0;
   9; 0; 1; 1; 15; 0; 0; 0; 0; 0;
   15; 1; 4; 0; 10; 0; 1; 1; 0; 0;
   15; 1; 0; 1; 0; 1; 0; 0; 0; 0;
   15; 1; 2; 0; 4; 0; 2; 0; 15; 1;
   15; 1; 2; 0; 4; 0; 8; 0; 15; 1;
   14; 0; 1; 1; 1; 1; 14; 0; 0; 0;
   15; 1; 5; 0; 2; 0; 0; 0; 0; 0;
   14; 0; 1; 1; 1; 1; 9; 0; 6; 1;
   15; 1; 5; 0; 10; 1; 0; 0; 0; 0;
   2; 1; 5; 1; 5; 1; 9; 0; 0; 0;
   1; 0; 15; 1; 1; 0; 0; 0; 0; 0;
   15; 0; 0; 1; 0; 1; 15; 0; 0; 0;
   3; 0; 12; 0; 0; 1; 12; 0; 3; 0;
   15; 0; 0; 1; 12; 0; 0; 1; 15; 0;
   11; 1; 4; 0; 11; 1; 0; 0; 0; 0;
   3; 0; 12; 1; 3; 0; 0; 0; 0; 0;
   9; 1; 5; 1; 5; 1; 3; 1; 0; 0;
   15; 1; 1; 1; 0; 0; 0; 0; 0; 0;
   1; 0; 6; 0; 12; 0; 0; 1; 0; 0;
   1; 1; 15; 1; 0; 0; 0; 0; 0; 0;
   2; 0; 1; 0; 2; 0; 0; 0; 0; 0;
   0; 1; 0; 1; 0; 1; 0; 0; 0; 0].

Definition FONT_5X4_WIDTH : list Z :=
  [1; 1; 3; 5; 4; 5; 4; 1;
   2; 2; 3; 5; 2; 3; 1; 4;
   3; 3; 4; 3; 4; 3; 4; 4;
   4; 4; 1; 2; 3; 3; 3; 4;
   5; 3; 3; 4; 3; 3; 3; 4;
   4; 3; 3; 4; 3; 5; 5; 4;
   3; 5; 3; 4; 3; 4; 5; 5;
   3; 3; 4; 2; 4; 2; 3; 3].

Definition font_5x4 : Font := mkFont FONT_5X4 FONT_5X4_WIDTH 5 10.

(** ** font_7x5.h *)
Definition FONT_7X5 : list Z :=
  [0; 0; 0; 0; 0; 0; 0; 0; 0; 0; 0; 0;
   0; 0; 15; 5; 0; 0; 0; 0; 0; 0; 0; 0;
   7; 0; 0; 0; 7; 0; 0; 0; 0; 0; 0; 0;
   4; 1; 15; 7; 4; 1; 15; 7; 4; 1; 0; 0;
   4; 2; 10; 2; 15; 7; 10; 2; 2; 1; 0; 0;
   3; 2; 3; 1; 8; 0; 4; 6; 2; 6; 0; 0;
   6; 3; 9; 4; 5; 5; 2; 2; 0; 5; 0; 0;
   7; 0; 0; 0; 0; 0; 0; 0; 0; 0; 0; 0;
   12; 1; 2; 2; 1; 4; 0; 0; 0; 0; 0; 0;
   1; 4; 2; 2; 12; 1; 0; 0; 0; 0; 0; 0;
   4; 1; 8; 0; 14; 3; 8; 0; 4; 1; 0; 0;
   8; 0; 8; 0; 14; 3; 8; 0; 8; 0; 0; 0;
   8; 5; 8; 3; 0; 0; 0; 0; 0; 0; 0; 0;
   8; 0; 8; 0; 8; 0; 8; 0; 8; 0; 0; 0;
   0; 6; 0; 6; 0; 0; 0; 0; 0; 0; 0; 0;
   0; 2; 0; 1; 8; 0; 4; 0; 2; 0; 0; 0;
   14; 3; 1; 5; 9; 4; 5; 4; 14; 3; 0; 0;
   2; 4; 15; 7; 0; 4; 0; 0; 0; 0; 0; 0;
   2; 6; 1; 5; 9; 4; 9; 4; 6; 4; 0; 0;
   2; 2; 1; 4; 9; 4; 9; 4; 6; 3; 0; 0;
   8; 1; 4; 1; 2; 1; 15; 7; 0; 1; 0; 0;
   7; 2; 5; 4; 5; 4; 5; 4; 9; 3; 0; 0;
   12; 3; 10; 4; 9; 4; 9; 4; 0; 3; 0; 0;
   1; 0; 1; 7; 9; 0; 5; 0; 3; 0; 0; 0;
   6; 3; 9; 4; 9; 4; 9; 4; 6; 3; 0; 0;
   6; 0; 9; 4; 9; 4; 9; 2; 14; 1; 0; 0;
   6; 3; 6; 3; 0; 0; 0; 0; 0; 0; 0; 0;
   6; 5; 6; 3; 0; 0; 0; 0; 0; 0; 0; 0;
   8; 0; 4; 1; 2; 2; 1; 4; 0; 0; 0; 0;
   4; 1; 4; 1; 4; 1; 4; 1; 4; 1; 0; 0;
   1; 4; 2; 2; 4; 1; 8; 0; 0; 0; 0; 0;
   2; 0; 1; 0; 1; 5; 9; 0; 6; 0; 0; 0;
   14; 3; 1; 4; 13; 5; 5; 5; 14; 2; 0; 0;
   12; 7; 2; 1; 1; 1; 2; 1; 12; 7; 0; 0;
   15; 7; 9; 4; 9; 4; 9; 4; 6; 3; 0; 0;
   14; 3; 1; 4; 1; 4; 1; 4; 2; 2; 0; 0;
   15; 7; 1; 4; 1; 4; 2; 2; 12; 1; 0; 0;
   15; 7; 9; 4; 9; 4; 9; 4; 1; 4; 0; 0;
   15; 7; 9; 0; 9; 0; 9; 0; 1; 0; 0; 0;
   14; 3; 1; 4; 9; 4; 9; 4; 10; 7; 0; 0;
   15; 7; 8; 0; 8; 0; 8; 0; 15; 7; 0; 0;
   1; 4; 15; 7; 1; 4; 0; 0; 0; 0; 0; 0;
   0; 2; 0; 4; 1; 4; 15; 3; 1; 0; 0; 0;
   15; 7; 8; 0; 4; 1; 2; 2; 1; 4; 0; 0;
   15; 7; 0; 4; 0; 4; 0; 4; 0; 4; 0; 0;
   15; 7; 2; 0; 12; 0; 2; 0; 15; 7; 0; 0;
   15; 7; 4; 0; 8; 0; 0; 1; 15; 7; 0; 0;
   14; 3; 1; 4; 1; 4; 1; 4; 14; 3; 0; 0;
   15; 7; 9; 0; 9; 0; 9; 0; 6; 0; 0; 0;
   14; 7; 1; 4; 1; 5; 1; 2; 14; 5; 0; 0;
   15; 7; 9; 0; 9; 1; 9; 2; 6; 4; 0; 0;
   6; 2; 9; 4; 9; 4; 9; 4; 2; 3; 0; 0;
   1; 0; 1; 0; 15; 7; 1; 0; 1; 0; 0; 0;
   15; 3; 0; 4; 0; 4; 0; 4; 15; 3; 0; 0;
   7; 0; 8; 1; 0; 6; 8; 1; 7; 0; 0; 0;
   15; 3; 0; 4; 8; 3; 0; 4; 15; 3; 0; 0;
   3; 6; 4; 1; 8; 0; 4; 1; 3; 6; 0; 0;
   7; 0; 8; 0; 0; 7; 8; 0; 7; 0; 0; 0;
   1; 6; 1; 5; 9; 4; 5; 4; 3; 4; 0; 0;
   15; 7; 1; 4; 1; 4; 0; 0; 0; 0; 0; 0;
   2; 0; 4; 0; 8; 0; 0; 1; 0; 2; 0; 0;
   1; 4; 1; 4; 15; 7; 0; 0; 0; 0; 0; 0;
   4; 0; 2; 0; 1; 0; 2; 0; 4; 0; 0; 0;
   0; 4; 0; 4; 0; 4; 0; 4; 0; 4; 0; 0].

Definition FONT_7X5_WIDTH : list Z :=
  [1; 3; 3; 5; 5; 5; 5; 1;
   3; 3; 5; 5; 2; 5; 2; 5;
   5; 3; 5; 5; 5; 5; 5; 5;
   5; 5; 2; 2; 4; 5; 4; 5;
   5; 5; 5; 5; 5; 5; 5; 5;
   5; 3; 5; 5; 5; 5; 5; 5;
   5; 5; 5; 5; 5; 5; 5; 5;
   5; 5; 5; 3; 5; 3; 5; 5].

Definition font_7x5 : Font := mkFont FONT_7X5 FONT_7X5_WIDTH 7 12.

(** ** font_8x4.h *)
Definition FONT_8X4 : list Z :=
  [0; 0; 0; 0; 0; 0; 0; 0; 0; 0;
   15; 13; 0; 0; 0; 0; 0; 0; 0; 0;
   3; 0; 0; 0; 3; 0; 0; 0; 0; 0;
   10; 0; 15; 1; 10; 0; 15; 1; 10; 0;
   0; 0; 0; 0; 0; 0; 0; 0; 0; 0;
   3; 1; 11; 0; 4; 0; 10; 1; 9; 1;
   10; 0; 5; 1; 9; 1; 10; 1; 0; 0;
   3; 0; 0; 0; 0; 0; 0; 0; 0; 0;
   14; 0; 1; 1; 0; 0; 0; 0; 0; 0;
   1; 1; 14; 0; 0; 0; 0; 0; 0; 0;
   5; 0; 2; 0; 5; 0; 0; 0; 0; 0;
   4; 0; 4; 0; 15; 1; 4; 0; 4; 0;
   0; 1; 8; 0; 0; 0; 0; 0; 0; 0;
   4; 0; 4; 0; 4; 0; 0; 0; 0; 0;
   0; 1; 0; 0; 0; 0; 0; 0; 0; 0;
   0; 1; 12; 0; 6; 0; 1; 0; 0; 0;
   14; 7; 1; 8; 14; 7; 0; 0; 0; 0;
   2; 8; 15; 15; 0; 8; 0; 0; 0; 0;
   2; 14; 1; 9; 14; 8; 0; 0; 0; 0;
   9; 8; 9; 8; 15; 15; 0; 0; 0; 0;
   15; 0; 8; 0; 15; 15; 0; 0; 0; 0;
   15; 8; 9; 8; 9; 15; 0; 0; 0; 0;
   15; 15; 9; 8; 9; 15; 0; 0; 0; 0;
   1; 15; 9; 0; 7; 0; 0; 0; 0; 0;
   15; 15; 9; 8; 15; 15; 0; 0; 0; 0;
   15; 8; 9; 8; 15; 15; 0; 0; 0; 0;
   4; 2; 0; 0; 0; 0; 0; 0; 0; 0;
   0; 1; 10; 0; 0; 0; 0; 0; 0; 0;
   4; 0; 10; 0; 1; 1; 0; 0; 0; 0;
   10; 0; 10; 0; 10; 0; 0; 0; 0; 0;
   1; 1; 10; 0; 4; 0; 0; 0; 0; 0;
   2; 0; 1; 0; 9; 1; 6; 0; 0; 0;
   14; 0; 1; 0; 13; 0; 5; 1; 15; 0;
   15; 15; 9; 0; 9; 0; 15; 15; 0; 0;
   15; 15; 9; 8; 9; 8; 7; 15; 0; 0;
   15; 15; 1; 8; 1; 8; 3; 12; 0; 0;
   15; 15; 1; 8; 1; 8; 14; 7; 0; 0;
   15; 15; 9; 8; 9; 8; 1; 8; 0; 0;
   15; 15; 9; 0; 9; 0; 1; 0; 0; 0;
   15; 15; 1; 8; 9; 8; 9; 15; 0; 0;
   15; 15; 8; 0; 8; 0; 15; 15; 0; 0;
   1; 8; 15; 15; 1; 8; 0; 0; 0; 0;
   1; 12; 1; 8; 1; 8; 15; 15; 0; 0;
   15; 15; 8; 0; 4; 1; 3; 14; 0; 0;
   15; 15; 0; 8; 0; 8; 0; 8; 0; 0;
   15; 15; 6; 0; 6; 0; 15; 15; 0; 0;
   15; 15; 12; 0; 0; 3; 15; 15; 0; 0;
   15; 15; 1; 8; 1; 8; 15; 15; 0; 0;
   15; 15; 9; 0; 9; 0; 15; 0; 0; 0;
   15; 15; 1; 10; 1; 12; 15; 15; 0; 0;
   15; 15; 9; 0; 9; 1; 15; 14; 0; 0;
   6; 8; 9; 8; 9; 8; 1; 7; 0; 0;
   1; 0; 15; 15; 1; 0; 0; 0; 0; 0;
   15; 15; 0; 8; 0; 8; 15; 15; 0; 0;
   15; 3; 0; 14; 0; 14; 15; 3; 0; 0;
   15; 7; 0; 15; 0; 14; 15; 7; 0; 0;
   7; 14; 12; 3; 12; 3; 7; 14; 0; 0;
   7; 0; 8; 15; 7; 0; 0; 0; 0; 0;
   1; 12; 1; 11; 13; 8; 3; 8; 0; 0;
   15; 1; 1; 1; 0; 0; 0; 0; 0; 0;
   1; 0; 6; 0; 12; 0; 0; 1; 0; 0;
   1; 1; 15; 1; 0; 0; 0; 0; 0; 0;
   2; 0; 1; 0; 2; 0; 0; 0; 0; 0;
   0; 1; 0; 1; 0; 1; 0; 0; 0; 0].

Definition FONT_8X4_WIDTH : list Z :=
  [1; 3; 3; 4; 4; 4; 4; 1;
   3; 3; 4; 4; 2; 4; 2; 4;
   4; 3; 4; 4; 4; 4; 4; 4;
   4; 4; 1; 2; 4; 4; 4; 4;
   4; 4; 4; 4; 4; 4; 4; 4;
   4; 3; 4; 4; 4; 4; 4; 4;
   4; 4; 4; 4; 4; 4; 4; 4;
   4; 4; 4; 3; 4; 3; 4; 5].

Definition font_8x4 : Font := mkFont FONT_8X4 FONT_8X4_WIDTH 8 10.

(** ** font_8x6.h *)
Definition FONT_8X6 : list Z :=
  [0; 0; 0; 0; 0; 0; 0; 0; 0; 0; 0; 0;
   0; 0; 15; 13; 15; 13; 0; 0; 0; 0; 0; 0;
   11; 0; 7; 0; 0; 0; 11; 0; 7; 0; 0; 0;
   4; 1; 15; 7; 4; 1; 15; 7; 4; 1; 0; 0;
   4; 2; 10; 2; 15; 7; 10; 2; 2; 1; 0; 0;
   3; 2; 3; 1; 8; 0; 4; 6; 2; 6; 0; 0;
   6; 3; 9; 4; 5; 5; 2; 2; 0; 5; 0; 0;
   11; 0; 7; 0; 0; 0; 0; 0; 0; 0; 0; 0;
   12; 3; 14; 7; 3; 12; 1; 8; 0; 0; 0; 0;
   1; 8; 3; 12; 14; 7; 12; 3; 0; 0; 0; 0;
   4; 5; 8; 3; 14; 14; 8; 3; 4; 5; 0; 0;
   0; 1; 8; 3; 0; 1; 2; 4; 7; 14; 2; 4;
   8; 5; 8; 3; 0; 0; 0; 0; 0; 0; 0; 0;
   8; 1; 8; 1; 8; 1; 8; 1; 8; 1; 8; 1;
   0; 6; 0; 6; 0; 0; 0; 0; 0; 0; 0; 0;
   0; 6; 0; 3; 8; 1; 12; 0; 6; 0; 3; 0;
   14; 7; 15; 15; 3; 13; 11; 12; 15; 15; 14; 7;
   4; 0; 6; 0; 15; 15; 15; 15; 0; 0; 0; 0;
   6; 12; 7; 14; 3; 15; 11; 13; 15; 12; 6; 12;
   6; 6; 7; 14; 3; 12; 11; 13; 15; 15; 6; 7;
   8; 3; 12; 3; 6; 3; 15; 15; 15; 15; 0; 3;
   15; 6; 15; 14; 11; 12; 11; 13; 11; 15; 3; 7;
   12; 7; 14; 15; 11; 12; 11; 12; 11; 15; 0; 7;
   3; 0; 3; 0; 3; 15; 11; 15; 15; 0; 7; 0;
   6; 7; 15; 15; 11; 12; 11; 12; 15; 15; 6; 7;
   14; 0; 15; 13; 11; 13; 11; 13; 15; 15; 14; 7;
   6; 3; 6; 3; 0; 0; 0; 0; 0; 0; 0; 0;
   6; 11; 6; 7; 0; 0; 0; 0; 0; 0; 0; 0;
   8; 1; 12; 3; 6; 6; 3; 12; 1; 8; 0; 0;
   6; 3; 6; 3; 6; 3; 6; 3; 6; 3; 6; 3;
   1; 8; 3; 12; 6; 6; 12; 3; 8; 1; 0; 0;
   6; 0; 7; 0; 3; 11; 11; 11; 15; 0; 6; 0;
   14; 3; 1; 4; 13; 5; 5; 5; 14; 2; 0; 0;
   14; 15; 15; 15; 3; 3; 3; 3; 15; 15; 14; 15;
   15; 15; 15; 15; 11; 13; 11; 13; 15; 15; 6; 7;
   14; 7; 15; 15; 3; 12; 3; 12; 7; 14; 6; 6;
   15; 15; 15; 15; 3; 12; 3; 12; 15; 15; 14; 7;
   15; 15; 15; 15; 11; 13; 11; 13; 11; 13; 3; 12;
   15; 15; 15; 15; 11; 1; 11; 1; 11; 1; 3; 0;
   14; 7; 15; 15; 3; 12; 11; 13; 11; 15; 10; 7;
   15; 15; 15; 15; 8; 1; 8; 1; 15; 15; 15; 15;
   15; 15; 15; 15; 0; 0; 0; 0; 0; 0; 0; 0;
   0; 6; 0; 14; 0; 12; 15; 15; 15; 7; 0; 0;
   15; 15; 15; 15; 8; 1; 12; 3; 7; 14; 3; 12;
   15; 15; 15; 15; 0; 12; 0; 12; 0; 12; 0; 0;
   15; 15; 14; 15; 12; 0; 12; 0; 14; 15; 15; 15;
   15; 15; 15; 15; 6; 0; 12; 0; 15; 15; 15; 15;
   14; 7; 15; 15; 3; 12; 3; 12; 15; 15; 14; 7;
   15; 15; 15; 15; 3; 3; 3; 3; 15; 3; 14; 1;
   14; 7; 15; 15; 3; 12; 3; 14; 15; 7; 14; 11;
   15; 15; 15; 15; 3; 3; 3; 3; 15; 15; 14; 14;
   14; 12; 15; 13; 11; 13; 11; 13; 11; 15; 3; 7;
   3; 0; 3; 0; 15; 15; 15; 15; 3; 0; 3; 0;
   15; 7; 15; 15; 0; 12; 0; 12; 15; 15; 15; 7;
   15; 3; 15; 7; 0; 12; 0; 12; 15; 7; 15; 3;
   15; 15; 15; 7; 0; 3; 0; 3; 15; 7; 15; 15;
   7; 15; 7; 15; 8; 0; 8; 0; 7; 15; 7; 15;
   15; 0; 15; 1; 0; 15; 0; 15; 15; 1; 15; 0;
   3; 14; 3; 15; 11; 13; 15; 12; 7; 12; 3; 12;
   15; 15; 15; 15; 3; 12; 3; 12; 0; 0; 0; 0;
   6; 0; 12; 0; 8; 1; 0; 3; 0; 6; 0; 12;
   3; 12; 3; 12; 15; 15; 15; 15; 0; 0; 0; 0;
   0; 3; 12; 11; 15; 15; 12; 11; 0; 3; 0; 0;
   0; 12; 0; 12; 0; 12; 0; 12; 0; 12; 0; 0].

Definition FONT_8X6_WIDTH : list Z :=
  [2; 4; 5; 5; 5; 5; 5; 2;
   4; 4; 5; 6; 2; 6; 2; 6;
   6; 4; 6; 6; 6; 6; 6; 6;
   6; 6; 2; 2; 5; 6; 5; 6;
   5; 6; 6; 6; 6; 6; 6; 6;
   6; 2; 5; 6; 5; 6; 6; 6;
   6; 6; 6; 6; 6; 6; 6; 6;
   6; 6; 6; 4; 6; 4; 6; 5].

Definition font_8x6 : Font := mkFont FONT_8X6 FONT_8X6_WIDTH 8 12.

(** ** font_16x8.h *)
Definition FONT_16X8 : list Z :=
  [0; 0; 0; 0; 0; 0; 0; 0; 0; 0; 0; 0; 0; 0; 0; 0;
   0; 0; 0; 0; 0; 0; 0; 0; 0; 0; 0; 0; 0; 0; 0; 0;
   15; 15; 15; 14; 15; 15; 15; 14; 15; 15; 15; 14; 0; 0; 0; 0;
   0; 0; 0; 0; 0; 0; 0; 0; 0; 0; 0; 0; 0; 0; 0; 0;
   8; 3; 0; 0; 8; 3; 0; 0; 0; 0; 0; 0; 8; 3; 0; 0;
   8; 3; 0; 0; 0; 0; 0; 0; 0; 0; 0; 0; 0; 0; 0; 0;
   0; 6; 6; 0; 8; 15; 15; 1; 8; 15; 15; 1; 0; 6; 6; 0;
   0; 6; 6; 0; 8; 15; 15; 1; 8; 15; 15; 1; 0; 6; 6; 0;
   8; 7; 12; 1; 12; 8; 8; 3; 12; 8; 1; 3; 15; 15; 15; 15;
   15; 15; 15; 15; 12; 8; 1; 3; 12; 1; 15; 3; 8; 3; 14; 1;
   0; 14; 8; 1; 0; 10; 12; 1; 0; 14; 14; 0; 0; 0; 7; 0;
   0; 8; 11; 3; 0; 12; 9; 2; 0; 12; 8; 3; 0; 0; 0; 0;
   12; 3; 14; 3; 14; 15; 15; 7; 3; 8; 1; 12; 3; 0; 3; 12;
   7; 0; 6; 14; 14; 0; 15; 7; 0; 0; 15; 3; 0; 0; 0; 2;
   12; 1; 0; 0; 12; 1; 0; 0; 0; 0; 0; 0; 0; 0; 0; 0;
   0; 0; 0; 0; 0; 0; 0; 0; 0; 0; 0; 0; 0; 0; 0; 0;
   8; 15; 15; 1; 12; 15; 15; 3; 6; 0; 0; 6; 3; 0; 0; 12;
   1; 0; 0; 8; 0; 0; 0; 0; 0; 0; 0; 0; 0; 0; 0; 0;
   1; 0; 0; 8; 3; 0; 0; 12; 6; 0; 0; 6; 12; 15; 15; 3;
   8; 15; 15; 1; 0; 0; 0; 0; 0; 0; 0; 0; 0; 0; 0; 0;
   0; 9; 9; 0; 0; 10; 5; 0; 0; 12; 3; 0; 0; 15; 15; 0;
   0; 15; 15; 0; 0; 12; 3; 0; 0; 10; 5; 0; 0; 9; 9; 0;
   0; 8; 1; 0; 0; 8; 1; 0; 0; 14; 7; 0; 0; 14; 7; 0;
   0; 8; 1; 0; 0; 8; 1; 0; 0; 0; 0; 0; 0; 0; 0; 0;
   0; 0; 0; 8; 0; 0; 0; 7; 0; 0; 0; 3; 0; 0; 0; 0;
   0; 0; 0; 0; 0; 0; 0; 0; 0; 0; 0; 0; 0; 0; 0; 0;
   0; 8; 1; 0; 0; 8; 1; 0; 0; 8; 1; 0; 0; 8; 1; 0;
   0; 8; 1; 0; 0; 8; 1; 0; 0; 0; 0; 0; 0; 0; 0; 0;
   0; 0; 0; 12; 0; 0; 0; 12; 0; 0; 0; 0; 0; 0; 0; 0;
   0; 0; 0; 0; 0; 0; 0; 0; 0; 0; 0; 0; 0; 0; 0; 0;
   0; 0; 0; 6; 0; 0; 8; 7; 0; 0; 15; 1; 0; 12; 7; 0;
   8; 15; 0; 0; 12; 3; 0; 0; 7; 0; 0; 0; 3; 0; 0; 0;
   12; 15; 15; 3; 14; 15; 15; 7; 3; 0; 6; 12; 3; 8; 3; 12;
   3; 12; 1; 12; 3; 6; 0; 12; 14; 15; 15; 7; 12; 15; 15; 3;
   0; 1; 0; 8; 8; 1; 0; 12; 12; 1; 0; 12; 14; 15; 15; 15;
   15; 15; 15; 15; 0; 0; 0; 12; 0; 0; 0; 12; 0; 0; 0; 8;
   12; 0; 0; 14; 6; 0; 0; 15; 3; 0; 12; 13; 3; 0; 15; 12;
   3; 12; 3; 12; 3; 15; 0; 12; 14; 3; 0; 12; 12; 0; 0; 12;
   12; 0; 0; 3; 14; 0; 0; 7; 3; 0; 0; 12; 3; 8; 1; 12;
   3; 8; 1; 12; 3; 12; 3; 12; 14; 7; 14; 7; 12; 3; 12; 3;
   15; 15; 0; 0; 15; 15; 1; 0; 0; 8; 1; 0; 0; 8; 1; 0;
   0; 8; 1; 0; 0; 8; 1; 0; 15; 15; 15; 15; 15; 15; 15; 15;
   15; 15; 0; 12; 15; 15; 0; 12; 3; 12; 0; 12; 3; 12; 0; 12;
   3; 12; 0; 12; 3; 12; 0; 12; 3; 8; 15; 7; 3; 0; 15; 3;
   8; 15; 15; 3; 12; 15; 15; 7; 14; 8; 1; 12; 7; 8; 1; 12;
   3; 8; 1; 12; 3; 8; 1; 12; 3; 0; 15; 7; 3; 0; 14; 3;
   3; 0; 0; 12; 3; 0; 0; 15; 3; 0; 12; 3; 3; 0; 15; 0;
   3; 12; 3; 0; 3; 15; 0; 0; 15; 3; 0; 0; 14; 0; 0; 0;
   12; 3; 14; 3; 14; 7; 15; 7; 3; 12; 1; 12; 3; 12; 1; 12;
   3; 12; 1; 12; 3; 12; 1; 12; 14; 7; 15; 7; 12; 3; 14; 3;
   12; 3; 0; 0; 14; 7; 0; 0; 3; 12; 0; 12; 3; 12; 0; 15;
   3; 12; 12; 3; 3; 12; 15; 0; 14; 15; 3; 0; 12; 15; 0; 0;
   0; 3; 12; 0; 0; 3; 12; 0; 0; 0; 0; 0; 0; 0; 0; 0;
   0; 0; 0; 0; 0; 0; 0; 0; 0; 0; 0; 0; 0; 0; 0; 0;
   0; 0; 0; 4; 0; 3; 12; 6; 8; 7; 14; 3; 8; 7; 14; 1;
   0; 3; 12; 0; 0; 0; 0; 0; 0; 0; 0; 0; 0; 0; 0; 0;
   0; 14; 0; 0; 0; 15; 1; 0; 8; 1; 3; 0; 12; 0; 6; 0;
   6; 0; 12; 0; 3; 0; 8; 1; 0; 0; 0; 0; 0; 0; 0; 0;
   0; 8; 9; 1; 0; 8; 9; 1; 0; 8; 9; 1; 0; 8; 9; 1;
   0; 8; 9; 1; 0; 8; 9; 1; 0; 8; 9; 1; 0; 8; 9; 1;
   3; 0; 8; 1; 6; 0; 12; 0; 12; 0; 6; 0; 8; 1; 3; 0;
   0; 15; 1; 0; 0; 14; 0; 0; 0; 0; 0; 0; 0; 0; 0; 0;
   12; 1; 0; 0; 14; 3; 0; 0; 3; 0; 0; 0; 3; 0; 12; 13;
   3; 0; 14; 13; 15; 8; 3; 0; 14; 15; 1; 0; 0; 7; 0; 0;
   0; 15; 15; 1; 8; 1; 0; 2; 12; 0; 6; 4; 4; 0; 9; 8;
   4; 0; 9; 8; 12; 0; 9; 8; 8; 1; 15; 4; 0; 14; 1; 0;
   8; 15; 15; 15; 12; 15; 15; 15; 6; 0; 3; 0; 3; 0; 3; 0;
   3; 0; 3; 0; 6; 0; 3; 0; 12; 15; 15; 15; 8; 15; 15; 15;
   15; 15; 15; 15; 15; 15; 15; 15; 3; 12; 1; 12; 3; 12; 1; 12;
   3; 12; 1; 12; 3; 12; 1; 12; 14; 7; 15; 15; 12; 3; 14; 7;
   12; 15; 15; 3; 14; 15; 15; 7; 3; 0; 0; 12; 3; 0; 0; 12;
   3; 0; 0; 12; 3; 0; 0; 12; 6; 0; 0; 6; 12; 0; 0; 3;
   15; 15; 15; 15; 15; 15; 15; 15; 3; 0; 0; 12; 3; 0; 0; 12;
   3; 0; 0; 12; 7; 0; 0; 14; 14; 15; 15; 7; 12; 15; 15; 3;
   15; 15; 15; 15; 15; 15; 15; 15; 3; 12; 0; 12; 3; 12; 0; 12;
   3; 12; 0; 12; 3; 12; 0; 12; 3; 0; 0; 12; 3; 0; 0; 12;
   15; 15; 15; 15; 15; 15; 15; 15; 3; 12; 0; 0; 3; 12; 0; 0;
   3; 12; 0; 0; 3; 12; 0; 0; 3; 0; 0; 0; 3; 0; 0; 0;
   12; 15; 15; 3; 14; 15; 15; 7; 3; 0; 0; 12; 3; 0; 0; 12;
   3; 0; 12; 12; 7; 0; 12; 12; 6; 0; 12; 7; 0; 0; 12; 3;
   15; 15; 15; 15; 15; 15; 15; 15; 0; 8; 1; 0; 0; 8; 1; 0;
   0; 8; 1; 0; 0; 8; 1; 0; 15; 15; 15; 15; 15; 15; 15; 15;
   3; 0; 0; 12; 3; 0; 0; 12; 3; 0; 0; 12; 15; 15; 15; 15;
   15; 15; 15; 15; 3; 0; 0; 12; 3; 0; 0; 12; 3; 0; 0; 12;
   3; 0; 0; 6; 3; 0; 0; 14; 3; 0; 0; 12; 15; 15; 15; 15;
   15; 15; 15; 15; 3; 0; 0; 0; 3; 0; 0; 0; 3; 0; 0; 0;
   15; 15; 15; 15; 15; 15; 15; 15; 0; 12; 7; 0; 0; 6; 12; 0;
   8; 3; 8; 1; 12; 0; 0; 3; 6; 0; 0; 6; 3; 0; 0; 12;
   15; 15; 15; 15; 15; 15; 15; 15; 0; 0; 0; 12; 0; 0; 0; 12;
   0; 0; 0; 12; 0; 0; 0; 12; 0; 0; 0; 12; 0; 0; 0; 12;
   15; 15; 15; 15; 15; 15; 15; 15; 6; 0; 0; 0; 12; 0; 0; 0;
   12; 0; 0; 0; 6; 0; 0; 0; 15; 15; 15; 15; 15; 15; 15; 15;
   15; 15; 15; 15; 15; 15; 15; 15; 0; 15; 0; 0; 0; 12; 3; 0;
   0; 0; 15; 0; 0; 0; 12; 3; 15; 15; 15; 15; 15; 15; 15; 15;
   12; 15; 15; 7; 14; 15; 15; 15; 7; 0; 0; 14; 3; 0; 0; 12;
   3; 0; 0; 12; 7; 0; 0; 14; 14; 15; 15; 15; 12; 15; 15; 7;
   15; 15; 15; 15; 15; 15; 15; 15; 3; 8; 1; 0; 3; 8; 1; 0;
   3; 8; 1; 0; 7; 12; 1; 0; 14; 15; 0; 0; 12; 7; 0; 0;
   12; 15; 15; 7; 14; 15; 15; 7; 7; 0; 0; 14; 3; 0; 0; 12;
   3; 0; 0; 13; 7; 0; 0; 6; 14; 15; 15; 7; 12; 15; 15; 8;
   15; 15; 15; 15; 15; 15; 15; 15; 3; 12; 15; 0; 3; 12; 15; 1;
   3; 12; 8; 3; 7; 14; 0; 7; 14; 7; 0; 14; 12; 3; 0; 12;
   12; 1; 0; 3; 6; 3; 0; 6; 3; 6; 0; 12; 3; 12; 0; 12;
   3; 8; 1; 12; 3; 0; 3; 12; 6; 0; 14; 7; 12; 0; 12; 3;
   3; 0; 0; 0; 3; 0; 0; 0; 3; 0; 0; 0; 15; 15; 15; 15;
   15; 15; 15; 15; 3; 0; 0; 0; 3; 0; 0; 0; 3; 0; 0; 0;
   15; 15; 15; 3; 15; 15; 15; 7; 0; 0; 0; 14; 0; 0; 0; 12;
   0; 0; 0; 12; 0; 0; 0; 14; 15; 15; 15; 7; 15; 15; 15; 3;
   15; 15; 15; 1; 15; 15; 15; 3; 0; 0; 14; 7; 0; 0; 0; 14;
   0; 0; 0; 14; 0; 0; 14; 7; 15; 15; 15; 3; 15; 15; 15; 1;
   15; 15; 15; 15; 15; 15; 15; 15; 0; 0; 0; 6; 0; 12; 15; 3;
   0; 12; 15; 3; 0; 0; 0; 6; 15; 15; 15; 15; 15; 15; 15; 15;
   15; 0; 0; 14; 15; 15; 12; 15; 0; 15; 12; 3; 0; 8; 7; 0;
   0; 8; 7; 0; 0; 15; 12; 3; 15; 15; 12; 15; 15; 0; 0; 14;
   7; 0; 0; 0; 15; 1; 0; 0; 8; 7; 0; 0; 0; 14; 15; 15;
   0; 14; 15; 15; 8; 7; 0; 0; 15; 1; 0; 0; 7; 0; 0; 0;
   3; 0; 0; 14; 3; 0; 0; 15; 3; 0; 12; 13; 3; 0; 15; 12;
   3; 12; 3; 12; 3; 15; 0; 12; 15; 3; 0; 12; 15; 0; 0; 12;
   15; 15; 15; 15; 15; 15; 15; 15; 3; 0; 0; 12; 3; 0; 0; 12;
   3; 0; 0; 12; 0; 0; 0; 0; 0; 0; 0; 0; 0; 0; 0; 0;
   3; 0; 0; 0; 7; 0; 0; 0; 12; 3; 0; 0; 8; 15; 0; 0;
   0; 12; 7; 0; 0; 0; 15; 1; 0; 0; 8; 7; 0; 0; 0; 6;
   3; 0; 0; 12; 3; 0; 0; 12; 3; 0; 0; 12; 15; 15; 15; 15;
   15; 15; 15; 15; 0; 0; 0; 0; 0; 0; 0; 0; 0; 0; 0; 0;
   8; 0; 0; 0; 12; 0; 0; 0; 6; 0; 0; 0; 3; 0; 0; 0;
   6; 0; 0; 0; 12; 0; 0; 0; 8; 0; 0; 0; 0; 0; 0; 0;
   0; 0; 0; 12; 0; 0; 0; 12; 0; 0; 0; 12; 0; 0; 0; 12;
   0; 0; 0; 12; 0; 0; 0; 12; 0; 0; 0; 12; 0; 0; 0; 12].

Definition FONT_16X8_WIDTH : list Z :=
  [8; 3; 5; 8; 8; 7; 8; 2;
   5; 5; 8; 6; 3; 6; 2; 8;
   8; 8; 8; 8; 8; 8; 8; 8;
   8; 8; 2; 5; 6; 8; 6; 8;
   8; 8; 8; 8; 8; 8; 8; 8;
   8; 8; 8; 8; 8; 8; 8; 8;
   8; 8; 8; 8; 8; 8; 8; 8;
   8; 8; 8; 5; 8; 5; 7; 8].

Definition font_16x8 : Font := mkFont FONT_16X8 FONT_16X8_WIDTH 16 32.

(** ** images.h *)
Definition IMG_MAIL : Image := mkImage
  [15; 15; 3; 8; 5; 8; 9; 8; 1; 9; 1; 10; 1; 10; 1; 9;
   9; 8; 5; 8; 3; 8; 15; 15]
  12 8.

Definition IMG_FB : Image := mkImage
  [12; 15; 2; 0; 1; 0; 1; 0; 1; 2; 1; 15; 9; 2; 9; 0]
  8 8.

Definition IMG_PHONE : Image := mkImage
  [0; 4; 0; 14; 15; 7; 3; 0; 3; 0; 3; 2; 3; 7; 15; 3]
  8 8.

Definition IMG_MUSIC : Image := mkImage
  [0; 4; 0; 14; 15; 7; 3; 0; 3; 0; 3; 2; 3; 7; 15; 3]
  8 8.

Definition IMG_MUSICNOTE : Image := mkImage
  [0; 2; 0; 7; 15; 3; 2; 0]
  4 7.

Definition IMG_HEART : Image := mkImage
  [14; 0; 15; 1; 15; 3; 15; 7; 14; 15; 15; 7; 15; 3; 15; 1;
   14; 0]
  9 8.

Definition IMG_SPEAKER_A : Image := mkImage
  [8; 1; 8; 1; 12; 3; 2; 4; 5; 10; 8; 1]
  6 8.

Definition IMG_SPEAKER_B : Image := mkImage
  [8; 1; 8; 1; 12; 3; 2; 4; 13; 11; 0; 0]
  6 8.

Definition IMG_SMILEY : Image := mkImage
  [12; 15; 0; 2; 0; 1; 1; 4; 2; 13; 9; 2; 1; 8; 2; 13;
   9; 2; 1; 4; 2; 2; 0; 1; 12; 15; 0]
  9 10.

Definition IMG_WINK : Image := mkImage
  [12; 15; 0; 2; 0; 1; 1; 0; 2; 13; 1; 2; 1; 8; 2; 1;
   1; 2; 1; 1; 2; 2; 0; 1; 12; 15; 0]
  9 10.

Definition IMG_BIG_HEART : Image := mkImage
  [12; 1; 0; 14; 3; 0; 15; 7; 0; 15; 15; 0; 14; 15; 1; 15;
   15; 0; 15; 7; 0; 14; 3; 0; 12; 1; 0]
  9 10.

Definition IMG_CAT : Image := mkImage
  [15; 15; 0; 6; 0; 1; 2; 1; 2; 2; 8; 2; 2; 12; 2; 2;
   8; 2; 2; 1; 2; 6; 0; 1; 15; 15; 0; 0; 0; 0]
  9 10.

Definition IMG_OWLS : Image := mkImage
  [0; 12; 0; 15; 13; 0; 2; 14; 0; 10; 14; 0; 2; 14; 0; 15;
   13; 0; 0; 12; 0; 15; 13; 0; 2; 14; 0; 10; 14; 0; 2; 14;
   0; 15; 13; 0; 0; 12; 0; 15; 13; 0; 2; 14; 0; 10; 14; 0;
   2; 14; 0; 15; 13; 0; 0; 12; 0]
  19 9.

Definition IMG_8X8 : Image := mkImage
  [15; 15; 15; 15; 15; 15; 15; 15; 15; 15; 15; 15; 15; 15; 15; 15]
  8 8.

Definition IMG_STICKMAN1 : Image := mkImage
  [0; 0; 0; 0; 0; 2; 0; 0; 0; 4; 0; 0; 0; 8; 0; 8;
   14; 8; 0; 14; 5; 9; 0; 1; 1; 15; 15; 0; 5; 9; 0; 1;
   14; 0; 1; 14; 0; 0; 5; 8; 0; 0; 6; 0; 0; 0; 0; 0]
  12 16.

Definition IMG_STICKMAN2 : Image := mkImage
  [0; 4; 0; 0; 0; 8; 0; 0; 0; 8; 0; 0; 0; 8; 0; 8;
   14; 8; 0; 14; 5; 9; 0; 1; 1; 15; 15; 0; 5; 9; 0; 1;
   14; 0; 1; 14; 0; 0; 1; 8; 0; 0; 2; 0; 0; 0; 6; 0]
  12 16.

Definition IMG_STICKMAN3 : Image := mkImage
  [0; 0; 0; 0; 0; 0; 6; 0; 0; 0; 5; 0; 0; 8; 0; 8;
   14; 8; 0; 14; 5; 9; 0; 1; 1; 15; 15; 0; 5; 9; 0; 15;
   14; 0; 1; 8; 0; 0; 1; 0; 0; 8; 0; 0; 0; 4; 0; 0]
  12 16.

Definition IMG_STICKMAN4 : Image := mkImage
  [0; 0; 0; 0; 0; 0; 0; 0; 0; 0; 4; 0; 0; 0; 6; 0;
   14; 8; 1; 8; 5; 9; 0; 15; 1; 15; 15; 0; 5; 9; 0; 15;
   14; 0; 1; 8; 0; 0; 1; 0; 0; 14; 0; 0; 0; 0; 0; 0]
  12 16.

Definition IMG_WAVE1 : Image := mkImage
  [0; 0; 4; 0; 0; 0; 2; 0; 14; 0; 1; 0; 1; 9; 8; 15;
   1; 15; 7; 0; 1; 9; 8; 15; 14; 8; 0; 0; 0; 8; 0; 0;
   0; 8; 0; 0]
  9 16.

Definition IMG_WAVE2 : Image := mkImage
  [0; 0; 4; 0; 0; 0; 2; 0; 14; 0; 1; 0; 1; 9; 8; 15;
   1; 15; 7; 0; 1; 9; 8; 15; 14; 8; 0; 0; 0; 4; 0; 0;
   0; 4; 0; 0]
  9 16.

Definition IMG_WAVE3 : Image := mkImage
  [0; 0; 4; 0; 0; 0; 2; 0; 14; 0; 1; 0; 1; 9; 8; 15;
   1; 15; 7; 0; 1; 9; 8; 15; 14; 4; 0; 0; 0; 4; 0; 0;
   0; 2; 0; 0]
  9 16.

Definition IMG_WAVE4 : Image := mkImage
  [0; 0; 4; 0; 0; 0; 2; 0; 14; 0; 1; 0; 1; 9; 8; 15;
   1; 15; 7; 0; 1; 9; 8; 15; 14; 4; 0; 0; 0; 2; 0; 0;
   0; 1; 0; 0]
  9 16.

Definition IMG_JUMP1 : Image := mkImage
  [0; 0; 4; 0; 0; 0; 2; 0; 14; 0; 1; 0; 1; 9; 8; 15;
   1; 15; 7; 0; 1; 9; 8; 15; 14; 0; 1; 0; 0; 0; 2; 0;
   0; 0; 4; 0]
  9 16.

Definition IMG_JUMP2 : Image := mkImage
  [0; 0; 2; 0; 0; 0; 1; 0; 14; 8; 0; 14; 1; 9; 8; 1;
   1; 15; 7; 0; 1; 9; 8; 1; 14; 8; 0; 14; 0; 0; 1; 0;
   0; 0; 2; 0]
  9 16.

Definition IMG_JUMP3 : Image := mkImage
  [0; 8; 0; 8; 0; 8; 0; 4; 14; 8; 0; 2; 1; 9; 8; 1;
   1; 15; 7; 0; 1; 9; 8; 1; 14; 8; 0; 2; 0; 8; 0; 4;
   0; 8; 0; 8]
  9 16.

Definition IMG_JUMP4 : Image := mkImage
  [0; 1; 0; 0; 0; 2; 0; 1; 14; 4; 0; 2; 1; 9; 8; 3;
   1; 15; 7; 0; 1; 9; 8; 3; 14; 4; 0; 2; 0; 2; 0; 1;
   0; 1; 0; 0]
  9 16.

Definition IMG_UP : Image := mkImage
  [4; 2; 1; 2; 4]
  5 4.

Definition IMG_DOWN : Image := mkImage
  [1; 2; 4; 2; 1]
  5 4.

Definition IMG_ARROW_UP1 : Image := mkImage
  [1; 1; 8; 0; 4; 0; 2; 0; 4; 0; 8; 0; 1; 1]
  7 5.

Definition IMG_ARROW_UP2 : Image := mkImage
  [8; 0; 4; 0; 2; 0; 1; 1; 2; 0; 4; 0; 8; 0]
  7 5.

Definition IMG_ARROW_UP3 : Image := mkImage
  [4; 0; 2; 0; 1; 1; 8; 0; 1; 1; 2; 0; 4; 0]
  7 5.

Definition IMG_ARROW_UP4 : Image := mkImage
  [2; 0; 1; 1; 8; 0; 4; 0; 8; 0; 1; 1; 2; 0]
  7 5.

Definition IMG_ARROW_DOWN1 : Image := mkImage
  [1; 1; 2; 0; 4; 0; 8; 0; 4; 0; 2; 0; 1; 1]
  7 5.

Definition IMG_ARROW_DOWN2 : Image := mkImage
  [2; 0; 4; 0; 8; 0; 1; 1; 8; 0; 4; 0; 2; 0]
  7 5.

Definition IMG_ARROW_DOWN3 : Image := mkImage
  [4; 0; 8; 0; 1; 1; 2; 0; 1; 1; 8; 0; 4; 0]
  7 5.

Definition IMG_ARROW_DOWN4 : Image := mkImage
  [8; 0; 1; 1; 2; 0; 4; 0; 2; 0; 1; 1; 8; 0]
  7 5.

Definition IMG_ARROW2_UP1 : Image := mkImage
  [1; 1; 8; 0; 4; 0; 8; 0; 1; 1]
  5 5.

Definition IMG_ARROW2_UP2 : Image := mkImage
  [8; 0; 4; 0; 2; 0; 4; 0; 8; 0]
  5 5.

Definition IMG_ARROW2_UP3 : Image := mkImage
  [4; 0; 2; 0; 1; 1; 2; 0; 4; 0]
  5 5.

Definition IMG_ARROW2_UP4 : Image := mkImage
  [2; 0; 1; 1; 8; 0; 1; 1; 2; 0]
  5 5.

Definition IMG_ARROW2_DOWN1 : Image := mkImage
  [1; 1; 2; 0; 4; 0; 2; 0; 1; 1]
  5 5.

Definition IMG_ARROW2_DOWN2 : Image := mkImage
  [2; 0; 4; 0; 8; 0; 4; 0; 2; 0]
  5 5.

Definition IMG_ARROW2_DOWN3 : Image := mkImage
  [4; 0; 8; 0; 1; 1; 8; 0; 4; 0]
  5 5.

Definition IMG_ARROW2_DOWN4 : Image := mkImage
  [8; 0; 1; 1; 2; 0; 1; 1; 8; 0]
  5 5.

Definition IMG_CAR1 : Image := mkImage
  [0; 3; 8; 3; 8; 4; 12; 10; 10; 4; 9; 3; 9; 3; 15; 3;
   9; 3; 9; 4; 9; 10; 11; 4; 14; 3; 0; 3]
  14 8.

Definition IMG_CAR2 : Image := mkImage
  [0; 6; 0; 7; 0; 5; 8; 11; 4; 5; 2; 7; 2; 7; 14; 7;
   2; 7; 2; 5; 2; 11; 6; 5; 12; 7; 0; 6]
  14 8.

Definition IMG_BLANK : Image := mkImage
  [0; 0; 0; 0; 0; 0; 0; 0; 0; 0; 0; 0; 0; 0; 0; 0;
   0; 0; 0; 0; 0; 0; 0; 0; 0; 0; 0; 0; 0; 0; 0; 0;
   0; 0; 0; 0; 0; 0; 0; 0; 0; 0; 0; 0; 0; 0; 0; 0;
   0; 0; 0; 0; 0; 0; 0; 0; 0; 0; 0; 0; 0; 0; 0; 0]
  16 16.

Definition images : list Image :=
  [IMG_MAIL; IMG_FB; IMG_PHONE; IMG_MUSIC;
   IMG_MUSICNOTE; IMG_HEART; IMG_SPEAKER_A; IMG_SPEAKER_B;
   IMG_SMILEY; IMG_WINK; IMG_BIG_HEART; IMG_CAT;
   IMG_OWLS; IMG_8X8; IMG_STICKMAN1; IMG_STICKMAN2;
   IMG_STICKMAN3; IMG_STICKMAN4; IMG_WAVE1; IMG_WAVE2;
   IMG_WAVE3; IMG_WAVE4; IMG_JUMP1; IMG_JUMP2;
   IMG_JUMP3; IMG_JUMP4; IMG_UP; IMG_DOWN;
   IMG_ARROW_UP1; IMG_ARROW_UP2; IMG_ARROW_UP3; IMG_ARROW_UP4;
   IMG_ARROW_DOWN1; IMG_ARROW_DOWN2; IMG_ARROW_DOWN3; IMG_ARROW_DOWN4;
   IMG_ARROW2_UP1; IMG_ARROW2_UP2; IMG_ARROW2_UP3; IMG_ARROW2_UP4;
   IMG_ARROW2_DOWN1; IMG_ARROW2_DOWN2; IMG_ARROW2_DOWN3; IMG_ARROW2_DOWN4;
   IMG_CAR1; IMG_CAR2; IMG_BLANK].
