(* ===== verification/Ht1632.v ===== *)
(** * The LED matrix driver: src/ht1632/HT1632.h, src/ht1632/HT1632.cpp,
      src/src/gpio/GpioBurst.h

    The driver keeps three display buffers of 512 four-bit cells and sends them
    to sixteen chained controllers. Every level change goes through [pinWrite],
    which takes the pre-resolved register path when the backend granted one.
    Buffer accesses are checked: [None] is an access outside of a buffer or of
    an image. Memory barriers and setup delays have no effect in the model. *)
From S2P Require Import Prelude CLib Gpio Fonts.

(** ** Constants *)
Definition NUM_OF_BICOLOR_UNITS : Z := 4.
Definition COM_SIZE : Z := 16.
Definition OUT_SIZE : Z := 32 * NUM_OF_BICOLOR_UNITS.
Definition NUM_ACTIVE_CHIPS : Z := OUT_SIZE / 8.
Definition NUM_COLORS : Z := 2.
Definition MAX_BOARDS : Z := NUM_COLORS + 1.
Definition BUFFER_SECONDARY : Z := MAX_BOARDS - 1.
Definition ADDR_SPACE_SIZE : Z := COM_SIZE * OUT_SIZE / 4.
Definition MASK_NEEDS_REWRITING : Z := 16.

Definition TRANSITION_BUFFER_SWAP : Z := 0.
Definition TRANSITION_SAVE : Z := 1.
Definition TRANSITION_SAVE_XOR : Z := 2.
Definition TRANSITION_REMOVE_PIXELS : Z := 3.
Definition TRANSITION_RESTORE : Z := 4.
Definition TRANSITION_RESTORE_OR : Z := 5.
Definition TRANSITION_FADE : Z := 6.

Definition HT1632_ID_CMD : Z := 4.
Definition HT1632_ID_WR : Z := 5.
Definition HT1632_ID_LEN : nat := 3.
Definition HT1632_CMD_SYSDIS : Z := 0x00.
Definition HT1632_CMD_SYSEN : Z := 0x01.
Definition HT1632_CMD_LEDOFF : Z := 0x02.
Definition HT1632_CMD_LEDON : Z := 0x03.
Definition HT1632_CMD_BLOFF : Z := 0x08.
Definition HT1632_CMD_RCCLK : Z := 0x18.
Definition HT1632_CMD_COMS00 : Z := 0x20.
Definition HT1632_CMD_PWM_T : Z := 0xA0.
Definition HT1632_CMD_PWM (lvl : Z) : Z := Z.lor HT1632_CMD_PWM_T (lvl - 1).
Definition HT1632_CMD_LEN : nat := 8.
Definition HT1632_ADDR_LEN : nat := 7.
Definition HT1632_WORD_LEN : nat := 4.

(** The two macros, in C's arithmetic. *)
Definition GET_CHIP_FROM_X_Y (x y : Z) : Z :=
  Z.quot x 16 + (if 7 <? y then 2 else 0) + Z.quot x 32 * 2.
Definition GET_ADDR_FROM_X_Y (x y : Z) : Z :=
  Z.rem x 16 * 2 + Z.quot (Z.rem y 8) 4 + GET_CHIP_FROM_X_Y x y * 32.

(** ** State *)

(** The four lines, and what reaches the hardware: a call of the [Gpio]
    backend, or one store of a mask by the burst path. *)
Inductive line := CS | WR | DATA | CLK.

Inductive ht_event :=
  | Call (op : GpioOperation)
  | Store (mask : Z) (v : GpioValue).

Record HT1632 := mkHT1632 {
  brightness : Z;
  pin_of : line → Z;
  mask_of : line → Z;
  _burstReady : bool;
  _tgtBuffer : Z;
  _globalNeedsRewriting : list bool;
  mem : list (list Z);
}.

Definition no_lines (l : line) : Z := 0.

(** The constructor: no buffer is allocated. *)
Definition HT1632_new : HT1632 :=
  mkHT1632 16 no_lines no_lines false (-1) [false; false; false] [[]; []; []].

Definition set_brightness (b : Z) (h : HT1632) : HT1632 :=
  mkHT1632 b (pin_of h) (mask_of h) (_burstReady h) (_tgtBuffer h)
    (_globalNeedsRewriting h) (mem h).
Definition set_target (t : Z) (h : HT1632) : HT1632 :=
  mkHT1632 (brightness h) (pin_of h) (mask_of h) (_burstReady h) t
    (_globalNeedsRewriting h) (mem h).
Definition set_mem (m : list (list Z)) (h : HT1632) : HT1632 :=
  mkHT1632 (brightness h) (pin_of h) (mask_of h) (_burstReady h) (_tgtBuffer h)
    (_globalNeedsRewriting h) m.
Definition set_rewrite (i : Z) (b : bool) (h : HT1632) : HT1632 :=
  mkHT1632 (brightness h) (pin_of h) (mask_of h) (_burstReady h) (_tgtBuffer h)
    (<[Z.to_nat i := b]> (_globalNeedsRewriting h)) (mem h).

(** A buffer, and checked accesses to a cell or to an image byte. *)
Definition buffer (h : HT1632) (b : Z) : list Z := default [] (mem h !! Z.to_nat b).
Definition set_buffer (b : Z) (l : list Z) (h : HT1632) : HT1632 :=
  set_mem (<[Z.to_nat b := l]> (mem h)) h.

Definition access (l : list Z) (i : Z) : option Z :=
  if 0 <=? i then l !! Z.to_nat i else None.
Definition store (l : list Z) (i v : Z) : option (list Z) :=
  match access l i with Some _ => Some (<[Z.to_nat i := u8 v]> l) | None => None end.

(** [_tgtBuffer > BUFFER_SECONDARY || _tgtBuffer < 0], negated. *)
Definition target_ok (h : HT1632) : bool :=
  negb ((BUFFER_SECONDARY <? _tgtBuffer h) || (_tgtBuffer h <? 0)).
(** The same with [>=]: a buffer that can be rendered. *)
Definition board_ok (h : HT1632) : bool :=
  negb ((BUFFER_SECONDARY <=? _tgtBuffer h) || (_tgtBuffer h <? 0)).

(** ** Lower level: the lines *)

Definition pinWrite (h : HT1632) (l : line) (v : GpioValue) : ht_event :=
  if _burstReady h then Store (mask_of h l) v else Call (op_write (pin_of h l) v).

Definition outputCLK_Pulse (h : HT1632) : list ht_event :=
  [pinWrite h CLK high; pinWrite h CLK low].

(** Data to its level, then one pulse of the write clock. *)
Definition write_bit (h : HT1632) (b : bool) : list ht_event :=
  [pinWrite h DATA (value_of_bool b); pinWrite h WR high; pinWrite h WR low].

(** [writeData]: from bit [len - 1] down. *)
Fixpoint writeData (h : HT1632) (data : Z) (len : nat) : list ht_event :=
  match len with
  | O => []
  | S len =>
      write_bit h (negb (Z.land data (Z.shiftl 1 (Z.of_nat len)) =? 0)) ++ writeData h data len
  end.

(** [writeDataRev]: from bit 0 up. *)
Fixpoint writeDataRev (h : HT1632) (data : Z) (len : nat) : list ht_event :=
  match len with
  | O => []
  | S len =>
      write_bit h (negb (Z.land data 1 =? 0)) ++ writeDataRev h (Z.shiftr data 1) len
  end.

Definition writeSingleBit (h : HT1632) : list ht_event := write_bit h false.

Definition writeCommand (h : HT1632) (data : Z) : list ht_event :=
  writeData h data HT1632_CMD_LEN ++ writeSingleBit h.

Definition pulses (h : HT1632) (n : Z) : list ht_event :=
  concat (replicate (Z.to_nat n) (outputCLK_Pulse h)).

Definition select (h : HT1632) (mask : Z) : list ht_event :=
  if mask <? 0 then pinWrite h CS low :: pulses h NUM_ACTIVE_CHIPS
  else if mask =? 0 then pinWrite h CS high :: pulses h NUM_ACTIVE_CHIPS
  else
    pinWrite h CS high :: pulses h NUM_ACTIVE_CHIPS
    ++ pinWrite h CS low :: outputCLK_Pulse h
    ++ pinWrite h CS high :: pulses h (mask - 1).

(** ** Mid level: buffers and rendering *)

Definition drawTarget (targetBuffer : Z) (h : HT1632) : HT1632 :=
  if (0 <=? targetBuffer) && (targetBuffer <? MAX_BOARDS) then set_target targetBuffer h else h.

Definition clear (h : HT1632) : HT1632 :=
  if target_ok h then
    set_rewrite (_tgtBuffer h) true
      (set_buffer (_tgtBuffer h) (replicate (Z.to_nat ADDR_SPACE_SIZE) 0) h)
  else h.

(** [for (i = 0; i < MAX_BOARDS; ++i) { drawTarget(i); f(); } drawTarget(save)] *)
Definition boards : list Z := [0; 1; 2].

Definition clearAll (h : HT1632) : HT1632 :=
  drawTarget (_tgtBuffer h) (foldl (λ h i, clear (drawTarget i h)) h boards).

(** The session that is open ([nChipOpen]) and what was sent so far. *)
Definition render_cell (h : HT1632) (i : Z) (st : Z * list ht_event)
    : option (Z * list ht_event) :=
  let '(nChipOpen, out) := st in
  let colorOffset := _tgtBuffer h * 32 in
  let global := default false (_globalNeedsRewriting h !! Z.to_nat (_tgtBuffer h)) in
  cell ← access (buffer h (_tgtBuffer h)) i;
  if global || negb (Z.land cell MASK_NEEDS_REWRITING =? 0) then
    let nChip := i / 32 + 1 in
    let open :=
      if nChipOpen =? nChip then []
      else select h nChip ++ writeData h HT1632_ID_WR HT1632_ID_LEN
           ++ writeData h (i mod 32 + colorOffset) HT1632_ADDR_LEN in
    Some (nChip, out ++ open ++ writeDataRev h cell HT1632_WORD_LEN)
  else if nChipOpen =? -1 then Some (nChipOpen, out)
  else Some (-1, out ++ select h 0).

Definition render (h : HT1632) : option (list ht_event * HT1632) :=
  if board_ok h then
    '(nChipOpen, out) ← ofold (render_cell h) (seqZ 0 ADDR_SPACE_SIZE) (-1, select h 0);
    Some (out ++ (if nChipOpen =? -1 then [] else select h 0),
          set_rewrite (_tgtBuffer h) false h)
  else Some ([], h).

Fixpoint render_boards (l : list Z) (h : HT1632) : option (list ht_event * HT1632) :=
  match l with
  | [] => Some ([], h)
  | i :: l =>
      '(o1, h1) ← render (drawTarget i h);
      '(o2, h2) ← render_boards l h1;
      Some (o1 ++ o2, h2)
  end.

Definition renderAll (h : HT1632) : option (list ht_event * HT1632) :=
  '(out, h') ← render_boards boards h;
  Some (out, drawTarget (_tgtBuffer h) h').

Definition chips : list Z := seqZ 1 NUM_ACTIVE_CHIPS.

Definition initialize (h : HT1632) : list ht_event * HT1632 :=
  (select h 0 ++
   (chips ≫= λ i,
      select h i ++ writeData h HT1632_ID_CMD HT1632_ID_LEN
      ++ writeCommand h HT1632_CMD_SYSDIS ++ writeCommand h HT1632_CMD_COMS00
      ++ writeCommand h HT1632_CMD_RCCLK ++ writeCommand h HT1632_CMD_SYSEN
      ++ writeCommand h HT1632_CMD_LEDON ++ writeCommand h (HT1632_CMD_PWM (brightness h))
      ++ writeCommand h HT1632_CMD_BLOFF ++ select h 0),
   mkHT1632 (brightness h) (pin_of h) (mask_of h) (_burstReady h) (_tgtBuffer h)
     [true; true; true] (mem h)).

Fixpoint begin_boards (l : list Z) (h : HT1632) : option (list ht_event * HT1632) :=
  match l with
  | [] => Some ([], h)
  | i :: l =>
      '(o1, h1) ← render (clear (drawTarget i h));
      '(o2, h2) ← begin_boards l h1;
      Some (o1 ++ o2, h2)
  end.

(** [begin]: [burst] is what [acquireBurst] grants (the masks in the order CS,
    WR, DATA, CLK), [garbage] the contents of the fresh blocks. *)
Definition begin (pins : line → Z) (burst : option (line → Z)) (garbage : list Z)
    (h : HT1632) : option (list ht_event * HT1632) :=
  let h1 := mkHT1632 (brightness h) pins (match burst with Some m => m | None => mask_of h end)
              (match burst with Some _ => true | None => _burstReady h end)
              (_tgtBuffer h) (_globalNeedsRewriting h) [garbage; garbage; garbage] in
  let config := [Call (op_configureOutput (pins CS) high);
                 Call (op_configureOutput (pins WR) low);
                 Call (op_configureOutput (pins DATA) low);
                 Call (op_configureOutput (pins CLK) low)] in
  let '(o1, h2) := initialize h1 in
  '(o2, h3) ← begin_boards boards h2;
  Some (config ++ o1 ++ o2, drawTarget 0 h3).

Definition reinit (h : HT1632) : option (list ht_event * HT1632) :=
  let '(o1, h1) := initialize h in
  '(o2, h2) ← render_boards boards h1;
  Some (o1 ++ o2, drawTarget (_tgtBuffer h) h2).

Definition blank (h : HT1632) : list ht_event :=
  select h 0 ++
  (chips ≫= λ i, select h i ++ writeData h HT1632_ID_CMD HT1632_ID_LEN
                 ++ writeCommand h HT1632_CMD_LEDOFF ++ select h 0).

Definition setBrightness (brightnessParam : Z) (h : HT1632) : list ht_event * HT1632 :=
  if (brightnessParam <? 1) || (16 <? brightnessParam) then ([], h)
  else
    let h' := set_brightness brightnessParam h in
    ((chips ≫= λ i, select h' i ++ writeData h' HT1632_ID_CMD HT1632_ID_LEN
                    ++ writeCommand h' (HT1632_CMD_PWM brightnessParam))
     ++ select h' 0, h').

Definition setPixel (loc_x loc_y : Z) (datum : bool) (h : HT1632) : option HT1632 :=
  if negb (target_ok h) then Some h
  else if (loc_x <? 0) || (OUT_SIZE <=? loc_x) || (loc_y <? 0) || (COM_SIZE <=? loc_y) then
    Some h
  else
    let a := GET_ADDR_FROM_X_Y loc_x loc_y in
    let bit := Z.shiftl 1 (Z.rem loc_y 4) in
    cell ← access (buffer h (_tgtBuffer h)) a;
    l ← store (buffer h (_tgtBuffer h)) a
          (Z.lor (if datum then Z.lor cell bit else Z.land cell (Z.lnot bit))
             MASK_NEEDS_REWRITING);
    Some (set_buffer (_tgtBuffer h) l h).

(** ** Drawing *)

(** [(int)ceil((float)height/4.0f)]; the floats are exact for these heights. *)
Definition words_per_column (height : Z) : Z := - ((- height) / 4).

(** The image word of column [i] that the row offset [j] falls in. *)
Definition img_word (img : list Z) (height offset i j : Z) : option Z :=
  access img (words_per_column height * i + Z.quot j 4 + offset).

(** The mask that clips at the bottom, given the rows that are left. *)
Definition bottom_mask (height loc_y left : Z) : Z :=
  let shiftBottom := 4 - left in
  if (4 <=? height - loc_y) || (shiftBottom <=? 0) then 15
  else Z.land (Z.shiftr 15 shiftBottom) 15.

(** [mem[..] = (mem[..] & (~mask) & 0b00001111) | v | MASK_NEEDS_REWRITING] *)
Definition blend (l : list Z) (a mask v : Z) : option (list Z) :=
  cell ← access l a;
  store l a (Z.lor (Z.lor (Z.land (Z.land cell (Z.lnot mask)) 15) v) MASK_NEEDS_REWRITING).

(** One iteration of the row loop: the buffer, [carryover_y], [carryover_valid]. *)
Definition copy_cell (img : list Z) (height offset i loc_x y carryover_num j : Z)
    (st : list Z * Z * bool) : option (list Z * Z * bool) :=
  let '(l, carryover_y, carryover_valid) := st in
  let loc_y := j + y in
  let a := GET_ADDR_FROM_X_Y loc_x loc_y in
  if (loc_y <=? -4) || (COM_SIZE <=? loc_y) then Some st
  else if Z.rem loc_y 4 =? 0 then
    let mask := bottom_mask height loc_y (height - j) in
    w ← img_word img height offset i j;
    l' ← blend l a mask (Z.land w mask);
    Some (l', carryover_y, carryover_valid)
  else
    l' ←
      (if negb carryover_valid then
         if 0 <? loc_y then
           let mask := Z.land (Z.shiftl 15 carryover_num)
                         (bottom_mask height loc_y (height - j)) in
           w ← img_word img height offset i j;
           blend l a mask (Z.land (Z.shiftl w carryover_num) mask)
         else Some l
       else if height <=? j then
         let mask := Z.land (Z.shiftr 15 (4 - carryover_num)) 15 in
         blend l a mask (Z.land (Z.shiftr carryover_y (4 - carryover_num)) mask)
       else
         let mask := bottom_mask height loc_y (height + carryover_num - j) in
         w ← img_word img height offset i j;
         blend l a mask (Z.lor (Z.land (Z.shiftl w carryover_num) mask)
                           (Z.land (Z.shiftr carryover_y (4 - carryover_num)) mask)));
    cy ← (if j <? height then img_word img height offset i j else Some carryover_y);
    Some (l', cy, true).

(** [for (j = 0; j < (carryover_valid ? height + 4 : height); j += 4)] *)
Fixpoint copy_column (fuel : nat) (img : list Z) (height offset i loc_x y carryover_num j : Z)
    (st : list Z * Z * bool) : option (list Z) :=
  let '(l, _, carryover_valid) := st in
  if j <? (if carryover_valid then height + 4 else height) then
    match fuel with
    | O => None
    | S fuel =>
        st' ← copy_cell img height offset i loc_x y carryover_num j st;
        copy_column fuel img height offset i loc_x y carryover_num (j + 4) st'
    end
  else Some l.

(** Fuel for every iteration, and for the test that ends the loop. *)
Definition column_fuel (height : Z) : nat := Z.to_nat (height / 4 + 3).

Definition draw_column (img : list Z) (height x y offset : Z) (i : Z) (l : list Z)
    : option (list Z) :=
  let loc_x := i + x in
  if (loc_x <? 0) || (OUT_SIZE <=? loc_x) then Some l
  else copy_column (column_fuel height) img height offset i loc_x y
         (y - Z.land y (Z.lnot 3)) 0 (l, 0, false).

Definition drawImage (img : list Z) (width height x y offset : Z) (h : HT1632)
    : option HT1632 :=
  if negb (target_ok h) then Some h
  else if (y + height <? 0) || (x + width <? 0) || (COM_SIZE <? y) || (OUT_SIZE <? x) then
    Some h
  else
    l ← ofold (draw_column img height x y offset) (seqZ 0 width) (buffer h (_tgtBuffer h));
    Some (set_buffer (_tgtBuffer h) l h).

(** The glyph of a character; [None] for one that is skipped. *)
Definition glyph (c : ascii) : option Z :=
  let currchar := byte c - 32 in
  let currchar := if (65 <=? currchar) && (currchar <=? 90) then currchar - 32 else currchar in
  if (currchar <? 0) || (64 <=? currchar) then None else Some currchar.

(** The character loop, from the C string that is left. *)
Fixpoint draw_chars (text : string) (curr_x y : Z) (font font_width : list Z)
    (font_height font_glyph_step gutter_space : Z) (h : HT1632) : option HT1632 :=
  match text with
  | EmptyString => Some h
  | String c text =>
      match glyph c with
      | None => draw_chars text curr_x y font font_width font_height font_glyph_step gutter_space h
      | Some currchar =>
          if OUT_SIZE <=? curr_x then Some h
          else
            w ← access font_width currchar;
            h' ←
              (if 0 <=? curr_x + w + gutter_space then
                 h1 ← drawImage font w font_height curr_x y (currchar * font_glyph_step) h;
                 ofold (λ j h, drawImage font 1 font_height (curr_x + w + j) y 0 h)
                   (seqZ 0 gutter_space) h1
               else Some h);
            draw_chars text (curr_x + (w + gutter_space)) y font font_width font_height
              font_glyph_step gutter_space h'
      end
  end.

Definition drawText (text : string) (x y : Z) (font font_width : list Z)
    (font_height font_glyph_step gutter_space : Z) (h : HT1632) : option HT1632 :=
  if (y + font_height <? 0) || (COM_SIZE <=? y) then Some h
  else draw_chars (c_str text) x y font font_width font_height font_glyph_step gutter_space h.

Fixpoint text_width (text : string) (font_width : list Z) (gutter_space wd : Z) : option Z :=
  match text with
  | EmptyString => Some (wd - gutter_space)
  | String c text =>
      match glyph c with
      | None => text_width text font_width gutter_space wd
      | Some currchar =>
          w ← access font_width currchar;
          text_width text font_width gutter_space (wd + (w + gutter_space))
      end
  end.

Definition getTextWidth (text : string) (font_width : list Z) (gutter_space : Z) : option Z :=
  text_width (c_str text) font_width gutter_space 0.

(** ** Transitions *)

Definition bytewise (f : Z → Z → Z) (l k : list Z) : list Z := zip_with (λ a b, u8 (f a b)) l k.

(** [switch (mode)] without [TRANSITION_FADE]. *)
Definition transition_basic (mode : Z) (h : HT1632) : HT1632 :=
  if negb (board_ok h) then h
  else
    let t := _tgtBuffer h in
    let tgt := buffer h t in
    let sec := buffer h BUFFER_SECONDARY in
    if mode =? TRANSITION_BUFFER_SWAP then
      set_rewrite t true (set_buffer BUFFER_SECONDARY tgt (set_buffer t sec h))
    else if mode =? TRANSITION_SAVE then set_buffer BUFFER_SECONDARY tgt h
    else if mode =? TRANSITION_SAVE_XOR then
      set_buffer BUFFER_SECONDARY (bytewise Z.lxor sec tgt) h
    else if mode =? TRANSITION_REMOVE_PIXELS then
      set_buffer BUFFER_SECONDARY (bytewise (λ s p, Z.land s (Z.lnot p)) sec tgt) h
    else if mode =? TRANSITION_RESTORE then set_rewrite t true (set_buffer t sec h)
    else if mode =? TRANSITION_RESTORE_OR then
      set_rewrite t true (set_buffer t (bytewise Z.lor tgt sec) h)
    else h.

Definition fade_steps (levels : list Z) (time : Z) (h : HT1632) : list ht_event * HT1632 :=
  foldl (λ '(out, h) i,
    let '(o, h') := setBrightness i h in (out ++ o ++ [Call (op_delay (u32 time))], h'))
    ([], h) levels.

Definition transition (mode time : Z) (h : HT1632) : option (list ht_event * HT1632) :=
  if negb (board_ok h) then Some ([], h)
  else if mode =? TRANSITION_FADE then
    let brightnessSave := brightness h in
    let time := Z.quot time 32 in
    let '(o1, h1) := fade_steps (reverse (seqZ 1 15)) time h in
    '(o2, h2) ← render (clear h1);
    '(o3, h3) ← render (transition_basic TRANSITION_BUFFER_SWAP h2);
    let '(o4, h4) := fade_steps (seqZ 2 15) time h3 in
    let '(o5, h5) := setBrightness brightnessSave h4 in
    Some (o1 ++ o2 ++ [Call (op_delay (u32 time))] ++ o3 ++ [Call (op_delay (u32 time))] ++ o4 ++ o5, h5)
  else Some ([], transition_basic mode h).

(** ** Geometry: the address macro *)

Definition on_screen (x y : Z) : Prop := 0 <= x < OUT_SIZE ∧ 0 <= y < COM_SIZE.

Lemma addr_eq x y :
  on_screen x y →
  GET_ADDR_FROM_X_Y x y =
  x mod 16 * 2 + y / 4 mod 2 + (x / 16 + 2 * (y / 8) + 2 * (x / 32)) * 32.
Proof.
  unfold on_screen, OUT_SIZE, COM_SIZE, NUM_OF_BICOLOR_UNITS. intros [Hx Hy].
  unfold GET_ADDR_FROM_X_Y, GET_CHIP_FROM_X_Y.
  rewrite !Z.quot_div_nonneg, !Z.rem_mod_nonneg by
    (rewrite ?Z.rem_mod_nonneg by lia; try apply Z.mod_pos_bound; lia).
  destruct (Z.ltb_spec 7 y); Z.div_mod_to_equations; lia.
Qed.

Lemma addr_range x y : on_screen x y → 0 <= GET_ADDR_FROM_X_Y x y < ADDR_SPACE_SIZE.
Proof.
  intros H. rewrite addr_eq by done. change ADDR_SPACE_SIZE with 512.
  unfold on_screen, OUT_SIZE, COM_SIZE, NUM_OF_BICOLOR_UNITS in *. Z.div_mod_to_equations. lia.
Qed.

(** Two points share a cell exactly when they are in one column and one row of
    four. *)
Lemma addr_inj x y x' y' :
  on_screen x y → on_screen x' y' →
  GET_ADDR_FROM_X_Y x y = GET_ADDR_FROM_X_Y x' y' ↔ x = x' ∧ y / 4 = y' / 4.
Proof.
  intros H H'. rewrite !addr_eq by done.
  unfold on_screen, OUT_SIZE, COM_SIZE, NUM_OF_BICOLOR_UNITS in *.
  split; [|intros [<- E]; rewrite E; Z.div_mod_to_equations; lia].
  intros E. destruct H as [Hx Hy], H' as [Hx' Hy'].
  assert (Hsplit : ∀ x, x / 32 = x / 16 / 2) by (intros; by rewrite Z.div_div by lia).
  assert (Hq : ∀ y, y / 4 = 2 * (y / 8) + y / 4 mod 2).
  { intros z. replace (z / 8) with (z / 4 / 2) by (by rewrite Z.div_div by lia).
    apply Z.div_mod. lia. }
  rewrite !Hsplit in E. rewrite (Hq y), (Hq y').
  pose proof (Z.mod_pos_bound x 16). pose proof (Z.mod_pos_bound x' 16).
  pose proof (Z.mod_pos_bound (y / 4) 2). pose proof (Z.mod_pos_bound (y' / 4) 2).
  pose proof (Z.div_mod x 16). pose proof (Z.div_mod x' 16).
  pose proof (Z.div_mod (x / 16) 2). pose proof (Z.div_mod (x' / 16) 2).
  pose proof (Z.mod_pos_bound (x / 16) 2). pose proof (Z.mod_pos_bound (x' / 16) 2).
  assert (0 <= y / 8 <= 1) by (Z.div_mod_to_equations; lia).
  assert (0 <= y' / 8 <= 1) by (Z.div_mod_to_equations; lia).
  lia.
Qed.

(** The pixel of a buffer at a point. *)
Definition pixel (l : list Z) (x y : Z) : bool :=
  match access l (GET_ADDR_FROM_X_Y x y) with
  | Some c => Z.testbit c (y mod 4)
  | None => false
  end.

Definition buffer_ok (l : list Z) : Prop := length l = Z.to_nat ADDR_SPACE_SIZE.

Lemma access_ok l i : buffer_ok l → 0 <= i < ADDR_SPACE_SIZE → is_Some (access l i).
Proof.
  intros Hl Hi. unfold access. destruct (Z.leb_spec 0 i); [|lia].
  apply lookup_lt_is_Some. rewrite Hl. lia.
Qed.

Lemma store_ok l i v :
  is_Some (access l i) →
  ∃ l', store l i v = Some l' ∧ length l' = length l ∧
    ∀ i', access l' i' = if decide (i' = i) then Some (u8 v) else access l i'.
Proof.
  intros [c Hc]. unfold store. rewrite Hc. eexists. split; [done|].
  split; [by rewrite length_insert|]. intros i'. unfold access in *.
  destruct (Z.leb_spec 0 i); [|done]. destruct (Z.leb_spec 0 i').
  - case_decide as E; [subst|].
    + rewrite list_lookup_insert_eq; [done|]. by eapply lookup_lt_Some.
    + rewrite list_lookup_insert_ne; [done|]. lia.
  - case_decide; [lia|done].
Qed.

Lemma blend_some l x y0 mask v :
  buffer_ok l → on_screen x y0 →
  ∃ l', blend l (GET_ADDR_FROM_X_Y x y0) mask v = Some l' ∧ buffer_ok l'.
Proof.
  intros Hl Hs. destruct (access_ok l _ Hl (addr_range _ _ Hs)) as [c Hc].
  unfold blend. rewrite Hc. cbn [mbind option_bind].
  edestruct store_ok as (l' & -> & Hlen & _); [by eexists|].
  exists l'. split; [done|]. unfold buffer_ok in *. congruence.
Qed.

(** What a blend does to every pixel of the screen. *)
Lemma blend_ok l x y0 mask v :
  buffer_ok l → on_screen x y0 →
  (∀ k, 0 <= k < 4 → Z.testbit mask k = false → Z.testbit v k = false) →
  ∃ l', blend l (GET_ADDR_FROM_X_Y x y0) mask v = Some l' ∧ buffer_ok l' ∧
    ∀ x' y', on_screen x' y' →
      pixel l' x' y' =
      if decide (x' = x ∧ y' / 4 = y0 / 4) then
        if Z.testbit mask (y' mod 4) then Z.testbit v (y' mod 4) else pixel l x' y'
      else pixel l x' y'.
Proof.
  intros Hl Hs Hv. destruct (access_ok l _ Hl (addr_range _ _ Hs)) as [c Hc].
  unfold blend. rewrite Hc. cbn [mbind option_bind].
  edestruct store_ok as (l' & -> & Hlen & Hacc); [by eexists|].
  exists l'. split; [done|]. split; [unfold buffer_ok in *; congruence|].
  intros x' y' Hs'. unfold pixel. rewrite Hacc.
  pose proof (addr_inj _ _ _ _ Hs' Hs) as Hinj.
  destruct (decide (GET_ADDR_FROM_X_Y x' y' = GET_ADDR_FROM_X_Y x y0)) as [E|E].
  - rewrite decide_True by tauto. rewrite E, Hc.
    pose proof (Z.mod_pos_bound y' 4 ltac:(lia)) as Hk. set (k := y' mod 4) in *.
    unfold u8. rewrite Z.mod_pow2_bits_low by lia.
    rewrite !Z.lor_spec, !Z.land_spec, Z.lnot_spec by lia.
    change 15 with (Z.ones 4). rewrite Z.ones_spec_low by lia.
    change MASK_NEEDS_REWRITING with (2 ^ 4). rewrite Z.pow2_bits_false by lia.
    specialize (Hv k Hk). destruct (Z.testbit mask k); cbn.
    + by rewrite !andb_false_r, orb_false_r.
    + rewrite Hv by done. by rewrite !andb_true_r, !orb_false_r.
  - rewrite decide_False by tauto. done.
Qed.

(** ** The row loop *)

Lemma land_lnot3 y : y - Z.land y (Z.lnot 3) = y mod 4.
Proof.
  change 3 with (Z.ones 2). rewrite <-Z.ldiff_land.
  rewrite Z.ldiff_ones_r, Z.shiftr_div_pow2, Z.shiftl_mul_pow2 by lia.
  change (2 ^ 2) with 4. pose proof (Z.div_mod y 4). lia.
Qed.

Lemma bottom_mask_bit height loc_y left k :
  0 <= k < 4 → Z.testbit (bottom_mask height loc_y left) k =
  (4 <=? height - loc_y) || (k <? left).
Proof.
  intros Hk. unfold bottom_mask. change 15 with (Z.ones 4).
  destruct (Z.leb_spec 4 (height - loc_y)); cbn [orb]; [by rewrite Z.ones_spec_low by lia|].
  destruct (Z.leb_spec (4 - left) 0).
  - rewrite Z.ones_spec_low by lia. symmetry. apply Z.ltb_lt. lia.
  - rewrite Z.land_spec, Z.shiftr_spec, (Z.ones_spec_low 4 k), andb_true_r by lia.
    destruct (Z.ltb_spec k left).
    + by rewrite Z.ones_spec_low by lia.
    + by rewrite Z.ones_spec_high by lia.
Qed.

Lemma carry_mask_bit c k :
  0 <= k < 4 → 0 <= c < 4 → Z.testbit (Z.land (Z.shiftr 15 (4 - c)) 15) k = (k <? c).
Proof.
  intros Hk Hc. change 15 with (Z.ones 4).
  rewrite Z.land_spec, Z.shiftr_spec, (Z.ones_spec_low 4 k), andb_true_r by lia.
  destruct (Z.ltb_spec k c).
  - by rewrite Z.ones_spec_low by lia.
  - by rewrite Z.ones_spec_high by lia.
Qed.

(** The rows of a column that are drawn when row 0 is at row [y] of the screen:
    the image's own, but for an image of less than four rows those that are
    carried over into the next cell; of the rows that fill up the last word,
    those carried over, and all of them when the image starts so far above
    the screen that the mask does not clip. *)
Definition drawn (height y r : Z) : bool :=
  let rows := 4 * words_per_column height in
  let lost := if (0 <? y) && (height <? 4) then y mod 4 else 0 in
  (0 <=? r) && (r <? rows) &&
  ((r <? height - lost) || (rows - y mod 4 <=? r) || ((y <? 0) && (y <=? height - rows))).

Lemma rows_bound height : height <= 4 * words_per_column height < height + 4.
Proof.
  unfold words_per_column. pose proof (Z.div_mod (- height) 4 ltac:(lia)).
  pose proof (Z.mod_pos_bound (- height) 4 ltac:(lia)). lia.
Qed.

Lemma drawn_true height y r :
  drawn height y r = true ↔
  0 <= r < 4 * words_per_column height ∧
  (r < height - (if (0 <? y) && (height <? 4) then y mod 4 else 0) ∨
   4 * words_per_column height - y mod 4 <= r ∨
   (y < 0 ∧ y <= height - 4 * words_per_column height)).
Proof.
  unfold drawn. rewrite !andb_true_iff, !orb_true_iff, !andb_true_iff.
  rewrite !Z.leb_le, !Z.ltb_lt. tauto.
Qed.

(** Only an image whose height is not a multiple of four, drawn unaligned or
    above the screen, shows more or less than its own rows. *)
Lemma drawn_exact height y r :
  height mod 4 = 0 ∨ (0 <= y ∧ y mod 4 = 0) →
  drawn height y r = (0 <=? r) && (r <? height).
Proof.
  intros Hex. pose proof (rows_bound height) as Hb. apply eq_true_iff_eq.
  rewrite drawn_true, andb_true_iff, Z.leb_le, Z.ltb_lt.
  pose proof (Z.mod_pos_bound y 4 ltac:(lia)) as Hc.
  destruct Hex as [Hh|[Hy Hy0]].
  - pose proof (Z.div_mod height 4 ltac:(lia)).
    destruct (Z.ltb_spec 0 y), (Z.ltb_spec height 4); cbn [andb]; lia.
  - rewrite Hy0. destruct (_ && _); lia.
Qed.

Section column.
Variables (img : list Z) (height offset i loc_x y : Z).
Hypothesis height_nonneg : 0 <= height.
Abbreviation c := (y mod 4).
Abbreviation cell_step := (copy_cell img height offset i loc_x y c).
Abbreviation bound v := (if v : bool then height + 4 else height).

(** A rule for the loop: an invariant every iteration keeps holds at the exit. *)
Lemma copy_column_rule (P : Z → list Z * Z * bool → Prop) st0 :
  (∀ j l cy v, 0 <= j → j mod 4 = 0 → j < bound v → P j (l, cy, v) →
     ∃ st, cell_step j (l, cy, v) = Some st ∧ P (j + 4) st) →
  P 0 st0 →
  ∃ l j cy v, copy_column (column_fuel height) img height offset i loc_x y c 0 st0 = Some l ∧
    P j (l, cy, v) ∧ bound v <= j ∧ 0 <= j ∧ j mod 4 = 0.
Proof.
  intros Hstep HP0.
  assert (∀ fuel j l cy v, 0 <= j → j mod 4 = 0 → height + 4 <= j + 4 * Z.of_nat fuel →
    P j (l, cy, v) →
    ∃ l' j' cy' v', copy_column fuel img height offset i loc_x y c j (l, cy, v) = Some l' ∧
      P j' (l', cy', v') ∧ bound v' <= j' ∧ 0 <= j' ∧ j' mod 4 = 0) as Hloop.
  { induction fuel as [|fuel IH]; intros j l cy v Hj Hm Hf HP; cbn [copy_column];
      destruct (Z.ltb_spec j (bound v)) as [Hlt|Hge].
    - destruct v; lia.
    - by exists l, j, cy, v.
    - destruct (Hstep j l cy v Hj Hm Hlt HP) as ([[l1 cy1] v1] & -> & HP1).
      cbn [mbind option_bind]. apply IH; [lia| |lia|done].
      rewrite <-Z.add_mod_idemp_r, Z.add_0_r by lia. done.
    - by exists l, j, cy, v. }
  destruct st0 as [[l0 cy0] v0]. apply Hloop; [done|done| |done].
  unfold column_fuel. pose proof (Z.div_pos height 4). rewrite Z2Nat.id by lia.
  pose proof (Z.div_mod height 4). pose proof (Z.mod_pos_bound height 4). lia.
Qed.

Hypothesis loc_x_ok : 0 <= loc_x < OUT_SIZE.

Lemma rem4 j : j mod 4 = 0 → (Z.rem (j + y) 4 =? 0) = (c =? 0).
Proof.
  intros Hm. pose proof (Z.quot_rem (j + y) 4 ltac:(lia)).
  pose proof (Z.div_mod y 4 ltac:(lia)). pose proof (Z.div_mod j 4 ltac:(lia)).
  pose proof (Z.rem_bound_abs (j + y) 4 ltac:(lia)). pose proof (Z.mod_pos_bound y 4 ltac:(lia)).
  destruct (Z.eqb_spec (Z.rem (j + y) 4) 0), (Z.eqb_spec c 0); try done; lia.
Qed.

(** Nothing outside of the buffer or of the image is touched. *)
Lemma copy_cell_safe j l cy v :
  (∀ r, 0 <= r < height → is_Some (img_word img height offset i r)) →
  0 <= j → j mod 4 = 0 → j < bound v → buffer_ok l → (v = true → 0 < y + j ∧ c ≠ 0) →
  ∃ l' cy' v', cell_step j (l, cy, v) = Some (l', cy', v') ∧
    buffer_ok l' ∧ (v' = true → 0 < y + (j + 4) ∧ c ≠ 0).
Proof.
  intros Himg Hj Hm Hb Hl Hv. unfold copy_cell. rewrite rem4 by done.
  destruct (Z.leb_spec (j + y) (-4)); cbn [orb];
    [eexists _, _, _; split_and!; [done|done|intros E; specialize (Hv E); lia]|].
  destruct (Z.leb_spec COM_SIZE (j + y)) as [|Hhi];
    [eexists _, _, _; split_and!; [done|done|intros E; specialize (Hv E); lia]|].
  pose proof (Z.div_mod y 4 ltac:(lia)) as Hy. pose proof (Z.div_mod j 4 ltac:(lia)) as Hj4.
  pose proof (Z.mod_pos_bound y 4 ltac:(lia)) as Hc.
  destruct (Z.eqb_spec c 0) as [Hc0|Hc0].
  - assert (on_screen loc_x (j + y)) as Hs by (split; lia).
    assert (Hjh : j < height).
    { destruct v; [by destruct (Hv eq_refl)|lia]. }
    destruct (Himg j ltac:(lia)) as [w ->]. cbn [mbind option_bind].
    destruct (blend_some l loc_x (j + y) (bottom_mask height (j + y) (height - j))
      (Z.land w (bottom_mask height (j + y) (height - j))) Hl Hs) as (l' & -> & Hl').
    eexists _, _, _. split_and!; [done|done|intros E; specialize (Hv E); lia].
  - assert (Hcy : ∃ cy', (if j <? height then img_word img height offset i j else Some cy) = Some cy').
    { destruct (Z.ltb_spec j height); [apply Himg; lia|by eexists]. }
    destruct Hcy as [cy' ->].
    assert (Hgo : ∀ r : option (list Z), (∃ l', r = Some l' ∧ buffer_ok l') →
      ∃ l' cy'' v', (l' ← r; cy ← Some cy'; Some (l', cy, true)) = Some (l', cy'', v') ∧
        buffer_ok l' ∧ (v' = true → 0 < y + (j + 4) ∧ c ≠ 0)).
    { intros r (l' & -> & Hl'). eexists _, _, _. split_and!; [done|done|intros E; lia]. }
    apply Hgo. destruct v; cbn [negb].
    + assert (on_screen loc_x (j + y)) as Hs by (specialize (Hv eq_refl); split; lia).
      destruct (Z.leb_spec height j); [by apply blend_some|].
      destruct (Himg j ltac:(lia)) as [w ->]. cbn [mbind option_bind]. by apply blend_some.
    + destruct (Z.ltb_spec 0 (j + y)); [|by eexists].
      assert (on_screen loc_x (j + y)) as Hs by (split; lia).
      destruct (Himg j ltac:(lia)) as [w ->]. cbn [mbind option_bind]. by apply blend_some.
Qed.

(** *** Exactness *)
Variable W : Z → Z.
Hypothesis img_words : ∀ r, 0 <= r < height → img_word img height offset i r = Some (W (r / 4)).
Hypothesis W_nibble : ∀ k, 0 <= W k < 16.

(** The pixel the column should have at row [y'], over the old buffer [l0]. *)
Definition wanted (l0 : list Z) (y' : Z) : bool :=
  if drawn height y (y' - y) then Z.testbit (W ((y' - y) / 4)) ((y' - y) mod 4)
  else pixel l0 loc_x y'.

(** Rows above [y - c + j] are done, all others untouched. *)
Definition done_to (l0 l : list Z) (j : Z) : Prop :=
  ∀ x' y', on_screen x' y' →
    pixel l x' y' = if decide (x' = loc_x ∧ y' < y - c + j) then wanted l0 y'
                    else pixel l0 x' y'.

Definition column_inv (l0 : list Z) (j : Z) (st : list Z * Z * bool) : Prop :=
  let '(l, cy, v) := st in
  buffer_ok l ∧ done_to l0 l j ∧
  (v = true → 0 < y + j ∧ c ≠ 0 ∧ 4 <= j ∧
     (j - 4 < height → y + j < 20 → cy = W ((j - 4) / 4))) ∧
  (v = false → c ≠ 0 → j = 0 ∨ y + j <= 0 ∨ 16 <= y).

Lemma y_split : y = 4 * (y / 4) + c ∧ 0 <= c < 4.
Proof. split; [apply Z.div_mod; lia|apply Z.mod_pos_bound; lia]. Qed.

(** The cell the iteration works on: rows [y - c + j + k] for [k] in 0..3. *)
Lemma cell_rows j y' :
  j mod 4 = 0 → y' / 4 = (j + y) / 4 ↔ y - c + j <= y' < y - c + j + 4.
Proof.
  intros Hm. pose proof y_split as [Hy Hc]. pose proof (Z.div_mod j 4 ltac:(lia)) as Hj.
  assert ((j + y) / 4 = j / 4 + y / 4) as ->.
  { symmetry. apply Z.div_unique with c; lia. }
  pose proof (Z.div_mod y' 4 ltac:(lia)). pose proof (Z.mod_pos_bound y' 4 ltac:(lia)). lia.
Qed.

Lemma cell_bit j y' :
  j mod 4 = 0 → y - c + j <= y' < y - c + j + 4 → y' mod 4 = y' - (y - c + j).
Proof.
  intros Hm Hr. pose proof y_split as [Hy Hc]. pose proof (Z.div_mod j 4 ltac:(lia)) as Hj.
  symmetry. apply Z.mod_unique with (j / 4 + y / 4); lia.
Qed.

Lemma done_advance l0 l l' j :
  j mod 4 = 0 → done_to l0 l j →
  (∀ x' y', on_screen x' y' →
     pixel l' x' y' = if decide (x' = loc_x ∧ y' / 4 = (j + y) / 4) then wanted l0 y'
                      else pixel l x' y') →
  done_to l0 l' (j + 4).
Proof.
  intros Hm Hd Hn x' y' Hs. rewrite Hn by done. pose proof (cell_rows j y' Hm) as Hr.
  rewrite Hd by done. repeat case_decide; try done; exfalso; lia.
Qed.

Lemma done_skip l0 l j :
  done_to l0 l j → (∀ y', y - c + j <= y' < y - c + j + 4 → ¬ 0 <= y' < COM_SIZE) →
  done_to l0 l (j + 4).
Proof.
  intros Hd Hoff x' y' Hs. rewrite Hd by done. destruct Hs as [_ Hy'].
  repeat case_decide; try done; exfalso; [lia|].
  destruct (decide (y - c + j <= y')); [|lia]. apply (Hoff y'); lia.
Qed.

(** One blend completes the cell, if mask and value are right bit by bit. *)
Lemma done_blend l0 l j mask v :
  buffer_ok l → j mod 4 = 0 → 0 <= j + y < COM_SIZE → done_to l0 l j →
  (∀ k, 0 <= k < 4 → Z.testbit mask k = false → Z.testbit v k = false) →
  (∀ k, 0 <= k < 4 →
     drawn height y (j + k - c) = Z.testbit mask k ∧
     (Z.testbit mask k = true →
        Z.testbit v k = Z.testbit (W ((j + k - c) / 4)) ((j + k - c) mod 4))) →
  ∃ l', blend l (GET_ADDR_FROM_X_Y loc_x (j + y)) mask v = Some l' ∧ buffer_ok l' ∧
    done_to l0 l' (j + 4).
Proof.
  intros Hl Hm Hy Hd Hv Hbits.
  destruct (blend_ok l loc_x (j + y) mask v Hl ltac:(split; done) Hv) as (l' & Hb & Hl' & Hpix).
  exists l'. split; [done|]. split; [done|]. apply (done_advance l0 l); [done|done|].
  intros x' y' Hs. rewrite Hpix by done.
  destruct (decide (x' = loc_x ∧ y' / 4 = (j + y) / 4)) as [[-> Hcell]|]; [|done].
  apply cell_rows in Hcell; [|done]. rewrite (cell_bit j y' Hm Hcell).
  set (k := y' - (y - c + j)) in *. assert (0 <= k < 4) as Hk by lia.
  destruct (Hbits k Hk) as [E Hw]. unfold wanted.
  replace (y' - y) with (j + k - c) by lia. rewrite E.
  destruct (Z.testbit mask k); [by apply Hw|].
  rewrite Hd by done. by rewrite decide_False by lia.
Qed.

(** What is drawn of a cell, by comparing numbers only. *)
Lemma drawn_cell j k (b : bool) :
  (b = true ↔ 0 <= j + k - c < 4 * words_per_column height ∧
    (j + k - c < height - (if (0 <? y) && (height <? 4) then c else 0) ∨
     4 * words_per_column height - c <= j + k - c ∨
     (y < 0 ∧ y <= height - 4 * words_per_column height))) →
  drawn height y (j + k - c) = b.
Proof. intros Hb. apply eq_true_iff_eq. by rewrite drawn_true, Hb. Qed.

Lemma mult4_lt a b : a mod 4 = 0 → b mod 4 = 0 → a < b → a + 4 <= b.
Proof.
  intros Ha Hb. pose proof (Z.div_mod a 4 ltac:(lia)). pose proof (Z.div_mod b 4 ltac:(lia)). lia.
Qed.

(** The word and the bit a row offset stands for. *)
Lemma word_row j k : j mod 4 = 0 → 0 <= k < 4 → (j + k) / 4 = j / 4 ∧ (j + k) mod 4 = k.
Proof.
  intros Hm Hk. pose proof (Z.div_mod j 4 ltac:(lia)). split.
  - symmetry. apply Z.div_unique with k; lia.
  - symmetry. apply Z.mod_unique with (j / 4); lia.
Qed.

Lemma prev_word_row j k :
  j mod 4 = 0 → 0 <= k < 4 → k < c → (j + k - c) / 4 = (j - 4) / 4 ∧ (j + k - c) mod 4 = k + 4 - c.
Proof.
  intros Hm Hk Hc. replace (j + k - c) with (j - 4 + (k + 4 - c)) by lia.
  apply word_row; [|pose proof y_split; lia].
  rewrite <-Zminus_mod_idemp_l, Hm. done.
Qed.

(** The last cell of the image is the one before its rows' end. *)
Lemma last_word j : j mod 4 = 0 → height <= j < height + 4 → j = 4 * words_per_column height.
Proof.
  intros Hm Hj. pose proof (rows_bound height). pose proof (Z.div_mod j 4 ltac:(lia)). lia.
Qed.

Lemma aligned_cell l0 l j :
  c = 0 → buffer_ok l → 0 <= j → j mod 4 = 0 → j < height → 0 <= j + y < COM_SIZE →
  done_to l0 l j →
  let mask := bottom_mask height (j + y) (height - j) in
  ∃ l', blend l (GET_ADDR_FROM_X_Y loc_x (j + y)) mask (Z.land (W (j / 4)) mask) = Some l' ∧
    buffer_ok l' ∧ done_to l0 l' (j + 4).
Proof.
  intros Hc Hl Hj Hm Hjh Hy Hd mask. apply (done_blend l0 l); [done..| |].
  - intros k Hk E. by rewrite Z.land_spec, E, andb_false_r.
  - intros k Hk. split.
    + apply drawn_cell. unfold mask. rewrite bottom_mask_bit, orb_true_iff, Z.leb_le, Z.ltb_lt by done.
      pose proof (rows_bound height). pose proof y_split as [Hy4 _].
      pose proof (Z.div_mod j 4 ltac:(lia)). rewrite Hc.
      destruct (_ && _); lia.
    + intros E. rewrite Z.land_spec, E, andb_true_r. destruct (word_row j k Hm Hk) as [E1 E2].
      by rewrite Hc, Z.sub_0_r, E1, E2.
Qed.

Lemma first_cell l0 l :
  c ≠ 0 → buffer_ok l → 0 < height → 0 <= 0 + y < COM_SIZE → done_to l0 l 0 →
  let mask := Z.land (Z.shiftl 15 c) (bottom_mask height (0 + y) (height - 0)) in
  ∃ l', blend l (GET_ADDR_FROM_X_Y loc_x (0 + y)) mask (Z.land (Z.shiftl (W (0 / 4)) c) mask)
      = Some l' ∧ buffer_ok l' ∧ done_to l0 l' (0 + 4).
Proof.
  intros Hc Hl Hh Hy Hd mask. pose proof y_split as [Hy4 Hcr].
  assert (Hmk : ∀ k, 0 <= k < 4 → Z.testbit mask k =
    (c <=? k) && ((4 <=? height - (0 + y)) || (k <? height - 0))).
  { intros k Hk. unfold mask. rewrite Z.land_spec, Z.shiftl_spec, bottom_mask_bit by lia. f_equal.
    change 15 with (Z.ones 4). destruct (Z.leb_spec c k).
    - by rewrite Z.ones_spec_low by lia.
    - by rewrite Z.testbit_neg_r by lia. }
  apply (done_blend l0 l); [done..| |].
  - intros k Hk E. by rewrite Z.land_spec, E, andb_false_r.
  - intros k Hk. split.
    + apply drawn_cell. rewrite Hmk, andb_true_iff, orb_true_iff, !Z.leb_le, Z.ltb_lt by done.
      pose proof (rows_bound height). destruct (Z.ltb_spec 0 y); [|lia].
      destruct (Z.ltb_spec height 4); cbn [andb]; lia.
    + intros E. rewrite Z.land_spec, E, andb_true_r, Z.shiftl_spec by lia.
      rewrite Hmk, andb_true_iff, Z.leb_le in E by done.
      replace (0 + k - c) with (0 + (k - c)) by lia.
      by destruct (word_row 0 (k - c) eq_refl ltac:(lia)) as [-> ->].
Qed.

Lemma last_cell l0 l j :
  c ≠ 0 → buffer_ok l → 4 <= j → j mod 4 = 0 → height <= j < height + 4 →
  0 <= j + y < COM_SIZE → done_to l0 l j →
  let mask := Z.land (Z.shiftr 15 (4 - c)) 15 in
  ∃ l', blend l (GET_ADDR_FROM_X_Y loc_x (j + y)) mask
      (Z.land (Z.shiftr (W ((j - 4) / 4)) (4 - c)) mask) = Some l' ∧
    buffer_ok l' ∧ done_to l0 l' (j + 4).
Proof.
  intros Hc Hl Hj Hm Hjh Hy Hd mask. pose proof y_split as [_ Hcr].
  pose proof (last_word j Hm Hjh) as Hlast.
  apply (done_blend l0 l); [done..| |].
  - intros k Hk E. by rewrite Z.land_spec, E, andb_false_r.
  - intros k Hk. unfold mask. rewrite carry_mask_bit by done. split.
    + apply drawn_cell. rewrite Z.ltb_lt, <-Hlast. destruct (_ && _); lia.
    + intros E%Z.ltb_lt. rewrite Z.land_spec, Z.shiftr_spec, carry_mask_bit by lia.
      destruct (prev_word_row j k Hm Hk ltac:(done)) as [-> ->].
      rewrite (proj2 (Z.ltb_lt k c) E), andb_true_r. f_equal. lia.
Qed.

Lemma middle_cell l0 l j :
  c ≠ 0 → buffer_ok l → 4 <= j → j mod 4 = 0 → j < height →
  0 <= j + y < COM_SIZE → done_to l0 l j →
  let mask := bottom_mask height (j + y) (height + c - j) in
  ∃ l', blend l (GET_ADDR_FROM_X_Y loc_x (j + y)) mask
      (Z.lor (Z.land (Z.shiftl (W (j / 4)) c) mask)
             (Z.land (Z.shiftr (W ((j - 4) / 4)) (4 - c)) mask)) = Some l' ∧
    buffer_ok l' ∧ done_to l0 l' (j + 4).
Proof.
  intros Hc Hl Hj Hm Hjh Hy Hd mask. pose proof y_split as [Hy4 Hcr].
  apply (done_blend l0 l); [done..| |].
  - intros k Hk E. by rewrite Z.lor_spec, !Z.land_spec, E, !andb_false_r.
  - intros k Hk. split.
    + apply drawn_cell. unfold mask. rewrite bottom_mask_bit, orb_true_iff, Z.leb_le, Z.ltb_lt by done.
      pose proof (rows_bound height). pose proof (Z.div_mod j 4 ltac:(lia)).
      destruct (Z.ltb_spec height 4); [lia|]. rewrite andb_false_r. lia.
    + intros E. rewrite Z.lor_spec, !Z.land_spec, Z.shiftl_spec, Z.shiftr_spec, E, !andb_true_r by lia.
      destruct (Z.ltb_spec k c).
      * rewrite Z.testbit_neg_r by lia. cbn.
        destruct (prev_word_row j k Hm Hk ltac:(done)) as [-> ->]. f_equal. lia.
      * rewrite (testbit_small (W ((j - 4) / 4)) 4) by (try apply W_nibble; lia).
        rewrite orb_false_r. replace (j + k - c) with (j + (k - c)) by lia.
        by destruct (word_row j (k - c) Hm ltac:(lia)) as [-> ->].
Qed.

Lemma copy_cell_exact l0 j l cy v :
  0 <= j → j mod 4 = 0 → j < bound v → column_inv l0 j (l, cy, v) →
  ∃ st, cell_step j (l, cy, v) = Some st ∧ column_inv l0 (j + 4) st.
Proof.
  intros Hj Hm Hb (Hl & Hd & Hv1 & Hv0). pose proof y_split as [Hy Hcr].
  pose proof (Z.div_mod j 4 ltac:(lia)) as Hj4.
  unfold copy_cell. rewrite rem4 by done.
  destruct ((j + y <=? -4) || (COM_SIZE <=? j + y)) eqn:Hskip.
  { apply orb_true_iff in Hskip. rewrite !Z.leb_le in Hskip. unfold COM_SIZE in *.
    eexists. split; [done|]. split_and!; [done| | |].
    - apply done_skip; [done|]. unfold COM_SIZE. intros y' Hr. lia.
    - intros E. specialize (Hv1 E) as (? & ? & ? & _). split_and!; lia.
    - intros E Hc. specialize (Hv0 E Hc). lia. }
  apply orb_false_iff in Hskip. rewrite !Z.leb_gt in Hskip. destruct Hskip as [Hlo Hhi].
  unfold COM_SIZE in Hhi.
  destruct (Z.eqb_spec c 0) as [Hc|Hc].
  { assert (v = false) as -> by (destruct v; [by destruct (Hv1 eq_refl) as (_ & ? & _)|done]).
    rewrite img_words by lia. cbn [mbind option_bind].
    destruct (aligned_cell l0 l j Hc Hl Hj Hm Hb ltac:(unfold COM_SIZE; lia) Hd)
      as (l' & -> & Hl' & Hd').
    eexists. split; [done|]. by split_and!. }
  assert (Hnext : ∀ l' cy', buffer_ok l' → done_to l0 l' (j + 4) → 0 < y + (j + 4) →
    (if j <? height then img_word img height offset i j else Some cy) = Some cy' →
    column_inv l0 (j + 4) (l', cy', true)).
  { intros l' cy' Hl' Hd' Hpos Hcy. split_and!; try done. intros _. split_and!; try lia.
    intros Hlt _. replace (j + 4 - 4) with j in * by lia.
    destruct (Z.ltb_spec j height); [|lia]. rewrite img_words in Hcy by lia. by simplify_eq. }
  assert (Hcy' : ∃ cy', (if j <? height then img_word img height offset i j else Some cy) = Some cy').
  { destruct (Z.ltb_spec j height); [rewrite img_words by lia|]; by eexists. }
  destruct Hcy' as [cy' Hcy']. rewrite Hcy'. destruct v; cbn [negb].
  - destruct (Hv1 eq_refl) as (Hpos & _ & Hj4' & Hcy). destruct (Z.leb_spec height j).
    + rewrite Hcy by lia.
      destruct (last_cell l0 l j Hc Hl Hj4' Hm ltac:(lia) ltac:(unfold COM_SIZE; lia) Hd)
        as (l' & -> & Hl' & Hd'). cbn [mbind option_bind]. eexists. split; [done|].
      apply Hnext; done || lia.
    + rewrite Hcy, img_words by lia. cbn [mbind option_bind].
      destruct (middle_cell l0 l j Hc Hl Hj4' Hm ltac:(lia) ltac:(unfold COM_SIZE; lia) Hd)
        as (l' & -> & Hl' & Hd'). cbn [mbind option_bind]. eexists. split; [done|].
      apply Hnext; done || lia.
  - destruct (Z.ltb_spec 0 (j + y)).
    + assert (j = 0) as -> by (specialize (Hv0 eq_refl Hc); lia).
      rewrite img_words by lia. cbn [mbind option_bind].
      destruct (first_cell l0 l Hc Hl Hb ltac:(unfold COM_SIZE; lia) Hd)
        as (l' & -> & Hl' & Hd'). cbn [mbind option_bind]. eexists. split; [done|].
      apply Hnext; done || lia.
    + cbn [mbind option_bind]. eexists. split; [done|]. apply Hnext; [done| |lia|done].
      apply done_skip; [done|]. unfold COM_SIZE. intros y' Hr. lia.
Qed.

(** The whole column: every row of the screen is as wanted. *)
Lemma copy_column_exact l0 :
  buffer_ok l0 →
  ∃ l, copy_column (column_fuel height) img height offset i loc_x y c 0 (l0, 0, false) = Some l ∧
    buffer_ok l ∧ ∀ x' y', on_screen x' y' →
      pixel l x' y' = if decide (x' = loc_x) then wanted l0 y' else pixel l0 x' y'.
Proof.
  intros Hl0.
  destruct (copy_column_rule (column_inv l0) (l0, 0, false))
    as (l & j & cy & v & Hc & (Hl & Hd & Hv1 & Hv0) & Hb & Hj & Hm).
  - intros j l cy v. apply copy_cell_exact.
  - split_and!; [done| |done|by left]. intros x' y' Hs.
    destruct (decide (x' = loc_x ∧ y' < y - c + 0)) as [[-> Hlt]|]; [|done].
    unfold wanted. pose proof y_split. destruct (drawn _ _ _) eqn:E; [|done].
    apply drawn_true in E. lia.
  - exists l. split; [done|]. split; [done|]. intros x' y' Hs. rewrite Hd by done.
    destruct (decide (x' = loc_x)) as [->|]; [|by rewrite decide_False by tauto].
    case_decide as E; [done|]. unfold wanted.
    destruct (drawn _ _ _) eqn:Ed; [|done]. apply drawn_true in Ed as [Ed _].
    pose proof y_split. destruct Hs as [_ Hs]. unfold COM_SIZE in Hs.
    assert (¬ y' < y - c + j) by tauto. pose proof (rows_bound height).
    pose proof (Z.div_mod j 4 ltac:(lia)).
    destruct v; [lia|]. destruct (decide (c = 0)); [lia|].
    specialize (Hv0 eq_refl ltac:(done)). lia.
Qed.
End column.

(** ** Whole images *)

(** The words of an image at [offset] are inside of the array, and nibbles. *)
Definition image_ok (img : list Z) (width height offset : Z) : Prop :=
  0 <= width ∧ 0 <= height ∧ 0 <= offset ∧
  offset + words_per_column height * width <= Z.of_nat (length img) ∧
  Forall (λ w, 0 <= w < 16) img.

(** The pixel of an image in column [i] and row [r]. *)
Definition image_pixel (img : list Z) (height offset i r : Z) : bool :=
  Z.testbit (default 0 (access img (words_per_column height * i + r / 4 + offset))) (r mod 4).

Record mem_ok (h : HT1632) : Prop := {
  mem_len : length (mem h) = 3%nat;
  mem_buffers : Forall buffer_ok (mem h);
}.

Lemma words_bound height r : 0 <= r < height → 0 <= r / 4 < words_per_column height.
Proof.
  intros Hr. unfold words_per_column. pose proof (Z.div_pos r 4).
  pose proof (Z.div_mod (- height) 4 ltac:(lia)). pose proof (Z.mod_pos_bound (- height) 4 ltac:(lia)).
  pose proof (Z.div_mod r 4 ltac:(lia)). pose proof (Z.mod_pos_bound r 4 ltac:(lia)). lia.
Qed.

Lemma image_word_ok img width height offset i r :
  image_ok img width height offset → 0 <= i < width → 0 <= r < height →
  img_word img height offset i r =
  Some (default 0 (access img (words_per_column height * i + r / 4 + offset))).
Proof.
  intros (Hw & Hh & Ho & Hlen & Hf) Hi Hr. unfold img_word. rewrite Z.quot_div_nonneg by lia.
  pose proof (words_bound height r Hr) as Hk. unfold access.
  assert (0 <= words_per_column height * i) by nia.
  assert (words_per_column height * i + words_per_column height
          <= words_per_column height * width) by nia.
  destruct (Z.leb_spec 0 (words_per_column height * i + r / 4 + offset)); [|lia].
  destruct (lookup_lt_is_Some_2 img (Z.to_nat (words_per_column height * i + r / 4 + offset)))
    as [w ->]; [lia|done].
Qed.

Lemma image_nibble img width height offset k :
  image_ok img width height offset → 0 <= default 0 (access img k) < 16.
Proof.
  intros (_ & _ & _ & _ & Hf). unfold access. destruct (0 <=? k); [|done].
  destruct (img !! Z.to_nat k) as [w|] eqn:E; [|done]. by eapply Forall_lookup_1 in Hf.
Qed.

Lemma buffer_mem_ok h t : mem_ok h → 0 <= t <= BUFFER_SECONDARY → buffer_ok (buffer h t).
Proof.
  intros [Hl Hf] Ht. unfold buffer, BUFFER_SECONDARY, MAX_BOARDS, NUM_COLORS in *.
  destruct (lookup_lt_is_Some_2 (mem h) (Z.to_nat t)) as [l E]; [lia|]. rewrite E. simpl.
  by eapply Forall_lookup_1 in Hf.
Qed.

Lemma set_buffer_ok h t l : mem_ok h → buffer_ok l → mem_ok (set_buffer t l h).
Proof.
  intros [Hl Hf] Hb. constructor; simpl; [by rewrite length_insert|by apply Forall_insert].
Qed.

Lemma buffer_set h t t' l :
  mem_ok h → 0 <= t <= BUFFER_SECONDARY → 0 <= t' →
  buffer (set_buffer t l h) t' = if decide (t' = t) then l else buffer h t'.
Proof.
  intros [Hl _] Ht Ht'. unfold buffer, set_buffer, BUFFER_SECONDARY, MAX_BOARDS, NUM_COLORS in *.
  simpl. case_decide as E; [subst|].
  - by rewrite list_lookup_insert_eq by lia.
  - by rewrite list_lookup_insert_ne by lia.
Qed.

Lemma target_range h : target_ok h = true → 0 <= _tgtBuffer h <= BUFFER_SECONDARY.
Proof.
  unfold target_ok. intros E. apply negb_true_iff, orb_false_iff in E as [E1 E2].
  apply Z.ltb_ge in E1, E2. lia.
Qed.

Lemma draw_column_safe img width height x y offset i l :
  image_ok img width height offset → 0 <= i < width → buffer_ok l →
  ∃ l', draw_column img height x y offset i l = Some l' ∧ buffer_ok l'.
Proof.
  intros Himg Hi Hl. unfold draw_column. rewrite land_lnot3.
  destruct ((i + x <? 0) || (OUT_SIZE <=? i + x)) eqn:E; [by eexists|].
  apply orb_false_iff in E. rewrite Z.ltb_ge, Z.leb_gt in E.
  pose proof Himg as (_ & Hh & _).
  destruct (copy_column_rule img height offset i (i + x) y Hh
    (λ j st, buffer_ok st.1.1 ∧ (st.2 = true → 0 < y + j ∧ y mod 4 ≠ 0)) (l, 0, false))
    as (l' & j & cy & v & Hc & (Hl' & _) & _); [|by split|by eexists].
  intros j l1 cy v Hj Hm Hb [Hl1 Hv].
  destruct (copy_cell_safe img height offset i (i + x) y ltac:(lia) j l1 cy v)
    as (l2 & cy2 & v2 & E2 & H2 & H2'); try done.
  { intros r Hr. rewrite (image_word_ok img width) by done. by eexists. }
  by exists (l2, cy2, v2).
Qed.

(** Drawing never leaves the buffer or the image, whatever the position. *)
Lemma drawImage_safe img width height x y offset h :
  image_ok img width height offset → mem_ok h →
  ∃ h', drawImage img width height x y offset h = Some h' ∧ mem_ok h' ∧
    _tgtBuffer h' = _tgtBuffer h.
Proof.
  intros Himg Hmem. unfold drawImage. destruct (target_ok h) eqn:Ht; cbn [negb]; [|by eexists].
  destruct (_ || _ || _ || _); [by eexists|].
  destruct (ofold_inv buffer_ok (draw_column img height x y offset) (seqZ 0 width)
    (buffer h (_tgtBuffer h))) as (l & -> & Hl).
  - apply buffer_mem_ok; [done|by apply target_range].
  - intros i l Hi%elem_of_seqZ Hl. eapply draw_column_safe; [done|lia|done].
  - cbn. eexists. split; [done|]. split; [by apply set_buffer_ok|done].
Qed.

(** The row loop over all columns. *)
Lemma draw_columns_exact img width height x y offset l0 (n : nat) :
  image_ok img width height offset → Z.of_nat n <= width → buffer_ok l0 →
  ∃ l, ofold (draw_column img height x y offset) (seqZ 0 (Z.of_nat n)) l0 = Some l ∧
    buffer_ok l ∧ ∀ x' y', on_screen x' y' →
      pixel l x' y' =
      if (x <=? x') && (x' <? x + Z.of_nat n) && drawn height y (y' - y)
      then image_pixel img height offset (x' - x) (y' - y) else pixel l0 x' y'.
Proof.
  intros Himg Hn Hl0. induction n as [|n IH].
  - exists l0. split; [done|]. split; [done|]. intros x' y' _.
    destruct (Z.leb_spec x x'), (Z.ltb_spec x' (x + Z.of_nat 0)); try lia; done.
  - destruct IH as (l & Hf & Hl & Hpix); [lia|].
    rewrite seqZ_S, ofold_app, Hf. cbn [mbind option_bind ofold].
    rewrite Z.add_0_l. unfold draw_column at 1. rewrite land_lnot3.
    destruct ((Z.of_nat n + x <? 0) || (OUT_SIZE <=? Z.of_nat n + x)) eqn:E.
    + cbn [mbind option_bind]. exists l. split; [done|]. split; [done|].
      intros x' y' Hs. rewrite Hpix by done. apply orb_true_iff in E.
      rewrite Z.ltb_lt, Z.leb_le in E. destruct Hs as [Hs _].
      replace (x' <? x + Z.of_nat (S n)) with (x' <? x + Z.of_nat n); [done|].
      destruct (Z.ltb_spec x' (x + Z.of_nat n)), (Z.ltb_spec x' (x + Z.of_nat (S n))); lia.
    + apply orb_false_iff in E. rewrite Z.ltb_ge, Z.leb_gt in E.
      pose proof Himg as (_ & Hh & _).
      destruct (copy_column_exact img height offset (Z.of_nat n) (Z.of_nat n + x) y Hh ltac:(lia)
        (λ k, default 0 (access img (words_per_column height * Z.of_nat n + k + offset)))
        (λ r Hr, image_word_ok img width height offset (Z.of_nat n) r Himg ltac:(lia) Hr)
        (λ k, image_nibble img width height offset _ Himg) l Hl) as (l' & -> & Hl' & Hpix').
      cbn [mbind option_bind]. exists l'. split; [done|]. split; [done|].
      intros x' y' Hs. rewrite Hpix' by done. unfold wanted.
      destruct (decide (x' = Z.of_nat n + x)) as [->|Hne]; rewrite Hpix by done.
      * destruct (Z.leb_spec x (Z.of_nat n + x)); [|lia].
        destruct (Z.ltb_spec (Z.of_nat n + x) (x + Z.of_nat n)); [lia|].
        destruct (Z.ltb_spec (Z.of_nat n + x) (x + Z.of_nat (S n))); [|lia]. cbn [andb].
        unfold image_pixel. replace (Z.of_nat n + x - x) with (Z.of_nat n) by lia. done.
      * replace (x' <? x + Z.of_nat (S n)) with (x' <? x + Z.of_nat n); [done|].
        destruct (Z.ltb_spec x' (x + Z.of_nat n)), (Z.ltb_spec x' (x + Z.of_nat (S n))); lia.
Qed.

(** *** Painting

    What an operation does to the target: the pixels it sets, over the old ones. *)
Definition Paint : Type := Z → Z → option bool.

Definition nothing : Paint := λ _ _, None.
Definition over (p q : Paint) : Paint := λ x y, match p x y with Some b => Some b | None => q x y end.

Record paints (p : Paint) (h h' : HT1632) : Prop := {
  paints_ok : mem_ok h';
  paints_target : _tgtBuffer h' = _tgtBuffer h;
  paints_pixel x y : on_screen x y →
    pixel (buffer h' (_tgtBuffer h)) x y = default (pixel (buffer h (_tgtBuffer h)) x y) (p x y);
  paints_other t : 0 <= t → t ≠ _tgtBuffer h → buffer h' t = buffer h t;
}.

Lemma paints_nothing p h :
  mem_ok h → (∀ x y, on_screen x y → p x y = None) → paints p h h.
Proof. intros Hok Hp. constructor; [done..| |done]. intros x y Hs. by rewrite Hp. Qed.

Lemma paints_over p q h h1 h2 : paints p h h1 → paints q h1 h2 → paints (over q p) h h2.
Proof.
  intros [H1 H2 H3 H4] [G1 G2 G3 G4]. rewrite H2 in G2, G3, G4. constructor; [done..| |].
  - intros x y Hs. rewrite G3, H3 by done. unfold over. by destruct (q x y).
  - intros t Ht Hne. by rewrite G4, H4.
Qed.

Lemma paints_ext p q h h' : (∀ x y, on_screen x y → p x y = q x y) → paints p h h' → paints q h h'.
Proof. intros E [H1 H2 H3 H4]. constructor; [done..| |done]. intros x y Hs. by rewrite H3, E. Qed.

(** An image at a position; nothing when it ends above the screen. *)
Definition image_paint (img : list Z) (width height x y offset : Z) : Paint := λ x' y',
  if (x <=? x') && (x' <? x + width) && (0 <=? y + height) && drawn height y (y' - y)
  then Some (image_pixel img height offset (x' - x) (y' - y)) else None.

Lemma drawImage_paints img width height x y offset h :
  image_ok img width height offset → mem_ok h → target_ok h = true →
  ∃ h', drawImage img width height x y offset h = Some h' ∧
    paints (image_paint img width height x y offset) h h'.
Proof.
  intros Himg Hmem Ht. pose proof (target_range h Ht) as Hr. unfold image_paint.
  unfold drawImage. rewrite Ht. cbn [negb].
  destruct ((y + height <? 0) || (x + width <? 0) || (COM_SIZE <? y) || (OUT_SIZE <? x)) eqn:E.
  - exists h. split; [done|]. apply paints_nothing; [done|]. intros x' y' [Hx Hy].
    destruct (_ && _) eqn:Ec; [|done]. exfalso.
    rewrite !andb_true_iff, !Z.leb_le, Z.ltb_lt, drawn_true in Ec.
    rewrite !orb_true_iff, !Z.ltb_lt in E. lia.
  - pose proof Himg as [Hw _].
    destruct (draw_columns_exact img width height x y offset (buffer h (_tgtBuffer h))
      (Z.to_nat width) Himg ltac:(lia) (buffer_mem_ok h _ Hmem Hr)) as (l & Hl & Hok & Hpix).
    rewrite Z2Nat.id in Hl, Hpix by done. rewrite Hl. cbn [mbind option_bind].
    eexists. split; [done|]. constructor; [by apply set_buffer_ok|done| |].
    + intros x' y' Hs. rewrite buffer_set, decide_True by (done || lia). rewrite Hpix by done.
      rewrite !orb_false_iff, Z.ltb_ge in E.
      destruct (Z.leb_spec 0 (y + height)); [|lia]. rewrite andb_true_r. by destruct (_ && _).
    + intros t Ht0 Hne. by rewrite buffer_set, decide_False by (done || lia).
Qed.

(** Where the rows drawn are the image's own. *)
Definition rows_exact (height y : Z) : Prop := height mod 4 = 0 ∨ (0 <= y ∧ y mod 4 = 0).

Lemma image_paint_exact img width height x y offset x' y' :
  rows_exact height y → on_screen x' y' →
  image_paint img width height x y offset x' y' =
  if (x <=? x') && (x' <? x + width) && (y <=? y') && (y' <? y + height)
  then Some (image_pixel img height offset (x' - x) (y' - y)) else None.
Proof.
  intros Hex [_ Hy]. unfold image_paint. rewrite drawn_exact, <-!andb_assoc by done.
  destruct (x <=? x'), (x' <? x + width); cbn [andb]; [|done..].
  destruct (Z.leb_spec 0 (y + height)), (Z.leb_spec 0 (y' - y)), (Z.ltb_spec (y' - y) height),
    (Z.leb_spec y y'), (Z.ltb_spec y' (y + height)); cbn [andb]; done || lia.
Qed.

(** ** Text stays inside of the fonts *)

(** Every glyph and the gutter column lie inside of the font's arrays. *)
Definition font_ok (f : Font) : bool :=
  (0 <=? font_height f) &&
  forallb (λ w, (0 <=? w) && (w <? 16)) (font_data f) &&
  forallb (λ g,
    match access (font_width f) g with
    | Some w => (0 <=? w) && (0 <=? g * font_glyph_step f) &&
        (g * font_glyph_step f + words_per_column (font_height f) * Z.max 1 w
         <=? Z.of_nat (length (font_data f)))
    | None => false
    end) (seqZ 0 64).

Lemma font_ok_glyph f g :
  font_ok f = true → 0 <= g < 64 →
  ∃ w, access (font_width f) g = Some w ∧
    image_ok (font_data f) w (font_height f) (g * font_glyph_step f) ∧
    image_ok (font_data f) 1 (font_height f) 0.
Proof.
  unfold font_ok. rewrite !andb_true_iff, !forallb_forall.
  intros [[Hh Hf] Hg] Hr. apply Z.leb_le in Hh.
  assert (Hnib : Forall (λ w, 0 <= w < 16) (font_data f)).
  { apply List.Forall_forall. intros w Hw. specialize (Hf w Hw). lia. }
  assert (H0 := Hg 0 ltac:(apply list_elem_of_In, elem_of_seqZ; lia)).
  specialize (Hg g ltac:(apply list_elem_of_In, elem_of_seqZ; lia)).
  destruct (access (font_width f) g) as [w|]; [|done].
  destruct (access (font_width f) 0) as [w0|]; [|done].
  rewrite !andb_true_iff, !Z.leb_le in Hg, H0.
  exists w. split; [done|]. unfold image_ok.
  assert (0 <= words_per_column (font_height f)).
  { unfold words_per_column. pose proof (Z.div_le_upper_bound (- font_height f) 4 0). lia. }
  split; (split_and!; [lia|lia|lia|nia|done]).
Qed.

Lemma glyph_range c g : glyph c = Some g → 0 <= g < 64.
Proof.
  unfold glyph. cbv zeta.
  set (k := if (65 <=? byte c - 32) && _ then _ else _).
  destruct (Z.ltb_spec k 0), (Z.leb_spec 64 k); cbn; intros; simplify_eq; lia.
Qed.

Lemma draw_chars_safe f gutter text cx y h :
  font_ok f = true → mem_ok h →
  ∃ h', draw_chars text cx y (font_data f) (font_width f) (font_height f)
          (font_glyph_step f) gutter h = Some h' ∧ mem_ok h' ∧ _tgtBuffer h' = _tgtBuffer h.
Proof.
  intros Hf. revert cx h. induction text as [|ch text IH]; intros cx h Hmem; [by eexists|].
  cbn [draw_chars]. destruct (glyph ch) as [g|] eqn:Hg; [|by apply IH].
  destruct (OUT_SIZE <=? cx); [by eexists|].
  destruct (font_ok_glyph f g Hf (glyph_range _ _ Hg)) as (w & -> & Himg & Hgut).
  cbn [mbind option_bind].
  destruct (0 <=? cx + w + gutter); [|cbn [mbind option_bind]; by apply IH].
  destruct (drawImage_safe _ _ _ cx y _ h Himg Hmem) as (h1 & -> & Hmem1 & Ht1).
  cbn [mbind option_bind].
  destruct (ofold_inv (λ h', mem_ok h' ∧ _tgtBuffer h' = _tgtBuffer h)
    (λ j h, drawImage (font_data f) 1 (font_height f) (cx + w + j) y 0 h) (seqZ 0 gutter) h1)
    as (h2 & E & Hmem2 & Ht2).
  - by split.
  - intros j h' _ [Hm Ht].
    destruct (drawImage_safe _ _ _ (cx + w + j) y _ h' Hgut Hm) as (h'' & E & ? & ?).
    exists h''. split; [done|]. split; [done|congruence].
  - rewrite E. cbn [mbind option_bind].
    destruct (IH (cx + (w + gutter)) h2 Hmem2) as (h3 & E3 & ? & ?).
    exists h3. split; [done|]. split; [done|congruence].
Qed.

(** ** Every operation of the driver keeps the buffers *)

Lemma mem_ok_same h h' : mem h' = mem h → mem_ok h → mem_ok h'.
Proof. intros E [Hl Hf]. constructor; by rewrite E. Qed.

Lemma drawTarget_ok t h : mem_ok h → mem_ok (drawTarget t h).
Proof. unfold drawTarget. intros Hm. case_match; [|done]. by apply (mem_ok_same h). Qed.

Lemma matrix_clear_ok h : mem_ok h → mem_ok (clear h).
Proof.
  intros Hm. unfold clear. case_match; [|done].
  apply (mem_ok_same (set_buffer (_tgtBuffer h) (replicate (Z.to_nat ADDR_SPACE_SIZE) 0) h)); [done|].
  apply set_buffer_ok; [done|]. unfold buffer_ok. apply length_replicate.
Qed.

Lemma clearAll_ok h : mem_ok h → mem_ok (clearAll h).
Proof.
  intros Hm. unfold clearAll. apply drawTarget_ok. cbn [boards foldl].
  by repeat apply matrix_clear_ok, drawTarget_ok.
Qed.

Lemma setPixel_ok x y on h : mem_ok h → ∃ h', setPixel x y on h = Some h' ∧ mem_ok h'.
Proof.
  intros Hm. unfold setPixel. destruct (target_ok h) eqn:Ht; cbn [negb]; [|eauto].
  destruct (_ || _) eqn:E; [eauto|]. rewrite !orb_false_iff, !Z.ltb_ge, !Z.leb_gt in E.
  pose proof (buffer_mem_ok h _ Hm (target_range h Ht)) as Hb.
  pose proof (addr_range x y ltac:(unfold on_screen; lia)) as Ha.
  destruct (access_ok _ _ Hb Ha) as [cell Ec]. rewrite Ec. cbn [mbind option_bind].
  edestruct store_ok as (l & -> & Hl & _); [by eexists|].
  cbn [mbind option_bind]. eexists; split; [done|]. apply set_buffer_ok; [done|].
  unfold buffer_ok in *. congruence.
Qed.

Lemma render_safe h : mem_ok h → ∃ out h', render h = Some (out, h') ∧ mem_ok h'.
Proof.
  intros Hm. unfold render. destruct (board_ok h) eqn:Hb; [|eauto].
  assert (0 <= _tgtBuffer h <= BUFFER_SECONDARY) as Ht.
  { unfold board_ok in Hb. apply negb_true_iff, orb_false_iff in Hb as [H1 H2].
    apply Z.leb_gt in H1. apply Z.ltb_ge in H2. lia. }
  pose proof (buffer_mem_ok h _ Hm Ht) as Hbuf.
  destruct (ofold_inv (λ _, True) (render_cell h) (seqZ 0 ADDR_SPACE_SIZE) (-1, select h 0))
    as ([n out] & -> & _); [done| |].
  - intros i [n out] Hi%elem_of_seqZ _. unfold render_cell.
    destruct (access_ok _ i Hbuf ltac:(lia)) as [cell ->]. cbn [mbind option_bind].
    repeat case_match; eauto.
  - cbn [mbind option_bind]. eexists _, _. split; [done|]. by apply (mem_ok_same h).
Qed.

Lemma render_boards_safe l h : mem_ok h → ∃ out h', render_boards l h = Some (out, h') ∧ mem_ok h'.
Proof.
  revert h. induction l as [|i l IH]; intros h Hm; cbn [render_boards]; [eauto|].
  destruct (render_safe _ (drawTarget_ok i h Hm)) as (o1 & h1 & -> & Hm1). cbn [mbind option_bind].
  destruct (IH h1 Hm1) as (o2 & h2 & -> & Hm2). cbn [mbind option_bind]. eauto.
Qed.

Lemma renderAll_safe h : mem_ok h → ∃ out h', renderAll h = Some (out, h') ∧ mem_ok h'.
Proof.
  intros Hm. unfold renderAll. destruct (render_boards_safe boards h Hm) as (o & h' & -> & Hm').
  cbn [mbind option_bind]. eexists _, _. split; [done|]. by apply drawTarget_ok.
Qed.

Lemma reinit_safe h : mem_ok h → ∃ out h', reinit h = Some (out, h') ∧ mem_ok h'.
Proof.
  intros Hm. unfold reinit. destruct (initialize h) as [o1 h1] eqn:E.
  assert (mem_ok h1) as Hm1.
  { apply (mem_ok_same h); [|done]. unfold initialize in E. by injection E as _ <-. }
  destruct (render_boards_safe boards h1 Hm1) as (o & h' & -> & Hm').
  cbn [mbind option_bind]. eexists _, _. split; [done|]. by apply drawTarget_ok.
Qed.

(** The driver is ready after [begin], whatever the fresh blocks hold. *)
Lemma begin_boards_safe l h : mem_ok h → ∃ out h', begin_boards l h = Some (out, h') ∧ mem_ok h'.
Proof.
  revert h. induction l as [|i l IH]; intros h Hm; cbn [begin_boards]; [eauto|].
  destruct (render_safe _ (matrix_clear_ok _ (drawTarget_ok i h Hm))) as (o1 & h1 & -> & Hm1).
  cbn [mbind option_bind]. destruct (IH h1 Hm1) as (o2 & h2 & -> & Hm2). cbn [mbind option_bind]. eauto.
Qed.

Lemma begin_safe pins burst garbage h :
  buffer_ok garbage → ∃ out h', begin pins burst garbage h = Some (out, h') ∧ mem_ok h'.
Proof.
  intros Hg. unfold begin. set (h1 := mkHT1632 _ _ _ _ _ _ _).
  assert (mem_ok h1) as Hm1 by (constructor; cbn; [done|by repeat constructor]).
  destruct (initialize h1) as [o1 h2] eqn:E.
  assert (mem_ok h2) as Hm2.
  { apply (mem_ok_same h1); [|done]. unfold initialize in E. by injection E as _ <-. }
  destruct (begin_boards_safe boards h2 Hm2) as (o2 & h3 & -> & Hm3). cbn [mbind option_bind].
  eexists _, _. split; [done|]. by apply drawTarget_ok.
Qed.

Lemma setBrightness_ok b h : mem_ok h → mem_ok (setBrightness b h).2.
Proof. intros Hm. unfold setBrightness. case_match; [done|]. by apply (mem_ok_same h). Qed.

Lemma fonts_ok f : f ∈ [font_5x4; font_7x5; font_8x4; font_8x6; font_16x8] → font_ok f = true.
Proof.
  intros Hf. repeat (apply elem_of_cons in Hf as [->|Hf]; [by vm_compute|]). by apply elem_of_nil in Hf.
Qed.

(** The characters a text shows. *)
Definition shown (text : string) : list Z := omap glyph (String.list_ascii_of_string text).

Definition width_of (f : Font) (g : Z) : Z := default 0 (access (font_width f) g).

Lemma text_width_spec f gutter text wd :
  font_ok f = true →
  text_width text (font_width f) gutter wd =
  Some (wd + foldr (λ g n, width_of f g + gutter + n) 0 (shown text) - gutter).
Proof.
  intros Hf. revert wd. induction text as [|c text IH]; intros wd; cbn.
  - f_equal. lia.
  - unfold shown. cbn [String.list_ascii_of_string omap list_omap].
    destruct (glyph c) as [g|] eqn:Hg; [|apply IH].
    destruct (font_ok_glyph f g Hf (glyph_range _ _ Hg)) as (w & E & _).
    assert (Hw : width_of f g = w) by (unfold width_of; by rewrite E).
    rewrite E. cbn [mbind option_bind foldr]. rewrite Hw, IH. unfold shown. f_equal. lia.
Qed.

(** *** The pixels of a text

    The glyph column a column of the screen shows: where the glyph is in the
    font, and which of its columns; the gutter shows the first of the font. *)
Fixpoint text_column (f : Font) (gutter : Z) (l : list Z) (x x' : Z) : option (Z * Z) :=
  match l with
  | [] => None
  | g :: l =>
      let w := width_of f g in
      if (x <=? x') && (x' <? x + w) then Some (g * font_glyph_step f, x' - x)
      else if (x + w <=? x') && (x' <? x + w + gutter) then Some (0, 0)
      else text_column f gutter l (x + (w + gutter)) x'
  end.

Definition text_paint (f : Font) (gutter : Z) (l : list Z) (x y : Z) : Paint := λ x' y',
  if (0 <=? y + font_height f) && drawn (font_height f) y (y' - y) then
    p ← text_column f gutter l x x';
    Some (image_pixel (font_data f) (font_height f) p.1 p.2 (y' - y))
  else None.

Lemma width_nonneg f g : font_ok f = true → 0 <= g < 64 → 0 <= width_of f g.
Proof.
  intros Hf Hg. destruct (font_ok_glyph f g Hf Hg) as (w & E & (Hw & _) & _).
  unfold width_of. by rewrite E.
Qed.

Lemma text_column_left f gutter l x x' :
  font_ok f = true → Forall (λ g, 0 <= g < 64) l → 0 <= gutter → x' < x →
  text_column f gutter l x x' = None.
Proof.
  intros Hf Hl Hg. revert x. induction Hl as [|g l Hgl _ IH]; intros x Hx; [done|]. cbn [text_column].
  pose proof (width_nonneg f g Hf Hgl).
  destruct (Z.leb_spec x x'), (Z.leb_spec (x + width_of f g) x'); try lia. cbn [andb].
  apply IH. lia.
Qed.

Lemma shown_range text : Forall (λ g, 0 <= g < 64) (shown text).
Proof.
  unfold shown. induction (String.list_ascii_of_string text) as [|c l IH]; cbn; [constructor|].
  destruct (glyph c) as [g|] eqn:E; [|done]. constructor; [by eapply glyph_range|done].
Qed.

(** The gutter of a character. *)
Definition gutter_paint (f : Font) (gutter x y : Z) : Paint := λ x' y',
  if (x <=? x') && (x' <? x + gutter) && (0 <=? y + font_height f) &&
     drawn (font_height f) y (y' - y)
  then Some (image_pixel (font_data f) (font_height f) 0 0 (y' - y)) else None.

Lemma draw_gutter f x y (n : nat) h :
  image_ok (font_data f) 1 (font_height f) 0 → mem_ok h → target_ok h = true →
  ∃ h', ofold (λ j h, drawImage (font_data f) 1 (font_height f) (x + j) y 0 h)
          (seqZ 0 (Z.of_nat n)) h = Some h' ∧ paints (gutter_paint f (Z.of_nat n) x y) h h'.
Proof.
  intros Himg Hmem Ht. induction n as [|n (h1 & E1 & H1)].
  - exists h. split; [done|]. apply paints_nothing; [done|]. intros x' y' _. unfold gutter_paint.
    destruct (Z.leb_spec x x'), (Z.ltb_spec x' (x + Z.of_nat 0)); try lia; done.
  - rewrite seqZ_S, ofold_app, E1. cbn [mbind option_bind ofold]. rewrite Z.add_0_l.
    destruct (drawImage_paints (font_data f) 1 (font_height f) (x + Z.of_nat n) y 0 h1 Himg)
      as (h2 & E2 & H2); [apply H1|unfold target_ok in *; by rewrite (paints_target _ _ _ H1)|].
    rewrite E2. exists h2. split; [done|].
    eapply paints_ext; [|exact (paints_over _ _ _ _ _ H1 H2)].
    intros x' y' _. unfold over, image_paint, gutter_paint. rewrite <-!andb_assoc.
    destruct (Z.leb_spec (x + Z.of_nat n) x'), (Z.ltb_spec x' (x + Z.of_nat n + 1)),
      (Z.leb_spec x x'), (Z.ltb_spec x' (x + Z.of_nat n)), (Z.ltb_spec x' (x + Z.of_nat (S n)));
      cbn [andb]; try lia; try done.
    replace (x' - (x + Z.of_nat n)) with 0 by lia. by destruct (_ && _).
Qed.

(** One character and its gutter in front of the rest. *)
Lemma text_paint_cons f gutter g l x y :
  font_ok f = true → Forall (λ g, 0 <= g < 64) (g :: l) → 0 <= gutter → ∀ x' y',
  over (text_paint f gutter l (x + (width_of f g + gutter)) y)
    (over (gutter_paint f gutter (x + width_of f g) y)
      (image_paint (font_data f) (width_of f g) (font_height f) x y (g * font_glyph_step f))) x' y' =
  text_paint f gutter (g :: l) x y x' y'.
Proof.
  intros Hf [Hg Hl]%Forall_cons Hgut x' y'. pose proof (width_nonneg f g Hf Hg) as Hw.
  unfold over, text_paint, gutter_paint, image_paint. cbn [text_column].
  destruct (0 <=? y + font_height f); cbn [andb]; [|by rewrite !andb_false_r].
  destruct (drawn _ _ _); [|by rewrite !andb_false_r]. rewrite !andb_true_r.
  destruct (Z.leb_spec x x'); cbn [andb].
  - destruct (Z.ltb_spec x' (x + width_of f g)).
    + rewrite text_column_left by (done || lia). cbn [mbind option_bind].
      destruct (Z.leb_spec (x + width_of f g) x'); [lia|done].
    + destruct (Z.leb_spec (x + width_of f g) x'); [|lia]. cbn [andb].
      destruct (Z.ltb_spec x' (x + width_of f g + gutter)).
      * by rewrite text_column_left by (done || lia).
      * by destruct (text_column _ _ _ _ _).
  - rewrite text_column_left by (done || lia). cbn [mbind option_bind].
    by destruct (Z.leb_spec (x + width_of f g) x'); [lia|].
Qed.

(** Characters that end left of the screen or start right of it show nothing. *)
Lemma text_paint_right f gutter l x y x' y' :
  font_ok f = true → Forall (λ g, 0 <= g < 64) l → 0 <= gutter →
  OUT_SIZE <= x → on_screen x' y' → text_paint f gutter l x y x' y' = None.
Proof.
  intros Hf Hl Hg Hx [Hs _]. unfold text_paint. destruct (_ && _); [|done].
  by rewrite text_column_left by (done || lia).
Qed.

Lemma draw_chars_paints f gutter text x y h :
  font_ok f = true → 0 <= gutter → mem_ok h → target_ok h = true →
  ∃ h', draw_chars text x y (font_data f) (font_width f) (font_height f)
          (font_glyph_step f) gutter h = Some h' ∧
    paints (text_paint f gutter (shown text) x y) h h'.
Proof.
  intros Hf Hgut. revert x h. induction text as [|ch text IH]; intros x h Hmem Ht.
  { exists h. split; [done|]. apply paints_nothing; [done|]. intros x' y' _.
    unfold text_paint. by destruct (_ && _). }
  pose proof (shown_range (String ch text)) as Hall.
  cbn [draw_chars]. unfold shown in *. cbn [String.list_ascii_of_string omap list_omap] in *.
  destruct (glyph ch) as [g|] eqn:Hg; [|by apply IH].
  destruct (Z.leb_spec OUT_SIZE x) as [Hx|Hx].
  { exists h. split; [done|]. apply paints_nothing; [done|]. intros x' y' Hs.
    by apply text_paint_right. }
  destruct (font_ok_glyph f g Hf (glyph_range _ _ Hg)) as (w & Ew & Himg & Hg0). rewrite Ew.
  cbn [mbind option_bind]. assert (width_of f g = w) as Hw by (unfold width_of; by rewrite Ew).
  assert (∃ h2, (if 0 <=? x + w + gutter then
      h1 ← drawImage (font_data f) w (font_height f) x y (g * font_glyph_step f) h;
      ofold (λ j h, drawImage (font_data f) 1 (font_height f) (x + w + j) y 0 h) (seqZ 0 gutter) h1
      else Some h) = Some h2 ∧
    paints (over (gutter_paint f gutter (x + w) y)
      (image_paint (font_data f) w (font_height f) x y (g * font_glyph_step f))) h h2) as (h2 & -> & H2).
  { destruct (Z.leb_spec 0 (x + w + gutter)) as [Hin|Hout].
    - destruct (drawImage_paints _ w _ x y _ h Himg Hmem Ht) as (h1 & -> & H1). cbn [mbind option_bind].
      destruct (draw_gutter f (x + w) y (Z.to_nat gutter) h1 Hg0) as (h2 & E2 & H2);
        [apply H1|unfold target_ok in *; by rewrite (paints_target _ _ _ H1)|].
      rewrite Z2Nat.id in E2, H2 by done. exists h2. split; [done|]. by eapply paints_over.
    - exists h. split; [done|]. apply paints_nothing; [done|]. intros x' y' [Hs _].
      unfold over, gutter_paint, image_paint.
      destruct (Z.ltb_spec x' (x + w + gutter)), (Z.ltb_spec x' (x + w)); try lia.
      by rewrite !andb_false_r. }
  cbn [mbind option_bind].
  destruct (IH (x + (w + gutter)) h2) as (h3 & E3 & H3);
    [apply H2|unfold target_ok in *; by rewrite (paints_target _ _ _ H2)|].
  exists h3. split; [done|]. eapply paints_ext; [|exact (paints_over _ _ _ _ _ H2 H3)].
  intros x' y' _. rewrite <-Hw. by apply text_paint_cons.
Qed.

(** ** Properties *)

(** C16: drawing an image is its pixel by pixel reference: at any position and
    for any height, a pixel of the screen in the image's columns takes the
    image's pixel in the rows that are drawn, which are exactly the image's
    own rows when its height is a multiple of four or its top is at a row that
    is one and not above the screen; every other pixel of the target and the two
    other buffers keep theirs, and no access leaves the buffer or the image. *)
Theorem drawImage_is_reference img width height x y offset h :
  image_ok img width height offset → mem_ok h → target_ok h = true →
  ∃ h', drawImage img width height x y offset h = Some h' ∧
    paints (image_paint img width height x y offset) h h' ∧
    (rows_exact height y → ∀ x' y', on_screen x' y' →
      image_paint img width height x y offset x' y' =
      if (x <=? x') && (x' <? x + width) && (y <=? y') && (y' <? y + height)
      then Some (image_pixel img height offset (x' - x) (y' - y)) else None).
Proof.
  intros Himg Hmem Ht. destruct (drawImage_paints img width height x y offset h Himg Hmem Ht)
    as (h' & E & Hp).
  exists h'. split_and!; [done..|]. intros Hex x' y' Hs. by apply image_paint_exact.
Qed.

(** The word aligned case by itself. *)
Corollary drawImage_exact img width height x y offset h :
  image_ok img width height offset → mem_ok h → target_ok h = true → rows_exact height y →
  ∃ h', drawImage img width height x y offset h = Some h' ∧ mem_ok h' ∧
    (∀ x' y', on_screen x' y' →
      pixel (buffer h' (_tgtBuffer h)) x' y' =
      if (x <=? x') && (x' <? x + width) && (y <=? y') && (y' <? y + height)
      then image_pixel img height offset (x' - x) (y' - y)
      else pixel (buffer h (_tgtBuffer h)) x' y') ∧
    (∀ t, 0 <= t → t ≠ _tgtBuffer h → buffer h' t = buffer h t).
Proof.
  intros Himg Hmem Ht Hex. destruct (drawImage_paints img width height x y offset h Himg Hmem Ht)
    as (h' & E & [Hok _ Hpix Hother]).
  exists h'. split_and!; [done..| |done]. intros x' y' Hs.
  rewrite Hpix, image_paint_exact by done. by destruct (_ && _).
Qed.

(** A driver without pins whose three buffers hold the same cell everywhere. *)
Definition filled (cell : Z) : HT1632 :=
  let l := replicate (Z.to_nat ADDR_SPACE_SIZE) cell in
  mkHT1632 16 no_lines no_lines false 0 [false; false; false] [l; l; l].

Lemma filled_ok cell : mem_ok (filled cell).
Proof.
  constructor; [done|]. repeat constructor; unfold buffer_ok; apply length_replicate.
Qed.

(** A five row image of two columns whose top is six rows down: its rows are
    drawn, and the two that fill up its second word and reach into the cell
    below are switched off. *)
Lemma drawImage_is_reference_witness :
  image_ok [5; 10; 3; 1] 2 5 0 ∧ target_ok (filled 15) = true ∧
  (map (drawn 5 6) (seqZ 0 9) = [true; true; true; true; true; false; true; true; false]) ∧
  ∃ h', drawImage [5; 10; 3; 1] 2 5 127 6 0 (filled 15) = Some h' ∧
    paints (image_paint [5; 10; 3; 1] 2 5 127 6 0) (filled 15) h'.
Proof.
  assert (image_ok [5; 10; 3; 1] 2 5 0) as Himg.
  { unfold image_ok. split_and!; [lia|lia|lia|by vm_compute|]. repeat (constructor; [lia|]).
    constructor. }
  split; [done|]. split; [done|]. split; [vm_compute; reflexivity|].
  destruct (drawImage_is_reference [5; 10; 3; 1] 2 5 127 6 0 (filled 15) Himg (filled_ok 15) eq_refl)
    as (h' & E & Hp & _).
  by exists h'.
Defined.

(** With a height that is not a multiple of four the drawing is not
    confined to the image: one row down, a five row image also switches off
    the pixels of the row below the next word boundary; four rows above the
    screen it switches off three rows below its own last one. *)
Theorem drawImage_spills :
  (∃ h', drawImage [15; 1] 1 5 0 1 0 (filled 15) = Some h' ∧
    pixel (buffer (filled 15) 0) 0 8 = true ∧ pixel (buffer h' 0) 0 8 = false) ∧
  (∃ h', drawImage [15; 1] 1 5 0 (-4) 0 (filled 15) = Some h' ∧
    ∀ y, 1 <= y < 4 → pixel (buffer (filled 15) 0) 0 y = true ∧ pixel (buffer h' 0) 0 y = false).
Proof.
  split; eexists; (split; [vm_compute; reflexivity|]); [by vm_compute|].
  intros y Hy. assert (y = 1 ∨ y = 2 ∨ y = 3) as [->|[->| ->]] by lia; by vm_compute.
Qed.


(** Nothing is assumed of the gutter or the target for safety alone. *)
Lemma drawText_in_bounds f text x y gutter h :
  f ∈ [font_5x4; font_7x5; font_8x4; font_8x6; font_16x8] → mem_ok h →
  ∃ h', drawText text x y (font_data f) (font_width f) (font_height f)
          (font_glyph_step f) gutter h = Some h' ∧ mem_ok h' ∧ _tgtBuffer h' = _tgtBuffer h.
Proof.
  intros Hf Hmem. unfold drawText. destruct (_ || _); [by exists h|].
  apply draw_chars_safe; [by apply fonts_ok|done].
Qed.


