(* ===== verification/HtWire.v ===== *)
(** * The LED matrix on the wire: src/ht1632/HT1632.cpp, src/src/gpio/GpioBurst.h

    What the events of the driver of Ht1632.v are on the lines: the burst path
    and the ordinary one drive the same levels, and a controller that samples
    the data line at the clock's edges reads the buffer. *)
From S2P Require Import Prelude StdMap CLib Gpio Fonts Ht1632.

(** ** The wire *)

(** The level changes of a trace, whichever path carried them: a store of a
    mask stands for a write to the pin it was resolved from. *)
Definition line_writes (l : list ht_event) : list GpioOperation :=
  omap (λ e, match e with Call op => Some op | Store _ _ => None end) l.

(** What a trace does to the 32 pin levels, through the BCM2835 registers. *)
Definition levels_after (levels : Z) (e : ht_event) : Z :=
  match e with
  | Call op =>
      match kind op, Bcm2835.write (bcmGpio op) (value op) with
      | write, Ok st => Bcm2835.hw_store levels st
      | _, _ => levels
      end
  | Store mask v =>
      Bcm2835.hw_store levels
        (match v with high => Bcm2835.setRegister0 | low => Bcm2835.clearRegister0 end, mask)
  end.

(** The successive pin levels of a trace. *)
Fixpoint waveform (levels : Z) (l : list ht_event) : list Z :=
  match l with
  | [] => []
  | e :: l => let levels := levels_after levels e in levels :: waveform levels l
  end.

(** The same driver with the burst path on or off. *)
Definition with_burst (b : bool) (h : HT1632) : HT1632 :=
  mkHT1632 (brightness h) (pin_of h) (mask_of h) b (_tgtBuffer h)
    (_globalNeedsRewriting h) (mem h).

(** The masks [acquireBurst] hands out for the lines. *)
Definition burst_masks (h : HT1632) : Prop :=
  ∀ l, 0 <= pin_of h l < 32 ∧ Bcm2835.maskForOffset (pin_of h l) = Ok (mask_of h l).

Lemma burst_same_level h l v levels :
  burst_masks h →
  levels_after levels (pinWrite (with_burst true h) l v) =
  levels_after levels (pinWrite (with_burst false h) l v).
Proof.
  intros Hm. destruct (Hm l) as [_ E]. unfold pinWrite. simpl.
  unfold Bcm2835.write. rewrite E. done.
Qed.

Section burst.
Variable h : HT1632.
Hypothesis masks : burst_masks h.

(** Two events that change the pins in the same way. *)
Definition same_event (e1 e2 : ht_event) : Prop :=
  ∀ levels, levels_after levels e1 = levels_after levels e2.
Definition same_trace (l1 l2 : list ht_event) : Prop := Forall2 same_event l1 l2.

Lemma same_app l1 l2 k1 k2 :
  same_trace l1 l2 → same_trace k1 k2 → same_trace (l1 ++ k1) (l2 ++ k2).
Proof. apply Forall2_app. Qed.
Lemma same_pin l v k1 k2 :
  same_trace k1 k2 →
  same_trace (pinWrite (with_burst true h) l v :: k1) (pinWrite (with_burst false h) l v :: k2).
Proof. intros Hk. constructor; [|done]. intros levels. by apply burst_same_level. Qed.

Lemma same_waveform l1 l2 levels : same_trace l1 l2 → waveform levels l1 = waveform levels l2.
Proof.
  intros Hs. revert levels. induction Hs as [|e1 e2 l1 l2 He _ IH]; intros levels; [done|].
  simpl. rewrite (He levels). f_equal. apply IH.
Qed.

Lemma same_pulses n : same_trace (pulses (with_burst true h) n) (pulses (with_burst false h) n).
Proof.
  unfold pulses. induction (Z.to_nat n) as [|k IH]; [constructor|].
  cbn [replicate concat]. apply same_app; [|done]. repeat apply same_pin. constructor.
Qed.

Lemma same_select n : same_trace (select (with_burst true h) n) (select (with_burst false h) n).
Proof.
  unfold select. destruct (n <? 0); [|destruct (n =? 0)].
  - apply same_pin, same_pulses.
  - apply same_pin, same_pulses.
  - apply same_pin, same_app; [apply same_pulses|].
    do 4 apply same_pin. apply same_pulses.
Qed.

Lemma same_write_bit b :
  same_trace (write_bit (with_burst true h) b) (write_bit (with_burst false h) b).
Proof. repeat apply same_pin. constructor. Qed.

Lemma same_writeData d n :
  same_trace (writeData (with_burst true h) d n) (writeData (with_burst false h) d n).
Proof.
  induction n as [|n IH]; [constructor|]. cbn [writeData].
  apply same_app; [apply same_write_bit|done].
Qed.

Lemma same_writeDataRev d n :
  same_trace (writeDataRev (with_burst true h) d n) (writeDataRev (with_burst false h) d n).
Proof.
  revert d. induction n as [|n IH]; intros d; [constructor|]. cbn [writeDataRev].
  apply same_app; [apply same_write_bit|done].
Qed.

Lemma same_writeCommand d :
  same_trace (writeCommand (with_burst true h) d) (writeCommand (with_burst false h) d).
Proof. apply same_app; [apply same_writeData|apply same_write_bit]. Qed.

Lemma same_bind {A} (l : list A) f g :
  (∀ x, same_trace (f x) (g x)) → same_trace (l ≫= f) (l ≫= g).
Proof. intros Hf. induction l as [|x l IH]; [constructor|]. by apply same_app. Qed.

Lemma same_render_cell i n o1 o2 :
  same_trace o1 o2 →
  match render_cell (with_burst true h) i (n, o1), render_cell (with_burst false h) i (n, o2) with
  | Some (n1, o1'), Some (n2, o2') => n1 = n2 ∧ same_trace o1' o2'
  | None, None => True
  | _, _ => False
  end.
Proof.
  intros Ho. unfold render_cell.
  change (buffer (with_burst false h)) with (buffer h).
  change (buffer (with_burst true h)) with (buffer h).
  change (_tgtBuffer (with_burst true h)) with (_tgtBuffer h).
  change (_tgtBuffer (with_burst false h)) with (_tgtBuffer h).
  change (_globalNeedsRewriting (with_burst true h)) with (_globalNeedsRewriting h).
  change (_globalNeedsRewriting (with_burst false h)) with (_globalNeedsRewriting h).
  destruct (access (buffer h (_tgtBuffer h)) i) as [cell|]; cbn [mbind option_bind]; [|done].
  destruct (_ || _).
  - split; [done|]. apply same_app; [done|]. apply same_app; [|apply same_writeDataRev].
    destruct (_ =? _); [constructor|].
    apply same_app; [apply same_select|]. apply same_app; apply same_writeData.
  - destruct (n =? -1); [done|]. split; [done|]. apply same_app; [done|apply same_select].
Qed.

Lemma same_render :
  match render (with_burst true h), render (with_burst false h) with
  | Some (o1, h1), Some (o2, h2) => same_trace o1 o2 ∧ h1 = with_burst true h2
  | None, None => True
  | _, _ => False
  end.
Proof.
  unfold render. change (board_ok (with_burst true h)) with (board_ok h).
  change (board_ok (with_burst false h)) with (board_ok h).
  destruct (board_ok h); [|split; [constructor|done]].
  assert (∀ l n o1 o2, same_trace o1 o2 →
    match ofold (render_cell (with_burst true h)) l (n, o1),
          ofold (render_cell (with_burst false h)) l (n, o2) with
    | Some (n1, o1'), Some (n2, o2') => n1 = n2 ∧ same_trace o1' o2'
    | None, None => True
    | _, _ => False
    end) as Hfold.
  { induction l as [|i l IH]; intros n o1 o2 Ho; [done|]. cbn [ofold].
    pose proof (same_render_cell i n o1 o2 Ho) as Hc.
    destruct (render_cell (with_burst true h) i (n, o1)) as [[n1 o1']|],
      (render_cell (with_burst false h) i (n, o2)) as [[n2 o2']|]; try done.
    destruct Hc as [-> Hc]. by apply IH. }
  specialize (Hfold (seqZ 0 ADDR_SPACE_SIZE) (-1) _ _ (same_select 0)).
  destruct (ofold (render_cell (with_burst true h)) _ _) as [[n1 o1]|],
    (ofold (render_cell (with_burst false h)) _ _) as [[n2 o2]|]; try done.
  destruct Hfold as [-> Ho]. cbn [mbind option_bind]. split; [|done].
  apply same_app; [done|]. destruct (n2 =? -1); [constructor|apply same_select].
Qed.

Lemma same_initialize :
  same_trace (initialize (with_burst true h)).1 (initialize (with_burst false h)).1.
Proof.
  cbn [initialize fst]. apply same_app; [apply same_select|]. apply same_bind. intros i.
  repeat (apply same_app; [apply same_select || apply same_writeData || apply same_writeCommand|]).
  apply same_select.
Qed.

Lemma same_blank : same_trace (blank (with_burst true h)) (blank (with_burst false h)).
Proof.
  apply same_app; [apply same_select|]. apply same_bind. intros i.
  repeat (apply same_app; [apply same_select || apply same_writeData || apply same_writeCommand|]).
  apply same_select.
Qed.
End burst.

Lemma same_setBrightness b h :
  burst_masks h →
  same_trace (setBrightness b (with_burst true h)).1 (setBrightness b (with_burst false h)).1.
Proof.
  intros Hm. unfold setBrightness. destruct (_ || _); [constructor|].
  change (set_brightness b (with_burst ?x h)) with (with_burst x (set_brightness b h)).
  apply same_app; [|by apply same_select]. apply same_bind. intros i.
  apply same_app; [by apply same_select|].
  apply same_app; [by apply same_writeData|by apply same_writeCommand].
Qed.

(** *** Bits on the data line *)
Section bits.
Variable h : HT1632.
Hypothesis no_burst : _burstReady h = false.
Hypothesis lines_distinct : ∀ l1 l2, pin_of h l1 = pin_of h l2 → l1 = l2.
Local Abbreviation receive d l := (sample (pin_of h DATA) (pin_of h WR) d (line_writes l)).

Lemma data_ne_clock : pin_of h DATA ≠ pin_of h WR.
Proof. by intros E%lines_distinct. Qed.

Lemma line_writes_app l1 l2 : line_writes (l1 ++ l2) = line_writes l1 ++ line_writes l2.
Proof. unfold line_writes. by rewrite omap_app. Qed.

(** [l] sends the bits [bits]. *)
Definition sends (l : list ht_event) (bits : list bool) : Prop :=
  ∀ d, ∃ d', receive d l = (d', bits).

Lemma sends_nil : sends [] [].
Proof. intros d. by exists d. Qed.

Lemma sends_app l1 l2 b1 b2 : sends l1 b1 → sends l2 b2 → sends (l1 ++ l2) (b1 ++ b2).
Proof.
  intros H1 H2 d. destruct (H1 d) as [d1 E1]. destruct (H2 d1) as [d2 E2].
  exists d2. rewrite line_writes_app, sample_app, E1, E2. done.
Qed.

Lemma sends_bit b : sends (write_bit h b) [b].
Proof.
  intros d. exists (value_of_bool b). unfold write_bit, pinWrite. rewrite no_burst.
  change (line_writes _) with
    [op_write (pin_of h DATA) (value_of_bool b); op_write (pin_of h WR) high;
     op_write (pin_of h WR) low].
  rewrite sample_data, sample_clock_high, sample_clock_low by apply data_ne_clock.
  by destruct b.
Qed.

Lemma sends_other l v k bits :
  l ≠ DATA → l ≠ WR → sends k bits → sends (pinWrite h l v :: k) bits.
Proof.
  intros H1 H2 Hk d. destruct (Hk d) as [d' E]. exists d'. unfold pinWrite.
  rewrite no_burst.
  change (line_writes _) with (op_write (pin_of h l) v :: line_writes k).
  rewrite sample_other; [done| |]; by intros ?%lines_distinct.
Qed.

Lemma sends_pulses n k bits : sends k bits → sends (pulses h n ++ k) bits.
Proof.
  intros Hk. unfold pulses. induction (Z.to_nat n) as [|m IH]; [done|].
  cbn [replicate concat app outputCLK_Pulse].
  apply sends_other; [done..|]. by apply sends_other.
Qed.

Lemma sends_select n : sends (select h n) [].
Proof.
  unfold select.
  assert (∀ m, sends (pulses h m) []) as Hp.
  { intros m. rewrite <-(app_nil_r (pulses h m)). apply sends_pulses, sends_nil. }
  destruct (n <? 0); [|destruct (n =? 0)]; (apply sends_other; [done..|]); [apply Hp..|].
  apply sends_pulses. by do 4 (apply sends_other; [done..|]).
Qed.

Lemma sends_writeData data n : sends (writeData h data n) (bits_msb (Z.of_nat n) data).
Proof.
  induction n as [|n IH]; [apply sends_nil|]. cbn [writeData].
  rewrite bits_msb_S. apply (sends_app _ _ [_] _); [|done].
  rewrite Z.shiftl_1_l, land_pow2_eqb, negb_involutive by lia. apply sends_bit.
Qed.

Lemma sends_writeDataRev data n : sends (writeDataRev h data n) (bits_lsb (Z.of_nat n) data).
Proof.
  revert data. induction n as [|n IH]; intros data; [apply sends_nil|]. cbn [writeDataRev].
  rewrite bits_lsb_S. apply (sends_app _ _ [_] _); [|done].
  change 1 with (2 ^ 0) at 1. rewrite land_pow2_eqb, negb_involutive by lia. apply sends_bit.
Qed.

Lemma sends_writeCommand data : sends (writeCommand h data) (bits_msb 8 data ++ [false]).
Proof. apply sends_app; [apply (sends_writeData data 8)|apply sends_bit]. Qed.

Lemma sends_bind {A} (l : list A) f g :
  (∀ x, x ∈ l → sends (f x) (g x)) → sends (l ≫= f) (l ≫= g).
Proof.
  intros Hf. induction l as [|x l IH]; [apply sends_nil|].
  apply sends_app; [apply Hf; by left|]. apply IH. intros y Hy. apply Hf. by right.
Qed.

(** The bits a full refresh sends for one cell: a write command with the
    board's base address in front of the first cell of every chip. *)
Definition refresh_bits (cells : list Z) (i : Z) : list bool :=
  (if i mod 32 =? 0 then [true; false; true] ++ bits_msb 7 (_tgtBuffer h * 32) else [])
  ++ bits_lsb 4 (default 0 (access cells i)).

Lemma refresh_cells (n : nat) :
  default false (_globalNeedsRewriting h !! Z.to_nat (_tgtBuffer h)) = true →
  buffer_ok (buffer h (_tgtBuffer h)) → Z.of_nat n <= ADDR_SPACE_SIZE →
  ∃ out, ofold (render_cell h) (seqZ 0 (Z.of_nat n)) (-1, select h 0) =
      Some ((if (n =? 0)%nat then -1 else (Z.of_nat n - 1) / 32 + 1), out) ∧
    sends out (seqZ 0 (Z.of_nat n) ≫= refresh_bits (buffer h (_tgtBuffer h))).
Proof.
  intros Hg Hb. induction n as [|n IH]; intros Hn.
  - exists (select h 0). split; [done|apply sends_select].
  - destruct IH as (out & Hf & Hs); [lia|].
    rewrite seqZ_S, ofold_app, Hf, bind_app. cbn [mbind option_bind ofold].
    rewrite Z.add_0_l. unfold render_cell at 1. rewrite Hg. cbn [orb].
    destruct (access_ok _ (Z.of_nat n) Hb ltac:(lia)) as [cell Hc]. rewrite Hc.
    cbn [mbind option_bind list_bind]. rewrite app_nil_r.
    assert (Hopen : ((if (n =? 0)%nat then -1 else (Z.of_nat n - 1) / 32 + 1) =?
              Z.of_nat n / 32 + 1) = negb (Z.of_nat n mod 32 =? 0)).
    { pose proof (Z.div_mod (Z.of_nat n) 32 ltac:(lia)).
      pose proof (Z.mod_pos_bound (Z.of_nat n) 32 ltac:(lia)).
      destruct (Nat.eqb_spec n 0) as [->|]; [done|].
      pose proof (Z.div_mod (Z.of_nat n - 1) 32 ltac:(lia)).
      pose proof (Z.mod_pos_bound (Z.of_nat n - 1) 32 ltac:(lia)).
      destruct (Z.eqb_spec (Z.of_nat n mod 32) 0); cbn [negb];
        [apply Z.eqb_neq|apply Z.eqb_eq]; lia. }
    rewrite Hopen. eexists. split; [do 3 f_equal; f_equal; lia|].
    apply sends_app; [done|]. unfold refresh_bits. rewrite Hc. cbn [default from_option id].
    apply sends_app; [|apply (sends_writeDataRev cell 4)].
    destruct (Z.eqb_spec (Z.of_nat n mod 32) 0) as [Hz|]; cbn [negb]; [|apply sends_nil].
    rewrite Hz, Z.add_0_l. apply (sends_app _ _ []); [apply sends_select|].
    apply (sends_app _ _ [true; false; true] (bits_msb 7 _));
      [apply (sends_writeData HT1632_ID_WR 3)|].
    apply (sends_writeData _ 7).
Qed.
End bits.

(** ** Properties *)


(** The pins of the clock: CS, WR, DATA and CLK. *)
Definition example_pins (l : line) : Z :=
  match l with CS => 17 | WR => 27 | DATA => 22 | CLK => 4 end.
Definition wired (rewrite_all : bool) : HT1632 :=
  mkHT1632 16 example_pins (λ l, Z.shiftl 1 (example_pins l)) false 0
    [rewrite_all; rewrite_all; rewrite_all] (mem (filled 21)).



