(* ===== verification/LedStrip.v ===== *)
(** * The LED strip component: src/src/ledStripInternal.cpp, src/src/ledStrip.cpp,
      src/src/ledStripTypes.h

    The light modes with their handlers, and the thread that runs them. The
    handlers keep their position in function-local static variables, which are
    part of the state here; the random colors come from [engine], the values
    the generator draws one after another. *)
From S2P Require Import Prelude StdMap CLib CommonUtils Gpio Lpd8806 Inbox.

(** ** Request parameters and modes *)
Definition ledStripParamLedStripMode : string := "ledStripMode".
Definition ledStripParamTimeout : string := "timeout".
Definition ledStripParamClearAllPixels : string := "clearPixels".
Definition ledStripParamExtra : string := "extraParam".
Definition ledStripParamFrom : string := "from".
Definition ledStripParamTo : string := "to".

Definition ledStripModeManual : Z := 0.
Definition ledStripModePastel : Z := 1.
Definition ledStripModeFill : Z := 2.
Definition ledStripModeRainbow : Z := 3.
Definition ledStripModeScan : Z := 4.
Definition ledStripModeBinaryCounter : Z := 5.
Definition ledStripModeCount : Z := 6.

(** [LedStrip::numberOfLeds] *)
Definition numberOfLeds : Z := 240.

(** [TimerTick::millisPerTick], and the static constants of the handlers. *)
Definition millisPerTick : Z := 12.
Definition pastelShiftPixels : Z := 1.
Definition ledsVisitedPerFrame : nat := 11.

(** ** State *)

(** The function-local static variables. *)
Record Statics := mkStatics {
  pastel_currPixel : Z;
  rainbow_j : Z;
  scan_color : Z;
  scan_i : Z;
  scan_increment : Z;
  currentCounterValue : Z;
}.

Definition initial_statics : Statics := mkStatics 0 0 0 0 1 0.

(** [LedStripInternalInfo], the statics, how many random numbers were drawn,
    and what was sent to the strip so far. *)
Record LedStripInternalInfo := mkInfo {
  lpd8806 : LPD8806;
  currModeIndex : Z;
  secsUntilGoingToManualMode : Z;
  params : StringMap;
  statics : Statics;
  drawn : nat;
  bus : list bus_event;
}.

Definition set_strip (s : LPD8806) (i : LedStripInternalInfo) : LedStripInternalInfo :=
  mkInfo s (currModeIndex i) (secsUntilGoingToManualMode i) (params i) (statics i) (drawn i) (bus i).
Definition set_statics (st : Statics) (i : LedStripInternalInfo) : LedStripInternalInfo :=
  mkInfo (lpd8806 i) (currModeIndex i) (secsUntilGoingToManualMode i) (params i) st (drawn i) (bus i).
Definition set_mode (m secs : Z) (p : StringMap) (i : LedStripInternalInfo) : LedStripInternalInfo :=
  mkInfo (lpd8806 i) m secs p (statics i) (drawn i) (bus i).
Definition emit (out : list bus_event) (i : LedStripInternalInfo) : LedStripInternalInfo :=
  mkInfo (lpd8806 i) (currModeIndex i) (secsUntilGoingToManualMode i) (params i) (statics i)
    (drawn i) (bus i ++ out).
Definition draw (i : LedStripInternalInfo) : LedStripInternalInfo :=
  mkInfo (lpd8806 i) (currModeIndex i) (secsUntilGoingToManualMode i) (params i) (statics i)
    (S (drawn i)) (bus i).

Definition set_currPixel (z : Z) (st : Statics) : Statics :=
  mkStatics z (rainbow_j st) (scan_color st) (scan_i st) (scan_increment st) (currentCounterValue st).
Definition set_rainbow_j (z : Z) (st : Statics) : Statics :=
  mkStatics (pastel_currPixel st) z (scan_color st) (scan_i st) (scan_increment st)
    (currentCounterValue st).
Definition set_scan (color i increment : Z) (st : Statics) : Statics :=
  mkStatics (pastel_currPixel st) (rainbow_j st) color i increment (currentCounterValue st).
Definition set_counter (z : Z) (st : Statics) : Statics :=
  mkStatics (pastel_currPixel st) (rainbow_j st) (scan_color st) (scan_i st) (scan_increment st) z.

(** [lpd8806.show()] *)
Definition show_strip (i : LedStripInternalInfo) : LedStripInternalInfo :=
  let '(out, s) := show (lpd8806 i) in emit out (set_strip s i).

Definition clearPixelColorsAndShow (i : LedStripInternalInfo) : LedStripInternalInfo :=
  show_strip (set_strip (clearPixelColors (lpd8806 i)) i).

(** ** Parameters *)

(** The text of a color parameter; a missing or empty one counts as 0. *)
Definition color_text (p : StringMap) (name : string) : string :=
  match map_find name p with
  | Some v => if string_empty v then "0" else v
  | None => "0"
  end.

Definition getPixelColorParam (p : StringMap) : Z :=
  catch_all
    (let! red := stoi (color_text p "red") 0 in
     let! green := stoi (color_text p "green") 0 in
     let! blue := stoi (color_text p "blue") 0 in
     Ok (Color (u8 red) (u8 green) (u8 blue)))
    nullColor.

Definition wheel (wheelPos : Z) : Z :=
  let m := wheelPos mod 128 in
  let '(r, g, b) :=
    if wheelPos / 128 =? 0 then (127 - m, m, 0)
    else if wheelPos / 128 =? 1 then (0, 127 - m, m)
    else if wheelPos / 128 =? 2 then (m, 0, 127 - m)
    else (0, 0, 0) in
  Color (u8 r) (u8 g) (u8 b).

(** An [Int64U] initialized from an optional [stoll] parameter. *)
Definition ll_param (p : StringMap) (name : string) (default_value : Z) : res Z :=
  match map_find name p with
  | Some v => let! z := stoll v 0 in Ok (u64 z)
  | None => Ok default_value
  end.

(** [from] and [to] after the try block of [modeFillInit]. *)
Definition fill_range (p : StringMap) : Z * Z :=
  match ll_param p ledStripParamFrom 0 with
  | Throw _ => (0, 0)
  | Ok from => (from, catch_all (ll_param p ledStripParamTo 0) 0)
  end.

Section engine.
Variable engine : nat → Z.

(** [getRandomNumber(0x00fffffe) + 1] *)
Definition random_color (i : LedStripInternalInfo) : Z * LedStripInternalInfo :=
  (getRandomNumber (engine (drawn i)) 0x00fffffe + 1, draw i).

(** The color of the parameters, or a random one instead of the null color. *)
Definition pick_color (i : LedStripInternalInfo) : Z * LedStripInternalInfo :=
  if getPixelColorParam (params i) =? nullColor then random_color i
  else (getPixelColorParam (params i), i).

(** ** The modes *)

Definition modeManualInit (i : LedStripInternalInfo) : LedStripInternalInfo := i.

(** One iteration of the loop of [modePastelMain]. *)
Definition pastel_step (st : Z * Z * Z * Z * Z * LPD8806) : Z * Z * Z * Z * Z * LPD8806 :=
  let '(r, g, b, repeat, currPixel, s) := st in
  let '(r, g, b, repeat) :=
    if repeat <? 63 then (u8 (r + 1), g, b, repeat)
    else if repeat <? 63 * 2 then (r, g, u8 (b - 1), repeat)
    else if repeat <? 63 * 3 then (r, u8 (g + 1), b, repeat)
    else (63, 63, 127, -1) in
  let s := setPixelRGB (u16 currPixel) r g b s in
  let currPixel := currPixel + 1 in
  (r, g, b, repeat + 1, (if numPixels s <=? currPixel then 0 else currPixel), s).

Definition modePastelMain (i : LedStripInternalInfo) : LedStripInternalInfo :=
  let '(_, _, _, _, currPixel, s) :=
    for_range 0 (numPixels (lpd8806 i)) (λ _, pastel_step)
      (63, 63, 127, 0, pastel_currPixel (statics i), lpd8806 i) in
  let i := show_strip (set_strip s i) in
  let currPixel := currPixel + pastelShiftPixels in
  set_statics (set_currPixel (if numPixels (lpd8806 i) <=? currPixel then 0 else currPixel)
                 (statics i)) i.

(** One pixel of [modeFillInit]. *)
Definition fill_step (from to k : Z) (st : Z * LedStripInternalInfo) : Z * LedStripInternalInfo :=
  let '(color, i) := st in
  if negb (from =? 0) && (k + 1 <? from) then st
  else if negb (to =? 0) && (to <? k + 1) then st
  else
    let i := set_strip (setPixelColor k color (lpd8806 i)) i in
    if isParamSet (params i) ledStripParamExtra (Some "randomColor") then random_color i
    else (color, i).

Definition modeFillInit (i : LedStripInternalInfo) : LedStripInternalInfo :=
  let '(color, i) := pick_color i in
  let '(from, to) := fill_range (params i) in
  show_strip (for_range 0 (numPixels (lpd8806 i)) (fill_step from to) (color, i)).2.

Definition modeRainbowMain (i : LedStripInternalInfo) : LedStripInternalInfo :=
  let j := rainbow_j (statics i) in
  let s := for_range 0 (numPixels (lpd8806 i))
    (λ k s, setPixelColor k (wheel ((k * 384 / numPixels s + j) mod 384)) s) (lpd8806 i) in
  let i := show_strip (set_strip s i) in
  let j := u16 (j + 1) in
  set_statics (set_rainbow_j (if 384 <=? j then 0 else j) (statics i)) i.

(** One pass of the loop of [modeScanMain] up to the count of visited LEDs; the
    flag tells whether the strip was crossed back and the loop ends. *)
Definition scan_one (i : LedStripInternalInfo) : bool * LedStripInternalInfo :=
  let color := scan_color (statics i) in
  let n := scan_i (statics i) in
  let i := show_strip (set_strip (setPixelColor (u16 n) color (lpd8806 i)) i) in
  let i := set_strip (setPixelColor (u16 n) 0 (lpd8806 i)) i in
  let n := n + scan_increment (statics i) in
  if n =? -1 then
    (true, clearPixelColorsAndShow (set_statics (set_scan color 0 1 (statics i)) i))
  else
    (false, set_statics
      (if n =? numPixels (lpd8806 i) then set_scan color (n - 2) (-1) (statics i)
       else set_scan color n (scan_increment (statics i)) (statics i)) i).

(** The loop; [remaining] is [ledsVisitedPerFrame - ledsVisited]. *)
Fixpoint scan_loop (remaining : nat) (i : LedStripInternalInfo) : LedStripInternalInfo :=
  let '(crossed, i) := scan_one i in
  if crossed : bool then i
  else
    match remaining with
    | O => i
    | S remaining =>
        scan_loop remaining
          (emit (Pin <$> delayMilliseconds (Z.quot millisPerTick (Z.of_nat ledsVisitedPerFrame))) i)
    end.

Definition modeScanMain (i : LedStripInternalInfo) : LedStripInternalInfo :=
  let i :=
    if scan_i (statics i) =? 0 then
      let '(color, i) := pick_color i in
      set_statics (set_scan color (scan_i (statics i)) (scan_increment (statics i)) (statics i)) i
    else i in
  scan_loop ledsVisitedPerFrame i.

(** The loop over the bits; [remaining] is [numPixels() - 1 - pixel]. *)
Fixpoint counter_loop (remaining : nat) (pixel color tmpCounterValue : Z) (s : LPD8806) : LPD8806 :=
  match remaining with
  | O => s
  | S remaining =>
      if tmpCounterValue =? 0 then s
      else
        counter_loop remaining (pixel + 1) color (Z.shiftr tmpCounterValue 1)
          (setPixelColor (u16 pixel)
             (if negb (Z.land tmpCounterValue 0x1 =? 0) then color else 0) s)
  end.

Definition modeBinaryCounterMain (i : LedStripInternalInfo) : LedStripInternalInfo :=
  let last := u16 (numPixels (lpd8806 i) - 1) in
  let i :=
    if getPixelColor last (lpd8806 i) =? 0 then
      let start := catch_all (ll_param (params i) ledStripParamExtra 0) 0 in
      set_strip (setPixelColor last (Color 1 1 1) (clearPixelColors (lpd8806 i)))
        (set_statics (set_counter start (statics i)) i)
    else set_statics (set_counter (u64 (currentCounterValue (statics i) + 1)) (statics i)) i in
  let '(color, i) := pick_color i in
  show_strip (set_strip
    (counter_loop (Z.to_nat (numPixels (lpd8806 i) - 1)) 0 color
       (currentCounterValue (statics i)) (lpd8806 i)) i).

(** A handler that runs only when the extra parameter says so. *)
Definition when_extra (v : string) (f : LedStripInternalInfo → LedStripInternalInfo)
    (i : LedStripInternalInfo) : LedStripInternalInfo :=
  if isParamSet (params i) ledStripParamExtra (Some v) then f i else i.

Definition modePastelFast := when_extra "fast" modePastelMain.
Definition modePastel1Sec := when_extra "1sec" modePastelMain.
Definition modePastel10Sec := when_extra "10sec" modePastelMain.
Definition modePastel1Min := when_extra "1min" modePastelMain.
Definition modeRainbowFast := when_extra "fast" modeRainbowMain.
Definition modeRainbow1sec := when_extra "1sec" modeRainbowMain.
Definition modeRainbow10sec := when_extra "10sec" modeRainbowMain.
Definition modeScanFast (i : LedStripInternalInfo) : LedStripInternalInfo :=
  if negb (isParamSet (params i) ledStripParamExtra None)
     || isParamSet (params i) ledStripParamExtra (Some EmptyString)
  then modeScanMain i else i.
Definition modeScan1Sec := when_extra "1sec" modeScanMain.
Definition modeScan10Sec := when_extra "10sec" modeScanMain.
Definition modeScan1Min := when_extra "1min" modeScanMain.
Definition modeBinaryCounterFast := when_extra "fast" modeBinaryCounterMain.

(** A mode and its handlers; [None] is a null function pointer. *)
Definition handler : Type := option (LedStripInternalInfo → LedStripInternalInfo).

Record Mode := mkMode {
  ledStripMode : Z;
  ledStripModeStr : string;
  handlerInit : handler;
  handlerTickFast : handler;
  handlerTick1Sec : handler;
  handlerTick10Sec : handler;
  handlerTick1Min : handler;
}.

Definition modeManual : Mode :=
  mkMode ledStripModeManual "manual" (Some modeManualInit) None None None None.
Definition modePastel : Mode :=
  mkMode ledStripModePastel "pastel" (Some modePastelMain) (Some modePastelFast)
    (Some modePastel1Sec) (Some modePastel10Sec) (Some modePastel1Min).
Definition modeFill : Mode :=
  mkMode ledStripModeFill "fill" (Some modeFillInit) None None None None.
Definition modeRainbow : Mode :=
  mkMode ledStripModeRainbow "rainbow" (Some modeRainbowMain) (Some modeRainbowFast)
    (Some modeRainbow1sec) (Some modeRainbow10sec) (Some modeRainbowMain).
Definition modeScan : Mode :=
  mkMode ledStripModeScan "scan" None (Some modeScanFast) (Some modeScan1Sec)
    (Some modeScan10Sec) (Some modeScan1Min).
Definition modeBinaryCounter : Mode :=
  mkMode ledStripModeBinaryCounter "binCnt" None (Some modeBinaryCounterFast)
    (Some modeBinaryCounterMain) None None.

Definition allModes : list Mode :=
  [modeManual; modePastel; modeFill; modeRainbow; modeScan; modeBinaryCounter].

Definition current_mode (i : LedStripInternalInfo) : Mode :=
  default modeManual (allModes !! Z.to_nat (currModeIndex i)).

Definition getLedStripMode (i : LedStripInternalInfo) : Z := ledStripMode (current_mode i).

(** [if (handler != nullptr) ( *handler)(info);] *)
Definition call (h : handler) (i : LedStripInternalInfo) : LedStripInternalInfo :=
  match h with Some f => f i | None => i end.

Definition clear_requested (p : StringMap) : bool :=
  match map_find ledStripParamClearAllPixels p with
  | Some v => negb (string_empty v) && parseBooleanValue (Some (c_str v))
  | None => false
  end.

(** [secsUntilGoingToManualMode] from the timeout parameter. *)
Definition timeout_of (p : StringMap) : Z :=
  match map_find ledStripParamTimeout p with
  | Some v => if string_empty v then -1 else catch_all (stoi v 0) 0
  | None => -1
  end.

(** The loop over [allModes] stops at the first match. *)
Definition changeLedStripMode (wanted : Z) (p : StringMap) (i : LedStripInternalInfo)
    : LedStripInternalInfo :=
  match list_find (λ m, ledStripMode m = wanted) allModes with
  | None => i
  | Some (k, m) =>
      let i := if negb (getLedStripMode i =? wanted) || clear_requested p
               then clearPixelColorsAndShow i else i in
      call (handlerInit m) (set_mode (Z.of_nat k) (timeout_of p) p i)
  end.

Definition checkIfModeTimedOut (i : LedStripInternalInfo) : LedStripInternalInfo :=
  let secs := secsUntilGoingToManualMode i in
  if secs <? 0 then i
  else
    let i := set_mode (currModeIndex i) (secs - 1) (params i) i in
    if secs - 1 <? 0 then
      changeLedStripMode ledStripModeManual [(ledStripParamClearAllPixels, "yes")] i
    else i.

(** ** [LedStripInternal] *)
Definition fastTick (i : LedStripInternalInfo) := call (handlerTickFast (current_mode i)) i.
Definition tick1sec (i : LedStripInternalInfo) :=
  checkIfModeTimedOut (call (handlerTick1Sec (current_mode i)) i).
Definition tick10sec (i : LedStripInternalInfo) := call (handlerTick10Sec (current_mode i)) i.
Definition tick1min (i : LedStripInternalInfo) := call (handlerTick1Min (current_mode i)) i.

Definition doHandleModePost (postValues : StringMap) (i : LedStripInternalInfo)
    : LedStripInternalInfo :=
  match map_find ledStripParamLedStripMode postValues with
  | None => i
  | Some wantedModeStr =>
      if string_empty wantedModeStr then i
      else
        match stoi wantedModeStr 10 with
        | Ok m => changeLedStripMode m postValues i
        | Throw _ => i
        end
  end.

Definition internal_getLedStripModeStr (i : LedStripInternalInfo) : string :=
  ledStripModeStr (current_mode i).

Definition mode_name (m : Z) : string :=
  match list_find (λ md, ledStripMode md = m) allModes with
  | Some (_, md) => ledStripModeStr md
  | None => EmptyString
  end.

(** The constructor: begin, show, then the rainbow for three seconds. *)
Definition LedStripInternal_new (s : LPD8806) (st : Statics) (n : nat) : LedStripInternalInfo :=
  let '(out, s) := begin s in
  let i := show_strip (mkInfo s ledStripModeManual (-1) [] st n out) in
  changeLedStripMode ledStripModeRainbow [(ledStripParamTimeout, "3")] i.

Definition LedStripInternal_delete (i : LedStripInternalInfo) : LedStripInternalInfo :=
  let i := clearPixelColorsAndShow i in
  set_mode (currModeIndex i) (secsUntilGoingToManualMode i) [] i.

(** ** [LedStrip]: the requests of other threads and the thread's loop *)
Record LedStrip := mkLedStrip {
  ledStripTodos : list StringMap;
  internal : option LedStripInternalInfo;
}.

Definition enqueueMsgModePost (postValues : StringMap) (s : LedStrip) : LedStrip :=
  mkLedStrip (ledStripTodos s ++ [postValues]) (internal s).

Definition getInternalLedStripMode (s : LedStrip) : string :=
  match internal s with None => "starting" | Some i => internal_getLedStripModeStr i end.

Definition getLedStripModeStr (m : Z) (s : LedStrip) : string :=
  match internal s with
  | None => if m =? ledStripModeManual then "manual" else EmptyString
  | Some _ => mode_name m
  end.

Definition dequeueLedStripTodo (s : LedStrip) : option StringMap * LedStrip :=
  match ledStripTodos s with
  | [] => (None, s)
  | t :: rest => (Some t, mkLedStrip rest (internal s))
  end.

Definition on_internal (f : LedStripInternalInfo → LedStripInternalInfo) (s : LedStrip) : LedStrip :=
  mkLedStrip (ledStripTodos s) (f <$> internal s).

Definition checkTodoList (s : LedStrip) : LedStrip :=
  match dequeueLedStripTodo s with
  | (None, s) => s
  | (Some t, s) => on_internal (doHandleModePost t) s
  end.

(** One iteration of the loop of [runThreadLoop]: the message the inbox had,
    and which of the three slower timers expired; [None] when the loop ends. *)
Definition iteration (msg : option InboxMsg) (sec tenSec min : bool) (s : LedStrip)
    : option LedStrip :=
  match msg with
  | Some (mkInboxMsg inboxMsgTypeTerminate _) => None
  | _ =>
      let s := on_internal fastTick (checkTodoList s) in
      let s := if sec then on_internal tick1sec s else s in
      let s := if tenSec then on_internal tick10sec s else s in
      Some (if min then on_internal tick1min s else s)
  end.

(** What follows the loop. *)
Definition thread_exit (s : LedStrip) : option LedStripInternalInfo * LedStrip :=
  (LedStripInternal_delete <$> internal s, mkLedStrip (ledStripTodos s) None).

(** ** What every handler preserves *)

Definition statics_ok (n : Z) (st : Statics) : Prop :=
  0 <= pastel_currPixel st < n ∧ 0 <= rainbow_j st < 384 ∧
  (0 <= scan_i st < n ∧ (scan_increment st = 1 ∨ scan_increment st = -1)) ∧
  0 <= currentCounterValue st < 2 ^ 64.

(** The strip has at least two pixels and its offsets fit 16 bits. *)
Record led_ok (i : LedStripInternalInfo) : Prop := {
  strip_wf : wf (lpd8806 i);
  strip_size : 2 <= numLEDs (lpd8806 i) <= 21845;
  mode_range : 0 <= currModeIndex i < 6;
  statics_range : statics_ok (numLEDs (lpd8806 i)) (statics i);
}.

(** The settings a handler leaves alone. *)
Definition settings (i : LedStripInternalInfo) : Z * Z * StringMap * Z :=
  (currModeIndex i, secsUntilGoingToManualMode i, params i, numLEDs (lpd8806 i)).

Definition leads (i i' : LedStripInternalInfo) : Prop :=
  led_ok i → led_ok i' ∧ settings i' = settings i.

#[global] Instance leads_preorder : PreOrder leads.
Proof.
  split; [by intros i|]. intros i1 i2 i3 H1 H2 Hok.
  destruct (H1 Hok) as [Hok2 E2]. destruct (H2 Hok2) as [Hok3 E3]. by rewrite E3.
Qed.

Lemma leads_strip s i :
  (led_ok i → wf s ∧ numLEDs s = numLEDs (lpd8806 i)) → leads i (set_strip s i).
Proof.
  intros Hs Hok. destruct (Hs Hok) as [Hwf Hn]. destruct Hok.
  split; [|unfold settings; simpl; by rewrite Hn].
  constructor; simpl; rewrite ?Hn; done.
Qed.

Lemma leads_statics st i :
  (led_ok i → statics_ok (numLEDs (lpd8806 i)) st) → leads i (set_statics st i).
Proof. intros Hs Hok. specialize (Hs Hok). destruct Hok. by split; [constructor|]. Qed.

(** The range of the statics after one of them was set. *)
#[local] Ltac statics_lia :=
  intros [_ ? _ ?]; unfold statics_ok, set_currPixel, set_rainbow_j, set_scan, set_counter in *;
  cbn [pastel_currPixel rainbow_j scan_i scan_increment currentCounterValue] in *;
  repeat match goal with |- context [if ?a <=? ?b then _ else _] => destruct (Z.leb_spec a b) end;
  lia.

Lemma set_mode_ok m secs p i : led_ok i → 0 <= m < 6 → led_ok (set_mode m secs p i).
Proof. intros [] ?. by constructor. Qed.

Lemma leads_emit out i : leads i (emit out i).
Proof. intros []. by split; [constructor|]. Qed.

Lemma show_strip_statics i : statics (show_strip i) = statics i.
Proof. unfold show_strip. by destruct (show _). Qed.

Lemma leads_show i : leads i (show_strip i).
Proof.
  unfold show_strip. pose proof (show_wf (lpd8806 i)) as Hw.
  pose proof (show_numLEDs (lpd8806 i)) as Hn. destruct (show (lpd8806 i)) as [out s].
  etrans; [|apply leads_emit]. apply leads_strip. intros []. auto.
Qed.

Lemma leads_clear i : leads i (clearPixelColorsAndShow i).
Proof.
  etrans; [|apply leads_show]. apply leads_strip. intros [].
  by rewrite clearPixelColors_numLEDs; auto with strip.
Qed.

Lemma leads_pixel n c i :
  0 <= n → leads i (set_strip (setPixelColor n c (lpd8806 i)) i).
Proof.
  intros Hn. apply leads_strip. intros []. rewrite setPixelColor_numLEDs. auto with strip.
Qed.

Lemma leads_random i : leads i (random_color i).2.
Proof. intros []. by split; [constructor|]. Qed.

Lemma leads_pick i : leads i (pick_color i).2.
Proof. unfold pick_color. case_match; [apply leads_random|done]. Qed.

Lemma leads_for {A} (f : Z → A * LedStripInternalInfo → A * LedStripInternalInfo) n a i :
  (∀ k st, 0 <= k < n → leads st.2 (f k st).2) → leads i (for_range 0 n f (a, i)).2.
Proof.
  intros Hf. apply (for_range_inv (λ st, leads i st.2)); [done|].
  intros k st Hk Hst. etrans; [exact Hst|]. apply Hf. lia.
Qed.

Lemma pastel_step_ok n st :
  let ok st := let '(r, g, b, _, currPixel, s) := st in
    0 <= r < 256 ∧ 0 <= g < 256 ∧ 0 <= b < 256 ∧ 0 <= currPixel < n ∧
    wf s ∧ numLEDs s = n in
  n <= 21845 → ok st → ok (pastel_step st).
Proof.
  destruct st as [[[[[r g] b] repeat] cp] s]. cbv zeta. intros Hn (Hr & Hg & Hb & Hc & Hwf & Hs).
  unfold pastel_step, numPixels.
  destruct (if repeat <? 63 then _ else _) as [[[r' g'] b'] rep'] eqn:E.
  assert (0 <= r' < 256 ∧ 0 <= g' < 256 ∧ 0 <= b' < 256) as (Hr' & Hg' & Hb').
  { pose proof (u8_range (r + 1)). pose proof (u8_range (b - 1)). pose proof (u8_range (g + 1)).
    revert E. repeat case_match; intros; simplify_eq; lia. }
  pose proof (u16_range cp). rewrite setPixelRGB_numLEDs, Hs.
  split_and!; try lia; try (destruct (Z.leb_spec n (cp + 1)); lia).
  apply setPixelRGB_wf; done || lia.
Qed.

Lemma leads_pastel i : leads i (modePastelMain i).
Proof.
  intros Hok. unfold modePastelMain, numPixels.
  pose proof (strip_wf i Hok) as Hwf. pose proof (strip_size i Hok) as Hsz.
  pose proof (statics_range i Hok) as (Hc & _).
  pose proof (for_range_inv (λ st, let '(r, g, b, _, currPixel, s) := st in
    0 <= r < 256 ∧ 0 <= g < 256 ∧ 0 <= b < 256 ∧ 0 <= currPixel < numLEDs (lpd8806 i) ∧
    wf s ∧ numLEDs s = numLEDs (lpd8806 i)) 0 (numLEDs (lpd8806 i)) (λ _, pastel_step)
    (63, 63, 127, 0, pastel_currPixel (statics i), lpd8806 i)) as Hinv.
  destruct (for_range _ _ _ _) as [[[[[r g] b] rep] cp] s].
  destruct Hinv as (_ & _ & _ & Hcp & Hws & Hns).
  { split_and!; done || lia. }
  { intros k st _ Hst. apply pastel_step_ok; [lia|done]. }
  revert Hok. change (leads i (set_statics (set_currPixel
    (if numLEDs (lpd8806 (show_strip (set_strip s i))) <=? cp + 1 then 0 else cp + 1)
    (statics (show_strip (set_strip s i)))) (show_strip (set_strip s i)))).
  transitivity (show_strip (set_strip s i)).
  - etrans; [apply (leads_strip s)|apply leads_show]. done.
  - apply leads_statics. statics_lia.
Qed.

Lemma leads_fill i : leads i (modeFillInit i).
Proof.
  unfold modeFillInit. pose proof (leads_pick i) as Hp. destruct (pick_color i) as [color i1].
  destruct (fill_range (params i1)) as [from to].
  etrans; [exact Hp|]. etrans; [|apply leads_show]. apply leads_for.
  intros k [c i2] Hk. unfold fill_step. cbn [snd].
  destruct (_ && _); [done|]. destruct (_ && _); [done|].
  pose proof (leads_pixel k c i2 ltac:(lia)) as Hpix.
  destruct (isParamSet _ _ _); [|done]. etrans; [exact Hpix|apply leads_random].
Qed.

Lemma leads_rainbow i : leads i (modeRainbowMain i).
Proof.
  unfold modeRainbowMain.
  set (s := for_range _ _ _ _).
  transitivity (show_strip (set_strip s i)).
  - etrans; [apply (leads_strip s)|apply leads_show]. intros [].
    apply (for_range_inv (λ s, wf s ∧ numLEDs s = numLEDs (lpd8806 i))); [done|].
    intros k t Hk [? ?]. rewrite setPixelColor_numLEDs. split; [|done].
    apply setPixelColor_wf; [done|lia].
  - pose proof (u16_range (rainbow_j (statics i) + 1)).
    apply leads_statics. statics_lia.
Qed.

Lemma leads_scan_one i : leads i (scan_one i).2.
Proof.
  unfold scan_one. pose proof (u16_range (scan_i (statics i))).
  set (i1 := show_strip _). set (i2 := set_strip _ i1).
  assert (statics i2 = statics i) as Hst.
  { subst i2 i1. cbn [set_strip statics]. by rewrite show_strip_statics. }
  transitivity i2.
  { transitivity i1; [|apply leads_pixel; lia].
    etrans; [|apply leads_show]. apply leads_pixel. lia. }
  rewrite Hst. destruct (Z.eqb_spec (scan_i (statics i) + scan_increment (statics i)) (-1)).
  - etrans; [|apply leads_clear]. apply leads_statics. rewrite <-Hst. statics_lia.
  - apply leads_statics. unfold numPixels. rewrite <-Hst. intros [_ ? _ ?]. rewrite <-Hst in *.
    unfold statics_ok, set_scan in *. destruct (Z.eqb_spec (scan_i (statics i2) +
      scan_increment (statics i2)) (numLEDs (lpd8806 i2)));
      cbn [pastel_currPixel rainbow_j scan_i scan_increment currentCounterValue]; lia.
Qed.

Lemma leads_scan_loop n i : leads i (scan_loop n i).
Proof.
  revert i. induction n as [|n IH]; intros i; cbn [scan_loop];
    pose proof (leads_scan_one i) as H1; destruct (scan_one i) as [[] i1]; try done.
  etrans; [exact H1|]. etrans; [apply leads_emit|apply IH].
Qed.

Lemma leads_scan i : leads i (modeScanMain i).
Proof.
  unfold modeScanMain. etrans; [|apply leads_scan_loop].
  destruct (_ =? _); [|done].
  pose proof (leads_pick i) as Hp. destruct (pick_color i) as [c i1]. etrans; [exact Hp|].
  apply leads_statics. statics_lia.
Qed.

Lemma counter_loop_ok n p c v s :
  wf s → wf (counter_loop n p c v s) ∧ numLEDs (counter_loop n p c v s) = numLEDs s.
Proof.
  revert p v s. induction n as [|n IH]; intros p v s Hs; simpl; [done|].
  destruct (v =? 0); [done|]. pose proof (u16_range p).
  destruct (IH (p + 1) (Z.shiftr v 1) (setPixelColor (u16 p)
    (if negb (Z.land v 1 =? 0) then c else 0) s)) as [? E]; [apply setPixelColor_wf; done || lia|].
  by rewrite E, setPixelColor_numLEDs.
Qed.

Lemma ll_param_range p k : 0 <= catch_all (ll_param p k 0) 0 < 2 ^ 64.
Proof.
  unfold ll_param. destruct (map_find k p) as [v|]; [|done].
  destruct (stoll v 0); simpl; [apply u64_range|done].
Qed.

Lemma leads_counter i : leads i (modeBinaryCounterMain i).
Proof.
  unfold modeBinaryCounterMain. set (last := u16 _). pose proof (u16_range (numPixels (lpd8806 i) - 1)).
  set (i1 := if _ =? 0 then _ else _).
  transitivity i1.
  - subst i1. destruct (_ =? 0).
    + etrans; [apply (leads_statics (set_counter (catch_all
        (ll_param (params i) ledStripParamExtra 0) 0) (statics i)))|].
      * pose proof (ll_param_range (params i) ledStripParamExtra). statics_lia.
      * apply leads_strip. intros []. rewrite setPixelColor_numLEDs, clearPixelColors_numLEDs.
        split; [|done]. apply setPixelColor_wf; [|lia]. by apply clearPixelColors_wf.
    + pose proof (u64_range (currentCounterValue (statics i) + 1)).
      apply leads_statics. statics_lia.
  - pose proof (leads_pick i1) as Hp. destruct (pick_color i1) as [c i2].
    etrans; [exact Hp|]. etrans; [|apply leads_show]. apply leads_strip.
    intros []. by apply counter_loop_ok.
Qed.

Lemma leads_extra v f i : (∀ i, leads i (f i)) → leads i (when_extra v f i).
Proof. intros Hf. unfold when_extra. destruct (isParamSet _ _ _); [apply Hf|done]. Qed.

(** Every handler of every mode. *)
Lemma leads_handlers :
  Forall (λ m, ∀ i, leads i (call (handlerInit m) i) ∧ leads i (call (handlerTickFast m) i) ∧
    leads i (call (handlerTick1Sec m) i) ∧ leads i (call (handlerTick10Sec m) i) ∧
    leads i (call (handlerTick1Min m) i)) allModes.
Proof.
  unfold allModes. rewrite !Forall_cons. split_and!; [..|apply Forall_nil_2];
    intros i; split_and!;
    cbn [call handlerInit handlerTickFast handlerTick1Sec handlerTick10Sec handlerTick1Min
      modeManual modePastel modeFill modeRainbow modeScan modeBinaryCounter];
    try reflexivity; try (apply leads_extra; intros);
    auto using leads_pastel, leads_fill, leads_rainbow, leads_counter, leads_scan.
  unfold modeScanFast. destruct (_ || _); [apply leads_scan|done].
Qed.

Lemma current_mode_in i : current_mode i ∈ allModes.
Proof.
  unfold current_mode. destruct (allModes !! _) eqn:E; simpl; [|by left].
  by eapply list_elem_of_lookup_2.
Qed.

Lemma mode_at k i : allModes !! k = Some (current_mode i) → ledStripMode (current_mode i) = Z.of_nat k.
Proof.
  do 6 (destruct k as [|k]; [by intros [= <-]|]). done.
Qed.

Lemma getLedStripMode_index i : 0 <= currModeIndex i < 6 → getLedStripMode i = currModeIndex i.
Proof.
  intros Hi. unfold getLedStripMode. rewrite (mode_at (Z.to_nat (currModeIndex i))); [lia|].
  unfold current_mode. destruct (allModes !! Z.to_nat (currModeIndex i)) eqn:E; [done|].
  apply lookup_ge_None in E. simpl in E. lia.
Qed.

(** A change to a mode that exists, and to one that does not. *)
Lemma change_known m p i :
  0 <= m < 6 →
  ∃ md, md ∈ allModes ∧ changeLedStripMode m p i =
    call (handlerInit md) (set_mode m (timeout_of p) p
      (if negb (getLedStripMode i =? m) || clear_requested p
       then clearPixelColorsAndShow i else i)).
Proof.
  intros Hm. exists (default modeManual (allModes !! Z.to_nat m)).
  assert (m = 0 ∨ m = 1 ∨ m = 2 ∨ m = 3 ∨ m = 4 ∨ m = 5) as Hc by lia.
  destruct Hc as [->|[->|[->|[->|[->| ->]]]]]; (split; [|reflexivity]);
    apply list_elem_of_In; simpl; tauto.
Qed.

Lemma change_unknown m p i : ¬ 0 <= m < 6 → changeLedStripMode m p i = i.
Proof.
  intros Hm. unfold changeLedStripMode. cbn.
  repeat case_decide; try done; unfold ledStripModeManual, ledStripModePastel, ledStripModeFill,
    ledStripModeRainbow, ledStripModeScan, ledStripModeBinaryCounter in *; lia.
Qed.

Lemma change_ok m p i :
  led_ok i → 0 <= m < 6 →
  led_ok (changeLedStripMode m p i) ∧
  settings (changeLedStripMode m p i) = (m, timeout_of p, p, numLEDs (lpd8806 i)).
Proof.
  intros Hok Hm. destruct (change_known m p i Hm) as (md & Hmd & ->).
  set (i1 := if _ : bool then _ else i).
  assert (leads i i1) as Hi1 by (subst i1; destruct (_ || _); [apply leads_clear|done]).
  destruct (Hi1 Hok) as [Hok1 E1]. injection E1 as _ _ _ En.
  destruct (proj1 (Forall_forall _ _) leads_handlers md Hmd (set_mode m (timeout_of p) p i1))
    as [Hh _].
  destruct Hh as [Hok2 E2].
  - destruct Hok1. by constructor.
  - split; [done|]. rewrite E2. unfold settings. simpl. by rewrite En.
Qed.

(** ** Runs of the component *)

Inductive led_event := EFast | ESec | ETenSec | EMin | EPost (p : StringMap).

Definition led_step (i : LedStripInternalInfo) (e : led_event) : LedStripInternalInfo :=
  match e with
  | EFast => fastTick i
  | ESec => tick1sec i
  | ETenSec => tick10sec i
  | EMin => tick1min i
  | EPost p => doHandleModePost p i
  end.

Definition led_run (i : LedStripInternalInfo) (evs : list led_event) : LedStripInternalInfo :=
  foldl led_step i evs.

Lemma fast_leads i : leads i (fastTick i).
Proof. apply (proj1 (Forall_forall _ _) leads_handlers _ (current_mode_in i)). Qed.
Lemma sec_leads i : leads i (call (handlerTick1Sec (current_mode i)) i).
Proof. apply (proj1 (Forall_forall _ _) leads_handlers _ (current_mode_in i)). Qed.
Lemma tenSec_leads i : leads i (tick10sec i).
Proof. apply (proj1 (Forall_forall _ _) leads_handlers _ (current_mode_in i)). Qed.
Lemma min_leads i : leads i (tick1min i).
Proof. apply (proj1 (Forall_forall _ _) leads_handlers _ (current_mode_in i)). Qed.

Lemma check_ok i :
  led_ok i → led_ok (checkIfModeTimedOut i) ∧
  settings (checkIfModeTimedOut i) =
    if secsUntilGoingToManualMode i <? 0 then settings i
    else if secsUntilGoingToManualMode i =? 0
    then (0, -1, [(ledStripParamClearAllPixels, "yes")], numLEDs (lpd8806 i))
    else (currModeIndex i, secsUntilGoingToManualMode i - 1, params i, numLEDs (lpd8806 i)).
Proof.
  intros Hok. unfold checkIfModeTimedOut.
  destruct (Z.ltb_spec (secsUntilGoingToManualMode i) 0); [done|].
  assert (led_ok (set_mode (currModeIndex i) (secsUntilGoingToManualMode i - 1) (params i) i)) as Hok1.
  { destruct Hok. by constructor. }
  destruct (Z.ltb_spec (secsUntilGoingToManualMode i - 1) 0), (Z.eqb_spec (secsUntilGoingToManualMode i) 0);
    try lia; [|done].
  by apply (change_ok ledStripModeManual [(ledStripParamClearAllPixels, "yes")] _ Hok1).
Qed.

Lemma led_step_ok i e : led_ok i → led_ok (led_step i e).
Proof.
  intros Hok. destruct e; simpl.
  - by apply fast_leads.
  - apply check_ok. by apply sec_leads.
  - by apply tenSec_leads.
  - by apply min_leads.
  - unfold doHandleModePost. destruct (map_find _ _) as [v|]; [|done].
    destruct (string_empty v); [done|]. destruct (stoi v 10) as [m|]; [|done].
    destruct (decide (0 <= m < 6)); [by apply change_ok|by rewrite change_unknown].
Qed.

Lemma led_run_ok i evs : led_ok i → led_ok (led_run i evs).
Proof.
  revert i. induction evs as [|e evs IH]; intros i Hok; [done|]. by apply IH, led_step_ok.
Qed.

(** ** Timeouts *)

Definition dark (i : LedStripInternalInfo) : Prop :=
  ∀ k, 0 <= k → getPixelColor k (lpd8806 i) = 0.

Definition is_post (e : led_event) : bool := match e with EPost _ => true | _ => false end.
Definition is_sec (e : led_event) : bool := match e with ESec => true | _ => false end.

(** How many one-second ticks a run has. *)
Definition seconds (evs : list led_event) : Z := Z.of_nat (length (filter (λ e, is_sec e = true) evs)).

Lemma clear_show_dark i : led_ok i → dark (clearPixelColorsAndShow i).
Proof.
  intros [Hwf [_ Hsz] _ _] k Hk. unfold clearPixelColorsAndShow, show_strip.
  pose proof (getPixelColor_show (clearPixelColors (lpd8806 i)) k) as E. cbn [lpd8806 set_strip].
  destruct (show (clearPixelColors (lpd8806 i))) as [out s]. cbn [lpd8806 set_strip emit snd] in *.
  rewrite E. by apply getPixelColor_clear.
Qed.

Lemma getLedStripMode_ok i : led_ok i → getLedStripMode i = currModeIndex i.
Proof. intros []. by apply getLedStripMode_index. Qed.

(** A mode that is no longer timed and shows nothing. *)
Definition resting (i : LedStripInternalInfo) : Prop :=
  led_ok i ∧ dark i ∧ currModeIndex i = 0 ∧ secsUntilGoingToManualMode i = -1.

Lemma rest_step i e : is_post e = false → resting i → resting (led_step i e).
Proof.
  intros He (Hok & Hd & Hm & Hs).
  assert (current_mode i = modeManual) as Hcur by (unfold current_mode; by rewrite Hm).
  assert (led_step i e = i) as ->; [|done].
  destruct e; try done; simpl; unfold fastTick, tick1sec, tick10sec, tick1min; rewrite Hcur; try done.
  cbn. unfold checkIfModeTimedOut. by rewrite Hs.
Qed.

(** Timed mode [m] with parameters [p] and [t] seconds to go. *)
Definition timed (m t : Z) (p : StringMap) (i : LedStripInternalInfo) : Prop :=
  led_ok i ∧ currModeIndex i = m ∧ secsUntilGoingToManualMode i = t ∧ params i = p.

Lemma timed_step m t p i e :
  is_post e = false → 0 <= t → timed m t p i →
  let i' := led_step i e in
  if is_sec e then (if t =? 0 then resting i' else timed m (t - 1) p i') else timed m t p i'.
Proof.
  intros He Ht (Hok & Hm & Hs & Hp). unfold timed.
  assert (∀ i', leads i i' → led_ok i' ∧ currModeIndex i' = m ∧
    secsUntilGoingToManualMode i' = t ∧ params i' = p) as Hkeep.
  { intros i' Hl. destruct (Hl Hok) as [? E]. injection E. intros. split; [done|].
    split_and!; congruence. }
  destruct e; try done; cbn [is_sec led_step];
    [apply Hkeep, fast_leads| |apply Hkeep, tenSec_leads|apply Hkeep, min_leads].
  unfold tick1sec. destruct (Hkeep _ (sec_leads i)) as (Hok1 & Hm1 & Hs1 & Hp1).
  set (i1 := call _ i) in *. destruct (check_ok i1 Hok1) as [Hok2 E2]. rewrite Hs1 in E2.
  destruct (Z.ltb_spec t 0); [lia|]. destruct (Z.eqb_spec t 0) as [->|].
  - injection E2 as Em Es Epar _. split; [done|]. split; [|done].
    unfold checkIfModeTimedOut. rewrite Hs1. simpl.
    match goal with |- dark (changeLedStripMode _ ?q ?j) => set (par := q); set (i2 := j) end.
    change (changeLedStripMode ledStripModeManual par i2) with
      (set_mode 0 (timeout_of par) par
        (if negb (getLedStripMode i2 =? 0) || clear_requested par
         then clearPixelColorsAndShow i2 else i2)).
    change (clear_requested par) with true. rewrite orb_true_r.
    apply clear_show_dark. subst i2. destruct Hok1. by constructor.
  - injection E2 as Em Es Epar _. split; [done|]. split_and!; congruence.
Qed.

Lemma seconds_snoc evs e :
  seconds (evs ++ [e]) = seconds evs + (if is_sec e then 1 else 0).
Proof.
  unfold seconds. rewrite filter_app, length_app. unfold filter at 2. simpl.
  case_decide as E; [rewrite E; simpl; lia|].
  destruct (is_sec e); [done|simpl; lia].
Qed.

Lemma timed_run m t p i evs :
  0 <= t → timed m t p i → Forall (λ e, is_post e = false) evs →
  if seconds evs <=? t then timed m (t - seconds evs) p (led_run i evs)
  else resting (led_run i evs).
Proof.
  intros Ht Hi. induction evs as [|e evs IH] using rev_ind; intros Hf.
  - change (seconds []) with 0. destruct (Z.leb_spec 0 t); [|lia]. by rewrite Z.sub_0_r.
  - apply Forall_app in Hf as [Hf He]. apply Forall_cons in He as [He _]. specialize (IH Hf).
    rewrite seconds_snoc. unfold led_run in *. rewrite foldl_app. simpl.
    destruct (Z.leb_spec (seconds evs) t).
    + assert (0 <= t - seconds evs) as Hrem by lia.
      pose proof (timed_step _ _ _ _ _ He Hrem IH) as Hs. simpl in Hs.
      destruct (is_sec e).
      * destruct (Z.eqb_spec (t - seconds evs) 0);
          destruct (Z.leb_spec (seconds evs + 1) t); try lia; [done|].
        by replace (t - (seconds evs + 1)) with (t - seconds evs - 1) by lia.
      * rewrite Z.add_0_r. by destruct (Z.leb_spec (seconds evs) t); [|lia].
    + apply (rest_step _ e He) in IH. destruct (Z.leb_spec (seconds evs + (if is_sec e then 1 else 0)) t);
        [destruct (is_sec e); lia|done].
Qed.

(** ** The binary counter *)

Lemma land1_testbit v : negb (Z.land v 1 =? 0) = Z.testbit v 0.
Proof. change 1 with (2 ^ 0). by rewrite land_pow2_eqb, negb_involutive by lia. Qed.

Lemma counter_loop_pixels n p c v s q :
  wf s → numLEDs s <= 21845 → 0 <= p → p + Z.of_nat n <= numLEDs s → 0 <= q → 0 <= v →
  getPixelColor q (counter_loop n p c v s) =
  if (p <=? q) && (q <? p + Z.of_nat n) && negb (Z.shiftr v (q - p) =? 0)
  then (if Z.testbit v (q - p) then Z.land c 0x7f7f7f else 0) else getPixelColor q s.
Proof.
  revert p v s. induction n as [|n IH]; intros p v s Hwf Hs Hp Hn Hq Hv; cbn [counter_loop].
  - destruct (Z.leb_spec p q), (Z.ltb_spec q (p + Z.of_nat 0)); try lia; done.
  - destruct (Z.eqb_spec v 0) as [->|Hv0].
    { rewrite Z.shiftr_0_l. by rewrite andb_false_r. }
    rewrite (u16_small p), land1_testbit by lia.
    rewrite IH; rewrite ?setPixelColor_numLEDs; try lia;
      [|by apply setPixelColor_wf|by apply Z.shiftr_nonneg].
    rewrite getPixelColor_set by (done || lia).
    destruct (decide (q = p)) as [->|Hne].
    + destruct (Z.leb_spec (p + 1) p); [lia|]. cbn [andb].
      destruct (Z.leb_spec p p); [|lia]. destruct (Z.ltb_spec p (p + Z.of_nat (S n))); [|lia].
      rewrite Z.sub_diag, Z.shiftr_0_r. destruct (Z.eqb_spec v 0); [done|].
      cbn [andb negb]. by destruct (Z.testbit v 0).
    + destruct (Z.leb_spec (p + 1) q), (Z.leb_spec p q); try lia; [|done].
      rewrite Z.shiftr_shiftr, Z.shiftr_spec by lia.
      replace (1 + (q - (p + 1))) with (q - p) by lia.
      replace (q - (p + 1) + 1) with (q - p) by lia.
      destruct (Z.ltb_spec q (p + 1 + Z.of_nat n)), (Z.ltb_spec q (p + Z.of_nat (S n))); try lia; done.
Qed.

(** The strip shows the value [v] in color [c], with the marker lit. *)
Definition showing (c v : Z) (i : LedStripInternalInfo) : Prop :=
  led_ok i ∧ getPixelColorParam (params i) = c ∧ currentCounterValue (statics i) = v ∧
  getPixelColor (numLEDs (lpd8806 i) - 1) (lpd8806 i) ≠ 0 ∧
  ∀ q, 0 <= q < numLEDs (lpd8806 i) - 1 →
    getPixelColor q (lpd8806 i) = if Z.testbit v q then Z.land c 0x7f7f7f else 0.

Lemma show_strip_pixel i k : getPixelColor k (lpd8806 (show_strip i)) = getPixelColor k (lpd8806 i).
Proof.
  unfold show_strip. pose proof (getPixelColor_show (lpd8806 i) k) as E.
  destruct (show (lpd8806 i)) as [out s]. done.
Qed.
Lemma show_strip_size i : numLEDs (lpd8806 (show_strip i)) = numLEDs (lpd8806 i).
Proof.
  unfold show_strip. pose proof (show_numLEDs (lpd8806 i)) as E.
  by destruct (show (lpd8806 i)) as [out s].
Qed.

(** A pass with a given color, in terms of the pixels before the bit loop. *)
Lemma counter_pass i :
  led_ok i → getPixelColorParam (params i) ≠ nullColor →
  let n := numLEDs (lpd8806 i) in
  let fresh := getPixelColor (n - 1) (lpd8806 i) =? 0 in
  let v := if fresh then catch_all (ll_param (params i) ledStripParamExtra 0) 0
           else u64 (currentCounterValue (statics i) + 1) in
  let i' := modeBinaryCounterMain i in
  currentCounterValue (statics i') = v ∧
  ∀ q, 0 <= q < n → getPixelColor q (lpd8806 i') =
    if (q <? n - 1) && negb (Z.shiftr v q =? 0)
    then (if Z.testbit v q then Z.land (getPixelColorParam (params i)) 0x7f7f7f else 0)
    else if fresh then (if q =? n - 1 then 0x010101 else 0) else getPixelColor q (lpd8806 i).
Proof.
  intros [Hwf Hsz _ _] Hc. cbv zeta. unfold modeBinaryCounterMain, numPixels.
  rewrite (u16_small (numLEDs (lpd8806 i) - 1)) by lia.
  set (n := numLEDs (lpd8806 i)) in *. set (fresh := getPixelColor (n - 1) (lpd8806 i) =? 0).
  set (i1 := if fresh then _ else _).
  assert (params i1 = params i) as Hpar by (subst i1; by destruct fresh).
  unfold pick_color. rewrite Hpar. destruct (Z.eqb_spec (getPixelColorParam (params i)) nullColor); [done|].
  rewrite show_strip_statics. split; [subst i1; by destruct fresh|].
  intros q Hq. rewrite show_strip_pixel. cbn [lpd8806 set_strip].
  assert (wf (lpd8806 i1) ∧ numLEDs (lpd8806 i1) = n ∧ 0 <= currentCounterValue (statics i1) ∧
    currentCounterValue (statics i1) = (if fresh
      then catch_all (ll_param (params i) ledStripParamExtra 0) 0
      else u64 (currentCounterValue (statics i) + 1)) ∧
    getPixelColor q (lpd8806 i1) = if fresh then (if q =? n - 1 then 0x010101 else 0)
      else getPixelColor q (lpd8806 i)) as (Hw1 & Hn1 & Hv1 & Ev & Hpix).
  { subst i1. pose proof (clearPixelColors_wf (lpd8806 i) Hwf) as Hwc.
    pose proof (clearPixelColors_numLEDs (lpd8806 i)) as Enc. fold n in Enc.
    pose proof (u64_range (currentCounterValue (statics i) + 1)).
    pose proof (ll_param_range (params i) ledStripParamExtra).
    destruct fresh; cbn [lpd8806 statics set_strip set_statics currentCounterValue set_counter].
    - rewrite setPixelColor_numLEDs, getPixelColor_set by (done || lia).
      rewrite getPixelColor_clear by (done || lia).
      split_and!; try done; try lia; [apply setPixelColor_wf; done || lia|].
      destruct (Z.eqb_spec q (n - 1)); [by rewrite decide_True|by rewrite decide_False].
    - split_and!; done || lia. }
  rewrite Hn1, counter_loop_pixels by (done || lia).
  rewrite Z.sub_0_r, Hpix, Ev, Z2Nat.id by lia. destruct (Z.leb_spec 0 q); [|lia].
  by rewrite Z.add_0_l.
Qed.

Lemma small_shiftr v q : 0 <= v → 0 <= q → Z.shiftr v q = 0 → Z.testbit v q = false.
Proof.
  intros Hv Hq E. apply (f_equal (λ z, Z.testbit z 0)) in E.
  by rewrite Z.shiftr_spec, Z.add_0_l, Z.testbit_0_l in E by lia.
Qed.

Lemma counter_start i :
  led_ok i → Z.land (getPixelColorParam (params i)) 0x7f7f7f ≠ 0 →
  getPixelColor (numLEDs (lpd8806 i) - 1) (lpd8806 i) = 0 →
  showing (getPixelColorParam (params i)) (catch_all (ll_param (params i) ledStripParamExtra 0) 0)
    (modeBinaryCounterMain i).
Proof.
  intros Hok Hc Hlast. destruct (counter_pass i Hok) as [Ev Hpix]; [by intros E; rewrite E in Hc|].
  rewrite Hlast in Ev, Hpix. cbn [Z.eqb] in Ev, Hpix.
  destruct (leads_counter i Hok) as [Hok' E]. injection E as _ _ Epar En.
  pose proof (strip_size i Hok). pose proof (ll_param_range (params i) ledStripParamExtra) as Hr.
  split; [done|]. split; [by rewrite Epar|]. split; [done|]. rewrite En. split.
  - rewrite Hpix by lia. rewrite Z.ltb_irrefl, Z.eqb_refl. done.
  - intros q Hq. rewrite Hpix by lia. destruct (Z.ltb_spec q (numLEDs (lpd8806 i) - 1)); [|lia].
    destruct (Z.eqb_spec (Z.shiftr (catch_all (ll_param (params i) ledStripParamExtra 0) 0) q) 0) as [Ez|];
      [|done]. apply small_shiftr in Ez; [|lia..]. rewrite Ez. cbn [andb negb].
    destruct (Z.eqb_spec q (numLEDs (lpd8806 i) - 1)); [lia|done].
Qed.

Lemma counter_next c v i :
  Z.land c 0x7f7f7f ≠ 0 → showing c v i → 0 <= v → v + 1 < 2 ^ 64 →
  showing c (v + 1) (modeBinaryCounterMain i).
Proof.
  intros Hc (Hok & Hpc & Hv & Hlast & Hsh) Hv0 Hv1.
  destruct (counter_pass i Hok) as [Ev Hpix]; [by intros E; rewrite <-Hpc, E in Hc|].
  rewrite Hpc, Hv, u64_small in * by lia.
  destruct (Z.eqb_spec (getPixelColor (numLEDs (lpd8806 i) - 1) (lpd8806 i)) 0); [done|].
  destruct (leads_counter i Hok) as [Hok' E]. injection E as _ _ Epar En.
  pose proof (strip_size i Hok).
  split; [done|]. split; [by rewrite Epar|]. split; [done|]. rewrite En. split.
  - rewrite Hpix by lia. by rewrite Z.ltb_irrefl.
  - intros q Hq. rewrite Hpix by lia. destruct (Z.ltb_spec q (numLEDs (lpd8806 i) - 1)); [|lia].
    destruct (Z.eqb_spec (Z.shiftr (v + 1) q) 0) as [Ez|]; [|done].
    cbn [andb negb]. rewrite Hsh, (small_shiftr (v + 1) q) by (done || lia).
    rewrite Z.shiftr_div_pow2 in Ez by lia.
    assert (v + 1 < 2 ^ q) as Hb.
    { apply Z.div_small_iff in Ez; [lia|]. pose proof (Z.pow_pos_nonneg 2 q). lia. }
    by rewrite (testbit_small v q q) by lia.
Qed.

Lemma internal_new_ok s st n :
  wf s → 2 <= numLEDs s <= 21845 → statics_ok (numLEDs s) st → led_ok (LedStripInternal_new s st n).
Proof.
  intros Hwf Hs Hst. unfold LedStripInternal_new. destruct (begin s) as [out s1] eqn:E.
  assert (numLEDs s1 = numLEDs s ∧ wf s1) as [Hn Hw].
  { unfold begin in E. injection E as _ <-. split; [done|].
    pose proof Hwf as (_ & _ & _ & _ & ?). by apply (wf_pixels_irrel s). }
  apply change_ok; [|done]. apply leads_show. by constructor; simpl; rewrite ?Hn.
Qed.
End engine.

(** ** Properties *)

(** C19: whatever requests and timer ticks the component sees after it started
    on a well-formed strip of at least two pixels, and whatever random numbers
    are drawn, the strip stays well-formed and of its size, the mode is one of
    the six, and the positions the modes keep between calls stay within the
    strip, the color wheel and 64 bits. *)
Theorem strip_modes_safe engine s st n evs :
  wf s → 2 <= numLEDs s <= 21845 → statics_ok (numLEDs s) st →
  let i := led_run engine (LedStripInternal_new engine s st n) evs in
  wf (lpd8806 i) ∧ 2 <= numLEDs (lpd8806 i) <= 21845 ∧
  (∃ m, allModes engine !! Z.to_nat (currModeIndex i) = Some m ∧
    ledStripMode m = currModeIndex i) ∧
  statics_ok (numLEDs (lpd8806 i)) (statics i).
Proof.
  intros Hwf Hs Hst i.
  assert (led_ok i) as Hok by by apply led_run_ok, internal_new_ok.
  destruct Hok as [Hw Hsz Hm Hstat]. split_and!; try done; try lia.
  pose proof (getLedStripMode_index engine i Hm) as E. unfold getLedStripMode, current_mode in E.
  destruct (allModes engine !! Z.to_nat (currModeIndex i)) as [m|] eqn:El; [by exists m|].
  apply lookup_ge_None in El. simpl in El. lia.
Qed.

(** A strip of eight pixels. *)
Definition demo_led : LPD8806 := mkLPD8806 true 8 7 (Live (replicate 24%nat 0x80)) 0 0 false.

Lemma demo_led_wf : wf demo_led.
Proof.
  unfold wf. split_and!; try (simpl; lia); try done. exact (replicate_off_wf 24).
Qed.

Lemma strip_modes_safe_witness :
  let post := [(ledStripParamExtra, "fast"); (ledStripParamLedStripMode, "5")] in
  let i := led_run (λ _, 7) (LedStripInternal_new (λ _, 7) demo_led initial_statics 0)
    [EPost post; EFast; ESec] in
  currModeIndex i = 5 ∧ wf (lpd8806 i) ∧ 2 <= numLEDs (lpd8806 i) <= 21845 ∧
  (∃ m, allModes (λ _, 7) !! Z.to_nat (currModeIndex i) = Some m ∧
    ledStripMode m = currModeIndex i) ∧
  statics_ok (numLEDs (lpd8806 i)) (statics i).
Proof.
  split; [by vm_compute|].
  apply (strip_modes_safe (λ _, 7) demo_led initial_statics 0); [apply demo_led_wf|done|].
  split_and!; simpl; lia || auto.
Defined.

(** C28: a mode runs for the time asked for. After a request for mode [m] with
    timeout [t], the component stays in the mode with its parameters during
    [t] one-second ticks, whatever faster and slower ticks come in between;
    with the next one it goes to manual mode with every pixel off, and stays
    there. A malformed timeout counts as zero seconds. *)
Theorem mode_times_out engine i post m t ts evs :
  led_ok i →
  map_find ledStripParamLedStripMode post = Some ts → stoi ts 10 = Ok m → 0 <= m < 6 →
  timeout_of post = t → 0 <= t →
  Forall (λ e, is_post e = false) evs →
  let i' := led_run engine (doHandleModePost engine post i) evs in
  if seconds evs <=? t then
    getLedStripMode engine i' = m ∧ params i' = post ∧
    secsUntilGoingToManualMode i' = t - seconds evs
  else
    getLedStripMode engine i' = ledStripModeManual ∧ secsUntilGoingToManualMode i' = -1 ∧ dark i'.
Proof.
  intros Hok Hfind Hstoi Hm Ht Ht0 Hev.
  assert (timed m t post (doHandleModePost engine post i)) as Htimed.
  { unfold doHandleModePost. rewrite Hfind, Hstoi.
    destruct (string_empty ts) eqn:Ee; [by destruct ts|].
    destruct (change_ok engine m post i Hok Hm) as [Hok' E]. injection E as Em Es Ep _.
    split; [done|]. by rewrite Es. }
  pose proof (timed_run engine m t post _ evs Ht0 Htimed Hev) as H. cbv zeta.
  destruct (seconds evs <=? t).
  - destruct H as (Hok' & ? & ? & ?). split; [|done]. by rewrite getLedStripMode_ok.
  - destruct H as (Hok' & ? & ? & ?). split; [by rewrite getLedStripMode_ok|done].
Qed.

Definition demo_info : LedStripInternalInfo := LedStripInternal_new (λ _, 7) demo_led initial_statics 0.

Lemma demo_info_ok : led_ok demo_info.
Proof.
  apply internal_new_ok; [apply demo_led_wf|done|]. split_and!; simpl; lia || auto.
Qed.

Lemma mode_times_out_witness :
  let post := [(ledStripParamLedStripMode, "1"); (ledStripParamTimeout, "2")] in
  let i' := led_run (λ _, 7) (doHandleModePost (λ _, 7) post demo_info) [EFast; ESec; EMin; ESec; ESec] in
  getLedStripMode (λ _, 7) i' = ledStripModeManual ∧ secsUntilGoingToManualMode i' = -1 ∧ dark i'.
Proof.
  apply (mode_times_out (λ _, 7) demo_info
    [(ledStripParamLedStripMode, "1"); (ledStripParamTimeout, "2")] 1 2 "1"
    [EFast; ESec; EMin; ESec; ESec]); [apply demo_info_ok|done|done|lia|done|lia|].
  by repeat constructor.
Defined.

(** C40: the binary counter counts. Started on a strip whose last pixel is off,
    with a visible color in the parameters, its pass number [k] shows the
    start value plus [k]: below the marker pixel exactly the pixels of the
    bits that are set have the color and the others are off. At the top of the
    64-bit range it does not show zero: the value wraps to zero while every
    pixel keeps its color. *)
Theorem binary_counter_counts engine i k :
  led_ok i →
  let c := getPixelColorParam (params i) in
  let v := catch_all (ll_param (params i) ledStripParamExtra 0) 0 in
  let n := numLEDs (lpd8806 i) in
  Z.land c 0x7f7f7f ≠ 0 → getPixelColor (n - 1) (lpd8806 i) = 0 →
  v + Z.of_nat k < 2 ^ 64 →
  let i' := Nat.iter (S k) (modeBinaryCounterMain engine) i in
  currentCounterValue (statics i') = v + Z.of_nat k ∧
  (∀ q, 0 <= q < n - 1 →
    getPixelColor q (lpd8806 i') = if Z.testbit (v + Z.of_nat k) q then Z.land c 0x7f7f7f else 0) ∧
  (v + Z.of_nat k = 2 ^ 64 - 1 →
    let i'' := modeBinaryCounterMain engine i' in
    currentCounterValue (statics i'') = 0 ∧
    ∀ q, 0 <= q < n → getPixelColor q (lpd8806 i'') = getPixelColor q (lpd8806 i')).
Proof.
  intros Hok c v n Hc Hlast Hk i'.
  pose proof (ll_param_range (params i) ledStripParamExtra) as Hv. fold v in Hv.
  assert (showing c (v + Z.of_nat k) i' ∧ numLEDs (lpd8806 i') = n) as [Hsh Hn].
  { subst i'. clear - Hok Hc Hlast Hk Hv. induction k as [|k IH].
    - rewrite Z.add_0_r. split; [by apply counter_start|].
      destruct (leads_counter engine i Hok) as [_ E]. by injection E.
    - destruct IH as [IH En]; [lia|].
      rewrite Nat2Z.inj_succ, <-Z.add_1_r, Z.add_assoc.
      change (Nat.iter (S (S k)) ?f i) with (f (Nat.iter (S k) f i)).
      set (j := Nat.iter (S k) _ i) in *. clearbody j.
      split; [apply counter_next; [exact Hc|exact IH|lia|lia]|].
      destruct (leads_counter engine j (proj1 IH)) as [_ E]. injection E as _ _ _ E. congruence. }
  clearbody i'. pose proof Hsh as (Hok' & Hpc & Hval & Hmark & Hpix). rewrite Hn in *.
  split; [done|]. split; [done|]. intros Htop. cbv zeta.
  destruct (counter_pass engine i' Hok') as [Ev Hpass]; [by rewrite Hpc; intros E; rewrite E in Hc|].
  rewrite Hn, Hval, Htop in *. destruct (Z.eqb_spec (getPixelColor (n - 1) (lpd8806 i')) 0); [done|].
  split; [done|]. intros q Hq. rewrite Hpass by done.
  change (u64 (2 ^ 64 - 1 + 1)) with 0. by rewrite Z.shiftr_0_l, andb_false_r.
Qed.

Definition demo_counting (start : string) : LedStripInternalInfo :=
  set_mode 5 (-1) [(ledStripParamExtra, start); ("red", "9")] (clearPixelColorsAndShow demo_info).

Lemma demo_counting_ok start : led_ok (demo_counting start).
Proof.
  apply set_mode_ok; [|lia]. apply leads_clear. exact demo_info_ok.
Qed.

Lemma binary_counter_counts_witness :
  let i' := Nat.iter 3 (modeBinaryCounterMain (λ _, 7)) (demo_counting "-3") in
  currentCounterValue (statics i') = 2 ^ 64 - 1 ∧
  let i'' := modeBinaryCounterMain (λ _, 7) i' in
  currentCounterValue (statics i'') = 0 ∧
  ∀ q, 0 <= q < 8 → getPixelColor q (lpd8806 i'') = getPixelColor q (lpd8806 i').
Proof.
  destruct (binary_counter_counts (λ _, 7) (demo_counting "-3") 2) as (H1 & _ & H3).
  - apply demo_counting_ok.
  - by vm_compute.
  - by vm_compute.
  - by vm_compute.
  - split; [exact H1|]. apply H3. by vm_compute.
Defined.
