(* ===== verification/StatusReport.v ===== *)
(** * The status report: src/src/statusReport.h, src/src/statusReport.cpp,
      src/src/statusReportGather.cpp

    What /status, /status.json and the MQTT report say. A buffer under
    construction is the list of the pieces appended to it, in order; [text]
    joins them. A file is its contents, or [None] when it cannot be opened. *)
From S2P Require Import Prelude StdMap CLib Gpio Inbox Sensors Dictionary.

(** ** Data *)

(** [MqttClientInfo] of src/src/mqttClient.h; the broker's name is a C string. *)
Record MqttClientInfo := mkMqttInfo {
  mqttBrokerIp : option string;
  mqttBrokerPort : Z;
  mqttKeepAlive : Z;
  mqttBrokerConnected : bool;
  last_loop_rc : Z;
  connectAttempts : Z;
  connects : Z;
  disconnects : Z;
  publishes : Z;
  publishedMotions : Z;
  publishesDropped : Z;
  publishCallbacks : Z;
  messages : Z;
  mqtt_ticks : Z;
}.

Record SystemStatus := mkSystem {
  loadValid : bool;
  loadAvg1Hundredths : Z;
  loadAvg5Hundredths : Z;
  loadAvg15Hundredths : Z;
  memValid : bool;
  memFreeKb : Z;
  memAvailableKb : Z;
  memTotalKb : Z;
}.

Record StatusSnapshot := mkSnapshot {
  webHandlerAvailable : bool;
  handlerHits : list (string * Z);
  motion : Motion.MotionInfo;
  lightValue : Z;
  displayMode : string;
  displayDimmed : bool;
  ledStripMode : string;
  mqtt : MqttClientInfo;
  snap_mqttBrokerIp : string;
  mqttLastLoopRcStr : string;
  snap_dictionaryStatus : DictionaryStatus;
  dictionarySize : Z;
  snap_dictionaryEntries : list (string * string);
  system : SystemStatus;
}.

Definition statusJsonVersion : Z := 1.

(** ** Appending *)
Definition maxIntTextSize : nat := 24.
Definition dquote : string := String (chr 34) EmptyString.
Definition nl : string := String (chr 10) EmptyString.

Definition text (pieces : list string) : string := foldr String.append EmptyString pieces.

Definition int_text (value : Z) : string := snprintf_s maxIntTextSize (print_int value).
Definition appendInt (value : Z) : list string := [int_text (s32 value)].
Definition uint64_text (value : Z) : string := snprintf_s maxIntTextSize (print_dec value).
Definition appendUInt64 (value : Z) : list string := [uint64_text value].

(** ["%lu.%02lu"] *)
Definition load_text (hundredths : Z) : string :=
  snprintf_s maxIntTextSize
    (print_dec (hundredths / 100) +:+ "." +:+ pad_left (chr 48) 2 (print_dec (hundredths mod 100))).
Definition appendLoad (hundredths : Z) : list string := [load_text hundredths].

(** [jsonEscape], one byte. *)
Definition escape_byte (c : ascii) : string :=
  let b := byte c in
  let backslash x := String (chr 92) (String (chr x) EmptyString) in
  if b =? 34 then backslash 34
  else if b =? 92 then backslash 92
  else if b =? 8 then backslash 98
  else if b =? 12 then backslash 102
  else if b =? 10 then backslash 110
  else if b =? 13 then backslash 114
  else if b =? 9 then backslash 116
  else if b <? 0x20 then
    backslash 117 +:+ pad_left (chr 48) 4 (print_digits (print_fuel b) 16 b EmptyString)
  else String c EmptyString.

Fixpoint jsonEscape (value : string) : string :=
  match value with
  | EmptyString => EmptyString
  | String c value => escape_byte c +:+ jsonEscape value
  end.

Definition appendJsonString (value : string) : list string := [dquote; jsonEscape value; dquote].
Definition appendJsonBool (value : bool) : list string := [if value then "true" else "false"].

(** ** Reading /proc *)

(** The largest whole part that leaves room for two fraction digits. *)
Definition maxWhole : Z := 42949671.

(** The digit loop of the whole part: the value, the number of digits and the
    rest; [None] is [return false]. *)
Fixpoint hundredths_whole (whole : Z) (i : nat) (token : string) : option (Z * nat * string) :=
  match token with
  | String c rest =>
      if isdigit c then
        let digit := byte c - 48 in
        if (maxWhole - digit) / 10 <? whole then None
        else hundredths_whole (u32 (whole * 10 + digit)) (S i) rest
      else Some (whole, i, token)
  | EmptyString => Some (whole, i, token)
  end.

Fixpoint hundredths_fraction (fraction : Z) (fractionDigits : nat) (token : string)
    : option (Z * nat * string) :=
  match token with
  | String c rest =>
      if isdigit c then
        if (2 <? S fractionDigits)%nat then None
        else hundredths_fraction (u32 (fraction * 10 + (byte c - 48))) (S fractionDigits) rest
      else Some (fraction, fractionDigits, token)
  | EmptyString => Some (fraction, fractionDigits, token)
  end.

Definition parseHundredths (token : string) : option Z :=
  if string_empty token then None
  else
    '(whole, i, rest) ← hundredths_whole 0 0 token;
    match i, rest with
    | O, _ => None
    | _, EmptyString => Some (u32 (whole * 100 + 0))
    | _, String c rest =>
        if byte c =? 46 then
          '(fraction, digits, rest) ← hundredths_fraction 0 0 rest;
          match digits, rest with
          | O, _ => None
          | _, String _ _ => None
          | S O, EmptyString => Some (u32 (whole * 100 + u32 (fraction * 10)))
          | _, EmptyString => Some (u32 (whole * 100 + fraction))
          end
        else None
    end.

(** [std::getline]: a line and what follows; [None] when nothing is left. *)
Fixpoint take_line (s : string) : string * string :=
  match s with
  | EmptyString => (EmptyString, EmptyString)
  | String c s =>
      if byte c =? 10 then (EmptyString, s)
      else let '(l, rest) := take_line s in (String c l, rest)
  end.

Definition getline (s : string) : option (string * string) :=
  if string_empty s then None else Some (take_line s).

(** [stream >> token] *)
Fixpoint take_token (s : string) : string * string :=
  match s with
  | EmptyString => (EmptyString, EmptyString)
  | String c s' =>
      if isspace c then (EmptyString, s)
      else let '(t, rest) := take_token s' in (String c t, rest)
  end.

Definition next_token (s : string) : option (string * string) :=
  let s := skip_space s in if string_empty s then None else Some (take_token s).

(** [stream >> unsigned long long] *)
Definition extract_u64 (s : string) : option Z :=
  let '(neg, s1) := scan_sign (skip_space s) in
  let '(v, n, _) := scan_digits 10 0 0 s1 in
  match n with
  | O => None
  | S _ => if 2 ^ 64 - 1 <? v then None else Some (if neg then u64 (- v) else v)
  end.

Definition set_load (valid : bool) (a b c : Z) (s : SystemStatus) : SystemStatus :=
  mkSystem valid a b c (memValid s) (memFreeKb s) (memAvailableKb s) (memTotalKb s).
Definition set_mem (valid : bool) (free available total : Z) (s : SystemStatus) : SystemStatus :=
  mkSystem (loadValid s) (loadAvg1Hundredths s) (loadAvg5Hundredths s) (loadAvg15Hundredths s)
    valid free available total.

(** The three averages are assigned one after another. *)
Definition readLoadAverages (file : option string) (s : SystemStatus) : bool * SystemStatus :=
  match file ≫= getline with
  | None => (false, s)
  | Some (line, _) =>
      match
        ('(oneMinute, r1) ← next_token line;
         '(fiveMinute, r2) ← next_token r1;
         '(fifteenMinute, _) ← next_token r2;
         Some (oneMinute, fiveMinute, fifteenMinute))
      with
      | None => (false, s)
      | Some (oneMinute, fiveMinute, fifteenMinute) =>
          match parseHundredths oneMinute with
          | None => (false, s)
          | Some a =>
              let s := set_load (loadValid s) a (loadAvg5Hundredths s) (loadAvg15Hundredths s) s in
              match parseHundredths fiveMinute with
              | None => (false, s)
              | Some b =>
                  let s := set_load (loadValid s) a b (loadAvg15Hundredths s) s in
                  match parseHundredths fifteenMinute with
                  | None => (false, s)
                  | Some c => (true, set_load (loadValid s) a b c s)
                  end
              end
          end
      end
  end.

(** The text before the first colon and the text after it. *)
Fixpoint split_colon (line : string) : option (string * string) :=
  match line with
  | EmptyString => None
  | String c rest =>
      if byte c =? 58 then Some (EmptyString, rest)
      else '(a, b) ← split_colon rest; Some (String c a, b)
  end.

Definition parseMeminfoLine (line name : string) : option Z :=
  '(field, rest) ← split_colon line;
  if bool_decide (field = name) then extract_u64 rest else None.

(** The values found so far: total, free, available. *)
Definition meminfo_line (st : option Z * option Z * option Z) (line : string)
    : option Z * option Z * option Z :=
  let '(total, free, available) := st in
  let wanted (have : option Z) name := match have with None => parseMeminfoLine line name | _ => None end in
  match wanted total "MemTotal" with
  | Some v => (Some v, free, available)
  | None =>
      match wanted free "MemFree" with
      | Some v => (total, Some v, available)
      | None =>
          match wanted available "MemAvailable" with
          | Some v => (total, free, Some v)
          | None => st
          end
      end
  end.

Fixpoint meminfo_loop (fuel : nat) (file : string) (st : option Z * option Z * option Z)
    : option Z * option Z * option Z :=
  match fuel with
  | O => st
  | S fuel =>
      match getline file with
      | None => st
      | Some (line, rest) => meminfo_loop fuel rest (meminfo_line st line)
      end
  end.

Definition readMemInfo (file : option string) (s : SystemStatus) : bool * SystemStatus :=
  match file with
  | None => (false, s)
  | Some file =>
      let '(total, free, available) := meminfo_loop (S (String.length file)) file (None, None, None) in
      (bool_decide (is_Some free) && bool_decide (is_Some total),
       set_mem (memValid s) (default (memFreeKb s) free) (default (memAvailableKb s) available)
         (default (memTotalKb s) total) s)
  end.

Definition zero_system : SystemStatus := mkSystem false 0 0 0 false 0 0 0.

Definition readSystemStatus (loadavg meminfo : option string) : bool * SystemStatus :=
  let '(loadOk, s) := readLoadAverages loadavg zero_system in
  let s := set_load loadOk (loadAvg1Hundredths s) (loadAvg5Hundredths s) (loadAvg15Hundredths s) s in
  let '(memOk, s) := readMemInfo meminfo s in
  let s := set_mem memOk (memFreeKb s) (memAvailableKb s) (memTotalKb s) s in
  let s := if loadValid s then s else set_load false 0 0 0 s in
  let s := if memValid s then s else set_mem false 0 0 0 s in
  (loadValid s && memValid s, s).

(** ** Rendering *)

Definition renderTextSystem (s : SystemStatus) : list string :=
  ["cpu_load: "]
  ++ (if loadValid s then
        appendLoad (loadAvg1Hundredths s) ++ [" "]
        ++ appendLoad (loadAvg5Hundredths s) ++ [" "]
        ++ appendLoad (loadAvg15Hundredths s)
      else ["unavailable"])
  ++ [nl]
  ++ ([("mem_free_kb", memFreeKb s); ("mem_available_kb", memAvailableKb s);
       ("mem_total_kb", memTotalKb s)] ≫= λ '(name, value),
        [name; ": "] ++ (if memValid s then appendUInt64 value else ["unavailable"]) ++ [nl]).

(** A quoted literal, and a member's name at an indentation. *)
Definition q (s : string) : string := dquote +:+ s +:+ dquote.

Definition mem_member (s : SystemStatus) (name : string) (value : Z) (last : bool) : list string :=
  ["    " +:+ dquote; name; dquote +:+ ": "]
  ++ (if memValid s then appendUInt64 value else ["null"])
  ++ [if last then nl else "," +:+ nl].

Definition renderJsonSystem (s : SystemStatus) : list string :=
  ["  " +:+ q "system" +:+ ": {" +:+ nl; "    " +:+ q "cpu_load" +:+ ": "]
  ++ (if loadValid s then
        ["{" +:+ q "1min" +:+ ": "] ++ appendLoad (loadAvg1Hundredths s)
        ++ [", " +:+ q "5min" +:+ ": "] ++ appendLoad (loadAvg5Hundredths s)
        ++ [", " +:+ q "15min" +:+ ": "] ++ appendLoad (loadAvg15Hundredths s) ++ ["}"]
      else ["null"])
  ++ ["," +:+ nl]
  ++ mem_member s "mem_free_kb" (memFreeKb s) false
  ++ mem_member s "mem_available_kb" (memAvailableKb s) false
  ++ mem_member s "mem_total_kb" (memTotalKb s) true
  ++ ["  }," +:+ nl].

Definition mqtt_counters (m : MqttClientInfo) : list (string * Z) :=
  [("connect_attempts", connectAttempts m); ("connects", connects m);
   ("disconnects", disconnects m); ("publishes", publishes m);
   ("published_motions", publishedMotions m); ("publishes_dropped", publishesDropped m);
   ("publish_callbacks", publishCallbacks m); ("messages", messages m); ("ticks", mqtt_ticks m)].

Definition renderJsonMqtt (s : StatusSnapshot) : list string :=
  let m := mqtt s in
  ["  " +:+ q "mqtt" +:+ ": {" +:+ nl; "    " +:+ q "broker_connected" +:+ ": "]
  ++ appendJsonBool (mqttBrokerConnected m)
  ++ ["," +:+ nl +:+ "    " +:+ q "broker_ip" +:+ ": "] ++ appendJsonString (snap_mqttBrokerIp s)
  ++ ["," +:+ nl +:+ "    " +:+ q "broker_port" +:+ ": "] ++ appendInt (mqttBrokerPort m)
  ++ ["," +:+ nl +:+ "    " +:+ q "keep_alive_secs" +:+ ": "] ++ appendInt (mqttKeepAlive m)
  ++ ["," +:+ nl +:+ "    " +:+ q "last_loop_rc" +:+ ": "] ++ appendInt (last_loop_rc m)
  ++ ["," +:+ nl +:+ "    " +:+ q "last_loop_rc_str" +:+ ": "] ++ appendJsonString (mqttLastLoopRcStr s)
  ++ (mqtt_counters m ≫= λ '(name, value),
        ["," +:+ nl +:+ "    " +:+ dquote; name; dquote +:+ ": "] ++ appendInt value)
  ++ [nl +:+ "  }," +:+ nl].

Fixpoint renderJsonPairs (entries : list (string * string)) (indent : string) : list string :=
  match entries with
  | [] => []
  | (k, v) :: rest =>
      [indent] ++ appendJsonString k ++ [": "] ++ appendJsonString v
      ++ [match rest with [] => nl | _ => "," +:+ nl end] ++ renderJsonPairs rest indent
  end.

(** The loop over the hit counts. *)
Fixpoint renderJsonHits (hits : list (string * Z)) : list string :=
  match hits with
  | [] => []
  | (name, n) :: rest =>
      ["    "] ++ appendJsonString name ++ [": "] ++ appendInt n
      ++ [match rest with [] => nl | _ => "," +:+ nl end] ++ renderJsonHits rest
  end.

Definition renderStatusText (s : StatusSnapshot) : string :=
  let m := mqtt s in
  let d := snap_dictionaryStatus s in
  let counter name (v : Z) := [name; ": "] ++ appendInt v ++ [nl] in
  text (["Stats and status" +:+ nl +:+ nl]
    ++ (if webHandlerAvailable s then
          (handlerHits s ≫= λ '(name, n), ["hitCount: "; name; " = "; print_dec n; nl]) ++ [nl]
        else [])
    ++ ["motion: "; (if Motion.currMotionDetected (motion s) then "y" else "n"); nl;
        "motion_last_change: "]
    ++ appendInt (Motion.lastChangedHour (motion s)) ++ [":"]
    ++ appendInt (Motion.lastChangedMin (motion s)) ++ [":"]
    ++ appendInt (Motion.lastChangedSec (motion s)) ++ [nl]
    ++ counter "light_sensor" (lightValue s)
    ++ ["display_mode: "; displayMode s; nl;
        "display_dimmed: "; (if displayDimmed s then "yes" else "no"); nl;
        "led_strip_mode: "; ledStripMode s; nl; nl]
    ++ renderTextSystem (system s)
    ++ [nl; "mqttBrokerConnected: "; (if mqttBrokerConnected m then "yes" else "no"); nl;
        "mqttLastLoopRc: "] ++ appendInt (last_loop_rc m) ++ [" ("; mqttLastLoopRcStr s; ")"; nl;
        "mqttBrokerIp: "; snap_mqttBrokerIp s; nl]
    ++ counter "mqttBrokerPort" (mqttBrokerPort m)
    ++ counter "mqttKeepAlive (secs)" (mqttKeepAlive m)
    ++ counter "mqttConnectAttempts" (connectAttempts m) ++ counter "mqttConnects" (connects m)
    ++ counter "mqttDisconnects" (disconnects m) ++ counter "mqttPublishes" (publishes m)
    ++ counter "mqttPublishedMotions" (publishedMotions m)
    ++ counter "mqttPublishesDropped" (publishesDropped m)
    ++ counter "mqttPublishCallbacks" (publishCallbacks m)
    ++ counter "mqttMessages" (messages m) ++ counter "mqttTicks" (mqtt_ticks m)
    ++ [nl] ++ counter "dictSize" (dictionarySize s)
    ++ counter "dictTicks" (ticks d) ++ counter "dictAdds" (entriesAdded d)
    ++ counter "dictRemoves" (entriesRemoved d) ++ counter "dictExpires" (entriesExpired d)
    ++ match snap_dictionaryEntries s with
       | [] => []
       | l => [nl] ++ (l ≫= λ '(k, v), ["dict: "; k; " => "; v; nl])
       end).

Definition renderStatusJson (s : StatusSnapshot) : string :=
  let d := snap_dictionaryStatus s in
  let field name := ["," +:+ nl +:+ "    " +:+ q name +:+ ": "] in
  text (["{" +:+ nl; "  " +:+ q "version" +:+ ": "] ++ appendInt statusJsonVersion ++ ["," +:+ nl]
    ++ renderJsonSystem (system s)
    ++ ["  " +:+ q "motion" +:+ ": {" +:+ nl; "    " +:+ q "detected" +:+ ": "]
    ++ appendJsonBool (Motion.currMotionDetected (motion s))
    ++ field "last_change_hour" ++ appendInt (Motion.lastChangedHour (motion s))
    ++ field "last_change_min" ++ appendInt (Motion.lastChangedMin (motion s))
    ++ field "last_change_sec" ++ appendInt (Motion.lastChangedSec (motion s))
    ++ [nl +:+ "  }," +:+ nl; "  " +:+ q "light_sensor" +:+ ": "] ++ appendInt (lightValue s)
    ++ ["," +:+ nl; "  " +:+ q "display" +:+ ": {" +:+ q "mode" +:+ ": "]
    ++ appendJsonString (displayMode s)
    ++ [", " +:+ q "dimmed" +:+ ": "] ++ appendJsonBool (displayDimmed s)
    ++ ["}," +:+ nl; "  " +:+ q "led_strip" +:+ ": {" +:+ q "mode" +:+ ": "]
    ++ appendJsonString (ledStripMode s) ++ ["}," +:+ nl]
    ++ renderJsonMqtt s
    ++ ["  " +:+ q "dictionary" +:+ ": {" +:+ nl; "    " +:+ q "size" +:+ ": "]
    ++ appendInt (dictionarySize s)
    ++ field "ticks" ++ appendInt (ticks d) ++ field "adds" ++ appendInt (entriesAdded d)
    ++ field "removes" ++ appendInt (entriesRemoved d)
    ++ field "expires" ++ appendInt (entriesExpired d)
    ++ ["," +:+ nl +:+ "    " +:+ q "entries" +:+ ": {"]
    ++ match snap_dictionaryEntries s with
       | [] => ["}" +:+ nl]
       | l => [nl] ++ renderJsonPairs l "      " ++ ["    }" +:+ nl]
       end
    ++ ["  }," +:+ nl; "  " +:+ q "handlers" +:+ ": {" +:+ q "hits" +:+ ": {"]
    ++ (if negb (webHandlerAvailable s) || match handlerHits s with [] => true | _ => false end
        then ["}}" +:+ nl]
        else [nl] ++ renderJsonHits (handlerHits s) ++ ["  }}" +:+ nl])
    ++ ["}" +:+ nl]).

(** ** Gathering *)

(** The loop over the dictionary; every step may drop expired entries. *)
Section gather.
Context `{TimerService T}.

Fixpoint gather_entries (fuel : nat) (currKey currData : string) (found : bool) (w : Dictionary T)
    : option (list (string * string) * Dictionary T) :=
  if found then
    match fuel with
    | O => None
    | S fuel =>
        '(found', key', data', w') ← getNext currKey w;
        '(rest, w'') ← gather_entries fuel key' data' found' w';
        Some ((currKey, currData) :: rest, w'')
    end
  else Some ([], w).

Definition gather_dictionary (w : Dictionary T) : option (list (string * string) * Dictionary T) :=
  '(found, key, data, w') ← getFirst w;
  gather_entries (length (dictionaryEntries w)) key data found w'.
End gather.

(** [gatherStatusSnapshot]: what the components answer, put together. [hits]
    is [None] when the web server does not exist. *)
Definition gatherStatusSnapshot (hits : option (list (string * Z))) (mi : Motion.MotionInfo)
    (light : Z) (mode : string) (dimmed : bool) (strip : string) (info : MqttClientInfo)
    (strerror : Z → string) (ds : DictionaryStatus) (size : Z) (entries : list (string * string))
    (loadavg meminfo : option string) : StatusSnapshot :=
  mkSnapshot (match hits with Some _ => true | None => false end) (default [] hits) mi light mode
    dimmed strip info (default EmptyString (mqttBrokerIp info)) (strerror (last_loop_rc info))
    ds size entries (readSystemStatus loadavg meminfo).2.

(** ** The dictionary in the report *)
Section gather_spec.
Context `{TimerService T}.
Implicit Types (w : Dictionary T) (k : string).

Lemma gather_ok fuel key d found w :
  dict_ok w →
  (if found : bool then (∃ l, lookup_dict w key = Some (d, l)) ∧
     (length (filter (above key) (dictionaryEntries w)) < fuel)%nat else True) →
  ∃ l w', gather_entries fuel key d found w = Some (l, w') ∧ dict_ok w' ∧ same_dict w w' ∧
    map_sorted l ∧
    ∀ k v, (k, v) ∈ l ↔ found = true ∧ (k = key ∨ less key k = true) ∧
      ∃ life, lookup_dict w k = Some (v, life).
Proof.
  revert key d found w. induction fuel as [|fuel IH]; intros key d found w Hok Hf.
  { destruct found; [lia|]. exists [], w. split_and!; try done; [apply map_sorted_nil|].
    intros k v. split; [by intros ?%elem_of_nil|by intros []]. }
  destruct found; cbn [gather_entries].
  2:{ exists [], w. split_and!; try done; [apply map_sorted_nil|].
      intros k v. split; [by intros ?%elem_of_nil|by intros []]. }
  destruct Hf as [[l0 Hl0] Hlen].
  destruct (getNext_loop_ok (S (length (dictionaryEntries w))) key w Hok ltac:(lia))
    as (f & k' & v' & w1 & E & Hok1 & Hsame & Hsub & _ & Hres).
  unfold getNext. rewrite E. cbn [mbind option_bind].
  destruct (IH k' v' f w1 Hok1) as (l & w2 & -> & Hok2 & Hsame2 & Hsort & Hl).
  { destruct f; [|done]. destruct Hres as (Hlt & [l Hl] & Hleast).
    split; [exists l; by rewrite Hsame|].
    assert (map_find k' (dictionaryEntries w1) ≠ None) as Hk'.
    { apply lookup_dict_find. by rewrite Hsame, Hl. }
    destruct (map_find k' (dictionaryEntries w1)) as [e|] eqn:Ed; [|done].
    apply map_find_elem in Ed.
    pose proof (filter_sublist_length (above key) _ _ Hsub).
    pose proof (filter_strict (above key) (above k') (dictionaryEntries w1) (k', e)
      ltac:(intros y Hy; unfold above in *; by eapply less_trans) Ed Hlt) as Hst.
    unfold above in Hst at 1. cbn [fst] in Hst. rewrite less_irrefl in Hst.
    specialize (Hst ltac:(done)). lia. }
  cbn [mbind option_bind]. exists ((key, d) :: l), w2.
  split; [done|]. split; [done|]. split; [intros k; by rewrite Hsame2, Hsame|].
  assert (∀ k v, (k, v) ∈ l → less key k = true) as Habove.
  { intros k v (Hf & Hk & _)%Hl. rewrite Hf in Hres. destruct Hres as (Hlt & _ & _).
    destruct Hk as [->|Hk]; [done|by eapply less_trans]. }
  split.
  { apply SSorted_cons; [done|]. apply List.Forall_forall. intros [k v] Hin%list_elem_of_In.
    by apply (Habove k v). }
  intros k v. rewrite elem_of_cons. split.
  - intros [[= -> ->]|Hin]; [eauto|]. split; [done|]. split; [right; by eapply Habove|].
    apply Hl in Hin as (_ & _ & Hlk). by rewrite Hsame in Hlk.
  - intros (_ & [->|Hk] & [life Hlk]); [left; congruence|]. right. apply Hl.
    rewrite Hsame. destruct f.
    + destruct Hres as (_ & _ & Hleast). split; [done|].
      split; [by apply Hleast; [rewrite Hlk|]|by eexists].
    + destruct Hres as (_ & Hno). rewrite Hno in Hk; [done|by rewrite Hlk].
Qed.
End gather_spec.

(** ** JSON strings *)

(** The value of a hexadecimal escape below 128. *)
Definition hex4 (a b c d : ascii) : option Z :=
  w ← digit_in 16 a; x ← digit_in 16 b; y ← digit_in 16 c; z ← digit_in 16 d;
  let v := ((w * 16 + x) * 16 + y) * 16 + z in if v <? 128 then Some v else None.

(** A JSON string after its opening quote: the bytes it stands for and what
    follows the closing quote. Escapes stand for ASCII characters. *)
Fixpoint scan_string (s : string) : option (string * string) :=
  match s with
  | EmptyString => None
  | String c s =>
      if byte c =? 34 then Some (EmptyString, s)
      else if byte c <? 0x20 then None
      else if byte c =? 92 then
        match s with
        | EmptyString => None
        | String e s =>
            let simple (v : Z) := '(t, r) ← scan_string s; Some (String (chr v) t, r) in
            if byte e =? 34 then simple 34
            else if byte e =? 92 then simple 92
            else if byte e =? 47 then simple 47
            else if byte e =? 98 then simple 8
            else if byte e =? 102 then simple 12
            else if byte e =? 110 then simple 10
            else if byte e =? 114 then simple 13
            else if byte e =? 116 then simple 9
            else if byte e =? 117 then
              match s with
              | String a (String b (String c (String d s))) =>
                  v ← hex4 a b c d; '(t, r) ← scan_string s; Some (String (chr v) t, r)
              | _ => None
              end
            else None
        end
      else '(t, r) ← scan_string s; Some (String c t, r)
  end.

(** One escaped byte in front of a JSON string. *)
Lemma scan_escape c s t r :
  scan_string s = Some (t, r) → scan_string (escape_byte c +:+ s) = Some (String c t, r).
Proof.
  intros Hs.
  assert (scan_string (escape_byte c +:+ s) = '(t, r) ← scan_string s; Some (String c t, r)) as ->
    by (destruct c as [[] [] [] [] [] [] [] []]; reflexivity).
  by rewrite Hs.
Qed.

Lemma scan_jsonEscape v r :
  scan_string (jsonEscape v +:+ String (chr 34) r) = Some (v, r).
Proof.
  induction v as [|c v IH]; [done|]. cbn [jsonEscape]. rewrite append_assoc. by apply scan_escape.
Qed.

(** ** JSON numbers *)

Fixpoint skip_digits (s : string) : string :=
  match s with
  | String c s' => if isdigit c then skip_digits s' else s
  | EmptyString => EmptyString
  end.

(** What follows the integer part: nothing, or a point and digits. *)
Definition json_fraction (s : string) : bool :=
  match s with
  | EmptyString => true
  | String p (String d s) => (byte p =? 46) && isdigit d && string_empty (skip_digits s)
  | _ => false
  end.

(** A number literal of the JSON grammar, exponents left out. *)
Definition json_unsigned (s : string) : bool :=
  match s with
  | EmptyString => false
  | String c s => if byte c =? 48 then json_fraction s else isdigit c && json_fraction (skip_digits s)
  end.

Definition json_number (s : string) : bool :=
  match s with
  | EmptyString => false
  | String c s' => if byte c =? 45 then json_unsigned s' else json_unsigned s
  end.

Lemma isdigit_digit d : 0 <= d < 10 → isdigit (digit_char d) = true.
Proof.
  intros Hd. unfold isdigit. rewrite digit_char_dec by done.
  apply andb_true_iff. rewrite !Z.leb_le. lia.
Qed.

(** The decimal digits of a number: no leading zero, and only digits. *)
Lemma print_digits_shape fuel n rest :
  0 <= n < 2 ^ Z.of_nat fuel → fuel ≠ 0%nat →
  ∃ d s, print_digits fuel 10 n rest = String (digit_char d) s ∧ 0 <= d < 10 ∧
    (d = 0 → n = 0 ∧ s = rest) ∧ skip_digits s = skip_digits rest.
Proof.
  revert n rest. induction fuel as [|fuel IH]; intros n rest Hn Hf; [done|].
  rewrite Nat2Z.inj_succ, Z.pow_succ_r in Hn by lia. cbn [print_digits].
  pose proof (Z.mod_pos_bound n 10 ltac:(lia)) as Hm.
  destruct (Z.ltb_spec n 10).
  - exists (n mod 10), rest. rewrite Z.mod_small by lia.
    split; [done|]. split; [lia|]. done.
  - assert (n / 10 <= n / 2) by (apply Z.div_le_compat_l; lia).
    assert (n / 2 < 2 ^ Z.of_nat fuel) by (apply Z.div_lt_upper_bound; lia).
    assert (0 < n / 10) by (apply Z.div_str_pos; lia).
    destruct (IH (n / 10) (String (digit_char (n mod 10)) rest)) as (d & s & E & Hd & Hz & Hs).
    { lia. } { intros ->. simpl in *. lia. }
    exists d, s. split; [done|]. split; [done|]. split; [intros Hd0; destruct (Hz Hd0); lia|].
    rewrite Hs. cbn [skip_digits]. by rewrite isdigit_digit.
Qed.

Lemma print_dec_app n rest : print_dec n +:+ rest = print_digits (print_fuel n) 10 n rest.
Proof. unfold print_dec. by rewrite <-print_digits_acc. Qed.

Lemma json_unsigned_dec n rest :
  0 <= n → json_fraction (skip_digits rest) = true → json_fraction rest = true →
  json_unsigned (print_dec n +:+ rest) = true.
Proof.
  intros Hn Hskip Hrest. rewrite print_dec_app.
  destruct (print_digits_shape (print_fuel n) n rest) as (d & s & -> & Hd & Hz & Hs);
    [split; [done|by apply print_fuel_enough]|done|].
  cbn [json_unsigned]. rewrite digit_char_dec, isdigit_digit by done.
  destruct (Z.eqb_spec (48 + d) 48); [|by rewrite Hs].
  destruct Hz as [_ ->]; [lia|done].
Qed.

Lemma json_number_unsigned s : json_unsigned s = true → json_number s = true.
Proof.
  destruct s as [|c s]; [done|]. unfold json_number. intros H.
  destruct (Z.eqb_spec (byte c) 45) as [E|]; [|done]. simpl in H. rewrite E in H. simpl in H.
  unfold isdigit in H. by rewrite E in H.
Qed.

Lemma json_print_int z : json_number (print_int z) = true.
Proof.
  unfold print_int. destruct (Z.ltb_spec z 0).
  - change (json_unsigned (print_dec (- z)) = true). rewrite <-(append_nil_r (print_dec (- z))). apply json_unsigned_dec; done || lia.
  - apply json_number_unsigned. rewrite <-(append_nil_r (print_dec z)).
    apply json_unsigned_dec; done || lia.
Qed.

(** A short text is printed whole. *)
Lemma snprintf_short n s :
  c_str s = s → (String.length s < n)%nat → snprintf_s n s = s.
Proof.
  unfold snprintf_s. intros ->. revert n. induction s as [|c s IH]; intros n Hn; simpl in *.
  - by destruct (n - 1)%nat.
  - destruct n as [|[|n]]; [lia..|]. simpl. f_equal.
    specialize (IH (S n) ltac:(lia)). by replace (S n - 1)%nat with n in IH by lia.
Qed.

Fixpoint string_forall (f : ascii → bool) (s : string) : bool :=
  match s with
  | EmptyString => true
  | String c s => f c && string_forall f s
  end.

Lemma string_forall_app f a b : string_forall f (a +:+ b) = string_forall f a && string_forall f b.
Proof.
  induction a as [|c a IH]; [done|]. rewrite append_cons. simpl. by rewrite IH, andb_assoc.
Qed.

Definition not_nul (c : ascii) : bool := negb (byte c =? 0).

Lemma c_str_whole s : string_forall not_nul s = true → c_str s = s.
Proof.
  induction s as [|c s IH]; simpl; [done|]. unfold not_nul at 1.
  destruct (byte c =? 0); simpl; [done|]. intros H. by rewrite IH.
Qed.

Lemma print_digits_isdigit fuel n :
  0 <= n → string_forall isdigit (print_digits fuel 10 n EmptyString) = true.
Proof.
  revert n. induction fuel as [|fuel IH]; intros n Hn; [done|]. cbn [print_digits].
  pose proof (Z.mod_pos_bound n 10 ltac:(lia)).
  destruct (n <? 10); [simpl; by rewrite isdigit_digit|].
  rewrite print_digits_acc, string_forall_app, IH by (by apply Z.div_pos).
  simpl. by rewrite isdigit_digit.
Qed.

Lemma digits_not_nul s : string_forall isdigit s = true → string_forall not_nul s = true.
Proof.
  induction s as [|c s IH]; simpl; [done|]. rewrite !andb_true_iff. intros [Hc Hs].
  split; [|by apply IH]. unfold isdigit, not_nul in *. destruct (Z.eqb_spec (byte c) 0); lia.
Qed.

Lemma digit_not_nul d : 0 <= d < 10 → not_nul (digit_char d) = true.
Proof.
  intros Hd. unfold not_nul. rewrite digit_char_dec by done.
  by destruct (Z.eqb_spec (48 + d) 0); [lia|].
Qed.

Lemma print_dec_not_nul n : 0 <= n → string_forall not_nul (print_dec n) = true.
Proof. intros Hn. by apply digits_not_nul, print_digits_isdigit. Qed.

Lemma uint64_text_eq n : 0 <= n < 2 ^ 64 → uint64_text n = print_dec n.
Proof.
  intros Hn. apply snprintf_short; [apply c_str_whole, print_dec_not_nul; lia|].
  pose proof (print_dec_length 19 (2 ^ 64) n Hn eq_refl). unfold maxIntTextSize. lia.
Qed.

Lemma int_text_eq z : - 2 ^ 31 <= z < 2 ^ 31 → int_text z = print_int z.
Proof.
  intros Hz. apply snprintf_short; unfold print_int; destruct (Z.ltb_spec z 0).
  - apply c_str_whole. simpl. by apply print_dec_not_nul; lia.
  - apply c_str_whole, print_dec_not_nul. lia.
  - pose proof (print_dec_length 9 (2 ^ 32) (- z) ltac:(lia) eq_refl).
    unfold maxIntTextSize. simpl. lia.
  - pose proof (print_dec_length 9 (2 ^ 32) z ltac:(lia) eq_refl). unfold maxIntTextSize. lia.
Qed.

(** Two digits with a leading zero. *)
Lemma pad_two m :
  0 <= m < 100 →
  pad_left (chr 48) 2 (print_dec m) = String (digit_char (m / 10)) (String (digit_char (m mod 10)) EmptyString).
Proof.
  intros Hm.
  assert (forallb (λ m, bool_decide (pad_left (chr 48) 2 (print_dec m) =
    String (digit_char (m / 10)) (String (digit_char (m mod 10)) EmptyString))) (seqZ 0 100) = true)
    as Hall by (vm_compute; reflexivity).
  rewrite forallb_forall in Hall. specialize (Hall m). rewrite bool_decide_eq_true in Hall.
  apply Hall, list_elem_of_In, elem_of_seqZ. lia.
Qed.

Definition load_digits (h : Z) : string :=
  print_dec (h / 100) +:+ String (chr 46) (String (digit_char (h mod 100 / 10))
    (String (digit_char (h mod 100 mod 10)) EmptyString)).

Lemma load_text_eq h : 0 <= h < 2 ^ 32 → load_text h = load_digits h.
Proof.
  intros Hh. unfold load_text. pose proof (Z.mod_pos_bound h 100 ltac:(lia)) as Hm.
  rewrite pad_two by done.
  pose proof (Z.mod_pos_bound (h mod 100) 10 ltac:(lia)).
  pose proof (Z.div_pos (h mod 100) 10). pose proof (Z.div_lt_upper_bound (h mod 100) 10 10).
  assert (0 <= h / 100 < 2 ^ 32) as Hq.
  { split; [apply Z.div_pos; lia|apply Z.div_lt_upper_bound; lia]. }
  change (snprintf_s maxIntTextSize (load_digits h) = load_digits h).
  apply snprintf_short; unfold load_digits.
  - apply c_str_whole. rewrite string_forall_app, print_dec_not_nul by lia.
    cbn [string_forall andb]. by rewrite !digit_not_nul by lia.
  - rewrite length_append_str. pose proof (print_dec_length 9 (2 ^ 32) (h / 100) Hq eq_refl).
    unfold maxIntTextSize. simpl. lia.
Qed.

Lemma json_load_digits h : 0 <= h → json_number (load_digits h) = true.
Proof.
  intros Hh. apply json_number_unsigned. unfold load_digits.
  pose proof (Z.mod_pos_bound h 100 ltac:(lia)).
  pose proof (Z.mod_pos_bound (h mod 100) 10 ltac:(lia)).
  pose proof (Z.div_pos (h mod 100) 10). pose proof (Z.div_lt_upper_bound (h mod 100) 10 10).
  apply json_unsigned_dec; [apply Z.div_pos; lia| |];
    change (isdigit (digit_char (h mod 100 / 10)) &&
      string_empty (skip_digits (String (digit_char (h mod 100 mod 10)) EmptyString)) = true);
    cbn [skip_digits]; by rewrite !isdigit_digit by lia.
Qed.

(** ** Load averages scan back *)

Lemma digit_in_10 c : digit_in 10 c = if isdigit c then Some (byte c - 48) else None.
Proof.
  unfold digit_in, digit_value, isdigit.
  destruct ((48 <=? byte c) && (byte c <=? 57)) eqn:E.
  - apply andb_true_iff in E. rewrite !Z.leb_le in E. by destruct (Z.ltb_spec (byte c - 48) 10); [|lia].
  - apply andb_false_iff in E. rewrite !Z.leb_gt in E.
    destruct ((97 <=? byte c) && (byte c <=? 122)) eqn:E1.
    { apply andb_true_iff in E1. rewrite !Z.leb_le in E1. by destruct (Z.ltb_spec (byte c - 87) 10); [lia|]. }
    destruct ((65 <=? byte c) && (byte c <=? 90)) eqn:E2; [|done].
    apply andb_true_iff in E2. rewrite !Z.leb_le in E2. by destruct (Z.ltb_spec (byte c - 55) 10); [lia|].
Qed.

Lemma scan_digits_le acc n s : 0 <= acc → acc <= (scan_digits 10 acc n s).1.1.
Proof.
  revert acc n. induction s as [|c s IH]; intros acc n Ha; cbn [scan_digits]; [done|].
  rewrite digit_in_10. destruct (isdigit c) eqn:Ed; [|done].
  unfold isdigit in Ed. apply andb_true_iff in Ed. rewrite !Z.leb_le in Ed.
  etrans; [|apply IH; lia]. lia.
Qed.

(** The overflow test of the digit loop is exact. *)
Lemma hundredths_whole_scan acc n s :
  0 <= acc <= maxWhole →
  hundredths_whole acc n s =
  if (scan_digits 10 acc n s).1.1 <=? maxWhole then Some (scan_digits 10 acc n s) else None.
Proof.
  revert acc n. induction s as [|c s IH]; intros acc n Ha; cbn [hundredths_whole scan_digits].
  - cbn. by destruct (Z.leb_spec acc maxWhole); [|lia].
  - rewrite digit_in_10. destruct (isdigit c) eqn:Ed.
    2:{ cbn. by destruct (Z.leb_spec acc maxWhole); [|lia]. }
    unfold isdigit in Ed. apply andb_true_iff in Ed. rewrite !Z.leb_le in Ed.
    set (d := byte c - 48) in *.
    assert ((maxWhole - d) / 10 < acc ↔ maxWhole < acc * 10 + d) as Hiff.
    { unfold maxWhole. Z.div_mod_to_equations. lia. }
    destruct (Z.ltb_spec ((maxWhole - d) / 10) acc) as [Hlt|Hge].
    + apply Hiff in Hlt. pose proof (scan_digits_le (acc * 10 + d) (S n) s ltac:(lia)).
      by destruct (Z.leb_spec (scan_digits 10 (acc * 10 + d) (S n) s).1.1 maxWhole); [lia|].
    + assert (acc * 10 + d <= maxWhole) by lia. unfold maxWhole in *.
      rewrite u32_small by lia. apply IH. lia.
Qed.

Lemma fraction_two a b :
  0 <= a < 10 → 0 <= b < 10 →
  hundredths_fraction 0 0 (String (digit_char a) (String (digit_char b) EmptyString)) =
  Some (a * 10 + b, 2%nat, EmptyString).
Proof.
  intros Ha Hb. cbn [hundredths_fraction]. rewrite !isdigit_digit, !digit_char_dec by done.
  cbn [Nat.ltb Nat.leb]. 
  rewrite (u32_small (0 * 10 + _)), u32_small by lia. do 3 f_equal. lia.
Qed.

Lemma parse_load_digits h :
  0 <= h → h / 100 <= maxWhole → parseHundredths (load_digits h) = Some h.
Proof.
  intros Hh Hmax. unfold parseHundredths, load_digits.
  assert (∀ a r, string_empty (print_dec a +:+ String (chr 46) r) = false) as ->.
  { intros a r. by destruct (print_dec a). }
  rewrite print_dec_app.
  assert (0 <= h / 100) as Hq by (apply Z.div_pos; lia).
  destruct (scan_print_dec (h / 100) (String (chr 46) (String (digit_char (h mod 100 / 10))
    (String (digit_char (h mod 100 mod 10)) EmptyString))) Hq eq_refl) as (m & Hm & Hs).
  rewrite hundredths_whole_scan by (unfold maxWhole; lia). rewrite Hs. cbn [fst].
  destruct (Z.leb_spec (h / 100) maxWhole); [|lia]. cbn [mbind option_bind].
  destruct m as [|m]; [done|]. change (byte (chr 46) =? 46) with true. cbv iota.
  pose proof (Z.mod_pos_bound h 100 ltac:(lia)).
  pose proof (Z.mod_pos_bound (h mod 100) 10 ltac:(lia)).
  pose proof (Z.div_pos (h mod 100) 10). pose proof (Z.div_lt_upper_bound (h mod 100) 10 10).
  rewrite fraction_two by lia. cbn [mbind option_bind]. unfold maxWhole in *.
  pose proof (Z.div_mod h 100 ltac:(lia)). pose proof (Z.div_mod (h mod 100) 10 ltac:(lia)).
  rewrite u32_small by lia. f_equal. lia.
Qed.

(** ** The JSON grammar (RFC 8259, without arrays)

    [reads v s r]: the text [s] is a text of the value [v], after whitespace,
    followed by [r]. *)
#[warnings="-register-all"]
Inductive json :=
  | JNull
  | JBool (b : bool)
  | JNum (literal : string)
  | JStr (s : string)
  | JObj (members : list (string * json)).

Definition json_ws (c : ascii) : bool :=
  (byte c =? 32) || (byte c =? 9) || (byte c =? 10) || (byte c =? 13).

(** A number literal ends where no longer one could be read. *)
Definition num_end (r : string) : bool :=
  match r with
  | EmptyString => true
  | String c _ =>
      negb (isdigit c || (byte c =? 46) || (byte c =? 43) || (byte c =? 45)
            || (byte c =? 101) || (byte c =? 69))
  end.

Inductive reads : json → string → string → Prop :=
  | reads_ws c v s r : json_ws c = true → reads v s r → reads v (String c s) r
  | reads_null (s r : string) : s = "null" +:+ r → reads JNull s r
  | reads_bool (b : bool) (s r : string) : s = (if b then "true" else "false") +:+ r → reads (JBool b) s r
  | reads_num (n s r : string) : s = n +:+ r → json_number n = true → num_end r = true → reads (JNum n) s r
  | reads_str v s r : scan_string s = Some (v, r) → reads (JStr v) (String (chr 34) s) r
  | reads_empty s r : tail [] s r → reads (JObj []) (String (chr 123) s) r
  | reads_obj l s r : members l s r → reads (JObj l) (String (chr 123) s) r
with members : list (string * json) → string → string → Prop :=
  | members_ws c l s r : json_ws c = true → members l s r → members l (String c s) r
  | members_one k v l s s1 s2 r :
      scan_string s = Some (k, s1) → colon v s1 s2 → tail l s2 r →
      members ((k, v) :: l) (String (chr 34) s) r
with colon : json → string → string → Prop :=
  | colon_ws c v s r : json_ws c = true → colon v s r → colon v (String c s) r
  | colon_value v s r : reads v s r → colon v (String (chr 58) s) r
with tail : list (string * json) → string → string → Prop :=
  | tail_ws c l s r : json_ws c = true → tail l s r → tail l (String c s) r
  | tail_end r : tail [] (String (chr 125) r) r
  | tail_more l s r : members l s r → tail l (String (chr 44) s) r.

(** A whole document. *)
Definition json_document (v : json) (s : string) : Prop :=
  ∃ r, reads v s r ∧ string_forall json_ws r = true.

(** ** What the report says *)
Definition JInt (z : Z) : json := JNum (print_int (s32 z)).

Definition system_value (s : SystemStatus) : json :=
  let mem v := if memValid s then JNum (print_dec v) else JNull in
  JObj [("cpu_load",
      if loadValid s then
        JObj [("1min", JNum (load_digits (loadAvg1Hundredths s)));
              ("5min", JNum (load_digits (loadAvg5Hundredths s)));
              ("15min", JNum (load_digits (loadAvg15Hundredths s)))]
      else JNull);
    ("mem_free_kb", mem (memFreeKb s)); ("mem_available_kb", mem (memAvailableKb s));
    ("mem_total_kb", mem (memTotalKb s))].

Definition motion_value (m : Motion.MotionInfo) : json :=
  JObj [("detected", JBool (Motion.currMotionDetected m));
        ("last_change_hour", JInt (Motion.lastChangedHour m));
        ("last_change_min", JInt (Motion.lastChangedMin m));
        ("last_change_sec", JInt (Motion.lastChangedSec m))].

Definition mqtt_value (s : StatusSnapshot) : json :=
  let m := mqtt s in
  JObj ([("broker_connected", JBool (mqttBrokerConnected m));
         ("broker_ip", JStr (snap_mqttBrokerIp s)); ("broker_port", JInt (mqttBrokerPort m));
         ("keep_alive_secs", JInt (mqttKeepAlive m)); ("last_loop_rc", JInt (last_loop_rc m));
         ("last_loop_rc_str", JStr (mqttLastLoopRcStr s))]
        ++ ((λ '(name, v), (name, JInt v)) <$> mqtt_counters m)).

Definition status_value (s : StatusSnapshot) : json :=
  let d := snap_dictionaryStatus s in
  JObj [("version", JInt statusJsonVersion); ("system", system_value (system s));
    ("motion", motion_value (motion s)); ("light_sensor", JInt (lightValue s));
    ("display", JObj [("mode", JStr (displayMode s)); ("dimmed", JBool (displayDimmed s))]);
    ("led_strip", JObj [("mode", JStr (ledStripMode s))]);
    ("mqtt", mqtt_value s);
    ("dictionary", JObj [("size", JInt (dictionarySize s)); ("ticks", JInt (ticks d));
      ("adds", JInt (entriesAdded d)); ("removes", JInt (entriesRemoved d));
      ("expires", JInt (entriesExpired d));
      ("entries", JObj ((λ '(k, v), (k, JStr v)) <$> snap_dictionaryEntries s))]);
    ("handlers", JObj [("hits",
      JObj (if webHandlerAvailable s then (λ '(k, v), (k, JInt v)) <$> handlerHits s else []))])].

(** The fields have their C types. *)
Definition system_ok (s : SystemStatus) : Prop :=
  0 <= loadAvg1Hundredths s < 2 ^ 32 ∧ 0 <= loadAvg5Hundredths s < 2 ^ 32 ∧
  0 <= loadAvg15Hundredths s < 2 ^ 32 ∧ 0 <= memFreeKb s < 2 ^ 64 ∧
  0 <= memAvailableKb s < 2 ^ 64 ∧ 0 <= memTotalKb s < 2 ^ 64.

(** ** The rendered report is a text of that value *)

Lemma text_cons a l : text (a :: l) = a +:+ text l.
Proof. done. Qed.
Lemma text_app l k : text (l ++ k) = text l +:+ text k.
Proof.
  induction l as [|a l IH]; [done|]. rewrite <-app_comm_cons, !text_cons, IH. by rewrite append_assoc.
Qed.

Lemma reads_int z s r : s = int_text (s32 z) +:+ r → num_end r = true → reads (JInt z) s r.
Proof.
  intros -> Hr. rewrite int_text_eq by apply s32_range.
  apply reads_num; [done|apply json_print_int|done].
Qed.

Lemma reads_string v s r :
  s = dquote +:+ (jsonEscape v +:+ (dquote +:+ r)) → reads (JStr v) s r.
Proof. intros ->. apply reads_str. apply scan_jsonEscape. Qed.

Lemma reads_load h s r :
  0 <= h < 2 ^ 32 → s = load_text h +:+ r → num_end r = true → reads (JNum (load_digits h)) s r.
Proof.
  intros Hh -> Hr. rewrite load_text_eq by done.
  apply reads_num; [done|apply json_load_digits; lia|done].
Qed.

Lemma reads_uint64 n s r :
  0 <= n < 2 ^ 64 → s = uint64_text n +:+ r → num_end r = true → reads (JNum (print_dec n)) s r.
Proof.
  intros Hn -> Hr. rewrite uint64_text_eq by done.
  apply reads_num; [done| |done]. apply json_number_unsigned. rewrite <-(append_nil_r (print_dec n)).
  apply json_unsigned_dec; done || lia.
Qed.

(** Follows the text of a document, rule by rule. *)
#[local] Ltac jstep :=
  first
    [ apply reads_int; [reflexivity|reflexivity]
    | apply reads_string; reflexivity
    | apply reads_load; [done|reflexivity|reflexivity]
    | apply reads_uint64; [done|reflexivity|reflexivity]
    | apply reads_bool; reflexivity
    | apply reads_null; reflexivity
    | eapply reads_ws; [reflexivity|]
    | apply tail_end
    | apply reads_empty
    | apply reads_obj
    | eapply members_ws; [reflexivity|]
    | eapply members_one; [reflexivity| |]
    | eapply colon_ws; [reflexivity|]
    | apply colon_value
    | eapply tail_ws; [reflexivity|]
    | apply tail_more ].

Lemma system_reads s l k r :
  system_ok s → members l (text k) r →
  members (("system", system_value s) :: l) (text (renderJsonSystem s ++ k)) r.
Proof.
  intros (H1 & H2 & H3 & H4 & H5 & H6) Hk. unfold renderJsonSystem, mem_member, system_value.
  destruct (loadValid s), (memValid s); repeat jstep; exact Hk.
Qed.

Lemma mqtt_reads s l k r :
  members l (text k) r → members (("mqtt", mqtt_value s) :: l) (text (renderJsonMqtt s ++ k)) r.
Proof.
  intros Hk. unfold renderJsonMqtt, mqtt_value, mqtt_counters.
  repeat jstep; exact Hk.
Qed.

Lemma pairs_reads e l k k' r :
  tail [] (text (k ++ k')) r →
  members ((λ '(k, v), (k, JStr v)) <$> e :: l) (text ((renderJsonPairs (e :: l) "      " ++ k) ++ k')) r.
Proof.
  intros Hk. revert e. induction l as [|e' l IH]; intros [key v].
  - do 6 (eapply members_ws; [reflexivity|]).
    eapply members_one; [apply scan_jsonEscape| |]; repeat jstep. exact Hk.
  - do 6 (eapply members_ws; [reflexivity|]).
    eapply members_one; [apply scan_jsonEscape| |].
    + do 4 jstep.
    + apply tail_more. apply members_ws; [reflexivity|]. apply (IH e').
Qed.

Lemma hits_reads e l k k' r :
  tail [] (text (k ++ k')) r →
  members ((λ '(k, v), (k, JInt v)) <$> e :: l) (text ((renderJsonHits (e :: l) ++ k) ++ k')) r.
Proof.
  intros Hk. revert e. induction l as [|e' l IH]; intros [key v].
  - do 4 (eapply members_ws; [reflexivity|]).
    eapply members_one; [apply scan_jsonEscape| |]; repeat jstep. exact Hk.
  - do 4 (eapply members_ws; [reflexivity|]).
    eapply members_one; [apply scan_jsonEscape| |].
    + do 4 jstep.
    + apply tail_more. apply members_ws; [reflexivity|]. apply (IH e').
Qed.

#[local] Opaque renderJsonSystem renderJsonMqtt renderJsonPairs renderJsonHits system_value mqtt_value.

Lemma status_reads s : system_ok (system s) → json_document (status_value s) (renderStatusJson s).
Proof.
  intros Hs. exists nl. split; [|done]. unfold renderStatusJson, status_value, motion_value.
  destruct (snap_dictionaryEntries s) as [|e l];
    (destruct (webHandlerAvailable s); [destruct (handlerHits s) as [|hit hits]|]);
    repeat first [apply system_reads; [done|] | apply mqtt_reads | apply pairs_reads
    | apply hits_reads | jstep].
Qed.
#[local] Transparent renderJsonSystem renderJsonMqtt renderJsonPairs renderJsonHits
  system_value mqtt_value.

(** ** A document holds no NUL byte *)

Lemma digit_in_not_nul base c d : digit_in base c = Some d → not_nul c = true.
Proof.
  unfold digit_in, digit_value, not_nul. destruct (Z.eqb_spec (byte c) 0) as [E|]; [|done].
  by rewrite E.
Qed.

Lemma scan_string_not_nul n s v r :
  (String.length s <= n)%nat → scan_string s = Some (v, r) →
  string_forall not_nul r = true → string_forall not_nul s = true.
Proof.
  revert s v. induction n as [|n IH]; intros [|c s] v Hn Hs Hr; simpl in Hn; [done|lia|done|].
  assert (∀ t v', (String.length t <= n)%nat →
    ('(t, r) ← scan_string t; Some (String v' t, r)) = Some (v, r) →
    string_forall not_nul t = true) as Hrec.
  { intros t v' Ht E. destruct (scan_string t) as [[w r']|] eqn:Et; simplify_eq/=. by eapply IH. }
  cbn [scan_string] in Hs. cbn [string_forall].
  destruct (Z.eqb_spec (byte c) 34) as [E|]; [simplify_eq; unfold not_nul at 1; by rewrite E|].
  destruct (Z.ltb_spec (byte c) 32); [done|].
  assert (not_nul c = true) as -> by (unfold not_nul; by destruct (Z.eqb_spec (byte c) 0); [lia|]).
  destruct (Z.eqb_spec (byte c) 92) as [Eb|]; [|eapply Hrec; [|exact Hs]; lia].
  destruct s as [|e s]; [done|]. simpl in Hn. cbn [string_forall].
  assert (byte e ≠ 0) as He by (intros E; by rewrite E in Hs).
  assert (not_nul e = true) as -> by (unfold not_nul; by destruct (Z.eqb_spec (byte e) 0)).
  repeat match type of Hs with
  | (if ?b =? ?k then _ else _) = _ => destruct (Z.eqb_spec b k); [try (eapply Hrec; [|exact Hs]; lia)|]
  end; [|done].
  destruct s as [|h1 [|h2 [|h3 [|h4 s]]]]; try done. unfold hex4 in Hs. simpl in Hn.
  destruct (digit_in 16 h1) eqn:E1, (digit_in 16 h2) eqn:E2, (digit_in 16 h3) eqn:E3,
    (digit_in 16 h4) eqn:E4; try done.
  cbn [mbind option_bind] in Hs. destruct (_ <? 128); [|done].
  cbn [string_forall]. rewrite (digit_in_not_nul _ _ _ E1), (digit_in_not_nul _ _ _ E2),
    (digit_in_not_nul _ _ _ E3), (digit_in_not_nul _ _ _ E4).
  eapply Hrec; [|exact Hs]. lia.
Qed.

Lemma isdigit_not_nul c : isdigit c = true → not_nul c = true.
Proof. unfold isdigit, not_nul. destruct (Z.eqb_spec (byte c) 0) as [->|]; done. Qed.

Lemma skip_digits_not_nul s :
  string_forall not_nul (skip_digits s) = true → string_forall not_nul s = true.
Proof.
  induction s as [|c s IH]; [done|]. cbn [skip_digits string_forall].
  destruct (isdigit c) eqn:E; [|done]. intros H. by rewrite isdigit_not_nul, IH.
Qed.

Lemma json_fraction_not_nul s : json_fraction s = true → string_forall not_nul s = true.
Proof.
  destruct s as [|p [|d s]]; [done|done|]. cbn [json_fraction string_forall].
  rewrite !andb_true_iff, Z.eqb_eq. intros [[Hp Hd] Hs]. unfold not_nul at 1. rewrite Hp.
  split; [done|]. split; [by apply isdigit_not_nul|].
  apply skip_digits_not_nul. by destruct (skip_digits s).
Qed.

Lemma json_unsigned_not_nul s : json_unsigned s = true → string_forall not_nul s = true.
Proof.
  destruct s as [|c s]; [done|]. cbn [json_unsigned string_forall].
  destruct (Z.eqb_spec (byte c) 48) as [E|].
  - intros H%json_fraction_not_nul. unfold not_nul at 1. by rewrite E, H.
  - rewrite andb_true_iff. intros [Hd Hs%json_fraction_not_nul%skip_digits_not_nul].
    by rewrite isdigit_not_nul, Hs.
Qed.

Lemma json_number_not_nul s : json_number s = true → string_forall not_nul s = true.
Proof.
  destruct s as [|c s]; [done|]. unfold json_number. destruct (Z.eqb_spec (byte c) 45) as [E|].
  - intros H%json_unsigned_not_nul. cbn [string_forall]. unfold not_nul at 1. by rewrite E, H.
  - apply json_unsigned_not_nul.
Qed.

Lemma json_ws_not_nul c : json_ws c = true → not_nul c = true.
Proof. unfold json_ws, not_nul. destruct (Z.eqb_spec (byte c) 0) as [->|]; done. Qed.

Scheme reads_mut := Minimality for reads Sort Prop
  with members_mut := Minimality for members Sort Prop
  with colon_mut := Minimality for colon Sort Prop
  with tail_mut := Minimality for tail Sort Prop.

Definition nul_free_back (s r : string) : Prop :=
  string_forall not_nul r = true → string_forall not_nul s = true.

Lemma reads_not_nul v s r : reads v s r → nul_free_back s r.
Proof.
  apply (reads_mut (λ _ s r, nul_free_back s r) (λ _ s r, nul_free_back s r)
    (λ _ s r, nul_free_back s r) (λ _ s r, nul_free_back s r)); unfold nul_free_back;
    cbn [string_forall].
  - intros c v' s' r' Hc _ IH Hr. by rewrite json_ws_not_nul, IH.
  - intros s' r' -> Hr. by rewrite string_forall_app, Hr.
  - intros b s' r' -> Hr. rewrite string_forall_app, Hr. by destruct b.
  - intros n s' r' -> Hn _ Hr. by rewrite string_forall_app, Hr, json_number_not_nul.
  - intros v' s' r' Hs Hr. by eapply scan_string_not_nul.
  - intros s' r' _ IH Hr. by apply IH.
  - intros l s' r' _ IH Hr. by apply IH.
  - intros c l s' r' Hc _ IH Hr. by rewrite json_ws_not_nul, IH.
  - intros k v' l s' s1 s2 r' Hs _ IHc _ IHt Hr.
    eapply scan_string_not_nul; [done|exact Hs|]. auto.
  - intros c v' s' r' Hc _ IH Hr. by rewrite json_ws_not_nul, IH.
  - intros v' s' r' _ IH Hr. by apply IH.
  - intros c l s' r' Hc _ IH Hr. by rewrite json_ws_not_nul, IH.
  - done.
  - intros l s' r' _ IH Hr. by apply IH.
Qed.

Lemma document_not_nul v s : json_document v s → c_str s = s.
Proof.
  intros (r & Hr & Hws). apply c_str_whole. apply (reads_not_nul _ _ _ Hr).
  clear -Hws. induction r as [|c r IH]; [done|]. cbn [string_forall] in *.
  apply andb_true_iff in Hws as [Hc Hws]. by rewrite json_ws_not_nul, IH.
Qed.

(** ** Reading /proc *)

Lemma parseHundredths_range t h : parseHundredths t = Some h → 0 <= h < 2 ^ 32.
Proof.
  unfold parseHundredths. destruct (string_empty t); [done|].
  destruct (hundredths_whole 0 0 t) as [[[w i] r]|]; [|done]. cbn [mbind option_bind].
  destruct i; [done|]. destruct r as [|c r]; [intros [= <-]; apply u32_range|].
  destruct (byte c =? 46); [|done].
  destruct (hundredths_fraction 0 0 r) as [[[f n] r']|]; [|done]. cbn [mbind option_bind].
  destruct n as [|[|n]], r'; try done; intros [= <-]; apply u32_range.
Qed.

Lemma extract_u64_range s v : extract_u64 s = Some v → 0 <= v < 2 ^ 64.
Proof.
  unfold extract_u64. destruct (scan_sign _) as [neg s1].
  pose proof (scan_digits_nonneg 10 0 0 s1 ltac:(lia) ltac:(lia)) as Hv.
  destruct (scan_digits 10 0 0 s1) as [[w n] r]. cbn [fst] in Hv. destruct n; [done|].
  destruct (Z.ltb_spec (2 ^ 64 - 1) w); [done|]. destruct neg; intros [= <-]; [apply u64_range|lia].
Qed.

Lemma readLoadAverages_ok file s ok s' :
  system_ok s → readLoadAverages file s = (ok, s') → system_ok s'.
Proof.
  intros Hs. unfold readLoadAverages. destruct (file ≫= getline) as [[line rest]|]; [|by intros [= _ <-]].
  destruct (_ ≫= _) as [[[a b] c]|]; [|by intros [= _ <-]].
  destruct (parseHundredths a) eqn:Ea; [apply parseHundredths_range in Ea|by intros [= _ <-]].
  destruct (parseHundredths b) eqn:Eb; [apply parseHundredths_range in Eb|];
    [destruct (parseHundredths c) eqn:Ec; [apply parseHundredths_range in Ec|]|];
    intros [= _ <-]; unfold system_ok in *; cbn in *; tauto.
Qed.

Definition found_ok (v : option Z) : Prop := match v with Some v => 0 <= v < 2 ^ 64 | None => True end.

Lemma parseMeminfoLine_range line name : found_ok (parseMeminfoLine line name).
Proof.
  unfold parseMeminfoLine. destruct (split_colon line) as [[f r]|]; [|done].
  cbn [mbind option_bind]. destruct (bool_decide (f = name)); [|done].
  destruct (extract_u64 r) eqn:E; [|done]. by apply extract_u64_range in E.
Qed.

Lemma meminfo_loop_ok fuel file t f a :
  found_ok t → found_ok f → found_ok a →
  let '(t', f', a') := meminfo_loop fuel file (t, f, a) in found_ok t' ∧ found_ok f' ∧ found_ok a'.
Proof.
  revert file t f a. induction fuel as [|fuel IH]; intros file t f a Ht Hf Ha; [done|].
  cbn [meminfo_loop]. destruct (getline file) as [[line rest]|]; [|done].
  unfold meminfo_line.
  pose proof (parseMeminfoLine_range line "MemTotal") as H1.
  pose proof (parseMeminfoLine_range line "MemFree") as H2.
  pose proof (parseMeminfoLine_range line "MemAvailable") as H3.
  destruct t, f, a, (parseMeminfoLine line "MemTotal"), (parseMeminfoLine line "MemFree"),
    (parseMeminfoLine line "MemAvailable"); by apply IH.
Qed.

(** The line loop ends before its fuel does. *)
Lemma take_line_shorter s : s ≠ EmptyString → (String.length (take_line s).2 < String.length s)%nat.
Proof.
  induction s as [|c s IH]; [done|]. intros _. cbn [take_line]. destruct (byte c =? 10); [simpl; lia|].
  destruct s as [|c' s]; [simpl; lia|]. specialize (IH ltac:(done)).
  destruct (take_line (String c' s)) as [l r]. simpl in *. lia.
Qed.

Lemma meminfo_loop_fuel n m file st :
  (String.length file < n)%nat → (n <= m)%nat → meminfo_loop n file st = meminfo_loop m file st.
Proof.
  revert m file st. induction n as [|n IH]; intros m file st Hn Hm; [lia|].
  destruct m as [|m]; [lia|]. cbn [meminfo_loop]. unfold getline.
  destruct (string_empty file) eqn:E; [done|].
  pose proof (take_line_shorter file) as Hl. destruct (take_line file) as [l r]. cbn [snd] in Hl.
  apply IH; [|lia]. assert (file ≠ EmptyString) by (by intros ->). specialize (Hl ltac:(done)). lia.
Qed.

(** A token that holds no whitespace is read whole. *)
Lemma next_token_app t c r :
  string_forall (λ c, negb (isspace c)) t = true → t ≠ EmptyString → isspace c = true →
  next_token (t +:+ String c r) = Some (t, String c r).
Proof.
  intros Ht Hne Hc. unfold next_token.
  assert (skip_space (t +:+ String c r) = t +:+ String c r) as ->.
  { destruct t as [|d t]; [done|]. cbn [string_forall] in Ht. apply andb_true_iff in Ht as [Hd _].
    rewrite append_cons. cbn [skip_space]. by destruct (isspace d). }
  assert (string_empty (t +:+ String c r) = false) as -> by (by destruct t). f_equal.
  clear Hne. induction t as [|d t IH].
  - rewrite append_nil_l. cbn [take_token]. by rewrite Hc.
  - cbn [string_forall] in Ht. apply andb_true_iff in Ht as [Hd Ht].
    rewrite append_cons. cbn [take_token]. destruct (isspace d); [done|]. by rewrite (IH Ht).
Qed.

Lemma next_token_space c s : isspace c = true → next_token (String c s) = next_token s.
Proof. intros Hc. unfold next_token. cbn [skip_space]. by rewrite Hc. Qed.

Lemma isdigit_nospace c : isdigit c = true → negb (isspace c) = true.
Proof.
  unfold isdigit, isspace. intros H. apply andb_true_iff in H as [H1 H2]. apply Z.leb_le in H1, H2.
  destruct (Z.eqb_spec (byte c) 32); [lia|]. destruct (Z.leb_spec (byte c) 13); [lia|].
  by rewrite andb_false_r.
Qed.

Lemma load_digits_token h : 0 <= h → string_forall (λ c, negb (isspace c)) (load_digits h) = true.
Proof.
  intros Hh. pose proof (Z.mod_pos_bound h 100 ltac:(lia)).
  pose proof (Z.mod_pos_bound (h mod 100) 10 ltac:(lia)).
  pose proof (Z.div_pos (h mod 100) 10). pose proof (Z.div_lt_upper_bound (h mod 100) 10 10).
  unfold load_digits. rewrite string_forall_app. apply andb_true_iff. split.
  - assert (string_forall isdigit (print_dec (h / 100)) = true) as Hd.
    { apply print_digits_isdigit, Z.div_pos; lia. }
    induction (print_dec (h / 100)) as [|c s IH]; [done|]. cbn [string_forall] in *.
    apply andb_true_iff in Hd as [Hc Hs]. by rewrite isdigit_nospace, IH.
  - cbn [string_forall].
    by rewrite (isdigit_nospace (digit_char (h mod 100 / 10))),
      (isdigit_nospace (digit_char (h mod 100 mod 10))) by (apply isdigit_digit; lia).
Qed.

Lemma load_digits_nonempty h : load_digits h ≠ EmptyString.
Proof. unfold load_digits. by destruct (print_dec _). Qed.

Lemma take_line_app t r :
  string_forall (λ c, negb (byte c =? 10)) t = true → take_line (t +:+ String (chr 10) r) = (t, r).
Proof.
  induction t as [|c t IH]; [done|]. cbn [string_forall]. rewrite append_cons.
  intros [Hc Ht]%andb_true_iff. cbn [take_line]. destruct (byte c =? 10); [done|]. by rewrite IH.
Qed.

Lemma no_space_no_newline t :
  string_forall (λ c, negb (isspace c)) t = true → string_forall (λ c, negb (byte c =? 10)) t = true.
Proof.
  induction t as [|c t IH]; [done|]. cbn [string_forall]. intros [Hc Ht]%andb_true_iff.
  rewrite IH by done. rewrite andb_true_r. unfold isspace in Hc.
  destruct (Z.eqb_spec (byte c) 10) as [E|]; [by rewrite E in Hc|done].
Qed.

(** A line of /proc/loadavg: three averages and whatever follows them. *)
Definition loadavg_line (a b c : Z) (rest : string) : string :=
  load_digits a +:+ String (chr 32) (load_digits b +:+ String (chr 32)
    (load_digits c +:+ String (chr 32) rest)).

Lemma readLoadAverages_line a b c rest more s :
  0 <= a → 0 <= b → 0 <= c → a / 100 <= maxWhole → b / 100 <= maxWhole → c / 100 <= maxWhole →
  string_forall (λ c, negb (byte c =? 10)) rest = true →
  readLoadAverages (Some (loadavg_line a b c rest +:+ String (chr 10) more)) s =
  (true, set_load (loadValid s) a b c s).
Proof.
  intros Ha Hb Hc Ha' Hb' Hc' Hrest. unfold readLoadAverages. cbn [mbind option_bind].
  assert (getline (loadavg_line a b c rest +:+ String (chr 10) more) =
    Some (loadavg_line a b c rest, more)) as ->.
  { unfold getline. assert (string_empty (loadavg_line a b c rest +:+ String (chr 10) more) = false) as ->.
    { unfold loadavg_line. pose proof (load_digits_nonempty a). by destruct (load_digits a). }
    f_equal. apply take_line_app. unfold loadavg_line.
    rewrite !string_forall_app. cbn [string_forall]. rewrite !string_forall_app. cbn [string_forall].
    rewrite string_forall_app. cbn [string_forall].
    by rewrite !no_space_no_newline by (by apply load_digits_token). }
  unfold loadavg_line. rewrite next_token_app by (done || apply load_digits_token, Ha || apply load_digits_nonempty).
  cbn [mbind option_bind].
  rewrite next_token_space, next_token_app by (done || apply load_digits_token, Hb || apply load_digits_nonempty).
  cbn [mbind option_bind].
  rewrite next_token_space, next_token_app by (done || apply load_digits_token, Hc || apply load_digits_nonempty).
  cbn [mbind option_bind]. by rewrite !parse_load_digits by done.
Qed.

(** ** Properties *)

(** C17: the JSON report is a JSON document, and says what the snapshot says:
    by the grammar of RFC 8259 its text reads as the object that has the
    snapshot's fields, every string being the exact bytes of the field,
    dictionary keys and values of any content included. It holds no NUL byte,
    so the MQTT client, which measures it as a C string, publishes it whole. *)
Theorem status_json_valid s :
  system_ok (system s) →
  json_document (status_value s) (renderStatusJson s) ∧ c_str (renderStatusJson s) = renderStatusJson s.
Proof.
  intros Hs. pose proof (status_reads s Hs) as Hdoc. split; [done|by eapply document_not_nul].
Qed.

Definition demo_snapshot : StatusSnapshot :=
  mkSnapshot true [("/status", 3)] Motion.initial 512 "clock" false "manual"
    (mkMqttInfo (Some "broker") 1883 182 true 0 1 1 0 2 0 0 2 0 9) "broker" "No error."
    (mkStatus 7 2 1 0) 1 [(String (chr 0) "key", "say " +:+ dquote +:+ nl)]
    (mkSystem true 14 1234 5 true 123456 234567 493832).

Lemma status_json_valid_witness :
  json_document (status_value demo_snapshot) (renderStatusJson demo_snapshot) ∧
  c_str (renderStatusJson demo_snapshot) = renderStatusJson demo_snapshot.
Proof. apply (status_json_valid demo_snapshot). unfold system_ok. simpl. lia. Defined.



(** The loop of the report over the dictionary. *)
Lemma gather_dictionary_ok `{TimerService T} (w : Dictionary T) :
  dict_ok w →
  ∃ l w', gather_dictionary w = Some (l, w') ∧ dict_ok w' ∧ same_dict w w' ∧ map_sorted l ∧
    ∀ k v, (k, v) ∈ l ↔ ∃ life, lookup_dict w k = Some (v, life).
Proof.
  intros Hok. unfold gather_dictionary, getFirst, getNext.
  destruct (getNext_loop_ok (S (length (dictionaryEntries w))) EmptyString w Hok ltac:(lia))
    as (f & k & v & w1 & E & Hok1 & Hsame & Hsub & _ & Hres).
  rewrite E. cbn [mbind option_bind].
  assert (∀ k' v' life, lookup_dict w k' = Some (v', life) → less EmptyString k' = true) as Hkey.
  { intros k' v' life Hl. assert (map_find k' (dictionaryEntries w) ≠ None) as Hf
      by (apply lookup_dict_find; by rewrite Hl).
    destruct (map_find k' (dictionaryEntries w)) as [e|] eqn:Ef; [|done].
    pose proof (do_keys _ Hok _ _ Ef). by destruct k'. }
  destruct (gather_ok (length (dictionaryEntries w)) k v f w1 Hok1)
    as (l & w2 & -> & Hok2 & Hsame2 & Hsort & Hl).
  { destruct f; [|done]. destruct Hres as (Hlt & [life Hlk] & _). split; [exists life; by rewrite Hsame|].
    assert (map_find k (dictionaryEntries w1) ≠ None) as Hk by (apply lookup_dict_find; by rewrite Hsame, Hlk).
    destruct (map_find k (dictionaryEntries w1)) as [e|] eqn:Ee; [|done]. apply map_find_elem in Ee.
    pose proof (sublist_length _ _ Hsub).
    pose proof (filter_strict (λ _, True) (above k) (dictionaryEntries w1) (k, e) ltac:(done) Ee I) as Hst.
    unfold above in Hst at 1. cbn [fst] in Hst. rewrite less_irrefl in Hst. specialize (Hst ltac:(done)).
    pose proof (length_filter (λ _, True) (dictionaryEntries w1)). lia. }
  exists l, w2. split; [done|]. split; [done|]. split; [intros k'; by rewrite Hsame2, Hsame|].
  split; [done|]. intros k' v'. rewrite Hl. split.
  - intros (_ & _ & Hlk). by rewrite Hsame in Hlk.
  - intros [life Hlk]. rewrite Hsame. pose proof (Hkey _ _ _ Hlk) as Hk'. destruct f.
    + destruct Hres as (_ & _ & Hleast). split; [done|].
      split; [apply Hleast; [by rewrite Hlk|done]|by exists life].
    + destruct Hres as (_ & Hno). rewrite Hno in Hk'; [done|by rewrite Hlk].
Qed.

(** C32: the report lists the dictionary. Gathering terminates, lists exactly
    the entries that have not expired, each once and by ascending key, and
    changes nothing another reader of the dictionary could see. *)
Theorem status_lists_dictionary `{TimerService T} (w : Dictionary T) :
  dict_ok w →
  ∃ l w', gather_dictionary w = Some (l, w') ∧ dict_ok w' ∧ same_dict w w' ∧ map_sorted l ∧
    ∀ k v, (k, v) ∈ l ↔ ∃ life, lookup_dict w k = Some (v, life).
Proof. apply gather_dictionary_ok. Qed.

Lemma status_lists_dictionary_witness :
  ∃ l w', gather_dictionary demo_dictionary = Some (l, w') ∧ dict_ok w' ∧
    same_dict demo_dictionary w' ∧ map_sorted l ∧
    ∀ k v, (k, v) ∈ l ↔ ∃ life, lookup_dict demo_dictionary k = Some (v, life).
Proof. apply (status_lists_dictionary demo_dictionary). apply Dictionary_new_ok. Defined.
