(* ===== verification/JsonChecker.v ===== *)
(** * The JSON checker of the status tests: src/tests/status_tests.cpp

    The tests check the status document with a recursive descent parser of
    their own. Its text and position are the text that is left; a method gives
    what is left after it, and fails for good. The checker terminates on every
    text, and it accepts every text of the grammar of StatusReport.v, hence the
    document of every snapshot and not only of the tests' own. *)
From S2P Require Import Prelude CLib StatusReport.

(** ** The lexical part *)

Fixpoint skipWhitespace (s : string) : string :=
  match s with
  | String c s' => if json_ws c then skipWhitespace s' else s
  | EmptyString => s
  end.

Fixpoint literal (expected s : string) : option string :=
  match expected, s with
  | EmptyString, _ => Some s
  | String e expected, String c s => if (e =? c)%char then literal expected s else None
  | String _ _, EmptyString => None
  end.

Definition isHex (c : ascii) : bool :=
  (48 <=? byte c) && (byte c <=? 57) || (97 <=? byte c) && (byte c <=? 102)
  || (65 <=? byte c) && (byte c <=? 70).

(** The characters that may follow a backslash, [u] apart. *)
Definition isEscape (c : ascii) : bool :=
  existsb (Z.eqb (byte c)) [34; 92; 47; 98; 102; 110; 114; 116].

(** The loop of [parseString]. *)
Fixpoint string_body (s : string) : option string :=
  match s with
  | EmptyString => None
  | String c s =>
      if byte c =? 34 then Some s
      else if byte c <? 0x20 then None
      else if byte c =? 92 then
        match s with
        | EmptyString => None
        | String e s =>
            if isEscape e then string_body s
            else if byte e =? 117 then
              match s with
              | String a (String b (String c (String d s))) =>
                  if isHex a && isHex b && isHex c && isHex d then string_body s else None
              | _ => None
              end
            else None
        end
      else string_body s
  end.

Definition parseString (s : string) : option string :=
  match s with
  | String c s => if byte c =? 34 then string_body s else None
  | EmptyString => None
  end.

(** [peek()] is the character [k], which is taken. *)
Definition take_char (k : Z) (s : string) : option string :=
  match s with String c s => if byte c =? k then Some s else None | EmptyString => None end.

Definition parseDigits (s : string) : option string :=
  match s with
  | String c _ => if isdigit c then Some (skip_digits s) else None
  | EmptyString => None
  end.

(** [if (peek() == k) { ++pos_; ... }] *)
Definition skip_char (k : Z) (s : string) : string := default s (take_char k s).

Definition parseNumber (s : string) : option string :=
  s ← parseDigits (skip_char 45 s);
  s ← match take_char 46 s with Some s => parseDigits s | None => Some s end;
  match take_char 101 s, take_char 69 s with
  | Some s, _ | _, Some s =>
      parseDigits (match take_char 43 s with Some s => s | None => skip_char 45 s end)
  | None, None => Some s
  end.

(** ** The recursive part

    The outer [None] says that the fuel ran out, the inner one that the text
    was refused. *)
Definition parsed : Type := option (option string).

(** On acceptance go on with [k]. *)
Definition and_then (p : parsed) (k : string → parsed) : parsed :=
  match p with Some (Some s) => k s | _ => p end.
Definition refused : parsed := Some None.
Definition accepted (s : string) : parsed := Some (Some s).

(** What follows an element: a comma and the rest of the loop, or the end. *)
Definition element_end (close : Z) (loop : string → parsed) (s : string) : parsed :=
  match skipWhitespace s with
  | String c s => if byte c =? 44 then loop s else if byte c =? close then accepted s else refused
  | EmptyString => refused
  end.

(** What is in front of the first element: the end, or the loop. *)
Definition element_start (close : Z) (loop : string → parsed) (s : string) : parsed :=
  let s := skipWhitespace s in
  match take_char close s with Some s => accepted s | None => loop s end.

Fixpoint parseValue (fuel : nat) (s : string) : parsed :=
  match fuel with
  | O => None
  | S fuel =>
      match s with
      | EmptyString => refused
      | String c s' =>
          if byte c =? 123 then element_start 125 (object_loop fuel) s'
          else if byte c =? 91 then element_start 93 (array_loop fuel) s'
          else Some (if byte c =? 34 then parseString s
                     else if byte c =? 116 then literal "true" s
                     else if byte c =? 102 then literal "false" s
                     else if byte c =? 110 then literal "null" s
                     else parseNumber s)
      end
  end
(** The [while] of [parseObject]. *)
with object_loop (fuel : nat) (s : string) : parsed :=
  match fuel with
  | O => None
  | S fuel =>
      and_then (Some (parseString (skipWhitespace s))) (λ s,
      and_then (Some (take_char 58 (skipWhitespace s))) (λ s,
      and_then (parseValue fuel (skipWhitespace s)) (element_end 125 (object_loop fuel))))
  end
(** The [while] of [parseArray]. *)
with array_loop (fuel : nat) (s : string) : parsed :=
  match fuel with
  | O => None
  | S fuel => and_then (parseValue fuel (skipWhitespace s)) (element_end 93 (array_loop fuel))
  end.

Definition parse_fuel (s : string) : nat := S (2 * String.length s).

(** [JsonChecker::valid], in a run of enough steps. *)
Definition checked (s : string) : parsed :=
  let s := skipWhitespace s in parseValue (parse_fuel s) s.

Definition isValidJson (s : string) : bool :=
  match checked s with
  | Some (Some r) => string_empty (skipWhitespace r)
  | _ => false
  end.

#[local] Arguments isEscape : simpl never.
#[local] Arguments isHex : simpl never.

(** ** It terminates *)

#[local] Abbreviation len := String.length.

(** An outcome that is reached and leaves less than [n] characters. *)
Definition within (n : nat) (p : parsed) : Prop :=
  ∃ o, p = Some o ∧ ∀ r, o = Some r → (len r < n)%nat.

Lemma within_refused n : within n refused.
Proof. by exists None. Qed.

Lemma within_some n o : (∀ r, o = Some r → (len r < n)%nat) → within n (Some o).
Proof. by exists o. Qed.

Lemma within_weaken n m p : within n p → (n <= m)%nat → within m p.
Proof. intros (o & -> & H) Hm. exists o. split; [done|]. intros r Hr. specialize (H r Hr). lia. Qed.

Lemma within_then n m p k :
  within n p → (∀ s, (len s < n)%nat → within m (k s)) → within m (and_then p k).
Proof. intros (o & -> & H) Hk. destruct o as [s|]; [by apply Hk, H|by exists None]. Qed.

Lemma skipWhitespace_len s : (len (skipWhitespace s) <= len s)%nat.
Proof. induction s as [|c s IH]; [done|]. cbn. destruct (json_ws c); cbn in *; lia. Qed.

Lemma literal_len e s r : literal e s = Some r → (len r + len e = len s)%nat.
Proof.
  revert s. induction e as [|c e IH]; intros s; cbn; [intros [= <-]; cbn; lia|].
  destruct s as [|d s]; [done|]. destruct (c =? d)%char; [|done]. intros H%IH. cbn. lia.
Qed.

Lemma string_body_len n s r : (len s <= n)%nat → string_body s = Some r → (len r < len s)%nat.
Proof.
  revert s. induction n as [|n IH]; intros [|c s] Hn; cbn in *; try done; [lia|].
  assert (∀ t, (len t <= len s)%nat → string_body t = Some r → (len r < S (len s))%nat) as Hrec.
  { intros t Ht E. apply IH in E; lia. }
  destruct (_ =? 34); [intros [= <-]; lia|]. destruct (_ <? 32); [done|].
  destruct (_ =? 92); [|by apply Hrec]. destruct s as [|e s]; [done|]. cbn in *.
  destruct (isEscape e); [apply Hrec; lia|]. destruct (_ =? 117); [|done].
  destruct s as [|? [|? [|? [|? s]]]]; try done. destruct (_ && _); [|done]. cbn in *. apply Hrec. lia.
Qed.

Lemma parseString_len s r : parseString s = Some r → (len r < len s)%nat.
Proof.
  destruct s as [|c s]; [done|]. cbn. destruct (_ =? 34); [|done].
  intros H%(string_body_len (len s)); lia.
Qed.

Lemma take_char_len k s r : take_char k s = Some r → (S (len r) = len s)%nat.
Proof. destruct s as [|c s]; [done|]. cbn. destruct (_ =? k); [by intros [= ->]|done]. Qed.

Lemma skip_char_len k s : (len (skip_char k s) <= len s)%nat.
Proof.
  unfold skip_char. destruct (take_char k s) eqn:E; [apply take_char_len in E; cbn; lia|cbn; lia].
Qed.

Lemma skip_digits_len s : (len (skip_digits s) <= len s)%nat.
Proof. induction s as [|c s IH]; [done|]. cbn. destruct (isdigit c); cbn in *; lia. Qed.

Lemma parseDigits_len s r : parseDigits s = Some r → (len r < len s)%nat.
Proof.
  destruct s as [|c s]; [done|]. cbn. destruct (isdigit c); [|done]. intros [= <-].
  pose proof (skip_digits_len s). lia.
Qed.

Lemma parseNumber_len s r : parseNumber s = Some r → (len r < len s)%nat.
Proof.
  unfold parseNumber. pose proof (skip_char_len 45 s).
  destruct (parseDigits _) as [s1|] eqn:E1; [|done]. apply parseDigits_len in E1. cbn [mbind option_bind].
  destruct (match take_char 46 s1 with Some _ => _ | None => _ end) as [s2|] eqn:E2; [|done].
  assert (len s2 <= len s1)%nat.
  { destruct (take_char 46 s1) eqn:E; [|by simplify_eq].
    apply take_char_len in E. apply parseDigits_len in E2. lia. }
  cbn [mbind option_bind].
  assert (∀ t, (len t <= len s2)%nat →
    parseDigits (match take_char 43 t with Some s => s | None => skip_char 45 t end) = Some r →
    (len r < len s)%nat) as Hexp.
  { intros t Ht Er%parseDigits_len. pose proof (skip_char_len 45 t).
    destruct (take_char 43 t) eqn:E; [apply take_char_len in E|]; lia. }
  destruct (take_char 101 s2) eqn:Ea; [apply Hexp; apply take_char_len in Ea; lia|].
  destruct (take_char 69 s2) eqn:Eb; [apply Hexp; apply take_char_len in Eb; lia|].
  intros [= <-]. lia.
Qed.

Lemma element_end_within n close loop s :
  (len s < n)%nat → (∀ t, (len t < len s)%nat → within n (loop t)) → within n (element_end close loop s).
Proof.
  intros Hn Hl. unfold element_end. pose proof (skipWhitespace_len s).
  destruct (skipWhitespace s) as [|c t]; [apply within_refused|]. cbn in *.
  destruct (_ =? 44); [apply Hl; lia|]. destruct (_ =? close); [|apply within_refused].
  apply within_some. intros r [= <-]. lia.
Qed.

Lemma element_start_within n close loop s :
  (len s < n)%nat → (∀ t, (len t <= len s)%nat → within n (loop t)) → within n (element_start close loop s).
Proof.
  intros Hn Hl. unfold element_start. pose proof (skipWhitespace_len s).
  destruct (take_char _ _) as [r|] eqn:E; [|by apply Hl].
  apply take_char_len in E. apply within_some. intros r' [= <-]. lia.
Qed.

Lemma parse_within fuel s :
  ((2 * len s < fuel)%nat → within (len s) (parseValue fuel s)) ∧
  ((2 * len s + 1 < fuel)%nat → within (len s) (object_loop fuel s) ∧ within (len s) (array_loop fuel s)).
Proof.
  revert s. induction fuel as [|fuel IH]; intros s; [lia|]. pose proof (skipWhitespace_len s) as Hw.
  assert (∀ t, (len t < len s)%nat → (2 * len s <= fuel)%nat →
    within (len s) (object_loop fuel t) ∧ within (len s) (array_loop fuel t) ∧
    within (len s) (parseValue fuel t)) as Hrec.
  { intros t Ht Hf. destruct (IH t) as [H1 H2]. destruct H2 as [H2 H3]; [lia|].
    split_and!; (eapply within_weaken; [first [exact H2|exact H3|apply H1; lia]|lia]). }
  split; intros Hf.
  - destruct s as [|c t]; [apply within_refused|]. cbn [parseValue].
    assert (∀ f, (∀ r, f = Some r → (len r < len (String c t))%nat) → within (len (String c t)) (Some f))
      as Hsome by (intros f; apply within_some).
    destruct (byte c =? 123); [apply element_start_within; [cbn; lia|]; intros u Hu; apply Hrec; cbn in *; lia|].
    destruct (byte c =? 91); [apply element_start_within; [cbn; lia|]; intros u Hu; apply Hrec; cbn in *; lia|].
    apply Hsome. intros r. destruct (byte c =? 34); [apply parseString_len|].
    destruct (byte c =? 116); [intros E%literal_len; cbn in *; lia|].
    destruct (byte c =? 102); [intros E%literal_len; cbn in *; lia|].
    destruct (byte c =? 110); [intros E%literal_len; cbn in *; lia|]. apply parseNumber_len.
  - assert (∀ close loop t, (len t < len s)%nat → (∀ u, (len u < len s)%nat → within (len s) (loop u)) →
      within (len s) (element_end close loop t)) as Hend.
    { intros close loop t Ht Hl. apply element_end_within; [done|]. intros u Hu. apply Hl. lia. }
    split; cbn [object_loop array_loop].
    + eapply within_then; [apply (within_some (len s)); intros r E%parseString_len; lia|]. intros t Ht.
      eapply within_then; [apply (within_some (len s)); intros r E%take_char_len; pose proof (skipWhitespace_len t); lia|].
      intros u Hu. pose proof (skipWhitespace_len u).
      eapply within_then; [apply Hrec; lia|]. intros v Hv. apply Hend; [done|]. intros x Hx. apply Hrec; lia.
    + eapply within_then; [apply IH; lia|]. intros v Hv.
      apply Hend; [lia|]. intros x Hx. apply Hrec; lia.
Qed.

(** Every text is accepted or refused. *)
Lemma checked_total s : ∃ o, checked s = Some o.
Proof.
  unfold checked, parse_fuel. cbv zeta.
  destruct (proj1 (parse_within (S (2 * len (skipWhitespace s))) (skipWhitespace s))) as (o & -> & _); [lia|].
  by exists o.
Qed.

(** ** It accepts the grammar *)

Lemma scan_string_body n s v r : (len s <= n)%nat → scan_string s = Some (v, r) → string_body s = Some r.
Proof.
  revert s v. induction n as [|n IH]; intros [|c s] v Hn Hs; simpl in Hn; [done|lia|done|].
  assert (∀ t v', (len t <= n)%nat →
    ('(t, r) ← scan_string t; Some (String v' t, r)) = Some (v, r) → string_body t = Some r) as Hrec.
  { intros t v' Ht E. destruct (scan_string t) as [[w r']|] eqn:Et; simplify_eq/=. by eapply IH. }
  cbn [scan_string string_body] in *. destruct (Z.eqb_spec (byte c) 34) as [E|]; [by simplify_eq|].
  destruct (Z.ltb_spec (byte c) 32); [done|].
  destruct (Z.eqb_spec (byte c) 92) as [Eb|]; [|eapply Hrec; [|exact Hs]; lia].
  destruct s as [|e s]; [done|]. simpl in Hn. unfold isEscape. cbn [existsb].
  repeat match type of Hs with
  | (if ?b =? ?k then _ else _) = _ =>
      destruct (Z.eqb_spec b k) as [Ek|]; [try (rewrite ?orb_true_r; eapply Hrec; [|exact Hs]; lia)|]
  end; [|done]. cbn [orb].
  destruct s as [|h1 [|h2 [|h3 [|h4 s]]]]; try done. unfold hex4 in Hs. simpl in Hn.
  assert (∀ h d, digit_in 16 h = Some d → isHex h = true) as Hhex.
  { intros h d. clear. by destruct h as [[] [] [] [] [] [] [] []]. }
  destruct (digit_in 16 h1) eqn:E1, (digit_in 16 h2) eqn:E2, (digit_in 16 h3) eqn:E3,
    (digit_in 16 h4) eqn:E4; try done.
  cbn [mbind option_bind] in Hs. destruct (_ <? 128); [|done].
  rewrite (Hhex _ _ E1), (Hhex _ _ E2), (Hhex _ _ E3), (Hhex _ _ E4). eapply Hrec; [|exact Hs]. lia.
Qed.

Lemma skipWhitespace_ws c s : json_ws c = true → skipWhitespace (String c s) = skipWhitespace s.
Proof. intros H. cbn. by rewrite H. Qed.

Lemma literal_app e r : literal e (e +:+ r) = Some r.
Proof. induction e as [|c e IH]; [done|]. rewrite append_cons. cbn [literal]. by rewrite Ascii.eqb_refl. Qed.

(** The end of a number stops the digits, and nothing of it is taken. *)
Lemma num_end_stops r :
  num_end r = true →
  skip_digits r = r ∧ take_char 46 r = None ∧ take_char 101 r = None ∧ take_char 69 r = None.
Proof.
  destruct r as [|c r]; [done|]. cbn. rewrite negb_true_iff, !orb_false_iff.
  intros (((((-> & ->) & _) & _) & ->) & ->). done.
Qed.

Lemma skip_digits_app s r :
  num_end r = true → skip_digits s = EmptyString → skip_digits (s +:+ r) = r.
Proof.
  intros Hr. induction s as [|c s IH]; [intros _; by apply num_end_stops|].
  rewrite append_cons. cbn. destruct (isdigit c); [apply IH|done].
Qed.

Lemma skip_digits_split s : ∃ t, s = t +:+ skip_digits s ∧ string_forall isdigit t = true.
Proof.
  induction s as [|c s (t & E & Ht)]; [by exists EmptyString|]. cbn. destruct (isdigit c) eqn:Ec.
  - exists (String c t). rewrite append_cons. cbn. by rewrite Ec, Ht, <-E.
  - by exists EmptyString.
Qed.

Lemma skip_digits_past t s : string_forall isdigit t = true → skip_digits (t +:+ s) = skip_digits s.
Proof. induction t as [|c t IH]; [done|]. rewrite append_cons. cbn. destruct (isdigit c); [apply IH|done]. Qed.

(** After the integer part. *)
Lemma fraction_accepted s r :
  num_end r = true → json_fraction s = true →
  skip_digits (s +:+ r) = s +:+ r ∧
  (match take_char 46 (s +:+ r) with Some s => parseDigits s | None => Some (s +:+ r) end) = Some r.
Proof.
  intros Hr Hs. destruct s as [|p [|d s]]; [|done|].
  - rewrite append_nil_l. destruct (num_end_stops r Hr) as (-> & -> & _). done.
  - cbn [json_fraction] in Hs. apply andb_true_iff in Hs as [Hs He]. apply andb_true_iff in Hs as [Hp Hd].
    apply Z.eqb_eq in Hp. rewrite !append_cons. cbn. unfold isdigit at 1. rewrite Hp. cbn. split; [done|].
    rewrite Hd. f_equal. apply skip_digits_app; [done|]. by destruct (skip_digits s).
Qed.

Lemma unsigned_accepted s r :
  num_end r = true → json_unsigned s = true →
  ∃ t, parseDigits (s +:+ r) = Some t ∧
    (match take_char 46 t with Some s => parseDigits s | None => Some t end) = Some r.
Proof.
  intros Hr Hs. destruct s as [|c s]; [done|]. cbn [json_unsigned] in Hs.
  assert (isdigit c = true ∧ json_fraction (skip_digits s) = true) as [Hc Hf].
  { destruct (Z.eqb_spec (byte c) 48) as [E|]; [|by apply andb_true_iff].
    split; [unfold isdigit; by rewrite E|]. destruct s as [|p [|d s]]; [done|done|].
    cbn [json_fraction] in Hs. pose proof Hs as Hs'. apply andb_true_iff in Hs as [Hs _].
    apply andb_true_iff in Hs as [Hp _]. apply Z.eqb_eq in Hp. cbn [skip_digits].
    unfold isdigit at 1. by rewrite Hp. }
  destruct (skip_digits_split s) as (t & Et & Ht).
  destruct (fraction_accepted _ r Hr Hf) as [Hsk Hfr].
  exists (skip_digits s +:+ r). split; [|done]. rewrite append_cons. cbn. rewrite Hc. f_equal.
  rewrite Et at 1. by rewrite append_assoc, skip_digits_past.
Qed.

Lemma number_accepted n r :
  num_end r = true → json_number n = true → parseNumber (n +:+ r) = Some r.
Proof.
  intros Hr Hn. unfold parseNumber.
  assert (∃ s, json_unsigned s = true ∧ skip_char 45 (n +:+ r) = s +:+ r) as (s & Hs & ->).
  { destruct n as [|c n]; [done|]. unfold json_number in Hn. unfold skip_char. rewrite append_cons. cbn.
    destruct (byte c =? 45); [by exists n|by exists (String c n)]. }
  destruct (unsigned_accepted s r Hr Hs) as (t & -> & E). cbn [mbind option_bind]. rewrite E.
  cbn [mbind option_bind]. by destruct (num_end_stops r Hr) as (_ & _ & -> & ->).
Qed.

(** The first character of a number is none of those the parser knows. *)
Lemma number_dispatch n r fuel :
  num_end r = true → json_number n = true → parseValue (S fuel) (n +:+ r) = accepted r.
Proof.
  intros Hr Hn. pose proof (number_accepted n r Hr Hn) as E. destruct n as [|c n]; [done|].
  assert (byte c = 45 ∨ 48 <= byte c <= 57) as Hc.
  { unfold json_number in Hn. destruct (Z.eqb_spec (byte c) 45); [by left|right].
    unfold json_unsigned in Hn. destruct (Z.eqb_spec (byte c) 48); [lia|].
    apply andb_true_iff in Hn as [Hd _]. unfold isdigit in Hd.
    apply andb_true_iff in Hd as [H1%Z.leb_le H2%Z.leb_le]. lia. }
  rewrite append_cons. cbn [parseValue]. repeat match goal with
  | |- context [byte c =? ?k] => destruct (Z.eqb_spec (byte c) k); [lia|]
  end. unfold accepted. f_equal. exact E.
Qed.

(** What the derivations of the grammar give, part by part. *)
Definition value_accepted (s r : string) : Prop :=
  (len r < len (skipWhitespace s))%nat ∧
  ∀ fuel, (2 * len (skipWhitespace s) < fuel)%nat → parseValue fuel (skipWhitespace s) = accepted r.

Definition members_accepted (l : list (string * json)) (s r : string) : Prop :=
  l ≠ [] ∧ (∃ t, skipWhitespace s = String (chr 34) t) ∧ (len r < len (skipWhitespace s))%nat ∧
  ∀ fuel, (2 * len (skipWhitespace s) + 1 < fuel)%nat → object_loop fuel s = accepted r.

Definition colon_accepted (s r : string) : Prop :=
  ∃ t, take_char 58 (skipWhitespace s) = Some t ∧ value_accepted t r.

Definition tail_accepted (l : list (string * json)) (s r : string) : Prop :=
  (len r < len (skipWhitespace s))%nat ∧ (l = [] → take_char 125 (skipWhitespace s) = Some r) ∧
  ∀ fuel, (2 * len (skipWhitespace s) <= fuel)%nat → element_end 125 (object_loop fuel) s = accepted r.

Lemma dispatch_accepted c s r :
  json_ws c = false → (len r <= len s)%nat →
  (∀ fuel, (2 * len s + 2 < fuel)%nat → parseValue fuel (String c s) = accepted r) →
  value_accepted (String c s) r.
Proof.
  intros Hc Hl H. unfold value_accepted. cbn [skipWhitespace]. rewrite Hc. split; [cbn; lia|].
  intros fuel Hf. apply H. cbn in Hf. lia.
Qed.

Lemma literal_accepted c e r :
  json_ws c = false → byte c ≠ 123 → byte c ≠ 91 →
  (∀ s, Some (if byte c =? 34 then parseString (String c s)
        else if byte c =? 116 then literal "true" (String c s)
        else if byte c =? 102 then literal "false" (String c s)
        else if byte c =? 110 then literal "null" (String c s)
        else parseNumber (String c s)) = Some (literal (String c e) (String c s))) →
  value_accepted (String c e +:+ r) r.
Proof.
  intros Hc H1 H2 H. rewrite append_cons. apply dispatch_accepted; [done|rewrite length_append_str; lia|].
  intros [|fuel] Hf; [lia|]. cbn [parseValue].
  destruct (Z.eqb_spec (byte c) 123); [done|]. destruct (Z.eqb_spec (byte c) 91); [done|].
  rewrite H, <-append_cons. unfold accepted. f_equal. apply literal_app.
Qed.

Lemma members_start l s r fuel :
  members_accepted l s r → (2 * len s + 1 < fuel)%nat →
  element_start 125 (object_loop fuel) s = accepted r.
Proof.
  intros (_ & (t & Et) & _ & H) Hf. unfold element_start. rewrite Et.
  change (take_char 125 (String (chr 34) t)) with (@None string). rewrite <-Et.
  pose proof (skipWhitespace_len s).
  enough (object_loop fuel (skipWhitespace s) = object_loop fuel s) as -> by (apply H; lia).
  destruct fuel; [done|]. cbn [object_loop]. do 3 f_equal.
  by rewrite Et.
Qed.

(** A number does not begin with a blank. *)
Lemma number_value_accepted n r :
  json_number n = true → num_end r = true → value_accepted (n +:+ r) r.
Proof.
  intros Hn Hr. pose proof (number_dispatch n r O Hr Hn) as E.
  destruct n as [|c n]; [done|]. rewrite append_cons in *.
  apply dispatch_accepted; [|rewrite length_append_str; lia|].
  - unfold json_number, json_unsigned in Hn. destruct (json_ws c) eqn:Ew; [|done]. exfalso.
    unfold json_ws in Ew. rewrite !orb_true_iff, !Z.eqb_eq in Ew. unfold isdigit in Hn.
    destruct (Z.eqb_spec (byte c) 45); [lia|]. destruct (Z.eqb_spec (byte c) 48); [lia|].
    rewrite andb_true_iff, andb_true_iff, !Z.leb_le in Hn. lia.
  - intros [|fuel] Hf; [lia|]. rewrite <-append_cons. by apply number_dispatch.
Qed.

Lemma reads_accepted v s r : reads v s r → value_accepted s r.
Proof.
  apply (reads_mut (λ _, value_accepted) members_accepted (λ _, colon_accepted) tail_accepted).
  - intros c v' s' r' Hc _ IH. unfold value_accepted. by rewrite skipWhitespace_ws.
  - intros s' r' ->. by apply (literal_accepted "n" "ull").
  - intros b s' r' ->. destruct b; [by apply (literal_accepted "t" "rue")|by apply (literal_accepted "f" "alse")].
  - intros n s' r' -> Hn Hr. by apply number_value_accepted.
  - intros v' s' r' Hs. apply scan_string_body with (n := len s') in Hs; [|lia].
    apply dispatch_accepted; [done|pose proof (string_body_len (len s') s' r' ltac:(lia) Hs); lia|].
    intros [|fuel] Hf; [lia|]. cbn [parseValue]. change (byte (chr 34)) with 34. cbn.
    unfold accepted. f_equal. exact Hs.
  - intros s' r' _ (Hl & Hn & _). pose proof (skipWhitespace_len s').
    apply dispatch_accepted; [done|lia|]. intros [|fuel] Hf; [lia|]. cbn [parseValue].
    change (byte (chr 123)) with 123. cbn. unfold element_start. by rewrite Hn.
  - intros l s' r' _ Hm. pose proof (skipWhitespace_len s'). pose proof Hm as (_ & _ & Hl & _).
    apply dispatch_accepted; [done|lia|]. intros [|fuel] Hf; [lia|]. cbn [parseValue].
    change (byte (chr 123)) with 123. cbn. eapply members_start; [done|]. lia.
  - intros c l s' r' Hc _ (H1 & H2 & H3 & H4). unfold members_accepted. rewrite skipWhitespace_ws by done.
    split_and!; try done. intros [|fuel] Hf; [lia|]. rewrite <-(H4 (S fuel)) by lia.
    cbn [object_loop]. by rewrite skipWhitespace_ws.
  - intros k v' l s' s1 s2 r' Hk _ (t & Ht & Hv1 & Hv2) _ (Ht1 & _ & Ht2).
    apply scan_string_body with (n := len s') in Hk; [|lia].
    pose proof (string_body_len (len s') s' s1 ltac:(lia) Hk).
    apply take_char_len in Ht as Htl. pose proof (skipWhitespace_len s1).
    pose proof (skipWhitespace_len t). pose proof (skipWhitespace_len s2).
    unfold members_accepted. split; [done|]. change (skipWhitespace (String (chr 34) s')) with (String (chr 34) s').
    split; [by eexists|]. split; [cbn; lia|]. intros [|fuel] Hf; [lia|]. cbn in Hf. cbn [object_loop].
    change (skipWhitespace (String (chr 34) s')) with (String (chr 34) s').
    change (parseString (String (chr 34) s')) with (string_body s'). rewrite Hk. cbn [and_then].
    rewrite Ht. cbn [and_then]. rewrite Hv2 by lia. cbn [and_then accepted]. apply Ht2. lia.
  - intros c v' s' r' Hc _ IH. unfold colon_accepted. by rewrite skipWhitespace_ws.
  - intros v' s' r' _ IH. by exists s'.
  - intros c l s' r' Hc _ IH. unfold tail_accepted, element_end. by rewrite skipWhitespace_ws.
  - intros r'. unfold tail_accepted, element_end.
    change (skipWhitespace (String (chr 125) r')) with (String (chr 125) r').
    split; [cbn [len]; lia|]. by split.
  - intros l s' r' _ (H1 & _ & H3 & H4). pose proof (skipWhitespace_len s').
    unfold tail_accepted, element_end. change (skipWhitespace (String (chr 44) s')) with (String (chr 44) s').
    split; [cbn; lia|]. split; [done|]. intros fuel Hf. cbn in Hf. change (byte (chr 44) =? 44) with true. cbn.
    apply H4. lia.
Qed.

Lemma document_accepted v s : json_document v s → isValidJson s = true.
Proof.
  intros (r & Hr & Hws). destruct (reads_accepted v s r Hr) as [_ H]. unfold isValidJson, checked, parse_fuel.
  cbv zeta. rewrite H by lia. cbn [accepted].
  assert (skipWhitespace r = EmptyString) as ->; [|done].
  clear -Hws. induction r as [|c r IH]; [done|]. cbn in *. apply andb_true_iff in Hws as [-> Hws]. auto.
Qed.

(** A string that is accepted ends at an unescaped quote and holds no raw
    control character. *)
Definition printable (c : ascii) : bool := 0x20 <=? byte c.

Lemma hex_printable c : isHex c = true → printable c = true.
Proof. unfold isHex, printable. rewrite !orb_true_iff, !andb_true_iff, !Z.leb_le. lia. Qed.

Lemma string_body_printable n s r :
  (len s <= n)%nat → string_body s = Some r →
  ∃ t, s = t +:+ String (chr 34) r ∧ string_forall printable t = true.
Proof.
  revert s. induction n as [|n IH]; intros [|c s] Hn Hs; simpl in Hn; try done; [lia|].
  cbn [string_body] in Hs. destruct (Z.eqb_spec (byte c) 34) as [E|].
  { injection Hs as ->. exists EmptyString. split; [|done]. rewrite append_nil_l.
    by rewrite (byte_inj c (chr 34)). }
  destruct (Z.ltb_spec (byte c) 32); [done|].
  assert (printable c = true) as Hc by (apply Z.leb_le; lia).
  destruct (Z.eqb_spec (byte c) 92) as [E92|].
  - destruct s as [|e s]; [done|]. simpl in Hn.
    assert (isEscape e = true ∨ byte e = 117 → printable e = true) as He.
    { intros [He|He]; apply Z.leb_le; [|lia]. unfold isEscape in He. cbn [existsb] in He.
      rewrite !orb_true_iff, !Z.eqb_eq in He. lia. }
    destruct (isEscape e) eqn:Ee.
    + destruct (IH s ltac:(lia) Hs) as (t & -> & Ht). exists (String c (String e t)).
      rewrite !append_cons. cbn [string_forall]. by rewrite Hc, He, Ht by auto.
    + destruct (Z.eqb_spec (byte e) 117); [|done]. destruct s as [|h1 [|h2 [|h3 [|h4 s]]]]; try done.
      destruct (_ && _) eqn:Eh in Hs; [|done]. rewrite !andb_true_iff in Eh.
      destruct Eh as (((H1 & H2) & H3) & H4). simpl in Hn.
      destruct (IH s ltac:(lia) Hs) as (t & -> & Ht).
      exists (String c (String e (String h1 (String h2 (String h3 (String h4 t)))))).
      rewrite !append_cons. cbn [string_forall].
      by rewrite Hc, He, !hex_printable, Ht by auto.
  - destruct (IH s ltac:(lia) Hs) as (t & -> & Ht). exists (String c t). rewrite append_cons.
    cbn [string_forall]. by rewrite Hc, Ht.
Qed.

(** C18: the tests' JSON checker does its work, and the status document passes
    it. The checker ends on every text; a string it accepts holds no raw
    control character; and what it is asked for in the tests on a handful of
    snapshots holds of all of them: it accepts the document of every snapshot,
    whatever its strings and dictionary entries are. *)
Theorem checker_accepts_status s :
  (∀ t, ∃ o, checked t = Some o) ∧
  (∀ t r, parseString t = Some r → ∃ b, t = String (chr 34) (b +:+ String (chr 34) r) ∧
    string_forall printable b = true) ∧
  (system_ok (system s) → isValidJson (renderStatusJson s) = true).
Proof.
  split_and!; [exact checked_total| |].
  - intros [|c t] r E; [done|]. cbn in E. destruct (Z.eqb_spec (byte c) 34) as [Ec|]; [|done].
    destruct (string_body_printable _ t r (le_n _) E) as (b & -> & Hb). exists b. split; [|done].
    by rewrite (byte_inj c (chr 34)).
  - intros Hs. eapply document_accepted, status_reads, Hs.
Qed.

Lemma checker_accepts_status_witness :
  isValidJson (renderStatusJson demo_snapshot) = true.
Proof.
  apply (checker_accepts_status demo_snapshot). unfold system_ok. simpl. lia.
Defined.
