(* ===== verification/StatusTests.v ===== *)
(** * The status tests: src/tests/status_tests.cpp

    The repository's own tests of the status report, translated with their
    inputs and their expected texts and run on the model: a check of StatusReport.v
    and JsonChecker.v against what the program's authors expect. A fixture's
    file is its contents. *)
From S2P Require Import Prelude CLib Sensors Dictionary StatusReport JsonChecker.

(** ** Texts *)

(** A C string literal: an apostrophe stands for an escaped double quote. *)
Fixpoint quoted (s : string) : string :=
  match s with
  | EmptyString => EmptyString
  | String c s => String (if (c =? "'")%char then chr 34 else c) (quoted s)
  end.

Definition lines (l : list string) : string := text ((λ s, s +:+ nl) <$> l).

Definition seq (a b : string) : bool := bool_decide (a = b).

Fixpoint starts_with (prefix s : string) : bool :=
  match prefix, s with
  | EmptyString, _ => true
  | String c p, String d s => (c =? d)%char && starts_with p s
  | String _ _, EmptyString => false
  end.

Fixpoint contains (haystack needle : string) : bool :=
  starts_with needle haystack ||
  match haystack with String _ s => contains s needle | EmptyString => false end.

Definition all : list bool → bool := forallb id.

(** ** Fixtures *)

Definition realMeminfo : string := lines
  ["MemTotal:         493832 kB"; "MemFree:          123456 kB"; "MemAvailable:     234567 kB";
   "Buffers:            8192 kB"; "Cached:           100000 kB"].

Definition makeSnapshot : StatusSnapshot :=
  mkSnapshot true [("/ (get)", 3); ("/status (get)", 7)]
    (Motion.mkMotionInfo true 3 2 1) 512 "clock" false "off"
    (mkMqttInfo None 1883 182 true 0 1 1 0 12 2 0 12 0 400) "192.168.10.238" "No error."
    (mkStatus 5 3 1 0) 2 [("/sensor/temperature_outside", "71"); ("/garage/humidity", "38")]
    (mkSystem true 14 9 5 true 123456 234567 493832).

Definition with_system (s : SystemStatus) (x : StatusSnapshot) : StatusSnapshot :=
  mkSnapshot (webHandlerAvailable x) (handlerHits x) (motion x) (lightValue x) (displayMode x)
    (displayDimmed x) (ledStripMode x) (mqtt x) (snap_mqttBrokerIp x) (mqttLastLoopRcStr x)
    (snap_dictionaryStatus x) (dictionarySize x) (snap_dictionaryEntries x) s.
Definition with_entries (l : list (string * string)) (x : StatusSnapshot) : StatusSnapshot :=
  mkSnapshot (webHandlerAvailable x) (handlerHits x) (motion x) (lightValue x) (displayMode x)
    (displayDimmed x) (ledStripMode x) (mqtt x) (snap_mqttBrokerIp x) (mqttLastLoopRcStr x)
    (snap_dictionaryStatus x) (Z.of_nat (length l)) l (system x).
Definition without_handlers (x : StatusSnapshot) : StatusSnapshot :=
  mkSnapshot false [] (motion x) (lightValue x) (displayMode x)
    (displayDimmed x) (ledStripMode x) (mqtt x) (snap_mqttBrokerIp x) (mqttLastLoopRcStr x)
    (snap_dictionaryStatus x) (dictionarySize x) (snap_dictionaryEntries x) (system x).
Definition with_display (mode : string) (dimmed : bool) (x : StatusSnapshot) : StatusSnapshot :=
  mkSnapshot (webHandlerAvailable x) (handlerHits x) (motion x) (lightValue x) mode
    dimmed (ledStripMode x) (mqtt x) (snap_mqttBrokerIp x) (mqttLastLoopRcStr x)
    (snap_dictionaryStatus x) (dictionarySize x) (snap_dictionaryEntries x) (system x).
Definition with_broker (ip : string) (x : StatusSnapshot) : StatusSnapshot :=
  mkSnapshot (webHandlerAvailable x) (handlerHits x) (motion x) (lightValue x) (displayMode x)
    (displayDimmed x) (ledStripMode x) (mqtt x) ip (mqttLastLoopRcStr x)
    (snap_dictionaryStatus x) (dictionarySize x) (snap_dictionaryEntries x) (system x).

(** [system.loadValid = false; system.memValid = false;] *)
Definition unreadable_proc (x : StatusSnapshot) : StatusSnapshot :=
  let s := system x in
  with_system (mkSystem false (loadAvg1Hundredths s) (loadAvg5Hundredths s) (loadAvg15Hundredths s)
                 false (memFreeKb s) (memAvailableKb s) (memTotalKb s)) x.

(** ** /proc *)

Definition testSystemStatusFromRealisticProcFiles : bool :=
  let '(ok, s) := readSystemStatus (Some (lines ["0.14 0.09 0.05 1/234 5678"])) (Some realMeminfo) in
  all [ok; loadValid s; loadAvg1Hundredths s =? 14; loadAvg5Hundredths s =? 9;
       loadAvg15Hundredths s =? 5; memValid s; memFreeKb s =? 123456;
       memAvailableKb s =? 234567; memTotalKb s =? 493832].

Definition load_cases : list (string * bool * Z) :=
  [("1.00 2.50 12.34 1/2 3", true, 100); ("0.00 0.00 0.00 1/2 3", true, 0);
   ("7 8 9 1/2 3", true, 700); ("0.5 0.5 0.5 1/2 3", true, 50);
   ("1.234 0.09 0.05", false, 0); ("-1.00 0.09 0.05", false, 0); ("1.00 0.09", false, 0);
   ("nan nan nan", false, 0); ("1. 0.09 0.05", false, 0); ("1.00x 0.09 0.05", false, 0);
   ("99999999999.00 0.09 0.05", false, 0); ("", false, 0)].

Definition testLoadAverageParsing : bool :=
  forallb (λ '(line, valid, first),
    let '(_, s) := readSystemStatus (Some (lines [line])) (Some realMeminfo) in
    Bool.eqb (loadValid s) valid &&
    if valid : bool then loadAvg1Hundredths s =? first
    else all [loadAvg1Hundredths s =? 0; loadAvg5Hundredths s =? 0; loadAvg15Hundredths s =? 0])
  load_cases.

Definition testMemInfoParsing : bool :=
  let loadavg := Some (lines ["0.14 0.09 0.05 1/234 5678"]) in
  let '(ok1, s1) := readSystemStatus loadavg (Some (lines
    ["MemFreeSwap:       999999 kB"; "MemTotal:         493832 kB"; "MemFree:          123456 kB"])) in
  let '(ok2, s2) := readSystemStatus loadavg (Some (lines ["MemTotal:  493832 kB"])) in
  let '(ok3, s3) := readSystemStatus loadavg (Some (lines ["MemFree: not-a-number"; "MemTotal: x"])) in
  all [ok1; memValid s1; memFreeKb s1 =? 123456; memAvailableKb s1 =? 0;
       negb ok2; negb (memValid s2); memFreeKb s2 =? 0; loadValid s2;
       negb ok3; negb (memValid s3)].

Definition testMissingProcFilesAreNotFatal : bool :=
  let '(ok, s) := readSystemStatus None None in
  all [negb ok; negb (loadValid s); negb (memValid s); loadAvg1Hundredths s =? 0; memFreeKb s =? 0].

(** ** Escapes *)

Definition bytes (l : list Z) : string := foldr (λ z s, String (chr z) s) EmptyString l.

Definition testJsonEscape : bool :=
  all [seq (jsonEscape "plain") "plain";
       seq (jsonEscape (quoted "say 'hi'")) (quoted "say \'hi\'");
       seq (jsonEscape "back\slash") "back\\slash";
       seq (jsonEscape (bytes [97; 10; 98])) "a\nb"; seq (jsonEscape (bytes [97; 9; 98])) "a\tb";
       seq (jsonEscape (bytes [97; 13; 98])) "a\rb"; seq (jsonEscape (bytes [97; 8; 98])) "a\bb";
       seq (jsonEscape (bytes [97; 12; 98])) "a\fb"; seq (jsonEscape (bytes [97; 1; 98])) "a\u0001b";
       seq (jsonEscape (bytes [97; 0; 98])) "a\u0000b";
       seq (jsonEscape ("caf" +:+ bytes [195; 169])) ("caf" +:+ bytes [195; 169]);
       seq (jsonEscape (bytes [97; 127; 98])) (bytes [97; 127; 98])].

(** ** The text page *)

Definition legacy_page : string := lines
  ["Stats and status"; ""; "hitCount: / (get) = 3"; "hitCount: /status (get) = 7"; "";
   "motion: y"; "motion_last_change: 1:2:3"; "light_sensor: 512"; "display_mode: clock";
   "display_dimmed: no"; "led_strip_mode: off"; ""; "cpu_load: 0.14 0.09 0.05";
   "mem_free_kb: 123456"; "mem_available_kb: 234567"; "mem_total_kb: 493832"; "";
   "mqttBrokerConnected: yes"; "mqttLastLoopRc: 0 (No error.)"; "mqttBrokerIp: 192.168.10.238";
   "mqttBrokerPort: 1883"; "mqttKeepAlive (secs): 182"; "mqttConnectAttempts: 1"; "mqttConnects: 1";
   "mqttDisconnects: 0"; "mqttPublishes: 12"; "mqttPublishedMotions: 2"; "mqttPublishesDropped: 0";
   "mqttPublishCallbacks: 12"; "mqttMessages: 0"; "mqttTicks: 400"; "";
   "dictSize: 2"; "dictTicks: 5"; "dictAdds: 3"; "dictRemoves: 1"; "dictExpires: 0"; "";
   "dict: /sensor/temperature_outside => 71"; "dict: /garage/humidity => 38"].

Definition testRenderStatusTextIsTheLegacyPage : bool :=
  seq (renderStatusText makeSnapshot) legacy_page.

Definition testRenderStatusTextEdgeCases : bool :=
  let s1 := without_handlers makeSnapshot in
  let s2 := with_entries [] s1 in
  let s3 := unreadable_proc s2 in
  let empty := renderStatusText s2 in
  let unavailable := renderStatusText s3 in
  all [negb (contains (renderStatusText s1) "hitCount:");
       starts_with (lines ["Stats and status"; ""; "motion: y"]) (renderStatusText s1);
       negb (contains empty "dict: "); contains empty (lines ["dictExpires: 0"]);
       seq (string_drop (String.length empty - 1) empty) nl;
       contains unavailable (lines ["cpu_load: unavailable"]);
       contains unavailable (lines ["mem_free_kb: unavailable"]);
       contains unavailable (lines ["mem_available_kb: unavailable"]);
       contains unavailable (lines ["mem_total_kb: unavailable"]);
       contains (renderStatusText (with_display "clock" true s3)) (lines ["display_dimmed: yes"])].

(** ** The document *)

(** [json.size() == strlen(json.c_str())] *)
Definition no_nul (json : string) : bool := (String.length json =? String.length (c_str json))%nat.

Definition testRenderStatusJson : bool :=
  let json := renderStatusJson makeSnapshot in
  all (isValidJson json :: no_nul json :: ((λ s, contains json (quoted s)) <$>
    ["'version': 1"; "'cpu_load': {'1min': 0.14, '5min': 0.09, '15min': 0.05}";
     "'mem_free_kb': 123456"; "'mem_available_kb': 234567"; "'mem_total_kb': 493832";
     "'dimmed': false"; "'mode': 'clock'"; "'light_sensor': 512"; "'detected': true";
     "'broker_connected': true"; "'broker_ip': '192.168.10.238'"; "'last_loop_rc_str': 'No error.'";
     "'published_motions': 2"; "'/sensor/temperature_outside': '71'"; "'/status (get)': 7"])).

Definition hostile_entries : list (string * string) :=
  [(quoted "quote'key", "back\slash" +:+ nl +:+ "newline");
   ("ctrl" +:+ bytes [1] +:+ "key", "tab" +:+ bytes [9] +:+ "here");
   (quoted "brace}'], 'injected': 'x", "}")].

Definition testRenderStatusJsonEscapesHostileDictionaryEntries : bool :=
  let json := renderStatusJson (with_broker "back\slash"
    (with_display (quoted "still 'quoted'") false (with_entries hostile_entries makeSnapshot))) in
  all [isValidJson json; contains json (quoted "'quote\'key'");
       contains json (quoted "'back\\slash\nnewline'"); contains json (quoted "'ctrl\u0001key'");
       negb (contains json (quoted "'injected': 'x'")); no_nul json].

Definition testRenderStatusJsonWithUnreadableProc : bool :=
  let json := renderStatusJson (unreadable_proc makeSnapshot) in
  all (isValidJson json :: ((λ s, contains json (quoted s)) <$>
    ["'cpu_load': null"; "'mem_free_kb': null"; "'mem_available_kb': null"; "'mem_total_kb': null"])).

Definition testRenderStatusJsonWithEmptyCollections : bool :=
  let json := renderStatusJson (without_handlers (with_entries [] makeSnapshot)) in
  all [isValidJson json; contains json (quoted "'entries': {}"); contains json (quoted "'hits': {}")].

Definition testJsonCheckerRejectsBadInput : bool :=
  all [isValidJson (quoted "{'a': 1}"); negb (isValidJson (quoted "{'a': 1,}"));
       negb (isValidJson (quoted "{'a' 1}")); negb (isValidJson (quoted "{'a': }"));
       negb (isValidJson (quoted "{'a': 1} trailing")); negb (isValidJson (quoted "{'a': 'unterminated}"));
       negb (isValidJson (quoted "{'a': 'raw" +:+ nl +:+ quoted "control'}"));
       negb (isValidJson (quoted "{'a': 01x}")); negb (isValidJson "")].

(** ** They pass *)

Example proc_tests_pass :
  testSystemStatusFromRealisticProcFiles && testLoadAverageParsing && testMemInfoParsing
  && testMissingProcFilesAreNotFatal = true.
Proof. vm_compute. reflexivity. Qed.

Example text_tests_pass :
  testJsonEscape && testRenderStatusTextIsTheLegacyPage && testRenderStatusTextEdgeCases = true.
Proof. vm_compute. reflexivity. Qed.

Example json_tests_pass :
  testJsonCheckerRejectsBadInput && testRenderStatusJson
  && testRenderStatusJsonEscapesHostileDictionaryEntries && testRenderStatusJsonWithUnreadableProc
  && testRenderStatusJsonWithEmptyCollections = true.
Proof. vm_compute. reflexivity. Qed.

(** The checker's arrays and exponents, which the document does not use. *)
Example checker_arrays :
  isValidJson (quoted "[1, [true, null], {'a': [-2.5e+3]}, []]") = true ∧
  isValidJson "[1, ]" = false ∧ isValidJson "1e" = false ∧ isValidJson "[007]" = true.
Proof. vm_compute. done. Qed.
