(* ===== verification/WebForm.v ===== *)
(** * The form parser of the web server: [WebHandler::parsePost] of
      src/src/webHandlerInternal.cpp

    The body of a POST is taken apart in one pass over a scratch buffer of the
    body's size, in which the key and the value of the field under construction
    lie next to each other. The buffer, the index into it and the pointer to
    the value are modelled as they are; a step outside of the buffer is
    [Undefined]. The reference parser [form_values] splits the decoded tokens
    of the body at '&' and '='. *)
From S2P Require Import Prelude StdMap CLib CommonUtils StatusReport.

(** ** What a handler sees and says *)

(** The status codes are those of <event2/http.h>. *)
Record HandleRequestReply := mkReply { code : Z; reason : string }.

Definition replyOk : HandleRequestReply := mkReply 200 "OK".
Definition replyNoContent : HandleRequestReply := mkReply 204 "No Content".
Definition replyInternalError : HandleRequestReply := mkReply 500 "Internal Error".
Definition replyNotFound : HandleRequestReply := mkReply 404 "Page not found".
Definition replyServerUnavail : HandleRequestReply := mkReply 503 "Server is not available".

(** The calls that build a reply's headers and body, in order. *)
Inductive RequestOutput :=
  | RemoveHeader (header : string)
  | AddHeader (header value : string)
  | AddPrintf (text : string).

(** [method] is an [evhttp_cmd_type], [requestBody] the bytes of the evbuffer. *)
Record RequestInfo := mkRequest {
  method : Z;
  uriPath : string;
  requestBody : option (list ascii);
}.

(** [setHeader]: [present] is what [evhttp_find_header] answers. *)
Definition setHeader (present : bool) (header value : string) : list RequestOutput :=
  (if present then [RemoveHeader (c_str header)] else [])
  ++ [AddHeader (c_str header) (c_str value)].

(** [addBody]; a "%s" conversion stops at a NUL. *)
Definition addBody (buffer : string) : list RequestOutput :=
  if string_empty buffer then [] else [AddPrintf (c_str buffer)].

(** [INT2STR]: at most fifteen characters of a decimal [int]. *)
Definition INT2STR (z : Z) : string := snprintf_s 16 (print_int (s32 z)).

Definition setHeaderContentType (present : bool) (contentType : string) : list RequestOutput :=
  setHeader present "Content-Type" contentType.
Definition setHeaderContentTypeText (present : bool) : list RequestOutput :=
  setHeaderContentType present "text/plain".

(** [RETURN_ERROR], at a line of the source. *)
Definition RETURN_ERROR (present : bool) (line : Z) (what : string)
    : HandleRequestReply * list RequestOutput :=
  (replyInternalError,
   addBody (text ["Error in "; INT2STR line; ": "; what]) ++ setHeaderContentTypeText present).

Definition MAX_POST_BODY_LEN : Z := 4096.

(** ** The scratch buffer *)

Definition write_tmp (off : nat) (c : ascii) (buf : list ascii) : res (list ascii) :=
  if (off <? length buf)%nat then Ok (<[off := c]> buf)
  else Throw (Undefined "write outside of tmpBuffer").

(** The C string that starts at the head of the buffer. *)
Fixpoint c_string (buf : list ascii) : res string :=
  match buf with
  | [] => Throw (Undefined "read outside of tmpBuffer")
  | c :: buf =>
      if byte c =? 0 then Ok EmptyString
      else let! s := c_string buf in Ok (String c s)
  end.

Record FormState := mkForm {
  gettingValuePortion : bool;
  tmpBuffer : list ascii;
  tmpBufferOffset : nat;
  currValue : option nat;     (* an offset into tmpBuffer, or the literal "" *)
  postValues : StringMap;
}.

Definition initial_form (bodyLen : nat) : FormState :=
  mkForm false (replicate (S bodyLen) NUL) 0 None [].

Definition read_value (st : FormState) : res string :=
  match currValue st with
  | None => Ok EmptyString
  | Some off => c_string (drop off (tmpBuffer st))
  end.

(** [gettingValuePortion && *currKey != 0] *)
Definition have_field (st : FormState) : bool :=
  gettingValuePortion st &&
  match tmpBuffer st with c :: _ => negb (byte c =? 0) | [] => false end.

(** Terminate the value and store the field; at '&' and after the loop. *)
Definition store_field (st : FormState) : res FormState :=
  if have_field st then
    let! buf := write_tmp (tmpBufferOffset st) NUL (tmpBuffer st) in
    let st := mkForm (gettingValuePortion st) buf (tmpBufferOffset st) (currValue st)
                (postValues st) in
    let! key := c_string buf in
    let! value := read_value st in
    Ok (mkForm (gettingValuePortion st) buf (tmpBufferOffset st) (currValue st)
          (map_set key value (postValues st)))
  else Ok st.

(** How an iteration ends. *)
Inductive PostNext :=
  | NextAt (i : nat) (st : FormState)
  | BreakWith (st : FormState)
  | BadEncoding.

(** [tmpBuffer[tmpBufferOffset] = ch; tmpBufferOffset++;] *)
Definition put_char (ch : ascii) (st : FormState) : res FormState :=
  let! buf := write_tmp (tmpBufferOffset st) ch (tmpBuffer st) in
  Ok (mkForm (gettingValuePortion st) buf (S (tmpBufferOffset st)) (currValue st)
        (postValues st)).

(** '=' : the key ends here and the value starts behind it. *)
Definition start_value (st : FormState) : res FormState :=
  let! buf := write_tmp (tmpBufferOffset st) NUL (tmpBuffer st) in
  let off := S (tmpBufferOffset st) in
  let! buf := write_tmp off NUL buf in
  Ok (mkForm true buf off (Some off) (postValues st)).

(** '&' : the field ends here. *)
Definition end_field (st : FormState) : res FormState :=
  let! st := store_field st in
  let! buf := write_tmp 0 NUL (tmpBuffer st) in
  Ok (mkForm false buf 0 None (postValues st)).

(** One iteration of the loop over the body. *)
Definition post_char (data : list ascii) (i : nat) (ch : ascii) (st : FormState)
    : res PostNext :=
  let ch := if byte ch =? 43 then chr 32 else ch in
  if byte ch =? 61 then let! st := start_value st in Ok (NextAt (S i) st)
  else if byte ch =? 38 then let! st := end_field st in Ok (NextAt (S i) st)
  else if byte ch =? 37 then
    if s32 (u32 (Z.of_nat (length data) - 2)) <=? Z.of_nat i then
      let! buf := write_tmp (tmpBufferOffset st) NUL (tmpBuffer st) in
      Ok (BreakWith (mkForm (gettingValuePortion st) buf (tmpBufferOffset st)
                       (currValue st) (postValues st)))
    else
      match data !! S i, data !! S (S i) with
      | Some h1, Some h2 =>
          if negb (isxdigit h1) || negb (isxdigit h2) then Ok BadEncoding
          else
            let hex := String h1 (String h2 EmptyString) in
            let! st := put_char (chr (strtoul hex 16)) st in
            Ok (NextAt (S (S (S i))) st)
      | _, _ => Throw (Undefined "read outside of data")
      end
  else let! st := put_char ch st in Ok (NextAt (S i) st).

(** The loop; [None] is the error return for a bad encoding. *)
Fixpoint post_loop (fuel : nat) (data : list ascii) (i : nat) (st : FormState)
    : res (option FormState) :=
  match fuel with
  | O => Ok (Some st)
  | S fuel =>
      match data !! i with
      | None => Ok (Some st)
      | Some ch =>
          let! next := post_char data i ch st in
          match next with
          | NextAt i st => post_loop fuel data i st
          | BreakWith st => Ok (Some st)
          | BadEncoding => Ok None
          end
      end
  end.

(** [parsePost]: the reply, what is written to it, and [postValues]. The error
    returns leave the caller's map as far as it was filled; the callers drop
    it, and it is not represented. *)
Definition parsePost (present : bool) (body : option (list ascii))
    : res (HandleRequestReply * list RequestOutput * StringMap) :=
  match body with
  | None => Ok (RETURN_ERROR present 560 "no body in post request", [])
  | Some data =>
      let bodyLen := Z.of_nat (length data) in
      if (MAX_POST_BODY_LEN <=? bodyLen) || (s32 bodyLen <? 1) then
        Ok (RETURN_ERROR present 566
              (text ["body len in post is bad (got:"; INT2STR bodyLen; " max:";
                     INT2STR MAX_POST_BODY_LEN; ")"]), [])
      else
        let! r := post_loop (length data) data 0 (initial_form (length data)) in
        match r with
        | None => Ok (RETURN_ERROR present 625 "invalid percent encoding", [])
        | Some st =>
            let! st := store_field st in Ok (replyOk, [], postValues st)
        end
  end.

(** ** The reference parser *)

Inductive FormToken := TChar (c : ascii) | TEq | TAmp.

(** The body as tokens; [None] for an invalid percent encoding. A '%' without
    two characters behind it ends the body. *)
Fixpoint tokenize (data : list ascii) : option (list FormToken) :=
  match data with
  | [] => Some []
  | c :: rest =>
      if byte c =? 43 then cons (TChar (chr 32)) <$> tokenize rest
      else if byte c =? 61 then cons TEq <$> tokenize rest
      else if byte c =? 38 then cons TAmp <$> tokenize rest
      else if byte c =? 37 then
        match rest with
        | h1 :: h2 :: rest =>
            if isxdigit h1 && isxdigit h2
            then cons (TChar (chr (strtoul (String h1 (String h2 EmptyString)) 16)))
                   <$> tokenize rest
            else None
        | _ => Some []
        end
      else cons (TChar c) <$> tokenize rest
  end.

Definition is_amp (t : FormToken) : bool := match t with TAmp => true | _ => false end.
Definition is_eq (t : FormToken) : bool := match t with TEq => true | _ => false end.

Fixpoint split_on {A} (sep : A → bool) (l : list A) : list (list A) :=
  match l with
  | [] => [[]]
  | x :: l =>
      if sep x then [] :: split_on sep l
      else match split_on sep l with h :: t => (x :: h) :: t | [] => [[x]] end
  end.

(** A piece of a field as the C string it ends up as. *)
Fixpoint piece (l : list FormToken) : string :=
  match l with
  | TChar c :: l => if byte c =? 0 then EmptyString else String c (piece l)
  | _ => EmptyString
  end.

(** A field contributes its first piece as the key and its last as the value. *)
Definition add_field (vals : StringMap) (field : list FormToken) : StringMap :=
  match split_on is_eq field with
  | k :: (_ :: _) as pieces =>
      if string_empty (piece k) then vals
      else map_set (piece k) (piece (List.last pieces [])) vals
  | _ => vals
  end.

Definition form_values (toks : list FormToken) : StringMap :=
  foldl add_field [] (split_on is_amp toks).

(** ** The loop implements the reference parser *)

(** A C string out of a list of characters. *)
Fixpoint cs (l : list ascii) : string :=
  match l with
  | [] => EmptyString
  | c :: l => if byte c =? 0 then EmptyString else String c (cs l)
  end.

Definition chars (l : list FormToken) : list ascii :=
  omap (λ t, match t with TChar c => Some c | _ => None end) l.

Lemma piece_chars l :
  Forall (λ t, is_eq t = false ∧ is_amp t = false) l → piece l = cs (chars l).
Proof.
  induction 1 as [|t l [H1 H2] _ IH]; [done|]. destruct t; try done. simpl.
  by rewrite IH.
Qed.

Lemma c_string_app l r : c_string (l ++ NUL :: r) = Ok (cs l).
Proof.
  induction l as [|c l IH]; [done|]. simpl. rewrite IH. by destruct (byte c =? 0).
Qed.

(** The field under construction: its key once there is one, and the piece
    being read. *)
Definition field_step (s : option (list ascii) * list ascii) (t : FormToken) :=
  match t with
  | TChar c => (s.1, s.2 ++ [c])
  | TEq => (Some (default s.2 s.1), [])
  | TAmp => s
  end.

Definition field_state (field : list FormToken) := foldl field_step (None, []) field.

Lemma split_on_cons {A} (sep : A → bool) l : ∃ h t, split_on sep l = h :: t.
Proof. destruct l as [|x l]; simpl; repeat case_match; eauto. Qed.

Lemma split_on_no {A} (sep : A → bool) l :
  Forall (λ p, Forall (λ x, sep x = false) p) (split_on sep l).
Proof.
  induction l as [|x l IH]; simpl; [by constructor|]. destruct (sep x) eqn:E; [by constructor|].
  destruct (split_on sep l) as [|h t]; [by repeat constructor|].
  apply Forall_cons in IH as [IH1 IH2]. by repeat constructor.
Qed.

Lemma split_on_all {A} (P : A → Prop) (sep : A → bool) l :
  Forall P l → Forall (Forall P) (split_on sep l).
Proof.
  induction 1 as [|x l Hx _ IH]; simpl; [by constructor|]. destruct (sep x); [by constructor|].
  destruct (split_on sep l) as [|h t]; [by repeat constructor|].
  apply Forall_cons in IH as [IH1 IH2]. by repeat constructor.
Qed.

Lemma field_step_split f k cur :
  Forall (λ t, is_amp t = false) f →
  match split_on is_eq f with
  | p :: ps =>
      foldl field_step (k, cur) f =
      match ps with
      | [] => (k, cur ++ chars p)
      | _ => (Some (default (cur ++ chars p) k), chars (List.last ps []))
      end
  | [] => False
  end.
Proof.
  intros Hf. revert k cur. induction Hf as [|t f Ht Hf IH]; intros k cur; simpl.
  { by rewrite app_nil_r. }
  destruct t as [c| |]; [..|done]; simpl.
  - destruct (split_on is_eq f) as [|p ps]; [destruct (IH None [])|].
    rewrite IH. destruct ps; simpl; by rewrite <-app_assoc.
  - destruct (split_on is_eq f) as [|p ps]; [destruct (IH None [])|].
    rewrite IH. rewrite app_nil_r. destruct ps; simpl; [done|]. by destruct k.
Qed.

Lemma add_field_state vals f :
  Forall (λ t, is_amp t = false) f →
  add_field vals f =
  match field_state f with
  | (Some k, cur) => if string_empty (cs k) then vals else map_set (cs k) (cs cur) vals
  | (None, _) => vals
  end.
Proof.
  intros Hf. unfold add_field, field_state.
  pose proof (field_step_split f None [] Hf) as Hs.
  pose proof (split_on_no is_eq f) as Hno. pose proof (split_on_all _ is_eq f Hf) as Ha.
  destruct (split_on is_eq f) as [|p ps]; [done|]. rewrite Hs.
  destruct ps as [|p' ps]; [done|]. cbn [default from_option app].
  rewrite (piece_chars p), (piece_chars (List.last (p' :: ps) [])); [done|..].
  - assert (List.last (p' :: ps) [] ∈ p' :: ps) as Hin.
    { apply list_elem_of_In. rewrite (app_removelast_last [] (l:=p' :: ps)) at 2 by done.
      apply in_or_app. right. by left. }
    apply Forall_and. split.
    + apply Forall_cons in Hno as [_ Hno]. rewrite Forall_forall in Hno. by apply Hno.
    + apply Forall_cons in Ha as [_ Ha]. rewrite Forall_forall in Ha. by apply Ha.
  - apply Forall_cons in Hno as [Hno _]. apply Forall_cons in Ha as [Ha _].
    by apply Forall_and.
Qed.

Lemma split_on_amp field rest :
  Forall (λ t, is_amp t = false) field →
  split_on is_amp (field ++ TAmp :: rest) = field :: split_on is_amp rest.
Proof. induction 1 as [|t f Ht _ IH]; simpl; [done|]. by rewrite Ht, IH. Qed.

Lemma split_on_one field :
  Forall (λ t, is_amp t = false) field → split_on is_amp field = [field].
Proof. induction 1 as [|t f Ht _ IH]; simpl; [done|]. by rewrite Ht, IH. Qed.

(** The scratch buffer holds the field: the key, a NUL, what an earlier '='
    left behind, and the piece being read. *)
Definition form_rep (n i : nat) (fs : option (list ascii) * list ascii) (vals : StringMap)
    (st : FormState) : Prop :=
  postValues st = vals ∧ (tmpBufferOffset st <= i)%nat ∧ length (tmpBuffer st) = S n ∧
  ∃ pre rest,
    tmpBuffer st = pre ++ fs.2 ++ rest ∧ tmpBufferOffset st = length (pre ++ fs.2) ∧
    match fs.1 with
    | None => pre = [] ∧ gettingValuePortion st = false
    | Some k =>
        gettingValuePortion st = true ∧ currValue st = Some (length pre) ∧
        ∃ junk, pre = k ++ NUL :: junk
    end.

Lemma write_tmp_at l c x r : write_tmp (length l) c (l ++ x :: r) = Ok (l ++ c :: r).
Proof.
  unfold write_tmp. rewrite (proj2 (Nat.ltb_lt _ _)) by (rewrite length_app; simpl; lia).
  f_equal. replace (length l) with (length l + 0)%nat by lia. by rewrite insert_app_r.
Qed.

Lemma write_tmp_length off c buf buf' : write_tmp off c buf = Ok buf' → length buf' = length buf.
Proof. unfold write_tmp. case_match; [|done]. intros [= <-]. apply length_insert. Qed.

Lemma put_char_rep n i fs vals st c :
  (i < n)%nat → form_rep n i fs vals st →
  ∃ st', put_char c st = Ok st' ∧ form_rep n (S i) (field_step fs (TChar c)) vals st'.
Proof.
  intros Hi (Hv & Ho & Hl & pre & rest & Hb & Hoff & Hk).
  destruct rest as [|x rest].
  { rewrite app_nil_r in Hb. rewrite <-Hb in Hoff. lia. }
  unfold put_char. rewrite Hb, Hoff, app_assoc, write_tmp_at.
  eexists; split; [reflexivity|].
  unfold form_rep. cbn [postValues tmpBufferOffset tmpBuffer gettingValuePortion currValue].
  split; [done|]. split; [lia|]. split.
  { rewrite <-Hl, Hb, !length_app. simpl. lia. }
  exists pre, rest. unfold field_step; cbn [fst snd]. split; [by rewrite <-!app_assoc|].
  split; [|done]. rewrite !length_app. simpl. lia.
Qed.

Lemma start_value_rep n i fs vals st :
  (i < n)%nat → form_rep n i fs vals st →
  ∃ st', start_value st = Ok st' ∧ form_rep n (S i) (field_step fs TEq) vals st'.
Proof.
  intros Hi (Hv & Ho & Hl & pre & rest & Hb & Hoff & Hk).
  assert (length (tmpBuffer st) = length (pre ++ fs.2) + length rest)%nat as Hlr.
  { by rewrite Hb, app_assoc, length_app. }
  destruct rest as [|x [|y rest]]; [simpl in Hlr; lia..|].
  unfold start_value. rewrite Hb, Hoff, app_assoc, write_tmp_at. cbn [mbind res_bind].
  replace ((pre ++ fs.2) ++ NUL :: y :: rest) with (((pre ++ fs.2) ++ [NUL]) ++ y :: rest)
    by (by rewrite <-!app_assoc).
  replace (S (length (pre ++ fs.2))) with (length ((pre ++ fs.2) ++ [NUL]))
    by (rewrite (length_app (pre ++ fs.2)); simpl; lia).
  rewrite write_tmp_at. eexists; split; [reflexivity|].
  unfold form_rep. cbn [postValues tmpBufferOffset tmpBuffer gettingValuePortion currValue].
  split; [done|]. split; [rewrite (length_app (pre ++ fs.2)); simpl; lia|].
  split. { rewrite length_app in Hlr |- *. rewrite !length_app in *. simpl in *. lia. }
  exists ((pre ++ fs.2) ++ [NUL]), (NUL :: rest). cbn [field_step fst snd].
  split; [done|]. split; [by rewrite app_nil_r|]. split; [done|]. split; [done|].
  destruct fs as [[k|] cur]; cbn [fst snd default] in *.
  - destruct Hk as (_ & _ & junk & ->). exists (junk ++ cur ++ [NUL]). by rewrite <-!app_assoc.
  - destruct Hk as [-> _]. by exists [].
Qed.

Definition stored (fs : option (list ascii) * list ascii) (vals : StringMap) : StringMap :=
  match fs with
  | (Some k, cur) => if string_empty (cs k) then vals else map_set (cs k) (cs cur) vals
  | (None, _) => vals
  end.

Lemma store_field_rep n i fs vals st :
  (i <= n)%nat → form_rep n i fs vals st →
  ∃ st', store_field st = Ok st' ∧ postValues st' = stored fs vals ∧
    length (tmpBuffer st') = S n.
Proof.
  intros Hi (Hv & Ho & Hl & pre & rest & Hb & Hoff & Hk).
  unfold store_field, have_field. destruct fs as [[k|] cur]; cbn [fst snd stored] in *.
  2: { destruct Hk as [_ ->]. eauto. }
  destruct Hk as (-> & Hc & junk & ->). cbn [andb].
  assert (length (tmpBuffer st) = length ((k ++ NUL :: junk) ++ cur) + length rest)%nat as Hlr.
  { by rewrite Hb, app_assoc, length_app. }
  destruct rest as [|x rest]; [simpl in Hlr; lia|].
  assert (Hhead : match tmpBuffer st with c :: _ => negb (byte c =? 0) | [] => false end
                  = negb (string_empty (cs k))).
  { rewrite Hb. destruct k as [|c k]; [done|]. simpl. by destruct (byte c =? 0). }
  rewrite Hhead. destruct (string_empty (cs k)); cbn [negb]; [eauto|].
  rewrite Hb, Hoff, app_assoc, write_tmp_at. cbn [mbind res_bind].
  unfold read_value. cbn [currValue tmpBuffer postValues]. rewrite Hc.
  rewrite <-app_assoc, (drop_app_length (k ++ NUL :: junk)), c_string_app.
  replace ((k ++ NUL :: junk) ++ cur ++ NUL :: rest)
    with (k ++ NUL :: (junk ++ cur ++ NUL :: rest)) by (by rewrite <-!app_assoc).
  rewrite c_string_app. cbn [mbind res_bind]. eexists; split; [reflexivity|].
  cbn [postValues tmpBuffer]. split; [by rewrite Hv|].
  rewrite <-Hl, Hb. rewrite !length_app; simpl. rewrite !length_app; simpl. lia.
Qed.

Lemma form_rep_fresh n i vals g v buf :
  length buf = S n → g = false → form_rep n i (None, []) vals (mkForm g buf 0 v vals).
Proof.
  intros Hl ->. split; [done|]. split; [simpl; lia|]. split; [done|]. by exists [], buf.
Qed.

Lemma end_field_rep n i fs vals st :
  (i <= n)%nat → form_rep n i fs vals st →
  ∃ st', end_field st = Ok st' ∧ form_rep n (S i) (None, []) (stored fs vals) st'.
Proof.
  intros Hi Hr. unfold end_field. destruct (store_field_rep n i fs vals st Hi Hr) as (st1 & -> & <- & Hl).
  cbn [mbind res_bind]. unfold write_tmp. rewrite Hl. cbn [Nat.ltb Nat.leb].
  eexists; split; [reflexivity|]. apply form_rep_fresh; [by rewrite length_insert|done].
Qed.

Lemma break_rep n i fs vals st :
  (i < n)%nat → form_rep n i fs vals st →
  ∃ buf, write_tmp (tmpBufferOffset st) NUL (tmpBuffer st) = Ok buf ∧
    form_rep n i fs vals (mkForm (gettingValuePortion st) buf (tmpBufferOffset st)
                            (currValue st) (postValues st)).
Proof.
  intros Hi (Hv & Ho & Hl & pre & rest & Hb & Hoff & Hk).
  assert (length (tmpBuffer st) = length (pre ++ fs.2) + length rest)%nat as Hlr.
  { by rewrite Hb, app_assoc, length_app. }
  destruct rest as [|x rest]; [simpl in Hlr; lia|].
  rewrite Hb, Hoff, app_assoc, write_tmp_at. eexists; split; [reflexivity|].
  split; [done|]. split; [by rewrite <-Hoff|]. split.
  { cbn [tmpBuffer]. rewrite <-Hl, Hb, app_assoc, !length_app. done. }
  exists pre, (NUL :: rest). by rewrite <-app_assoc.
Qed.

Definition no_amp (field : list FormToken) : Prop := Forall (λ t, is_amp t = false) field.

Lemma field_state_snoc field t : field_state (field ++ [t]) = field_step (field_state field) t.
Proof. unfold field_state. by rewrite foldl_app. Qed.

Lemma no_amp_snoc field t : no_amp field → is_amp t = false → no_amp (field ++ [t]).
Proof. intros. apply Forall_app. split; [done|]. by repeat constructor. Qed.

Lemma stored_add_field field vals :
  no_amp field → stored (field_state field) vals = add_field vals field.
Proof. intros Hf. by rewrite add_field_state. Qed.

(** What the loop owes once it stands at [i] with [field] read so far. *)
Definition loop_correct (n : nat) (r : res (option FormState)) (field : list FormToken)
    (vals : StringMap) (toks : option (list FormToken)) : Prop :=
  match toks with
  | None => r = Ok None
  | Some toks =>
      ∃ st st', r = Ok (Some st) ∧ store_field st = Ok st' ∧
        postValues st' = foldl add_field vals (split_on is_amp (field ++ toks))
  end.

Lemma loop_correct_end n i field vals st :
  (i <= n)%nat → no_amp field → form_rep n i (field_state field) vals st →
  loop_correct n (Ok (Some st)) field vals (Some []).
Proof.
  intros Hi Hf Hr. destruct (store_field_rep n i _ vals st Hi Hr) as (st' & Hs & Hp & _).
  exists st, st'. split; [done|]. split; [done|].
  by rewrite app_nil_r, split_on_one, Hp, stored_add_field.
Qed.

Lemma loop_correct_cons n r field vals t toks :
  loop_correct n r (field ++ [t]) vals toks → loop_correct n r field vals (cons t <$> toks).
Proof. destruct toks as [toks|]; [|done]. simpl. by rewrite <-app_assoc. Qed.

Lemma loop_correct_amp n r field vals toks :
  no_amp field → loop_correct n r [] (add_field vals field) toks →
  loop_correct n r field vals (cons TAmp <$> toks).
Proof.
  intros Hf. destruct toks as [toks|]; [|done]. simpl.
  intros (st & st' & -> & Hs & Hp). exists st, st'. split; [done|]. split; [done|].
  by rewrite split_on_amp, Hp.
Qed.

Lemma percent_guard (n i : nat) :
  (0 < n < 4096)%nat →
  (s32 (u32 (Z.of_nat n - 2)) <=? Z.of_nat i) = (n <=? i + 2)%nat.
Proof.
  intros Hn. destruct (decide (n = 1)%nat) as [->|].
  - replace (s32 (u32 (Z.of_nat 1 - 2))) with (-1) by done.
    rewrite (proj2 (Z.leb_le _ _)) by lia. symmetry. apply Nat.leb_le. lia.
  - rewrite u32_small, s32_small by lia.
    destruct (Nat.leb_spec n (i + 2)); [apply Z.leb_le|apply Z.leb_gt]; lia.
Qed.

Theorem post_loop_correct data fuel i field vals st :
  (0 < length data < 4096)%nat → (length data - i <= fuel)%nat → (i <= length data)%nat →
  no_amp field → form_rep (length data) i (field_state field) vals st →
  loop_correct (length data) (post_loop fuel data i st) field vals (tokenize (drop i data)).
Proof.
  intros Hn. set (n := length data) in *.
  revert i field vals st. induction fuel as [|fuel IH]; intros i field vals st Hf Hi Hamp Hr.
  { simpl. replace i with n by lia. unfold n. rewrite drop_all.
    apply (loop_correct_end n i); [lia|done|done]. }
  cbn [post_loop]. destruct (data !! i) as [ch|] eqn:Ech.
  2: { apply lookup_ge_None in Ech. rewrite drop_ge by done.
       apply (loop_correct_end n i); [lia|done|done]. }
  assert (i < n)%nat as Hin by (by eapply lookup_lt_Some).
  rewrite (drop_S _ ch) by done. cbn [tokenize]. unfold post_char.
  destruct (byte ch =? 43) eqn:E43.
  { replace (byte (chr 32)) with 32 by done. cbn [Z.eqb Pos.eqb].
    destruct (put_char_rep n i _ vals st (chr 32) Hin Hr) as (st' & -> & Hr').
    cbn [mbind res_bind]. apply loop_correct_cons, IH; [lia|lia|by apply no_amp_snoc|].
    by rewrite field_state_snoc. }
  destruct (byte ch =? 61) eqn:E61.
  { destruct (start_value_rep n i _ vals st Hin Hr) as (st' & -> & Hr').
    cbn [mbind res_bind]. apply loop_correct_cons, IH; [lia|lia|by apply no_amp_snoc|].
    by rewrite field_state_snoc. }
  destruct (byte ch =? 38) eqn:E38.
  { destruct (end_field_rep n i _ vals st ltac:(lia) Hr) as (st' & -> & Hr').
    cbn [mbind res_bind]. apply loop_correct_amp; [done|].
    rewrite <-stored_add_field by done. apply IH; [lia|lia|by constructor|done]. }
  destruct (byte ch =? 37) eqn:E37.
  2: { destruct (put_char_rep n i _ vals st ch Hin Hr) as (st' & -> & Hr').
       cbn [mbind res_bind]. apply loop_correct_cons, IH; [lia|lia|by apply no_amp_snoc|].
       by rewrite field_state_snoc. }
  fold n. rewrite percent_guard by done. destruct (Nat.leb_spec n (i + 2)) as [Hg|Hg].
  { destruct (break_rep n i _ vals st Hin Hr) as (buf & -> & Hr').
    cbn [mbind res_bind].
    assert (length (drop (S i) data) < 2)%nat as Hl by (rewrite length_drop; lia).
    destruct (drop (S i) data) as [|? [|? ?]]; [..|simpl in Hl; lia];
      apply (loop_correct_end n i); done || lia. }
  destruct (lookup_lt_is_Some_2 data (S i)) as [h1 E1]; [lia|].
  destruct (lookup_lt_is_Some_2 data (S (S i))) as [h2 E2]; [lia|].
  rewrite E1, E2, (drop_S _ h1), (drop_S _ h2) by done.
  destruct (isxdigit h1), (isxdigit h2); cbn [negb orb andb]; [|done..].
  set (c := chr (strtoul _ 16)). clearbody c.
  destruct (put_char_rep n i _ vals st c Hin Hr) as (st' & -> & Hr').
  cbn [mbind res_bind]. apply loop_correct_cons, IH; [lia|lia|by apply no_amp_snoc|].
  rewrite field_state_snoc. destruct Hr' as (? & ? & Hr'). split; [done|]. split; [lia|done].
Qed.

(** What the parser computes, by the reference parser. *)
Definition parsed (present : bool) (body : option (list ascii))
    : HandleRequestReply * list RequestOutput * StringMap :=
  match body with
  | None => (RETURN_ERROR present 560 "no body in post request", [])
  | Some data =>
      if bool_decide (0 < length data < 4096)%nat then
        match tokenize data with
        | None => (RETURN_ERROR present 625 "invalid percent encoding", [])
        | Some toks => (replyOk, [], form_values toks)
        end
      else (RETURN_ERROR present 566
              (text ["body len in post is bad (got:"; INT2STR (Z.of_nat (length data));
                     " max:"; INT2STR 4096; ")"]), [])
  end.

(** The length of a body, which libevent keeps below the limit of an [int]. *)
Definition body_fits (body : option (list ascii)) : Prop :=
  Z.of_nat (match body with Some d => length d | None => 0 end) < 2 ^ 31.

Lemma parsePost_parsed present body :
  body_fits body → parsePost present body = Ok (parsed present body).
Proof.
  destruct body as [data|]; intros Hlen; [|done]. unfold body_fits in Hlen. unfold parsePost, parsed, MAX_POST_BODY_LEN.
  rewrite s32_small by lia.
  case_bool_decide as Hd.
  2: { destruct (Z.leb_spec 4096 (Z.of_nat (length data))); [done|].
       destruct (Z.ltb_spec (Z.of_nat (length data)) 1); [done|lia]. }
  rewrite (proj2 (Z.leb_gt _ _)), (proj2 (Z.ltb_ge _ _)) by lia. cbn [orb].
  pose proof (post_loop_correct data (length data) 0 [] [] (initial_form (length data)) Hd
                ltac:(lia) ltac:(lia) ltac:(constructor)) as Hp.
  rewrite drop_0 in Hp. unfold loop_correct in Hp.
  destruct (tokenize data) as [toks|].
  - destruct Hp as (st & st' & -> & Hs & Hv).
    { apply form_rep_fresh; [by rewrite length_replicate|done]. }
    cbn [mbind res_bind]. by rewrite Hs; cbn [mbind res_bind]; rewrite Hv.
  - rewrite Hp; [done|]. apply form_rep_fresh; [by rewrite length_replicate|done].
Qed.

(** C8: for every body the request can have, the one-pass parser of the web
    server never reads or writes outside of its scratch buffer and of the body,
    always terminates, and computes what the reference parser does: it rejects
    a missing, empty or oversized body and an invalid percent encoding with
    their error replies, and otherwise returns the map of the fields of the
    tokens of the body, split at '&', each with its first piece as the key and
    its last as the value. *)
Theorem parsePost_correct present body :
  body_fits body → parsePost present body = Ok (parsed present body).
Proof. apply parsePost_parsed. Qed.

(** ** What a browser sends comes back *)

(** The application/x-www-form-urlencoded encoding of a character. *)
Definition unreserved (c : ascii) : bool :=
  let b := byte c in
  (isdigit c || ((65 <=? b) && (b <=? 90)) || ((97 <=? b) && (b <=? 122))
   || (b =? 42) || (b =? 45) || (b =? 46) || (b =? 95))%bool.

Definition hex_upper (d : Z) : ascii := chr (if d <? 10 then 48 + d else 55 + d).

Definition encode_char (c : ascii) : list ascii :=
  if byte c =? 32 then [chr 43]
  else if unreserved c then [c]
  else [chr 37; hex_upper (byte c / 16); hex_upper (byte c mod 16)].

Definition encode_text (s : string) : list ascii :=
  flat_map encode_char (String.list_ascii_of_string s).

Fixpoint form_encode (fields : list (string * string)) : list ascii :=
  match fields with
  | [] => []
  | [(k, v)] => encode_text k ++ chr 61 :: encode_text v
  | (k, v) :: fields =>
      encode_text k ++ chr 61 :: encode_text v ++ chr 38 :: form_encode fields
  end.

Definition text_tokens (s : string) : list FormToken := TChar <$> String.list_ascii_of_string s.
Definition field_tokens (f : string * string) : list FormToken :=
  text_tokens f.1 ++ TEq :: text_tokens f.2.

Lemma tokenize_char c rest :
  tokenize (encode_char c ++ rest) = cons (TChar c) <$> tokenize rest.
Proof. destruct c as [[] [] [] [] [] [] [] []]; reflexivity. Qed.

Lemma tokenize_text s rest toks :
  tokenize rest = Some toks → tokenize (encode_text s ++ rest) = Some (text_tokens s ++ toks).
Proof.
  intros Hr. induction s as [|c s IH]; [done|]. unfold encode_text in *. simpl.
  by rewrite <-app_assoc, tokenize_char, IH.
Qed.

Lemma tokenize_form f fields :
  ∃ toks, tokenize (form_encode (f :: fields)) = Some toks ∧
    split_on is_amp toks = field_tokens <$> (f :: fields).
Proof.
  assert (∀ f, no_amp (field_tokens f)) as Hno.
  { intros [k v]. unfold no_amp, field_tokens. rewrite Forall_app, Forall_cons. simpl.
    split; [|split; [done|]]; unfold text_tokens; apply Forall_fmap, Forall_true; done. }
  revert f. induction fields as [|g fields IH]; intros [k v].
  - exists (field_tokens (k, v)). split; [|apply split_on_one, Hno]. cbn [form_encode].
    apply tokenize_text. cbn [tokenize]. rewrite <-(app_nil_r (encode_text v)).
    rewrite (tokenize_text v [] []) by done. simpl. by rewrite app_nil_r.
  - destruct (IH g) as (toks & Ht & Hs).
    exists (field_tokens (k, v) ++ TAmp :: toks). split.
    + unfold field_tokens. rewrite <-app_assoc.
      change (form_encode ((k, v) :: g :: fields)) with
        (encode_text k ++ chr 61 :: encode_text v ++ chr 38 :: form_encode (g :: fields)).
      apply tokenize_text. cbn [tokenize].
      change (tokenize (encode_text v ++ chr 38 :: form_encode (g :: fields)))
        with (tokenize (encode_text v ++ (chr 38 :: form_encode (g :: fields)))).
      rewrite (tokenize_text v _ (TAmp :: toks)); [done|].
      change (tokenize (chr 38 :: form_encode (g :: fields)))
        with (cons TAmp <$> tokenize (form_encode (g :: fields))). by rewrite Ht.
    + rewrite split_on_amp by apply Hno. by rewrite Hs.
Qed.

Lemma split_on_eq_text s rest :
  split_on is_eq (text_tokens s ++ rest) =
  match split_on is_eq rest with h :: t => (text_tokens s ++ h) :: t | [] => [text_tokens s] end.
Proof.
  destruct (split_on_cons is_eq rest) as (h & t & E). rewrite E.
  induction s as [|c s IH]; [done|].
  change (text_tokens (String c s)) with (TChar c :: text_tokens s).
  cbn [app split_on is_eq]. by rewrite IH.
Qed.

Lemma piece_text s : string_forall not_nul s = true → piece (text_tokens s) = s.
Proof.
  induction s as [|c s IH]; [done|].
  change (text_tokens (String c s)) with (TChar c :: text_tokens s).
  cbn [piece string_forall]. unfold not_nul at 1.
  intros [Hc Hs]%andb_prop. apply negb_true_iff in Hc. by rewrite Hc, IH.
Qed.

Lemma add_field_tokens vals k v :
  string_forall not_nul k = true → string_forall not_nul v = true → k ≠ EmptyString →
  add_field vals (field_tokens (k, v)) = map_set k v vals.
Proof.
  intros Hk Hv Hne. unfold add_field, field_tokens. cbn [fst snd].
  rewrite split_on_eq_text. cbn [split_on is_eq].
  pose proof (split_on_eq_text v []) as E. rewrite app_nil_r in E. rewrite E.
  cbn [split_on]. rewrite !app_nil_r. cbn [List.last].
  rewrite !piece_text by done. by destruct k.
Qed.

Lemma map_find_set {K V} `{StdLess K, EqDecision K} (k k' : K) (v : V) m :
  map_sorted m →
  map_find k' (map_set k v m) = if decide (k = k') then Some v else map_find k' m.
Proof.
  intros Hm. case_decide as E; [subst; apply map_find_set_eq|]. apply map_find_set_ne; congruence.
Qed.

(** Setting distinct keys one after the other. *)
Lemma map_find_sets (fields : list (string * string)) (m : StringMap) k v :
  map_sorted m → NoDup fields.*1 → (∀ k, k ∈ fields.*1 → map_find k m = None) →
  map_find k (foldl (λ m f, map_set f.1 f.2 m) m fields) = Some v ↔
  (k, v) ∈ fields ∨ map_find k m = Some v.
Proof.
  revert m. induction fields as [|[k1 v1] fields IH]; intros m Hs Hd Hm; simpl; [set_solver|].
  apply NoDup_cons in Hd as [Hn Hd]. rewrite IH; [|by apply map_set_sorted|done|].
  - rewrite map_find_set by done. rewrite elem_of_cons. case_decide as E.
    + subst k1. rewrite (Hm k) by (apply list_elem_of_here).
      split; [|naive_solver]. intros [Hin|]; [|naive_solver].
      destruct Hn. apply list_elem_of_fmap. by exists (k, v).
    + naive_solver.
  - intros k' Hk'. rewrite map_find_set, decide_False by (done || intros ->; done).
    apply Hm. by apply list_elem_of_further.
Qed.

Definition field_ok (f : string * string) : Prop :=
  f.1 ≠ EmptyString ∧ string_forall not_nul f.1 = true ∧ string_forall not_nul f.2 = true.

(** An encoded form parses to its fields. *)
Lemma form_parsed present fields :
  fields ≠ [] → NoDup fields.*1 → Forall field_ok fields →
  (length (form_encode fields) < 4096)%nat →
  ∃ vals, parsed present (Some (form_encode fields)) = (replyOk, [], vals) ∧ map_sorted vals ∧
    ∀ k v, map_find k vals = Some v ↔ (k, v) ∈ fields.
Proof.
  intros Hne Hd Hf Hl.
  assert (0 < length (form_encode fields))%nat as Hpos.
  { destruct fields as [|[k v] [|? ?]]; [done|..]; cbn [form_encode]; rewrite length_app;
      simpl; lia. }
  unfold parsed. rewrite bool_decide_true by done.
  destruct fields as [|f fields]; [done|].
  destruct (tokenize_form f fields) as (toks & -> & Hs). eexists; split; [reflexivity|].
  unfold form_values. rewrite Hs. clear Hs Hl Hpos Hne. generalize (f :: fields) Hd Hf.
  clear. intros fields Hd Hf.
  assert (∀ m, foldl add_field m (field_tokens <$> fields)
               = foldl (λ m f, map_set f.1 f.2 m) m fields) as ->.
  { clear Hd. induction Hf as [|[k v] fields (Hk & Hn & Hv) _ IH]; intros m; simpl; [done|].
    by rewrite IH, add_field_tokens. }
  split.
  { assert (∀ m : StringMap, map_sorted m → map_sorted (foldl (λ m f, map_set f.1 f.2 m) m fields)) as Hs.
    { clear. induction fields as [|f fields IH]; intros m Hm; [done|]. by apply IH, map_set_sorted. }
    apply Hs, map_sorted_nil. }
  intros k v. rewrite map_find_sets by (done || apply map_sorted_nil). simpl. naive_solver.
Qed.

(** C25: a form round-trips: what a browser encodes as the body of a POST, any
    number of fields with distinct, nonempty keys and no NUL bytes, whatever
    other bytes they are made of, comes out of the parser as exactly those
    fields, if the encoding is shorter than the limit. *)
Theorem parsePost_roundtrip present fields :
  fields ≠ [] → NoDup fields.*1 → Forall field_ok fields →
  (length (form_encode fields) < 4096)%nat →
  ∃ vals, parsePost present (Some (form_encode fields)) = Ok (replyOk, [], vals) ∧
    ∀ k v, map_find k vals = Some v ↔ (k, v) ∈ fields.
Proof.
  intros Hne Hd Hf Hl. destruct (form_parsed present fields Hne Hd Hf Hl) as (vals & E & _ & Hv).
  exists vals. split; [|exact Hv]. rewrite parsePost_parsed; [by rewrite E|]. unfold body_fits. lia.
Qed.

(** An unencoded '=' inside a value drops what precedes it, and a field without
    '=' is ignored. *)
Lemma parsePost_raw_equals present :
  parsePost present (Some (String.list_ascii_of_string "flag&key=a=b")) =
  Ok (replyOk, [], [("key", "b")]).
Proof. vm_compute. reflexivity. Qed.

(** ** Witnesses *)

Definition demo_body : list ascii := String.list_ascii_of_string "msg=hi+%41&x=1%".

Lemma parsePost_correct_witness :
  parsePost false (Some demo_body) = Ok (replyOk, [], [("msg", "hi A"); ("x", "1")]).
Proof.
  rewrite (parsePost_correct false (Some demo_body)); [vm_compute; reflexivity|].
  vm_compute. reflexivity.
Defined.

Definition demo_fields : list (string * string) :=
  [("msg", "100% & more = fun"); ("x", "")].

Lemma parsePost_roundtrip_witness :
  ∃ vals, parsePost false (Some (form_encode demo_fields)) = Ok (replyOk, [], vals) ∧
    ∀ k v, map_find k vals = Some v ↔ (k, v) ∈ demo_fields.
Proof.
  apply (parsePost_roundtrip false demo_fields).
  - done.
  - vm_compute. repeat constructor; set_solver.
  - repeat constructor; done.
  - vm_compute. lia.
Defined.
