(* ===== verification/DisplayTypes.v ===== *)
(** * The display's vocabulary: src/src/displayTypes.h, src/src/fortunes.h and
      the lookup functions of src/src/displayInternal.cpp

    Colors, fonts, animation steps and images are [enum]s that requests fill
    from numbers; a value is its 32-bit number, also one no enumerator has. *)
From S2P Require Import Prelude CLib Ht1632 Fonts.

Definition displayColorGreen : Z := 0.
Definition displayColorRed : Z := 1.
Definition displayColorYellow : Z := 2.
Definition displayColorAlternate : Z := 3.

Definition font5x4 : Z := 0.
Definition font8x4 : Z := 1.
Definition font7x5 : Z := 2.
Definition font8x6 : Z := 3.
Definition font16x8 : Z := 4.
Definition fontLast : Z := 5.

Definition animationStepNone : Z := 0.
Definition animationStepFast : Z := 1.
Definition animationStep100ms : Z := 2.
Definition animationStep250ms : Z := 3.
Definition animationStep500ms : Z := 4.
Definition animationStep1sec : Z := 5.
Definition animationStep5sec : Z := 6.
Definition animationStep10sec : Z := 7.

Definition imgArtSmiley : Z := 0.
Definition imgArtUp21 : Z := 34.
Definition imgArtDown21 : Z := 38.
Definition imgArtCar1 : Z := 42.
Definition imgArtBlank : Z := 44.
Definition imgArtLast : Z := 45.
Definition imgArtStrUniqueOffset : nat := 6.

(** [imgArtStr]: the enumerators' names. *)
Definition imgArtStr : list string :=
  ["imgArtSmiley"; "imgArtWink"; "imgArtBigHeart"; "imgArtCat"; "imgArtOwls";
   "imgArtMail"; "imgArtMusic"; "imgArtMusicNote"; "imgArtHeart"; "imgArtSpeakerA";
   "imgArtSpeakerB"; "imgArt8x8"; "imgArtStickMan1"; "imgArtStickMan2"; "imgArtStickMan3";
   "imgArtStickMan4"; "imgArtWave1"; "imgArtWave2"; "imgArtWave3"; "imgArtWave4";
   "imgArtJump1"; "imgArtJump2"; "imgArtJump3"; "imgArtJump4"; "imgArtUp";
   "imgArtDown"; "imgArtUp1"; "imgArtUp2"; "imgArtUp3"; "imgArtUp4";
   "imgArtDown1"; "imgArtDown2"; "imgArtDown3"; "imgArtDown4"; "imgArtUp21";
   "imgArtUp22"; "imgArtUp23"; "imgArtUp24"; "imgArtDown21"; "imgArtDown22";
   "imgArtDown23"; "imgArtDown24"; "imgArtCar1"; "imgArtCar2"; "imgArtBlank";
   "imgArtLast"].

Definition MESSAGE_MAX_SIZE : nat := Z.to_nat 4096.
Definition BACKGROUND_IMG_COUNT : Z := 100.
Definition BACKGROUND_MESSAGE_COUNT : Z := 100.
Definition BACKGROUND_MESSAGE_MSG_SIZE : nat := Z.to_nat 120.

(** ** Fonts *)

(** What [getFontData], [getFontWidth], [getFontHeight] and [getFontGlyphStep]
    switch on. *)
Definition font_of (font : Z) : Font :=
  if font =? font5x4 then font_5x4
  else if font =? font8x4 then font_8x4
  else if font =? font7x5 then font_7x5
  else if font =? font8x6 then font_8x6
  else if font =? font16x8 then font_16x8
  else font_5x4.

Definition getFontData (font : Z) : list Z := font_data (font_of font).
Definition getFontWidth (font : Z) : list Z := font_width (font_of font).
Definition getFontHeight (font : Z) : Z := font_height (font_of font).
Definition getFontGlyphStep (font : Z) : Z := font_glyph_step (font_of font).

Definition getAdjustedTextY (font wantedY : Z) : Z :=
  if wantedY <? 0 then 0
  else if COM_SIZE <=? getFontHeight font + wantedY then COM_SIZE - getFontHeight font
  else wantedY.

(** The enumerator after a font, back to the first one at the end. *)
Definition getNextFont (font : Z) : Z :=
  let nextFont := u32 (font + 1) in if fontLast <=? nextFont then 0 else nextFont.

(** ** Images *)

(** [getImgArtInfo]: the images in the order of the enumerators. *)
Definition imgArts : list Image :=
  [IMG_SMILEY; IMG_WINK; IMG_BIG_HEART; IMG_CAT; IMG_OWLS;
   IMG_MAIL; IMG_MUSIC; IMG_MUSICNOTE; IMG_HEART; IMG_SPEAKER_A;
   IMG_SPEAKER_B; IMG_8X8; IMG_STICKMAN1; IMG_STICKMAN2; IMG_STICKMAN3;
   IMG_STICKMAN4; IMG_WAVE1; IMG_WAVE2; IMG_WAVE3; IMG_WAVE4;
   IMG_JUMP1; IMG_JUMP2; IMG_JUMP3; IMG_JUMP4; IMG_UP;
   IMG_DOWN; IMG_ARROW_UP1; IMG_ARROW_UP2; IMG_ARROW_UP3; IMG_ARROW_UP4;
   IMG_ARROW_DOWN1; IMG_ARROW_DOWN2; IMG_ARROW_DOWN3; IMG_ARROW_DOWN4; IMG_ARROW2_UP1;
   IMG_ARROW2_UP2; IMG_ARROW2_UP3; IMG_ARROW2_UP4; IMG_ARROW2_DOWN1; IMG_ARROW2_DOWN2;
   IMG_ARROW2_DOWN3; IMG_ARROW2_DOWN4; IMG_CAR1; IMG_CAR2; IMG_BLANK].

Definition getImgArtInfo (imgArt : Z) : Image :=
  if 0 <=? imgArt then default IMG_SMILEY (imgArts !! Z.to_nat imgArt) else IMG_SMILEY.

(** ** Texts *)

Definition modeMsgsIndexBoot : Z := 0.
Definition modeMsgsIndexFortunate1 : Z := 1.
Definition modeMsgsIndexLast : Z := 65.

(** The texts of src/src/fortunes.h, in the order of [modeMessageMsgs]. *)
Definition modeMessageMsgs : list string := [
  "--Starting clock--";
  "When all else seems to fail, smile for today and just love someone";
  "When you look down, all you see is dirt, so keep looking up";
  "If you are afraid to shake the dice, you will never throw a six";
  "A single conversation with a wise man is better than ten years of study";
  "Happiness is often a rebound from hard work";
  "The world may be your oyster, but that doesn't mean you'll get it's pearl";
  "Do not follow where the path may lead. Go where there is no path...and leave a trail";
  "Do not fear what you don't know";
  "Try everything once, even the things you don't think you will like";
  "If you wish to know the mind of a man, listen to his words";
  "The most useless energy is trying to change what and who God so carefully created";
  "Do not be covered in sadness or be fooled in happiness they both must exist";
  "All progress occurs because people dare to be different";
  "Whenever possible, keep it simple";
  "Look right... Now look left... Now look forward (do this really fast) do you feel any different? good you should feel dizzy";
  "Bend the rod while it is still hot";
  "Use the force";
  "Nothing is as good or bad as it appears";
  "Don't worry, be happy";
  "Never quit!";
  "You can do anything, but not everything";
  "Perfection is achieved, not when there is nothing more to add, but when there is nothing left to take away";
  "The richest man is not he who has the most, but he who needs the least";
  "You miss 100 percent of the shots you never take";
  "Courage is not the absence of fear, but rather the judgement that something else is more important than fear";
  "You must be the change you wish to see in the world";
  "When hungry, eat your rice. When tired, close your eyes. Fools may laugh at me, but wise men will know what I mean";
  "The third-rate mind is only happy when it is thinking with the majority. The second-rate mind is only happy when it is thinking with the minority. The first-rate mind is only happy when it is thinking";
  "To the man who only has a hammer, everything he encounters begins to look like a nail";
  "We are what we repeatedly do -- excellence, then, is not an act but a habit";
  "A wise man gets more use from his enemies than a fool from his friends";
  "Do not seek to follow in the footsteps of the men of old -- seek what they sought";
  "Watch your thoughts -- they become words. Watch your words -- they become actions. Watch your actions -- they become habits. Watch your habits -- they become character. Watch your character -- it becomes your destiny";
  "Everyone is a genius at least once a year. The real geniuses simply have their bright ideas closer together";
  "What we think, or what we know, or what we believe is, in the end, of little consequence. The only consequence is what we do";
  "The real voyage of discovery consists not in seeking new lands but seeing with new eyes";
  "Work like you don't need money, love like you've never been hurt, and dance like no one's watching";
  "Try a thing you haven't done three times. Once, to get over the fear of doing it. Twice, to learn how to do it. And a third time, to figure out whether you like it or not";
  "Even if you're on the right track, you'll get run over if you just sit there";
  "People often say that motivation doesn't last. Well, neither does bathing -- that's why we recommend it daily";
  "The real meaning of enlightenment is to gaze with undimmed eyes on all undimmed";
  "A journey of 1,000 miles must begin with a single step";
  "Show your true face to the people who really matter";
  "Let reality be reality";
  "A good memory is fine, but the ability to forget is the one true test of greatness";
  "Joys are often the shadows cast by sorrows";
  "Good to begin well, better to end well";
  "A good sport cannot fail!";
  "Your mind can make your body rich";
  "The Buddha said there is no one thing that stays the same during this life";
  "A good time to keep your mouth shut is when you are in deep water";
  "If you really want something, you'll find a way -- if you don't, you'll find an excuse";
  "To break a bad habit, drop it";
  "If we did a better job of listening, history wouldn't have to repeat itself";
  "To get nowhere, follow the crowd";
  "A bank is a place that will lend you money, if you can prove that you don't need it";
  "Always keep your words soft and sweet, in case you have to eat them";
  "When everything is coming your way, you are in the wrong lane";
  "If you find yourself in a hole, stop digging";
  "Knowledge is knowing a tomato is a fruit, but wisdom is not putting it in a fruit salad";
  "Evening news is where they begin with 'Good Evening' and proceed to tell you why it isn't";
  "Change is inevitable, except from a vending machine";
  "Some mistakes are too much fun to make only once";
  "Always borrow money from a pessimist, he won't expect to get it back"
].

(** ** Laws *)

Lemma modeMessageMsgs_count : Z.of_nat (length modeMessageMsgs) = modeMsgsIndexLast.
Proof. reflexivity. Qed.

Lemma imgArts_count : Z.of_nat (length imgArts) = imgArtLast.
Proof. reflexivity. Qed.

Lemma font_of_elem font : font_of font ∈ [font_5x4; font_7x5; font_8x4; font_8x6; font_16x8].
Proof. unfold font_of. repeat case_match; set_solver. Qed.

Lemma font_of_ok font : font_ok (font_of font) = true.
Proof. unfold font_of. repeat case_match; by vm_compute. Qed.

Lemma getFontHeight_range font : 5 <= getFontHeight font <= 16.
Proof. unfold getFontHeight, font_of. repeat case_match; simpl; lia. Qed.

(** A bouncing text of any font stays on the screen. *)
Lemma getAdjustedTextY_on_screen font y :
  0 <= getAdjustedTextY font y ∧ getAdjustedTextY font y + getFontHeight font <= COM_SIZE.
Proof.
  unfold getAdjustedTextY, COM_SIZE. pose proof (getFontHeight_range font).
  repeat case_match; lia.
Qed.

Definition image_fits (i : Image) : bool :=
  (0 <=? img_width i) && (0 <=? img_height i) && (img_height i <=? COM_SIZE) &&
  (words_per_column (img_height i) * Z.max 1 (img_width i) <=? Z.of_nat (length (img_data i))) &&
  forallb (λ w, (0 <=? w) && (w <? 16)) (img_data i).

Lemma imgArts_fit : forallb image_fits imgArts = true.
Proof. by vm_compute. Qed.

(** Every image the display knows lies inside of its table. *)
Lemma getImgArtInfo_ok n :
  let i := getImgArtInfo n in image_ok (img_data i) (img_width i) (img_height i) 0.
Proof.
  intros i. assert (image_fits i = true) as Hi.
  { pose proof imgArts_fit as Hf. rewrite forallb_forall in Hf.
    assert (image_fits IMG_SMILEY = true) by by vm_compute.
    unfold i, getImgArtInfo. destruct (0 <=? n); [|done].
    destruct (imgArts !! Z.to_nat n) as [j|] eqn:E; [|done].
    apply Hf, list_elem_of_In. by eapply list_elem_of_lookup_2. }
  unfold image_fits in Hi. rewrite !andb_true_iff, !Z.leb_le, forallb_forall in Hi.
  destruct Hi as ((((Hw & Hh) & _) & Hl) & Hd). unfold image_ok.
  assert (0 <= words_per_column (img_height i)).
  { unfold words_per_column. pose proof (Z.div_le_upper_bound (- img_height i) 4 0). lia. }
  split_and!; [done|done|lia|nia|].
  apply Forall_forall. intros w Hin%list_elem_of_In. specialize (Hd w Hin). lia.
Qed.
