(* ===== verification/DisplayState.v ===== *)
(** * The state of the display component: src/src/displayInternal.cpp

    Its data types with their setters, the interface [DisplayWorld] of what the
    component asks of the rest of the program, and the state monad its handlers
    are written in. *)
From S2P Require Import Prelude StdMap CLib Inbox Sensors Ht1632 DisplayTypes.

(** ** Data *)

(** The animation of a background item. *)
Record Animation := mkAnimation {
  animationStep : Z;
  animationStepPhase : Z;
  animationStepPhaseValue : Z;
}.

Definition set_animationStep (v : Z) (a : Animation) : Animation :=
mkAnimation v (animationStepPhase a) (animationStepPhaseValue a).
Definition set_animationStepPhase (v : Z) (a : Animation) : Animation :=
mkAnimation (animationStep a) v (animationStepPhaseValue a).
Definition set_animationStepPhaseValue (v : Z) (a : Animation) : Animation :=
mkAnimation (animationStep a) (animationStepPhase a) v.

(** A message in the background of the message mode; [msg] is a C string. *)
Record BackgroundMessage := mkBackgroundMessage {
  bm_enabled : bool;
  bm_font : Z;
  bm_displayColor : Z;
  bm_msg : string;
  bm_x : Z;
  bm_y : Z;
  bm_animation : Animation;
}.

Definition set_bm_enabled (v : bool) (m : BackgroundMessage) : BackgroundMessage :=
mkBackgroundMessage v (bm_font m) (bm_displayColor m) (bm_msg m) (bm_x m) (bm_y m) (bm_animation m).
Definition set_bm_font (v : Z) (m : BackgroundMessage) : BackgroundMessage :=
mkBackgroundMessage (bm_enabled m) v (bm_displayColor m) (bm_msg m) (bm_x m) (bm_y m)
    (bm_animation m).
Definition set_bm_displayColor (v : Z) (m : BackgroundMessage) : BackgroundMessage :=
mkBackgroundMessage (bm_enabled m) (bm_font m) v (bm_msg m) (bm_x m) (bm_y m) (bm_animation m).
Definition set_bm_msg (v : string) (m : BackgroundMessage) : BackgroundMessage :=
mkBackgroundMessage (bm_enabled m) (bm_font m) (bm_displayColor m) v (bm_x m) (bm_y m)
    (bm_animation m).
Definition set_bm_x (v : Z) (m : BackgroundMessage) : BackgroundMessage :=
mkBackgroundMessage (bm_enabled m) (bm_font m) (bm_displayColor m) (bm_msg m) v (bm_y m)
    (bm_animation m).
Definition set_bm_y (v : Z) (m : BackgroundMessage) : BackgroundMessage :=
mkBackgroundMessage (bm_enabled m) (bm_font m) (bm_displayColor m) (bm_msg m) (bm_x m) v
    (bm_animation m).
Definition set_bm_animation (v : Animation) (m : BackgroundMessage) : BackgroundMessage :=
mkBackgroundMessage (bm_enabled m) (bm_font m) (bm_displayColor m) (bm_msg m) (bm_x m) (bm_y m) v.

(** An image in the background. *)
Record BackgroundImg := mkBackgroundImg {
  bi_enabled : bool;
  bi_displayColor : Z;
  bi_imgArt : Z;
  bi_x : Z;
  bi_y : Z;
  bi_animation : Animation;
}.

Definition set_bi_enabled (v : bool) (i : BackgroundImg) : BackgroundImg :=
mkBackgroundImg v (bi_displayColor i) (bi_imgArt i) (bi_x i) (bi_y i) (bi_animation i).
Definition set_bi_displayColor (v : Z) (i : BackgroundImg) : BackgroundImg :=
mkBackgroundImg (bi_enabled i) v (bi_imgArt i) (bi_x i) (bi_y i) (bi_animation i).
Definition set_bi_imgArt (v : Z) (i : BackgroundImg) : BackgroundImg :=
mkBackgroundImg (bi_enabled i) (bi_displayColor i) v (bi_x i) (bi_y i) (bi_animation i).
Definition set_bi_x (v : Z) (i : BackgroundImg) : BackgroundImg :=
mkBackgroundImg (bi_enabled i) (bi_displayColor i) (bi_imgArt i) v (bi_y i) (bi_animation i).
Definition set_bi_y (v : Z) (i : BackgroundImg) : BackgroundImg :=
mkBackgroundImg (bi_enabled i) (bi_displayColor i) (bi_imgArt i) (bi_x i) v (bi_animation i).
Definition set_bi_animation (v : Animation) (i : BackgroundImg) : BackgroundImg :=
mkBackgroundImg (bi_enabled i) (bi_displayColor i) (bi_imgArt i) (bi_x i) (bi_y i) v.

(** What the message mode shows and how. The callback, where there is one, is
    always [changeDisplayModeBasicClock] with a null parameter. *)
Record ModeMessageData := mkModeMessageData {
  msg : string;
  modeMsgsIndex : Z;
  incrementX : bool;
  confetti : Z;
  alternateFont : bool;
  displayColor : Z;
  blink : bool;
  completedCallback : bool;     (* a null pointer, or changeDisplayModeBasicClock *)
  incrementY : Z;
  repeats : Z;
  timeout : Z;
  font : Z;
  currX : Z;
  currYFactor : Z;
  blinkBlankInEffect : bool;
  wd : Z;
}.

Definition set_msg (v : string) (m : ModeMessageData) : ModeMessageData :=
mkModeMessageData v (modeMsgsIndex m) (incrementX m) (confetti m) (alternateFont m)
    (displayColor m) (blink m) (completedCallback m) (incrementY m) (repeats m) (timeout m)
    (font m) (currX m) (currYFactor m) (blinkBlankInEffect m) (wd m).
Definition set_modeMsgsIndex (v : Z) (m : ModeMessageData) : ModeMessageData :=
mkModeMessageData (msg m) v (incrementX m) (confetti m) (alternateFont m) (displayColor m)
    (blink m) (completedCallback m) (incrementY m) (repeats m) (timeout m) (font m) (currX m)
    (currYFactor m) (blinkBlankInEffect m) (wd m).
Definition set_incrementX (v : bool) (m : ModeMessageData) : ModeMessageData :=
mkModeMessageData (msg m) (modeMsgsIndex m) v (confetti m) (alternateFont m) (displayColor m)
    (blink m) (completedCallback m) (incrementY m) (repeats m) (timeout m) (font m) (currX m)
    (currYFactor m) (blinkBlankInEffect m) (wd m).
Definition set_confetti (v : Z) (m : ModeMessageData) : ModeMessageData :=
mkModeMessageData (msg m) (modeMsgsIndex m) (incrementX m) v (alternateFont m) (displayColor m)
    (blink m) (completedCallback m) (incrementY m) (repeats m) (timeout m) (font m) (currX m)
    (currYFactor m) (blinkBlankInEffect m) (wd m).
Definition set_alternateFont (v : bool) (m : ModeMessageData) : ModeMessageData :=
mkModeMessageData (msg m) (modeMsgsIndex m) (incrementX m) (confetti m) v (displayColor m)
    (blink m) (completedCallback m) (incrementY m) (repeats m) (timeout m) (font m) (currX m)
    (currYFactor m) (blinkBlankInEffect m) (wd m).
Definition set_displayColor (v : Z) (m : ModeMessageData) : ModeMessageData :=
mkModeMessageData (msg m) (modeMsgsIndex m) (incrementX m) (confetti m) (alternateFont m) v
    (blink m) (completedCallback m) (incrementY m) (repeats m) (timeout m) (font m) (currX m)
    (currYFactor m) (blinkBlankInEffect m) (wd m).
Definition set_blink (v : bool) (m : ModeMessageData) : ModeMessageData :=
mkModeMessageData (msg m) (modeMsgsIndex m) (incrementX m) (confetti m) (alternateFont m)
    (displayColor m) v (completedCallback m) (incrementY m) (repeats m) (timeout m) (font m)
    (currX m) (currYFactor m) (blinkBlankInEffect m) (wd m).
Definition set_completedCallback (v : bool) (m : ModeMessageData) : ModeMessageData :=
mkModeMessageData (msg m) (modeMsgsIndex m) (incrementX m) (confetti m) (alternateFont m)
    (displayColor m) (blink m) v (incrementY m) (repeats m) (timeout m) (font m) (currX m)
    (currYFactor m) (blinkBlankInEffect m) (wd m).
Definition set_incrementY (v : Z) (m : ModeMessageData) : ModeMessageData :=
mkModeMessageData (msg m) (modeMsgsIndex m) (incrementX m) (confetti m) (alternateFont m)
    (displayColor m) (blink m) (completedCallback m) v (repeats m) (timeout m) (font m) (currX m)
    (currYFactor m) (blinkBlankInEffect m) (wd m).
Definition set_repeats (v : Z) (m : ModeMessageData) : ModeMessageData :=
mkModeMessageData (msg m) (modeMsgsIndex m) (incrementX m) (confetti m) (alternateFont m)
    (displayColor m) (blink m) (completedCallback m) (incrementY m) v (timeout m) (font m)
    (currX m) (currYFactor m) (blinkBlankInEffect m) (wd m).
Definition set_timeout (v : Z) (m : ModeMessageData) : ModeMessageData :=
mkModeMessageData (msg m) (modeMsgsIndex m) (incrementX m) (confetti m) (alternateFont m)
    (displayColor m) (blink m) (completedCallback m) (incrementY m) (repeats m) v (font m)
    (currX m) (currYFactor m) (blinkBlankInEffect m) (wd m).
Definition set_font (v : Z) (m : ModeMessageData) : ModeMessageData :=
mkModeMessageData (msg m) (modeMsgsIndex m) (incrementX m) (confetti m) (alternateFont m)
    (displayColor m) (blink m) (completedCallback m) (incrementY m) (repeats m) (timeout m) v
    (currX m) (currYFactor m) (blinkBlankInEffect m) (wd m).
Definition set_currX (v : Z) (m : ModeMessageData) : ModeMessageData :=
mkModeMessageData (msg m) (modeMsgsIndex m) (incrementX m) (confetti m) (alternateFont m)
    (displayColor m) (blink m) (completedCallback m) (incrementY m) (repeats m) (timeout m)
    (font m) v (currYFactor m) (blinkBlankInEffect m) (wd m).
Definition set_currYFactor (v : Z) (m : ModeMessageData) : ModeMessageData :=
mkModeMessageData (msg m) (modeMsgsIndex m) (incrementX m) (confetti m) (alternateFont m)
    (displayColor m) (blink m) (completedCallback m) (incrementY m) (repeats m) (timeout m)
    (font m) (currX m) v (blinkBlankInEffect m) (wd m).
Definition set_blinkBlankInEffect (v : bool) (m : ModeMessageData) : ModeMessageData :=
mkModeMessageData (msg m) (modeMsgsIndex m) (incrementX m) (confetti m) (alternateFont m)
    (displayColor m) (blink m) (completedCallback m) (incrementY m) (repeats m) (timeout m)
    (font m) (currX m) (currYFactor m) v (wd m).
Definition set_wd (v : Z) (m : ModeMessageData) : ModeMessageData :=
mkModeMessageData (msg m) (modeMsgsIndex m) (incrementX m) (confetti m) (alternateFont m)
    (displayColor m) (blink m) (completedCallback m) (incrementY m) (repeats m) (timeout m)
    (font m) (currX m) (currYFactor m) (blinkBlankInEffect m) v.

(** The animation step tickers, of eight bits. *)
Record Tickers := mkTickers {
  tickerFast : Z;
  ticker100ms : Z;
  ticker250ms : Z;
  ticker500ms : Z;
  ticker1sec : Z;
  ticker5sec : Z;
  ticker10sec : Z;
}.

Definition set_tickerFast (v : Z) (t : Tickers) : Tickers :=
mkTickers v (ticker100ms t) (ticker250ms t) (ticker500ms t) (ticker1sec t) (ticker5sec t)
    (ticker10sec t).
Definition set_ticker100ms (v : Z) (t : Tickers) : Tickers :=
mkTickers (tickerFast t) v (ticker250ms t) (ticker500ms t) (ticker1sec t) (ticker5sec t)
    (ticker10sec t).
Definition set_ticker250ms (v : Z) (t : Tickers) : Tickers :=
mkTickers (tickerFast t) (ticker100ms t) v (ticker500ms t) (ticker1sec t) (ticker5sec t)
    (ticker10sec t).
Definition set_ticker500ms (v : Z) (t : Tickers) : Tickers :=
mkTickers (tickerFast t) (ticker100ms t) (ticker250ms t) v (ticker1sec t) (ticker5sec t)
    (ticker10sec t).
Definition set_ticker1sec (v : Z) (t : Tickers) : Tickers :=
mkTickers (tickerFast t) (ticker100ms t) (ticker250ms t) (ticker500ms t) v (ticker5sec t)
    (ticker10sec t).
Definition set_ticker5sec (v : Z) (t : Tickers) : Tickers :=
mkTickers (tickerFast t) (ticker100ms t) (ticker250ms t) (ticker500ms t) (ticker1sec t) v
    (ticker10sec t).
Definition set_ticker10sec (v : Z) (t : Tickers) : Tickers :=
mkTickers (tickerFast t) (ticker100ms t) (ticker250ms t) (ticker500ms t) (ticker1sec t)
    (ticker5sec t) v.

(** The function-local static variables. *)
Record Statics := mkStatics {
  nothing_row : Z;
  nothing_col : Z;
  nothing_color : Z;
  temperatureFrame : Z;
  humidityFrame : Z;
  carFrame : Z;
  animationCounter : Z;
  blinkerEffect : Z;
  checkCount : Z;
}.

Definition set_nothing_row (v : Z) (st : Statics) : Statics :=
mkStatics v (nothing_col st) (nothing_color st) (temperatureFrame st) (humidityFrame st)
    (carFrame st) (animationCounter st) (blinkerEffect st) (checkCount st).
Definition set_nothing_col (v : Z) (st : Statics) : Statics :=
mkStatics (nothing_row st) v (nothing_color st) (temperatureFrame st) (humidityFrame st)
    (carFrame st) (animationCounter st) (blinkerEffect st) (checkCount st).
Definition set_nothing_color (v : Z) (st : Statics) : Statics :=
mkStatics (nothing_row st) (nothing_col st) v (temperatureFrame st) (humidityFrame st) (carFrame st)
    (animationCounter st) (blinkerEffect st) (checkCount st).
Definition set_temperatureFrame (v : Z) (st : Statics) : Statics :=
mkStatics (nothing_row st) (nothing_col st) (nothing_color st) v (humidityFrame st) (carFrame st)
    (animationCounter st) (blinkerEffect st) (checkCount st).
Definition set_humidityFrame (v : Z) (st : Statics) : Statics :=
mkStatics (nothing_row st) (nothing_col st) (nothing_color st) (temperatureFrame st) v (carFrame st)
    (animationCounter st) (blinkerEffect st) (checkCount st).
Definition set_carFrame (v : Z) (st : Statics) : Statics :=
mkStatics (nothing_row st) (nothing_col st) (nothing_color st) (temperatureFrame st)
    (humidityFrame st) v (animationCounter st) (blinkerEffect st) (checkCount st).
Definition set_animationCounter (v : Z) (st : Statics) : Statics :=
mkStatics (nothing_row st) (nothing_col st) (nothing_color st) (temperatureFrame st)
    (humidityFrame st) (carFrame st) v (blinkerEffect st) (checkCount st).
Definition set_blinkerEffect (v : Z) (st : Statics) : Statics :=
mkStatics (nothing_row st) (nothing_col st) (nothing_color st) (temperatureFrame st)
    (humidityFrame st) (carFrame st) (animationCounter st) v (checkCount st).
Definition set_checkCount (v : Z) (st : Statics) : Statics :=
mkStatics (nothing_row st) (nothing_col st) (nothing_color st) (temperatureFrame st)
    (humidityFrame st) (carFrame st) (animationCounter st) (blinkerEffect st) v.

(** The file-scope variables of the component, its driver, and its surroundings. *)
Record DisplayState (W : Type) := mkDisplay {
  matrix : HT1632;
  sent : list ht_event;     (* what the driver sent so far *)
  backgroundMessage : list BackgroundMessage;
  backgroundImg : list BackgroundImg;
  modeMessageDataColorEffect : Z;
  modeMessageData : ModeMessageData;
  currModeIndex : Z;
  tickers : Tickers;
  statics : Statics;
  roomIsDark : bool;
  world : W;
}.
Arguments mkDisplay {W}.
Arguments matrix {W}.
Arguments sent {W}.
Arguments backgroundMessage {W}.
Arguments backgroundImg {W}.
Arguments modeMessageDataColorEffect {W}.
Arguments modeMessageData {W}.
Arguments currModeIndex {W}.
Arguments tickers {W}.
Arguments statics {W}.
Arguments roomIsDark {W}.
Arguments world {W}.

Definition set_matrix {W} (v : HT1632) (s : DisplayState W) : DisplayState W :=
mkDisplay v (sent s) (backgroundMessage s) (backgroundImg s) (modeMessageDataColorEffect s)
    (modeMessageData s) (currModeIndex s) (tickers s) (statics s) (roomIsDark s) (world s).
Definition set_sent {W} (v : list ht_event) (s : DisplayState W) : DisplayState W :=
mkDisplay (matrix s) v (backgroundMessage s) (backgroundImg s) (modeMessageDataColorEffect s)
    (modeMessageData s) (currModeIndex s) (tickers s) (statics s) (roomIsDark s) (world s).
Definition set_backgroundMessage {W} (v : list BackgroundMessage) (s : DisplayState W) : DisplayState W :=
mkDisplay (matrix s) (sent s) v (backgroundImg s) (modeMessageDataColorEffect s)
    (modeMessageData s) (currModeIndex s) (tickers s) (statics s) (roomIsDark s) (world s).
Definition set_backgroundImg {W} (v : list BackgroundImg) (s : DisplayState W) : DisplayState W :=
mkDisplay (matrix s) (sent s) (backgroundMessage s) v (modeMessageDataColorEffect s)
    (modeMessageData s) (currModeIndex s) (tickers s) (statics s) (roomIsDark s) (world s).
Definition set_modeMessageDataColorEffect {W} (v : Z) (s : DisplayState W) : DisplayState W :=
mkDisplay (matrix s) (sent s) (backgroundMessage s) (backgroundImg s) v (modeMessageData s)
    (currModeIndex s) (tickers s) (statics s) (roomIsDark s) (world s).
Definition set_modeMessageData {W} (v : ModeMessageData) (s : DisplayState W) : DisplayState W :=
mkDisplay (matrix s) (sent s) (backgroundMessage s) (backgroundImg s)
    (modeMessageDataColorEffect s) v (currModeIndex s) (tickers s) (statics s) (roomIsDark s)
    (world s).
Definition set_currModeIndex {W} (v : Z) (s : DisplayState W) : DisplayState W :=
mkDisplay (matrix s) (sent s) (backgroundMessage s) (backgroundImg s)
    (modeMessageDataColorEffect s) (modeMessageData s) v (tickers s) (statics s) (roomIsDark s)
    (world s).
Definition set_tickers {W} (v : Tickers) (s : DisplayState W) : DisplayState W :=
mkDisplay (matrix s) (sent s) (backgroundMessage s) (backgroundImg s)
    (modeMessageDataColorEffect s) (modeMessageData s) (currModeIndex s) v (statics s)
    (roomIsDark s) (world s).
Definition set_statics {W} (v : Statics) (s : DisplayState W) : DisplayState W :=
mkDisplay (matrix s) (sent s) (backgroundMessage s) (backgroundImg s)
    (modeMessageDataColorEffect s) (modeMessageData s) (currModeIndex s) (tickers s) v
    (roomIsDark s) (world s).
Definition set_roomIsDark {W} (v : bool) (s : DisplayState W) : DisplayState W :=
mkDisplay (matrix s) (sent s) (backgroundMessage s) (backgroundImg s)
    (modeMessageDataColorEffect s) (modeMessageData s) (currModeIndex s) (tickers s) (statics s) v
    (world s).
Definition set_world {W} (v : W) (s : DisplayState W) : DisplayState W :=
mkDisplay (matrix s) (sent s) (backgroundMessage s) (backgroundImg s)
    (modeMessageDataColorEffect s) (modeMessageData s) (currModeIndex s) (tickers s) (statics s)
    (roomIsDark s) v.

(** The variables before anything runs: static storage is zeroed. *)
Definition zero_animation : Animation := mkAnimation 0 0 0.
Definition zero_BackgroundMessage : BackgroundMessage :=
  mkBackgroundMessage false 0 0 EmptyString 0 0 zero_animation.
Definition zero_BackgroundImg : BackgroundImg := mkBackgroundImg false 0 0 0 0 zero_animation.
Definition zero_ModeMessageData : ModeMessageData :=
  mkModeMessageData EmptyString 0 false 0 false 0 false false 0 0 0 0 0 0 false 0.
Definition animationsAfterOff : Z := 80.
Definition initial_statics : Statics := mkStatics 0 0 0 0 0 0 animationsAfterOff 0 0.

Definition DisplayState_init {W} (h : HT1632) (w : W) : DisplayState W :=
  mkDisplay h [] (replicate (Z.to_nat BACKGROUND_MESSAGE_COUNT) zero_BackgroundMessage)
    (replicate (Z.to_nat BACKGROUND_IMG_COUNT) zero_BackgroundImg) 0 zero_ModeMessageData 0
    (mkTickers 0 0 0 0 0 0 0) initial_statics false w.

(** ** The surroundings *)

(** [struct tm], as far as it is used. *)
Record tm := mkTm {
  tm_sec : Z;
  tm_min : Z;
  tm_hour : Z;
  tm_mday : Z;
  tm_mon : Z;
  tm_wday : Z;
}.

(** What the display asks of the dictionary, the sensors, the inboxes, the
    clock and the random numbers, and what it counts on. *)
Class DisplayWorld (W : Type) := {
  dict_get : string → W → (bool * string) * W;
  motion_info : W → Motion.MotionInfo;
  light_value : W → Z;
  broadcast_display : InboxMsgType → W → W;
  local_time : W → tm * W;
  random_number : Z → W → Z * W;
  random_bound n w : 0 < n → 0 <= (random_number n w).1 < n;
}.

(** ** The monad *)

(** A handler: a step of the state; [None] is an access outside of a buffer or
    a table, or an arithmetic overflow of [int], which C++ leaves undefined. *)
Definition M (W A : Type) : Type := DisplayState W → option (A * DisplayState W).

#[export] Instance M_ret {W} : MRet (M W) := λ A a s, Some (a, s).
#[export] Instance M_bind {W} : MBind (M W) := λ A B f m s,
  match m s with Some (a, s') => f a s' | None => None end.

Definition gets {W A} (f : DisplayState W → A) : M W A := λ s, Some (f s, s).
Definition modify {W} (f : DisplayState W → DisplayState W) : M W () := λ s, Some (tt, f s).
Definition noop {W} : M W () := mret tt.
Definition when {W} (b : bool) (m : M W ()) : M W () := if b then m else noop.

(** A value of type [int]; outside of its range the operation is undefined. *)
Definition int {W} (z : Z) : M W Z := λ s,
  if (- 2 ^ 31 <=? z) && (z <? 2 ^ 31) then Some (z, s) else None.

(** Calls of the driver: ones that only change it, ones that may leave a
    buffer, and ones that also send. *)
Definition ht {W} (f : HT1632 → HT1632) : M W () := modify (λ s, set_matrix (f (matrix s)) s).
Definition ht_try {W} (f : HT1632 → option HT1632) : M W () := λ s,
  match f (matrix s) with Some h => Some (tt, set_matrix h s) | None => None end.
Definition ht_send {W} (f : HT1632 → option (list ht_event * HT1632)) : M W () := λ s,
  match f (matrix s) with
  | Some (out, h) => Some (tt, set_sent (sent s ++ out) (set_matrix h s))
  | None => None
  end.

(** Calls of the surroundings. *)
Definition ask {W A} (f : W → A * W) : M W A := λ s,
  let '(a, w) := f (world s) in Some (a, set_world w s).
Definition tell {W} (f : W → W) : M W () := modify (λ s, set_world (f (world s)) s).

(** [for (i = lo; i < lo + n; ++i) body(i)]. *)
Fixpoint for_each {W} {A} (l : list A) (body : A → M W ()) : M W () :=
  match l with
  | [] => noop
  | a :: l => body a;; for_each l body
  end.

Definition update_message {W} (f : ModeMessageData → ModeMessageData) : M W () :=
  modify (λ s, set_modeMessageData (f (modeMessageData s)) s).
Definition update_statics {W} (f : Statics → Statics) : M W () :=
  modify (λ s, set_statics (f (statics s)) s).
Definition update_tickers {W} (f : Tickers → Tickers) : M W () :=
  modify (λ s, set_tickers (f (tickers s)) s).

(** ** Reasoning *)

(** [m] always succeeds from states in [P] and ends in [Q]. *)
Definition triple {W A} (P : DisplayState W → Prop) (m : M W A) (Q : A → DisplayState W → Prop) : Prop :=
  ∀ s, P s → ∃ a s', m s = Some (a, s') ∧ Q a s'.

Lemma triple_ret {W A} (P : DisplayState W → Prop) (a : A) (Q : A → DisplayState W → Prop) :
  (∀ s, P s → Q a s) → triple P (mret a) Q.
Proof. intros H s Hs. exists a, s. split; [done|by apply H]. Qed.

Lemma triple_bind {W A B} P (m : M W A) R (k : A → M W B) Q :
  triple P m R → (∀ a, triple (R a) (k a) Q) → triple P (m ≫= k) Q.
Proof.
  intros Hm Hk s Hs. destruct (Hm s Hs) as (a & s' & E & Hr).
  destruct (Hk a s' Hr) as (b & s'' & E' & Hq). exists b, s''.
  split; [|done]. unfold mbind, M_bind. by rewrite E.
Qed.

Lemma triple_modify {W} P f (Q : () → DisplayState W → Prop) :
  (∀ s, P s → Q tt (f s)) → triple P (modify f) Q.
Proof. intros H s Hs. exists tt, (f s). split; [done|by apply H]. Qed.

Lemma triple_gets {W A} P (f : DisplayState W → A) Q :
  (∀ s, P s → Q (f s) s) → triple P (gets f) Q.
Proof. intros H s Hs. exists (f s), s. split; [done|by apply H]. Qed.

Lemma triple_weaken {W A} (P P' : DisplayState W → Prop) (m : M W A) Q Q' :
  triple P m Q → (∀ s, P' s → P s) → (∀ a s, Q a s → Q' a s) → triple P' m Q'.
Proof.
  intros Hm Hp Hq s Hs. destruct (Hm s (Hp s Hs)) as (a & s' & E & H).
  exists a, s'. split; [done|by apply Hq].
Qed.

Lemma triple_for_each {W A} (P : DisplayState W → Prop) (l : list A) body :
  (∀ a, a ∈ l → triple P (body a) (λ _, P)) → triple P (for_each l body) (λ _, P).
Proof.
  induction l as [|a l IH]; intros Hb; cbn [for_each].
  - by apply triple_ret.
  - eapply triple_bind.
    + apply Hb, list_elem_of_here.
    + intros []. apply IH. intros b Hin. apply Hb. by apply list_elem_of_further.
Qed.

Lemma triple_when {W} (P : DisplayState W → Prop) b m :
  (b = true → triple P m (λ _, P)) → triple P (when b m) (λ _, P).
Proof. intros H. destruct b; [by apply H|]. by apply triple_ret. Qed.
