(* ===== verification/DisplayInternal.v ===== *)
(** * The display's modes and requests: src/src/displayInternal.cpp

    The three modes (nothing, the clock, a message) with their handlers, the
    background items, the dimming, and the requests of the web server. Every
    handler is a step of the monad [M] over the state of DisplayState.v. *)
From S2P Require Import Prelude StdMap CLib CommonUtils Inbox Sensors Dictionary Ht1632 Fonts DisplayTypes.
From S2P Require Import DisplayState.

Definition displayModeNothing : Z := 0.
Definition displayModeBasicClock : Z := 1.
Definition displayModeMessage : Z := 2.

Definition INCREMENT_Y_SCALE : Z := 1000.
Definition INCREMENT_Y_VALUE : Z := 800.

(** [~0] in an [int] and in an [Int32U]. *)
Definition forever_int : Z := -1.
Definition forever_u32 : Z := 2 ^ 32 - 1.

Definition dictionaryTopicTemperature : string := "/sensor/temperature_outside".
Definition dictionaryTopicTemperatureDir : string := "/sensor/temperature_outside/direction".
Definition dictionaryTopicHumidity : string := "/garage/humidity".
Definition dictionaryTopicHumidityDir : string := "/garage/humidity/direction".
Definition dictionaryTopicGarageMotion1 : string := "/garage/oper_flag/motion".
Definition dictionaryTopicGarageMotion2 : string := "/garage_steps/oper_flag/motion".
Definition dictionaryTopicGarageMotion3 : string := "/kitchen_steps/oper_flag/motion".
Definition dictionaryTopicValueOn : string := "on".
Definition dictionaryTopicDirectionUp : string := "up".
Definition dictionaryTopicDirectionDown : string := "down".

(** ** Texts of the clock *)

Definition daysOfWeek : list string :=
  ["Sunday"; "Monday"; "Tuesday"; "Wednesday"; "Thursday"; "Friday"; "Saturday"].
Definition months : list string :=
  ["January"; "February"; "March"; "April"; "May"; "June"; "July"; "August"; "September";
   "October"; "November"; "December"].

Definition getDayOfMonthStr (day : Z) (bufferOutSize : nat) : string :=
  snprintf_s bufferOutSize
    (if day =? 1 then "1st" else if day =? 2 then "2nd" else if day =? 3 then "3rd"
     else if day =? 21 then "21st" else if day =? 22 then "22nd" else if day =? 23 then "23rd"
     else if day =? 31 then "31st" else print_int day +:+ "th").

(** A name by its number, or the text for a number out of range. *)
Definition name_of (names : list string) (n : Z) (other : string) : string :=
  if (0 <=? n) && (n <? Z.of_nat (length names)) then default other (names !! Z.to_nat n)
  else other.

Definition clock_hour (t : tm) : Z :=
  let hour := tm_hour t - (if 12 <? tm_hour t then 12 else 0) in
  if hour =? 0 then 12 else hour.

(** ["%2d:%02d"] *)
Definition clock_time_text (t : tm) : string :=
  snprintf_s MESSAGE_MAX_SIZE
    (pad_left (chr 32) 2 (print_int (clock_hour t)) +:+ ":" +:+
     pad_left (chr 48) 2 (print_int (tm_min t))).

Definition clock_date_text (t : tm) : string :=
  snprintf_s 4 (name_of months (tm_mon t) "MMM") +:+ " " +:+
  getDayOfMonthStr (tm_mday t) (MESSAGE_MAX_SIZE - 4).

Definition clock_half_text (t : tm) : string := if 11 <? tm_hour t then "pm" else "am".

Definition clock_day_text (t : tm) : string := name_of daysOfWeek (tm_wday t) "DDD".

(** ["%02d "] in ten bytes. *)
Definition clock_seconds_text (t : tm) : string :=
  snprintf_s 10 (pad_left (chr 48) 2 (print_int (tm_sec t)) +:+ " ").

(** ** Animation *)

Definition ticker_of (step : Z) (t : Tickers) : option Z :=
  if step =? animationStepFast then Some (tickerFast t)
  else if step =? animationStep100ms then Some (ticker100ms t)
  else if step =? animationStep250ms then Some (ticker250ms t)
  else if step =? animationStep500ms then Some (ticker500ms t)
  else if step =? animationStep1sec then Some (ticker1sec t)
  else if step =? animationStep5sec then Some (ticker5sec t)
  else if step =? animationStep10sec then Some (ticker10sec t)
  else None.

Definition willAnimate (a : Animation) (t : Tickers) : bool :=
  if animationStepPhase a =? 0 then true
  else
    match ticker_of (animationStep a) t with
    | Some n => n mod animationStepPhase a =? animationStepPhaseValue a
    | None => true
    end.

(** ** Background items *)

Definition initBackgroundMessage (m : BackgroundMessage) : BackgroundMessage :=
  mkBackgroundMessage false font5x4 displayColorYellow EmptyString 0 0 (bm_animation m).

Definition initBackgroundImg (i : BackgroundImg) : BackgroundImg :=
  mkBackgroundImg false displayColorYellow imgArtLast 0 0 (bi_animation i).

(** The board that the [j]-th pass of a background item draws on. *)
Definition background_board (color j : Z) : Z :=
  if color =? displayColorGreen then 0 else if color =? displayColorRed then 1 else j.

(** The passes: both boards for yellow, otherwise the first pass only. *)
Definition background_passes (color : Z) : list Z :=
  if color =? displayColorYellow then [0; 1] else [0].

Section handlers.
Context {W : Type} `{DisplayWorld W}.

Definition try {A} (o : option A) : M W A := λ s,
  match o with Some a => Some (a, s) | None => None end.

(** [HT1632.drawTarget(BUFFER_BOARD(n))] *)
Definition target_board (n : Z) : M W () := ht (drawTarget (n - 1)).
Definition draw_text (text : string) (x y font : Z) : M W () :=
  ht_try (drawText text x y (getFontData font) (getFontWidth font) (getFontHeight font)
            (getFontGlyphStep font) 1).
Definition draw_image (i : Image) (x y : Z) : M W () :=
  ht_try (drawImage (img_data i) (img_width i) (img_height i) x y 0).
Definition set_pixel (x y : Z) (on : bool) : M W () := ht_try (setPixel x y on).
Definition text_width_of (text : string) (font : Z) : M W Z :=
  try (getTextWidth text (getFontWidth font) 1).

Definition drawBackgroundMessages : M W () :=
  s ← gets id;
  for_each (backgroundMessage s) (λ m,
    when (bm_enabled m && willAnimate (bm_animation m) (tickers s))
      (for_each (background_passes (bm_displayColor m)) (λ j,
        target_board (background_board (bm_displayColor m) j + 1);;
        draw_text (bm_msg m) (bm_x m) (bm_y m) (bm_font m)))).

Definition drawBackgroundImgs : M W () :=
  s ← gets id;
  for_each (backgroundImg s) (λ i,
    when (bi_enabled i && willAnimate (bi_animation i) (tickers s))
      (for_each (background_passes (bi_displayColor i)) (λ j,
        target_board (background_board (bi_displayColor i) j + 1);;
        draw_image (getImgArtInfo (bi_imgArt i)) (bi_x i) (bi_y i)))).

(** ** The clock *)

Definition modeBasicClockShowTemperature : M W () :=
  target_board 1;;
  r ← ask (dict_get dictionaryTopicTemperature);
  when r.1 (draw_text (snprintf_s MESSAGE_MAX_SIZE (c_str r.2 +:+ " f")) 109 0 font5x4);;
  target_board 2;;
  r ← ask (dict_get dictionaryTopicHumidity);
  when r.1 (draw_text (snprintf_s MESSAGE_MAX_SIZE (c_str r.2 +:+ " %")) 109 6 font5x4).

Definition modeBasicClockSlow : M W () :=
  t ← ask local_time;
  target_board 1;; ht clear;;
  draw_text (clock_time_text t) 0 0 font16x8;;
  draw_text (clock_half_text t) 39 9 font5x4;;
  target_board 2;; ht clear;;
  draw_text (clock_day_text t) 49 0 font7x5;;
  for_each [1; 2] (λ i, target_board i;; draw_text (clock_date_text t) 49 8 font8x4);;
  modeBasicClockShowTemperature.

Definition modeBasicClockShowSeconds : M W () :=
  t ← ask local_time;
  when (tm_sec t =? 0) modeBasicClockSlow;;
  target_board 1;;
  draw_text (clock_seconds_text t) 39 0 font5x4.

(** One arrow of the two: [frame] reads its static, [advance] moves it on. *)
Definition upDownAnimation (topic : string) (board xPos yPos : Z) (frame : Statics → Z)
    (advance : Z → Statics → Statics) : M W () :=
  r ← ask (dict_get topic);
  if negb r.1 then noop
  else if negb (bool_decide (r.2 = dictionaryTopicDirectionUp))
          && negb (bool_decide (r.2 = dictionaryTopicDirectionDown)) then noop
  else
    f ← gets (λ s, frame (statics s));
    let img := getImgArtInfo ((if bool_decide (r.2 = dictionaryTopicDirectionUp)
                               then imgArtUp21 else imgArtDown21) + f) in
    update_statics (advance (Z.rem (f + 1) 4));;
    target_board board;; draw_image img xPos yPos;; ht_send render.

Definition modeBasicClockSDoUpDownAnimationTemperature : M W () :=
  upDownAnimation dictionaryTopicTemperatureDir 1 103 0 temperatureFrame set_temperatureFrame.
Definition modeBasicClockSDoUpDownAnimationHumidity : M W () :=
  upDownAnimation dictionaryTopicHumidityDir 2 103 6 humidityFrame set_humidityFrame.

Definition is_on (r : bool * string) : bool := r.1 && bool_decide (r.2 = dictionaryTopicValueOn).

Definition modeBasicClockSDoCarAnimation : M W () :=
  r1 ← ask (dict_get dictionaryTopicGarageMotion1);
  r2 ← ask (dict_get dictionaryTopicGarageMotion2);
  r3 ← ask (dict_get dictionaryTopicGarageMotion3);
  if negb r1.1 && negb r2.1 && negb r3.1 then noop
  else
    when (is_on r1 || is_on r2 || is_on r3) (update_statics (set_animationCounter 0));;
    counter ← gets (λ s, animationCounter (statics s));
    if animationsAfterOff <=? counter then noop
    else
      update_statics (set_animationCounter (counter + 1));;
      frame ← gets (λ s, carFrame (statics s));
      let car := getImgArtInfo (imgArtCar1 + frame) in
      effect ← gets (λ s, u32 (blinkerEffect (statics s) + 1));
      update_statics (set_blinkerEffect effect);;
      (if effect mod 10 <? 6 then
         update_statics (set_carFrame (Z.lxor frame 1));;
         target_board 1;; draw_image car 86 8;; ht_send render
       else
         let blank := getImgArtInfo imgArtBlank in
         target_board 1;;
         draw_image (mkImage (img_data blank) (img_width car) (img_height car)) 86 8;;
         ht_send render).

Definition modeBasicClockSDoUpDownAnimation : M W () :=
  modeBasicClockSDoUpDownAnimationTemperature;;
  modeBasicClockSDoUpDownAnimationHumidity;;
  modeBasicClockSDoCarAnimation.

Definition updateMotionDetectedPixel (invokeRender : bool) : M W () :=
  detected ← gets (λ s, Motion.currMotionDetected (motion_info (world s)));
  for_each [1; 2] (λ i, target_board i;; set_pixel (OUT_SIZE - 1) (COM_SIZE - 1) detected);;
  when invokeRender (ht_send renderAll).

(** ** The message *)

Definition bump_color_effect : M W () :=
  n ← gets modeMessageDataColorEffect;
  n' ← int (n + 1);
  modify (set_modeMessageDataColorEffect n').

Definition initModeMessageData (currX0 currY : Z) (incrementX0 incrementY0 : bool)
    (confetti0 : Z) (blink0 : bool) (font0 timeout0 : Z) : M W () :=
  update_message (λ m,
    mkModeMessageData EmptyString modeMsgsIndexLast incrementX0 confetti0 false
      displayColorAlternate blink0 true (if incrementY0 then INCREMENT_Y_VALUE else 0)
      forever_int timeout0 font0 currX0 (currY * INCREMENT_Y_SCALE) blink0 (wd m));;
  bump_color_effect.

(** The width of the message, after the font or the message changed. *)
Definition measure_message : M W () :=
  m ← gets modeMessageData;
  w ← text_width_of (msg m) (font m);
  update_message (set_wd w).

Definition modeMessageInit (param : option string) : M W () :=
  m ← gets modeMessageData;
  match param with
  | Some text => update_message (set_msg (snprintf_s MESSAGE_MAX_SIZE text))
  | None =>
      when ((0 <=? modeMsgsIndex m) && (modeMsgsIndex m <? modeMsgsIndexLast))
        (text ← try (modeMessageMsgs !! Z.to_nat (modeMsgsIndex m));
         update_message (set_msg (snprintf_s MESSAGE_MAX_SIZE text)))
  end;;
  measure_message.

(** ** Modes, and how to enter one *)

(** The part of a [Mode] that [changeDisplayMode] reads. *)
Record ModeEntry := mkModeEntry {
  displayMode : Z;
  displayModeStr : string;
  inboxMsgType : InboxMsgType;
  handlerInit : option string → M W ();
}.

Definition entryNothing : ModeEntry :=
  mkModeEntry displayModeNothing "nothing" inboxMsgTypeDisplayModeNothing (λ _, noop).
Definition entryBasicClock : ModeEntry :=
  mkModeEntry displayModeBasicClock "basicClock" inboxMsgTypeDisplayModeBasicClock
    (λ _, modeBasicClockSlow).
Definition entryMessage : ModeEntry :=
  mkModeEntry displayModeMessage "message" inboxMsgTypeDisplayModeMessage modeMessageInit.

Definition modeEntries : list ModeEntry := [entryNothing; entryBasicClock; entryMessage].

Fixpoint find_mode (wanted : Z) (i : Z) (l : list ModeEntry) : option (Z * ModeEntry) :=
  match l with
  | [] => None
  | e :: l => if displayMode e =? wanted then Some (i, e) else find_mode wanted (i + 1) l
  end.

Definition changeDisplayMode (wanted : Z) (param : option string) : M W () :=
  match find_mode wanted 0 modeEntries with
  | None => noop
  | Some (i, e) =>
      modify (set_currModeIndex i);;
      ht clearAll;; ht_send renderAll;;
      handlerInit e param;;
      tell (broadcast_display (inboxMsgType e))
  end.

(** The completed callback, which is null or changes to the clock. *)
Definition completed (m : ModeMessageData) : M W () :=
  when (completedCallback m) (changeDisplayMode displayModeBasicClock None).

(** ** Ticks of the clock mode *)

Definition modeBasicClockFast : M W () :=
  info ← gets (λ s, motion_info (world s));
  if negb (Motion.currMotionDetected info)
     && ((15 <? Motion.lastChangedMin info) || (0 <? Motion.lastChangedHour info))
  then changeDisplayMode displayModeNothing None
  else modeBasicClockShowSeconds;; updateMotionDetectedPixel true.

(** ** Ticks of the message mode *)

Definition message_board (color effect i : Z) : Z :=
  if color =? displayColorGreen then 0
  else if color =? displayColorRed then 1
  else if color =? displayColorYellow then i
  else if effect =? 2 then i else effect.

(** The loop over the boards, with its [continue] and [break]s. *)
Fixpoint draw_message (m : ModeMessageData) (effect : Z) (boards : list Z) : M W () :=
  match boards with
  | [] => noop
  | i :: boards =>
      if blinkBlankInEffect m then noop
      else
        target_board (message_board (displayColor m) effect i + 1);;
        x ← (if incrementX m then int (OUT_SIZE - currX m) else mret (currX m));
        let wantedY := Z.quot (currYFactor m) INCREMENT_Y_SCALE in
        draw_text (msg m) x
          (if incrementY m =? 0 then wantedY else getAdjustedTextY (font m) wantedY) (font m);;
        if (displayColor m =? displayColorAlternate) && (effect =? 2)
        then draw_message m effect boards
        else if negb (displayColor m =? displayColorYellow) then noop
        else draw_message m effect boards
  end.

(** The arguments of [setPixel] are drawn x first; C++ leaves the order open. *)
Definition confetti_pixel : M W () :=
  x ← ask (random_number OUT_SIZE);
  y ← ask (random_number COM_SIZE);
  set_pixel x y true.

Definition draw_confetti (amount : Z) : M W () :=
  when (0 <? amount)
    (for_each [0; 1] (λ boardId,
       target_board (boardId + 1);;
       yy ← ask (random_number amount);
       for_each (seqZ 0 (yy + 1)) (λ _, confetti_pixel))).

(** The text wrapped: the next color, the next font, one repetition less. The
    result tells whether the mode was left. *)
Definition message_wrap : M W bool :=
  update_message (set_currX 0);;
  bump_color_effect;;
  m ← gets modeMessageData;
  when (alternateFont m) (update_message (set_font (getNextFont (font m)));; measure_message);;
  m ← gets modeMessageData;
  if repeats m =? forever_int then mret false
  else
    n ← int (repeats m - 1);
    update_message (set_repeats n);;
    if n <? 0 then
      update_message (set_repeats forever_int);;
      completed m;;
      mret (completedCallback m)
    else mret false.

Definition message_bounce : M W () :=
  m ← gets modeMessageData;
  when (negb (incrementY m =? 0))
    (y ← int (currYFactor m + incrementY m);
     update_message (set_currYFactor y);;
     let maxY := COM_SIZE - getFontHeight (font m) in
     if (incrementY m <? 0) && (y <? 0) then
       update_message (set_incrementY (- incrementY m))
     else if (0 <? incrementY m) && (maxY * INCREMENT_Y_SCALE <=? y) then
       update_message (set_incrementY (- incrementY m));;
       when (negb (incrementX m))
         (bump_color_effect;;
          when (alternateFont m) (update_message (set_font (getNextFont (font m)))))
     else noop).

(** [modeMessageFast] up to the rendering. *)
Definition message_frame : M W () :=
  ht clearAll;;
  s ← gets id;
  draw_message (modeMessageData s) (Z.rem (modeMessageDataColorEffect s) 3) [0; 1];;
  drawBackgroundMessages;;
  drawBackgroundImgs;;
  m ← gets modeMessageData;
  draw_confetti (confetti m);;
  ht_send renderAll.

(** Scrolling, after the rendering; the result tells whether the mode was left. *)
Definition message_scroll : M W bool :=
  m ← gets modeMessageData;
  if incrementX m then
    x ← int (currX m + 1);
    update_message (set_currX x);;
    stop ← int (wd m + OUT_SIZE);
    if stop <=? x then message_wrap else mret false
  else mret false.

Definition modeMessageFast : M W () :=
  message_frame;;
  gone ← message_scroll;
  (if (gone : bool) then noop else message_bounce).

Definition modeMessageCheckBlink : M W () :=
  update_message (λ m,
    if blink m then set_blinkBlankInEffect (negb (blinkBlankInEffect m)) m else m).

Definition modeMessageCheckTimeout : M W () :=
  m ← gets modeMessageData;
  if timeout m =? forever_u32 then noop
  else
    let t := u32 (timeout m - 1) in
    update_message (set_timeout t);;
    if t =? 0 then update_message (set_timeout forever_u32);; completed m else noop.

(** ** Ticks of the empty mode *)

Definition modeNothingCheckMotion : M W () :=
  detected ← gets (λ s, Motion.currMotionDetected (motion_info (world s)));
  if (detected : bool) then changeDisplayMode displayModeBasicClock None
  else
    ht clearAll;;
    st ← gets statics;
    for_each [0; 1] (λ boardId,
      when ((nothing_color st =? displayColorYellow) || (nothing_color st =? boardId))
        (target_board (boardId + 1);; set_pixel (nothing_row st) (nothing_col st) true));;
    ht_send renderAll;;
    update_statics (λ st,
      let color := u8 (nothing_color st + 1) in
      if displayColorYellow <? color then
        let row := nothing_row st + 1 in
        if OUT_SIZE <=? row then
          let col := nothing_col st + 1 in
          set_nothing_row 0
            (set_nothing_col (if COM_SIZE <=? col then 0 else col) (set_nothing_color 0 st))
        else set_nothing_row row (set_nothing_color 0 st)
      else set_nothing_color color st).

(** ** The table of the modes *)

Record Mode := mkMode {
  mode_entry : ModeEntry;
  handlerTickFast : option (M W ());
  handlerTick100ms : option (M W ());
  handlerTick250ms : option (M W ());
  handlerTick500ms : option (M W ());
  handlerTick1Sec : option (M W ());
  handlerTick5Sec : option (M W ());
  handlerTick10Sec : option (M W ());
  handlerTick25Sec : option (M W ());
  handlerTick1Min : option (M W ());
}.

Definition modeNothing : Mode :=
  mkMode entryNothing None None None None (Some modeNothingCheckMotion) None None None None.
Definition modeBasicClock : Mode :=
  mkMode entryBasicClock None None (Some modeBasicClockSDoUpDownAnimation)
    (Some modeBasicClockFast) (Some noop) (Some noop) (Some modeBasicClockSlow) None None.
Definition modeMessage : Mode :=
  mkMode entryMessage (Some modeMessageFast) None (Some modeMessageCheckBlink) None
    (Some modeMessageCheckTimeout) None None None None.

Definition allModes : list Mode := [modeNothing; modeBasicClock; modeMessage].

(** [allModes[currModeIndex]], checked. *)
Definition current_mode : M W Mode :=
  i ← gets currModeIndex;
  try (if 0 <=? i then allModes !! Z.to_nat i else None).

Definition getDisplayMode : M W Z :=
  m ← current_mode; mret (displayMode (mode_entry m)).

Definition getDisplayModeStr : M W string :=
  m ← current_mode; mret (displayModeStr (mode_entry m)).

Definition call_handler (h : Mode → option (M W ())) : M W () :=
  m ← current_mode;
  match h m with Some f => f | None => noop end.

(** ** Brightness *)

Definition updateDim : M W () :=
  lastRoomIsDark ← gets roomIsDark;
  lightValue ← gets (λ s, light_value (world s));
  let currRoomIsDark :=
    if (lastRoomIsDark : bool) then lightValue <? Light.darkRoomThresholdHighWaterMark
    else lightValue <? Light.darkRoomThresholdLowWaterMark in
  if bool_decide (lastRoomIsDark = currRoomIsDark) then noop
  else
    ht_send (λ h, Some (setBrightness (if currRoomIsDark then 1 else 16) h));;
    modify (set_roomIsDark currRoomIsDark);;
    tell (broadcast_display (if currRoomIsDark then inboxMsgTypeDisplayBrightLow
                             else inboxMsgTypeDisplayBrightHigh)).

Definition checkCountMax : Z := 13.

Definition checkHT1632 : M W () :=
  n ← gets (λ s, checkCount (statics s) + 1);
  update_statics (set_checkCount n);;
  mode ← getDisplayMode;
  if (n <? checkCountMax) && negb (mode =? displayModeMessage) then noop
  else ht_send reinit;; update_statics (set_checkCount 0).

(** ** The ticks *)

Definition displayTickFast : M W () :=
  update_tickers (λ t, set_tickerFast (u8 (tickerFast t + 1)) t);; call_handler handlerTickFast.
Definition displayTick100ms : M W () :=
  update_tickers (λ t, set_ticker100ms (u8 (ticker100ms t + 1)) t);; call_handler handlerTick100ms.
Definition displayTick250ms : M W () :=
  update_tickers (λ t, set_ticker250ms (u8 (ticker250ms t + 1)) t);; call_handler handlerTick250ms.
Definition displayTick500ms : M W () :=
  checkHT1632;;
  update_tickers (λ t, set_ticker500ms (u8 (ticker500ms t + 1)) t);; call_handler handlerTick500ms.
Definition displayTick1sec : M W () :=
  update_tickers (λ t, set_ticker1sec (u8 (ticker1sec t + 1)) t);;
  call_handler handlerTick1Sec;; updateDim.
Definition displayTick5sec : M W () :=
  update_tickers (λ t, set_ticker5sec (u8 (ticker5sec t + 1)) t);; call_handler handlerTick5Sec.
Definition displayTick10sec : M W () :=
  update_tickers (λ t, set_ticker10sec (u8 (ticker10sec t + 1)) t);; call_handler handlerTick10Sec.
Definition displayTick25sec : M W () := call_handler handlerTick25Sec.
Definition displayTick1min : M W () := call_handler handlerTick1Min.

(** ** Requests *)

(** [strncasecmp(key, name, strlen(key)) == 0]: any prefix of the name, in
    either case. *)
Definition is_param (k name : string) : bool :=
  strncase_eq (String.length (c_str k)) (c_str k) name.

Definition msgDictPrefix : string := "#dict_".
Definition msgDictPrefixLen : nat := 6.

Definition lookupDictValue (key : string) : M W string :=
  r ← ask (dict_get key); mret r.2.

Definition set_msg_data (f : ModeMessageData → ModeMessageData) : M W () := update_message f.

(** The text of a [msg] parameter: a dictionary entry, or the value itself. *)
Definition message_text (size : nat) (value : string) : M W string :=
  if strncase_eq msgDictPrefixLen value msgDictPrefix
     && negb (string_empty (string_drop msgDictPrefixLen value))
  then dictValue ← lookupDictValue (string_drop msgDictPrefixLen value);
       mret (snprintf_s size dictValue)
  else mret (snprintf_s size value).

(** The [msg] parameter of a message request. *)
Definition handle_msg (value : string) : M W () :=
  if strncase_eq 7 value "#cookie" then
    i ← (if string_empty (string_drop 7 value)
         then ask (random_number modeMsgsIndexLast)
         else mret (strtoul (string_drop 7 value) 10));
    set_msg_data (set_modeMsgsIndex (if i =? modeMsgsIndexBoot then modeMsgsIndexFortunate1 else i))
  else
    text ← message_text MESSAGE_MAX_SIZE value;
    set_msg_data (set_msg text).

(** One parameter of a message request. *)
Definition handle_msg_param (kvp : string * string) : M W () :=
  let '(key, v) := kvp in
  let value := c_str v in
  if is_param key "msg" then handle_msg value
  else if is_param key "x" then set_msg_data (set_currX (s32 (strtoul value 10)))
  else if is_param key "y" then
    set_msg_data (set_currYFactor (s32 (u32 (strtoul value 10 * INCREMENT_Y_SCALE))))
  else if is_param key "font" then set_msg_data (set_font (strtoul value 10))
  else if is_param key "alternateFont" then
    set_msg_data (set_alternateFont (parseBooleanValue (Some value)))
  else if is_param key "confetti" then set_msg_data (set_confetti (s32 (strtoul value 10)))
  else if is_param key "bounce" then
    set_msg_data (set_incrementY (if parseBooleanValue (Some value) then INCREMENT_Y_VALUE else 0))
  else if is_param key "noScroll" then
    set_msg_data (set_incrementX (negb (parseBooleanValue (Some value))))
  else if is_param key "blink" then set_msg_data (set_blink (parseBooleanValue (Some value)))
  else if is_param key "color" then set_msg_data (set_displayColor (strtoul value 10))
  else if is_param key "repeats" then set_msg_data (set_repeats (s32 (strtoul value 10)))
  else if is_param key "timeout" then set_msg_data (set_timeout (strtoul value 10))
  else noop.

Definition doHandleMsgModePost (postValues : StringMap) : M W () :=
  initModeMessageData 0 5 true false 0 false font5x4 60;;
  for_each postValues handle_msg_param;;
  changeDisplayMode displayModeMessage None.

(** The index parameter of a background request. *)
Definition background_index (count : Z) (value : string) : Z :=
  let i := s32 (strtoul value 10) in if (i <? 0) || (count <=? i) then 0 else i.

(** One parameter of a background image request: the index and the image. *)
Definition handle_img_param (kvp : string * string) (st : Z * BackgroundImg)
    : M W (Z * BackgroundImg) :=
  let '(key, v) := kvp in
  let '(index, img) := st in
  let value := c_str v in
  let n := strtoul value 10 in
  if is_param key "index" then mret (background_index BACKGROUND_IMG_COUNT value, img)
  else if is_param key "enabled" then
    mret (index, set_bi_enabled (parseBooleanValue (Some value)) img)
  else if is_param key "clearAll" then
    when (parseBooleanValue (Some value))
      (modify (λ s, set_backgroundImg (initBackgroundImg <$> backgroundImg s) s));;
    mret (index, img)
  else if is_param key "imgArt" then
    mret (index, set_bi_imgArt (if imgArtLast <=? n then 0 else n) img)
  else if is_param key "x" then mret (index, set_bi_x (s32 n) img)
  else if is_param key "y" then mret (index, set_bi_y (s32 n) img)
  else if is_param key "color" then mret (index, set_bi_displayColor n img)
  else if is_param key "animationStep" then
    mret (index, set_bi_animation (set_animationStep n (bi_animation img)) img)
  else if is_param key "animationPhase" then
    mret (index, set_bi_animation (set_animationStepPhase (u8 n) (bi_animation img)) img)
  else if is_param key "animationPhaseValue" then
    mret (index, set_bi_animation (set_animationStepPhaseValue (u8 n) (bi_animation img)) img)
  else mret (index, img).

(** One parameter of a background message request. *)
Definition handle_bgmsg_param (kvp : string * string) (st : Z * BackgroundMessage)
    : M W (Z * BackgroundMessage) :=
  let '(key, v) := kvp in
  let '(index, m) := st in
  let value := c_str v in
  let n := strtoul value 10 in
  if is_param key "index" then mret (background_index BACKGROUND_MESSAGE_COUNT value, m)
  else if is_param key "msg" then
    text ← message_text BACKGROUND_MESSAGE_MSG_SIZE value; mret (index, set_bm_msg text m)
  else if is_param key "enabled" then
    mret (index, set_bm_enabled (parseBooleanValue (Some value)) m)
  else if is_param key "clearAll" then
    when (parseBooleanValue (Some value))
      (modify (λ s, set_backgroundMessage (initBackgroundMessage <$> backgroundMessage s) s));;
    mret (index, m)
  else if is_param key "font" then mret (index, set_bm_font n m)
  else if is_param key "x" then mret (index, set_bm_x (s32 n) m)
  else if is_param key "y" then mret (index, set_bm_y (s32 n) m)
  else if is_param key "color" then mret (index, set_bm_displayColor n m)
  else if is_param key "animationStep" then
    mret (index, set_bm_animation (set_animationStep n (bm_animation m)) m)
  else if is_param key "animationPhase" then
    mret (index, set_bm_animation (set_animationStepPhase (u8 n) (bm_animation m)) m)
  else if is_param key "animationPhaseValue" then
    mret (index, set_bm_animation (set_animationStepPhaseValue (u8 n) (bm_animation m)) m)
  else mret (index, m).

(** The loop over the parameters, with a value passed along. *)
Fixpoint for_params {A} (l : StringMap) (body : string * string → A → M W A) (a : A) : M W A :=
  match l with
  | [] => mret a
  | kvp :: l => a ← body kvp a; for_params l body a
  end.

Definition doHandleImgBackgroundPost (postValues : StringMap) : M W () :=
  r ← for_params postValues handle_img_param (0, zero_BackgroundImg);
  modify (λ s, set_backgroundImg (<[Z.to_nat r.1 := r.2]> (backgroundImg s)) s).

Definition doHandleMsgBackgroundPost (postValues : StringMap) : M W () :=
  r ← for_params postValues handle_bgmsg_param (0, zero_BackgroundMessage);
  modify (λ s, set_backgroundMessage (<[Z.to_nat r.1 := r.2]> (backgroundMessage s)) s).

(** ** Construction and destruction *)

Definition initDisplay : M W () :=
  modify (λ s, set_backgroundMessage (initBackgroundMessage <$> backgroundMessage s) s);;
  modify (λ s, set_backgroundImg (initBackgroundImg <$> backgroundImg s) s);;
  initModeMessageData 1 5 false false 1 false font5x4 5;;
  update_message (set_modeMsgsIndex modeMsgsIndexBoot);;
  update_message (set_displayColor displayColorYellow);;
  changeDisplayMode displayModeMessage None.

Definition DisplayInternal_delete : M W () :=
  ht clearAll;; ht_send renderAll;; ht_send (λ h, Some (blank h, h)).
End handlers.
