(* ===== verification/Display.v ===== *)
(** * The display thread: src/src/display.cpp

    The surroundings the thread runs in, as the implementation of the interface
    [DisplayWorld], the requests other threads queue for it, and its loop. *)
From S2P Require Import Prelude StdMap CLib CommonUtils Inbox Sensors Dictionary Ht1632 DisplayTypes.
From S2P Require Import DisplayState DisplayInternal.

Definition pinCS : Z := 6.
Definition pinWR : Z := 13.
Definition pinDATA : Z := 19.
Definition pinCLK : Z := 26.

(** The pins of the four lines. *)
Definition display_pins (l : line) : Z :=
  match l with CS => pinCS | WR => pinWR | DATA => pinDATA | CLK => pinCLK end.

(** ** The surroundings *)

(** The singletons the component binds: the dictionary, the sensors and the
    inboxes; what the clock and the random engine answer, one call after
    another, and how often they were asked. *)
Record Surroundings (T : Type) := mkSurroundings {
  sur_dictionary : Dictionary T;
  sur_motion : Motion.MotionInfo;
  sur_lightValues : list Z;
  sur_inboxes : InboxRegistry;
  sur_clock : nat → tm;
  sur_reads : nat;
  sur_engine : nat → Z;
  sur_drawn : nat;
}.
Arguments mkSurroundings {T}.
Arguments sur_dictionary {T}.
Arguments sur_motion {T}.
Arguments sur_lightValues {T}.
Arguments sur_inboxes {T}.
Arguments sur_clock {T}.
Arguments sur_reads {T}.
Arguments sur_engine {T}.
Arguments sur_drawn {T}.

Section surroundings.
Context {T : Type} `{TimerService T}.
Implicit Types w : Surroundings T.

Definition set_sur_dictionary (d : Dictionary T) w : Surroundings T :=
  mkSurroundings d (sur_motion w) (sur_lightValues w) (sur_inboxes w) (sur_clock w) (sur_reads w)
    (sur_engine w) (sur_drawn w).
Definition set_sur_inboxes (r : InboxRegistry) w : Surroundings T :=
  mkSurroundings (sur_dictionary w) (sur_motion w) (sur_lightValues w) r (sur_clock w) (sur_reads w)
    (sur_engine w) (sur_drawn w).
Definition count_read w : Surroundings T :=
  mkSurroundings (sur_dictionary w) (sur_motion w) (sur_lightValues w) (sur_inboxes w)
    (sur_clock w) (S (sur_reads w)) (sur_engine w) (sur_drawn w).
Definition count_draw w : Surroundings T :=
  mkSurroundings (sur_dictionary w) (sur_motion w) (sur_lightValues w) (sur_inboxes w)
    (sur_clock w) (sur_reads w) (sur_engine w) (S (sur_drawn w)).

Definition sur_get (key : string) w : (bool * string) * Surroundings T :=
  let '(found, value, d) := get key (sur_dictionary w) in
  ((found, value), set_sur_dictionary d w).

Definition sur_random (bound : Z) w : Z * Surroundings T :=
  (getRandomNumber (sur_engine w (sur_drawn w)) bound, count_draw w).

Lemma sur_random_bound n w : 0 < n → 0 <= (sur_random n w).1 < n.
Proof. intros Hn. by apply getRandomNumber_bound. Qed.

#[export] Instance Surroundings_world : DisplayWorld (Surroundings T) := {|
  dict_get := sur_get;
  motion_info w := sur_motion w;
  light_value w := Light.getLightValue (sur_lightValues w);
  broadcast_display t w :=
    set_sur_inboxes (broadcast (InboxMsg_of t) threadIdDisplay (sur_inboxes w)) w;
  local_time w := (sur_clock w (sur_reads w), count_read w);
  random_number := sur_random;
  random_bound := sur_random_bound;
|}.
End surroundings.

(** ** The thread *)
Section thread.
Context {W : Type} `{DisplayWorld W}.

Inductive DisplayTodoType :=
  | displayTodoTypeHandleMsgModePost
  | displayTodoTypeHandleImgBackgroundPost
  | displayTodoTypeHandleMsgBackgroundPost.

(** The queue, and the component while the thread runs. *)
Record Display := mkDisplayThread {
  displayTodos : list (DisplayTodoType * StringMap);
  internal : option (DisplayState W);
}.

Definition Display_new : Display := mkDisplayThread [] None.

Definition enqueueDisplayTodo (t : DisplayTodoType) (p : StringMap) (d : Display) : Display :=
  mkDisplayThread (displayTodos d ++ [(t, p)]) (internal d).
Definition enqueueMsgModePost := enqueueDisplayTodo displayTodoTypeHandleMsgModePost.
Definition enqueueImgBackgroundPost := enqueueDisplayTodo displayTodoTypeHandleImgBackgroundPost.
Definition enqueueMsgBackgroundPost := enqueueDisplayTodo displayTodoTypeHandleMsgBackgroundPost.

(** [Display::shutdown] drops what is queued. *)
Definition Display_shutdown (d : Display) : option Display := None.

Definition getInternalDisplayMode (d : Display) : option string :=
  match internal d with
  | None => Some "starting"
  | Some s => fst <$> getDisplayModeStr s
  end.

Definition getInternalDisplayDimmed (d : Display) : bool :=
  match internal d with None => false | Some s => roomIsDark s end.

Definition dequeueDisplayTodo (d : Display) : option (DisplayTodoType * StringMap) * Display :=
  match displayTodos d with
  | [] => (None, d)
  | t :: rest => (Some t, mkDisplayThread rest (internal d))
  end.

Definition handle_todo (todo : DisplayTodoType * StringMap) : M W () :=
  match todo.1 with
  | displayTodoTypeHandleMsgModePost => doHandleMsgModePost todo.2
  | displayTodoTypeHandleImgBackgroundPost => doHandleImgBackgroundPost todo.2
  | displayTodoTypeHandleMsgBackgroundPost => doHandleMsgBackgroundPost todo.2
  end.

(** Run a handler on the component. *)
Definition on_internal (m : M W ()) (d : Display) : option Display :=
  match internal d with
  | None => None
  | Some s => '(_, s') ← m s; Some (mkDisplayThread (displayTodos d) (Some s'))
  end.

Definition checkTodoList (d : Display) : option Display :=
  match dequeueDisplayTodo d with
  | (None, d) => Some d
  | (Some todo, d) => on_internal (handle_todo todo) d
  end.

(** The slower timers, in the order the loop asks them. *)
Definition slow_ticks : list (M W ()) :=
  [displayTick100ms; displayTick250ms; displayTick500ms; displayTick1sec; displayTick5sec;
   displayTick10sec; displayTick25sec; displayTick1min].

(** What an iteration runs after the todo list, given which timers expired. *)
Definition iteration_ticks (expired : list bool) : M W () :=
  displayTickFast;;
  for_each (zip expired slow_ticks) (λ e, when e.1 e.2).

(** One iteration of the loop, given the message the inbox had. The outer
    [None] is an undefined step, the inner one the end of the loop. *)
Definition iteration (msg : option InboxMsg) (expired : list bool) (d : Display)
    : option (option Display) :=
  match msg with
  | Some (mkInboxMsg inboxMsgTypeTerminate _) => Some None
  | _ =>
      d ← checkTodoList d;
      d ← on_internal (iteration_ticks expired) d;
      Some (Some d)
  end.

(** What precedes the loop: the driver is set up and the component built. *)
Definition thread_start (burst : option (line → Z)) (garbage : list Z) (w : W) (d : Display)
    : option Display :=
  '(out, h) ← begin display_pins burst garbage HT1632_new;
  '(_, s) ← initDisplay (set_sent out (DisplayState_init h w));
  Some (mkDisplayThread (displayTodos d) (Some s)).

(** What follows it. *)
Definition thread_exit (d : Display) : option Display :=
  d ← on_internal DisplayInternal_delete d;
  Some (mkDisplayThread (displayTodos d) None).
End thread.
Arguments Display W : clear implicits.
