(* ===== verification/DisplayProofs.v ===== *)
(** * What the display's handlers keep, and what they do

    Drawing is separated from the rest: a handler that only draws changes the
    driver and asks the surroundings, and nothing else ([draws]). The invariant
    [display_ok] says that the state stays inside of the program's tables,
    buffers and integers; every tick and every request keeps it. *)
From S2P Require Import Prelude StdMap CLib CommonUtils Inbox Sensors Dictionary Ht1632 Fonts DisplayTypes.
From S2P Require Import DisplayState DisplayInternal.

Section draws.
Context {W : Type} `{DisplayWorld W}.

(** ** Drawing *)

Definition drawn_to (h : HT1632) (out : list ht_event) (w : W) (s : DisplayState W) : DisplayState W :=
  set_world w (set_sent out (set_matrix h s)).

(** [m] succeeds on a driver with its buffers, keeps the buffers, and changes
    the driver, what was sent and the surroundings only; its result has [Q]. *)
Definition draws {A} (m : M W A) (Q : A → Prop) : Prop := ∀ s,
  mem_ok (matrix s) → ∃ a h out w, m s = Some (a, drawn_to h out w s) ∧ mem_ok h ∧ Q a.

Definition any {A} (_ : A) : Prop := True.

Lemma drawn_to_same s : drawn_to (matrix s) (sent s) (world s) s = s.
Proof. by destruct s. Qed.

Lemma draws_ret {A} (a : A) (Q : A → Prop) : Q a → draws (mret a) Q.
Proof.
  intros Ha s Hm. exists a, (matrix s), (sent s), (world s). by rewrite drawn_to_same.
Qed.

Lemma draws_noop : draws noop any.
Proof. by apply draws_ret. Qed.

Lemma draws_bind {A B} (m : M W A) (k : A → M W B) R Q :
  draws m R → (∀ a, R a → draws (k a) Q) → draws (m ≫= k) Q.
Proof.
  intros Hm Hk s Hs. destruct (Hm s Hs) as (a & h & out & w & E & Hh & Ha).
  destruct (Hk a Ha (drawn_to h out w s) Hh) as (b & h' & out' & w' & E' & Hh' & Hb).
  exists b, h', out', w'. split; [|done]. unfold mbind, M_bind. rewrite E, E'. by destruct s.
Qed.

Lemma draws_seq {A B} (m : M W A) (k : M W B) Q :
  draws m any → draws k Q → draws (m ≫= λ _, k) Q.
Proof. intros Hm Hk. eapply draws_bind; [done|]. done. Qed.

Lemma draws_any {A} (m : M W A) Q : draws m Q → draws m any.
Proof.
  intros Hm s Hs. destruct (Hm s Hs) as (a & h & out & w & E & Hh & _).
  by exists a, h, out, w.
Qed.

(** Reading the state: the result is what a state has whose driver may differ. *)
Lemma draws_gets {A} (f : DisplayState W → A) : draws (gets f) any.
Proof. intros s Hs. exists (f s), (matrix s), (sent s), (world s). by rewrite drawn_to_same. Qed.

Lemma draws_ht f : (∀ h, mem_ok h → mem_ok (f h)) → draws (ht f) any.
Proof.
  intros Hf s Hs. exists tt, (f (matrix s)), (sent s), (world s).
  split; [by destruct s|]. by split; [apply Hf|].
Qed.

Lemma draws_ht_try f : (∀ h, mem_ok h → ∃ h', f h = Some h' ∧ mem_ok h') → draws (ht_try f) any.
Proof.
  intros Hf s Hs. destruct (Hf _ Hs) as (h' & E & Hh). exists tt, h', (sent s), (world s).
  unfold ht_try. rewrite E. split; [by destruct s|done].
Qed.

Lemma draws_ht_send f :
  (∀ h, mem_ok h → ∃ out h', f h = Some (out, h') ∧ mem_ok h') → draws (ht_send f) any.
Proof.
  intros Hf s Hs. destruct (Hf _ Hs) as (out & h' & E & Hh).
  exists tt, h', (sent s ++ out), (world s). unfold ht_send. rewrite E.
  split; [by destruct s|done].
Qed.

Lemma draws_ask {A} (f : W → A * W) (Q : A → Prop) : (∀ w, Q (f w).1) → draws (ask f) Q.
Proof.
  intros Hf s Hs. specialize (Hf (world s)). unfold ask. destruct (f (world s)) as [a w].
  exists a, (matrix s), (sent s), w. split; [by destruct s|done].
Qed.

Lemma draws_tell f : draws (tell f) any.
Proof.
  intros s Hs. exists tt, (matrix s), (sent s), (f (world s)). split; [by destruct s|done].
Qed.

Lemma draws_when b m : (b = true → draws m any) → draws (when b m) any.
Proof. intros Hm. destruct b; [by apply Hm|apply draws_noop]. Qed.

Lemma draws_for_each {A} (l : list A) body :
  (∀ a, a ∈ l → draws (body a) any) → draws (for_each l body) any.
Proof.
  induction l as [|a l IH]; intros Hb; cbn [for_each]; [apply draws_noop|].
  apply draws_seq; [apply Hb, list_elem_of_here|].
  apply IH. intros b Hin. by apply Hb, list_elem_of_further.
Qed.

Lemma draws_try {A} (o : option A) (Q : A → Prop) :
  (∃ a, o = Some a ∧ Q a) → draws (try o) Q.
Proof.
  intros (a & -> & Ha) s Hs. exists a, (matrix s), (sent s), (world s).
  by rewrite drawn_to_same.
Qed.

Lemma draws_int z : - 2 ^ 31 <= z < 2 ^ 31 → draws (int z) any.
Proof.
  intros Hz s Hs. exists z, (matrix s), (sent s), (world s). unfold int.
  rewrite (proj2 (Z.leb_le _ _)), (proj2 (Z.ltb_lt _ _)) by lia. by rewrite drawn_to_same.
Qed.

(** What a drawing handler leaves alone may be used by what follows it. *)
Lemma draws_triple {A} (m : M W A) Q (P : DisplayState W → Prop) :
  draws m Q → (∀ s, P s → mem_ok (matrix s)) →
  (∀ s h out w, P s → mem_ok h → P (drawn_to h out w s)) →
  triple P m (λ a s, Q a ∧ P s).
Proof.
  intros Hm Hok Hst s Hs. destruct (Hm s (Hok s Hs)) as (a & h & out & w & E & Hh & Ha).
  exists a, (drawn_to h out w s). split; [done|]. split; [done|by apply Hst].
Qed.

(** ** The primitive calls *)

Lemma target_board_draws n : draws (target_board n) any.
Proof. apply draws_ht. intros h. apply drawTarget_ok. Qed.

Lemma draw_text_draws text x y font : draws (draw_text text x y font) any.
Proof.
  apply draws_ht_try. intros h Hh. unfold drawText. destruct (_ || _); [eauto|].
  destruct (draw_chars_safe (font_of font) 1 (c_str text) x y h (font_of_ok font) Hh)
    as (h' & E & Hh' & _). eauto.
Qed.

Lemma draw_image_draws n x y : draws (draw_image (getImgArtInfo n) x y) any.
Proof.
  apply draws_ht_try. intros h Hh.
  destruct (drawImage_safe _ _ _ x y 0 h (getImgArtInfo_ok n) Hh) as (h' & E & Hh' & _). eauto.
Qed.

Lemma set_pixel_draws x y on : draws (set_pixel x y on) any.
Proof. apply draws_ht_try. intros h. apply setPixel_ok. Qed.

Lemma ht_clear_draws : draws (ht clear) any.
Proof. apply draws_ht, matrix_clear_ok. Qed.
Lemma ht_clearAll_draws : draws (ht clearAll) any.
Proof. apply draws_ht, clearAll_ok. Qed.
Lemma ht_render_draws : draws (ht_send render) any.
Proof. apply draws_ht_send, render_safe. Qed.
Lemma ht_renderAll_draws : draws (ht_send renderAll) any.
Proof. apply draws_ht_send, renderAll_safe. Qed.
Lemma ht_reinit_draws : draws (ht_send reinit) any.
Proof. apply draws_ht_send, reinit_safe. Qed.
Lemma ask_draws {A} (f : W → A * W) : draws (ask f) any.
Proof. by apply draws_ask. Qed.
End draws.

Create HintDb display.
#[export] Hint Resolve draws_noop draws_tell draws_gets target_board_draws draw_text_draws
  draw_image_draws set_pixel_draws ht_clear_draws ht_clearAll_draws ht_render_draws
  ht_renderAll_draws ht_reinit_draws ask_draws : display.

(** Peels the sequencing off a handler that draws. *)
Ltac draw_step :=
  match goal with
  | |- draws (_ ≫= _) any =>
      apply (draws_bind _ _ any); [|intros ? _]
  | |- draws (when _ _) any => apply draws_when; intros
  | |- draws (for_each _ _) any => apply draws_for_each; intros
  | |- draws (if ?b then _ else _) any => destruct b
  | |- draws _ any => solve [eauto with display]
  end.
Ltac draw_all := repeat draw_step.

Section drawing_handlers.
Context {W : Type} `{DisplayWorld W}.

Lemma drawBackgroundMessages_draws : draws (W:=W) drawBackgroundMessages any.
Proof.
  unfold drawBackgroundMessages. eapply draws_bind; [apply draws_gets|]. intros s _. draw_all.
Qed.

Lemma drawBackgroundImgs_draws : draws (W:=W) drawBackgroundImgs any.
Proof.
  unfold drawBackgroundImgs. eapply draws_bind; [apply draws_gets|]. intros s _. draw_all.
Qed.

Lemma showTemperature_draws : draws (W:=W) modeBasicClockShowTemperature any.
Proof.
  unfold modeBasicClockShowTemperature. draw_all.
Qed.

Lemma modeBasicClockSlow_draws : draws (W:=W) modeBasicClockSlow any.
Proof. unfold modeBasicClockSlow. draw_all. apply showTemperature_draws. Qed.

Lemma showSeconds_draws : draws (W:=W) modeBasicClockShowSeconds any.
Proof. unfold modeBasicClockShowSeconds. draw_all. apply modeBasicClockSlow_draws. Qed.

Lemma motionPixel_draws b : draws (W:=W) (updateMotionDetectedPixel b) any.
Proof. unfold updateMotionDetectedPixel. draw_all. Qed.

Lemma draw_message_draws m effect boards :
  (incrementX m = true → - 2 ^ 31 <= OUT_SIZE - currX m < 2 ^ 31) →
  draws (W:=W) (draw_message m effect boards) any.
Proof.
  intros Hx. induction boards as [|i boards IH]; cbn [draw_message]; [apply draws_noop|].
  destruct (blinkBlankInEffect m); [apply draws_noop|].
  apply draws_seq; [apply target_board_draws|]. eapply (draws_bind _ _ any).
  { destruct (incrementX m); [by apply draws_int, Hx|by apply draws_ret]. }
  intros x _. apply draws_seq; [apply draw_text_draws|].
  destruct (_ && _); [done|]. destruct (negb _); [apply draws_noop|done].
Qed.

Lemma confetti_draws n : draws (W:=W) (draw_confetti n) any.
Proof. unfold draw_confetti, confetti_pixel. draw_all. Qed.

Lemma carAnimation_blank n :
  let blank := getImgArtInfo imgArtBlank in
  n = 0 ∨ n = 1 →
  image_ok (img_data blank) (img_width (getImgArtInfo (imgArtCar1 + n)))
    (img_height (getImgArtInfo (imgArtCar1 + n))) 0.
Proof.
  intros blank [-> | ->]; unfold image_ok; (split_and!; [by vm_compute..|]);
    cbv [blank]; repeat (constructor; [lia|]); constructor.
Qed.
End drawing_handlers.

#[export] Hint Resolve drawBackgroundMessages_draws drawBackgroundImgs_draws
  modeBasicClockSlow_draws showSeconds_draws motionPixel_draws confetti_draws : display.

(** ** The invariant *)

(** The message's position, speed and counters stay inside of [int]. *)
Record message_core (m : ModeMessageData) : Prop := {
  mc_msg : Z.of_nat (String.length (msg m)) < 4096;
  mc_wd : -1 <= wd m <= 100000;
  mc_repeats : - 2 ^ 31 < repeats m < 2 ^ 31;
  mc_speed : incrementY m = -800 ∨ incrementY m = 0 ∨ incrementY m = 800;
  mc_up : 0 < incrementY m → - 2 ^ 31 <= currYFactor m < 2 ^ 31 - 800;
  mc_down : incrementY m < 0 → - 2 ^ 31 + 800 <= currYFactor m < 2 ^ 31;
}.

Definition scroll_ok (m : ModeMessageData) : Prop :=
  incrementX m = true → 128 - 2 ^ 31 < currX m <= 2 ^ 31 - 2.

Record statics_ok (st : Statics) : Prop := {
  so_row : 0 <= nothing_row st < OUT_SIZE;
  so_col : 0 <= nothing_col st < COM_SIZE;
  so_color : 0 <= nothing_color st <= 2;
  so_temperature : 0 <= temperatureFrame st < 4;
  so_humidity : 0 <= humidityFrame st < 4;
  so_car : carFrame st = 0 ∨ carFrame st = 1;
  so_counter : 0 <= animationCounter st <= animationsAfterOff;
  so_check : 0 <= checkCount st < checkCountMax;
}.

(** [n] bounds how often the color effect was advanced. *)
Record base_ok {W} (n : Z) (s : DisplayState W) : Prop := {
  bo_mem : mem_ok (matrix s);
  bo_mode : 0 <= currModeIndex s < 3;
  bo_effect : 0 <= modeMessageDataColorEffect s <= n;
  bo_statics : statics_ok (statics s);
  bo_messages : length (backgroundMessage s) = 100%nat ∧
    Forall (λ m, Z.of_nat (String.length (bm_msg m)) < 120) (backgroundMessage s);
  bo_images : length (backgroundImg s) = 100%nat;
  bo_message : message_core (modeMessageData s);
}.

Definition display_ok {W} (n : Z) (s : DisplayState W) : Prop :=
  base_ok n s ∧ scroll_ok (modeMessageData s).

Lemma message_fits text : Z.of_nat (String.length (snprintf_s MESSAGE_MAX_SIZE text)) < 4096.
Proof. apply (inj_lt _ 4096), snprintf_s_length. done. Qed.

Lemma background_fits text :
  Z.of_nat (String.length (snprintf_s BACKGROUND_MESSAGE_MSG_SIZE text)) < 120.
Proof. apply (inj_lt _ 120), snprintf_s_length. done. Qed.

#[local] Opaque modeMessageMsgs MESSAGE_MAX_SIZE BACKGROUND_MESSAGE_MSG_SIZE.

Section keeping.
Context {W : Type} `{DisplayWorld W}.
Implicit Types s : DisplayState W.

Lemma base_ok_drawn n s h out w : base_ok n s → mem_ok h → base_ok n (drawn_to h out w s).
Proof. intros [] Hh. by constructor. Qed.

Lemma base_ok_weaken n n' s : base_ok n s → n <= n' → base_ok n' s.
Proof. intros [? ? [] ? ? ? ?] Hn. constructor; auto with lia. Qed.

Lemma base_ok_message n s m : base_ok n s → message_core m → base_ok n (set_modeMessageData m s).
Proof. intros [] Hm. by constructor. Qed.

Lemma base_ok_statics n s st : base_ok n s → statics_ok st → base_ok n (set_statics st s).
Proof. intros [] Hm. by constructor. Qed.

(** An invariant that drawing does not touch. *)
Definition steady (P : DisplayState W → Prop) : Prop :=
  (∀ s, P s → mem_ok (matrix s)) ∧
  (∀ s h out w, P s → mem_ok h → P (drawn_to h out w s)).

Lemma steady_display_ok n : steady (display_ok n).
Proof.
  split; [by intros s [[] _]|]. intros s h out w [Hb Hx] Hh.
  split; [by apply base_ok_drawn|done].
Qed.

Lemma steady_base_ok n : steady (base_ok n).
Proof. split; [by intros s []|]. intros s h out w Hb Hh. by apply base_ok_drawn. Qed.

(** More about the parts that drawing does not touch. *)
Lemma steady_and (P Q : DisplayState W → Prop) :
  steady P → (∀ s h out w, Q s → Q (drawn_to h out w s)) → steady (λ s, P s ∧ Q s).
Proof.
  intros [H1 H2] HQ. split; [naive_solver|]. intros s h out w [HP Hq] Hh.
  split; [by apply H2|by apply HQ].
Qed.

Lemma draws_keep {A} (m : M W A) P : draws m any → steady P → triple P m (λ _, P).
Proof.
  intros Hm [H1 H2]. eapply triple_weaken; [by apply (draws_triple m any P)|done|naive_solver].
Qed.

(** Reading a part of the state, then going on. *)
Lemma triple_bind_gets {A B} P (f : DisplayState W → A) (k : A → M W B) Q :
  (∀ s0, P s0 → triple (λ s, s = s0) (k (f s0)) Q) → triple P (gets f ≫= k) Q.
Proof.
  intros Hk s Hs. destruct (Hk s Hs s eq_refl) as (b & s' & E & Hq). by exists b, s'.
Qed.

Lemma triple_at {A} P (m : M W A) Q s0 : triple P m Q → P s0 → triple (λ s, s = s0) m Q.
Proof. intros Hm Hs s ->. by apply Hm. Qed.

Lemma triple_seq {A B} P (m : M W A) R (k : M W B) Q :
  triple P m (λ _, R) → triple R k Q → triple P (m ≫= λ _, k) Q.
Proof. intros Hm Hk. eapply triple_bind; [done|]. done. Qed.

Lemma triple_noop P : triple (W:=W) P noop (λ _, P).
Proof. by apply triple_ret. Qed.

Lemma triple_int P z (Q : Z → DisplayState W → Prop) :
  - 2 ^ 31 <= z < 2 ^ 31 → (∀ s, P s → Q z s) → triple P (int z) Q.
Proof.
  intros Hz HQ s Hs. exists z, s. unfold int.
  rewrite (proj2 (Z.leb_le _ _)), (proj2 (Z.ltb_lt _ _)) by lia. split; [done|by apply HQ].
Qed.

(** ** The message mode keeps it *)

Lemma c_str_length text : (String.length (c_str text) <= String.length text)%nat.
Proof. induction text as [|c t IH]; simpl; [done|]. destruct (byte c =? 0); simpl; lia. Qed.

Lemma shown_length text :
  (length (omap glyph (String.list_ascii_of_string (c_str text))) <= String.length text)%nat.
Proof.
  etrans; [|apply c_str_length]. induction (c_str text) as [|c t IH]; [done|].
  cbn [String.list_ascii_of_string omap list_omap String.length].
  destruct (glyph c); simpl; lia.
Qed.

Lemma text_width_range f text :
  font_ok f = true → forallb (λ w, w <? 20) (font_width f) = true →
  Z.of_nat (String.length text) < 4096 →
  ∃ w, getTextWidth text (font_width f) 1 = Some w ∧ -1 <= w <= 100000.
Proof.
  intros Hf Hw Hl. unfold getTextWidth. rewrite (text_width_spec f) by done.
  eexists; split; [done|]. unfold shown.
  pose proof (shown_length text) as Hn.
  assert (Forall (λ g, 0 <= width_of f g < 20)
    (omap glyph (String.list_ascii_of_string (c_str text)))) as Hr.
  { apply Forall_forall. intros g Hg. apply list_elem_of_omap in Hg as (c & _ & Hg).
    destruct (font_ok_glyph f g Hf (glyph_range _ _ Hg)) as (w & E & (Hw0 & _) & _).
    unfold width_of. rewrite E. simpl. split; [done|].
    unfold access in E. destruct (0 <=? g); [|done].
    rewrite forallb_forall in Hw. apply Z.ltb_lt, Hw, list_elem_of_In.
    by eapply list_elem_of_lookup_2. }
  revert Hn Hr. generalize (omap glyph (String.list_ascii_of_string (c_str text))). intros l Hn Hr.
  assert (0 <= foldr (λ g n, width_of f g + 1 + n) 0 l <= 20 * Z.of_nat (length l)); [|lia].
  clear Hn Hl. induction Hr as [|g l Hg _ IH]; cbn [foldr length]; lia.
Qed.

Lemma font_widths font : forallb (λ w, w <? 20) (font_width (font_of font)) = true.
Proof. unfold font_of. repeat case_match; by vm_compute. Qed.


Definition message_at (P : ModeMessageData → Prop) s : Prop := P (modeMessageData s).

(** [measure_message] changes the width only. *)
Lemma measure_message_run s :
  base_ok 0 s ∨ message_core (modeMessageData s) →
  ∃ w, measure_message s = Some (tt, set_modeMessageData (set_wd w (modeMessageData s)) s) ∧
    -1 <= w <= 100000.
Proof.
  intros Hs. assert (message_core (modeMessageData s)) as Hm by (destruct Hs as [[]|]; done).
  destruct (text_width_range (font_of (font (modeMessageData s))) (msg (modeMessageData s)))
    as (w & E & Hw); [apply font_of_ok|apply font_widths|apply Hm|].
  exists w. split; [|done]. unfold measure_message, mbind, M_bind, gets, text_width_of, try, getFontWidth.
  by rewrite E.
Qed.

Lemma bump_run s :
  0 <= modeMessageDataColorEffect s < 2 ^ 31 - 1 →
  bump_color_effect s =
  Some (tt, set_modeMessageDataColorEffect (modeMessageDataColorEffect s + 1) s).
Proof.
  intros He. unfold bump_color_effect, mbind, M_bind, gets, int.
  rewrite (proj2 (Z.leb_le _ _)), (proj2 (Z.ltb_lt _ _)) by lia. done.
Qed.

Lemma bind_run {A B} (m : M W A) (k : A → M W B) s a s' :
  m s = Some (a, s') → (m ≫= k) s = k a s'.
Proof. intros E. unfold mbind, M_bind. by rewrite E. Qed.

Lemma draws_run {A} (m : M W A) s :
  draws m any → mem_ok (matrix s) →
  ∃ a h out w, m s = Some (a, drawn_to h out w s) ∧ mem_ok h.
Proof. intros Hm Hs. destruct (Hm s Hs) as (a & h & out & w & E & Hh & _). eauto 7. Qed.

(** ** Entering a mode *)

(** The message that the message mode shows when it is entered. *)
Definition entered (m : ModeMessageData) : ModeMessageData :=
  if (0 <=? modeMsgsIndex m) && (modeMsgsIndex m <? modeMsgsIndexLast) then
    set_msg (snprintf_s MESSAGE_MAX_SIZE
               (default EmptyString (modeMessageMsgs !! Z.to_nat (modeMsgsIndex m)))) m
  else m.

Definition text_width_m (m : ModeMessageData) : Z :=
  default 0 (getTextWidth (msg m) (getFontWidth (font m)) 1).
Definition measured (m : ModeMessageData) : ModeMessageData := set_wd (text_width_m m) m.

Lemma measured_core m : message_core m → message_core (measured m).
Proof.
  intros [Hl ? ? ? ? ?].
  destruct (text_width_range (font_of (font m)) (msg m))
    as (w & E & Hw); [apply font_of_ok|apply font_widths|apply Hl|].
  constructor; try done. unfold measured, text_width_m, getFontWidth. by rewrite E.
Qed.

Lemma entered_core m : message_core m → message_core (entered m).
Proof.
  intros [Hl ? ? ? ? ?]. unfold entered. destruct (_ && _); [|by constructor].
  constructor; try done. cbn [msg set_msg]. apply message_fits.
Qed.

Lemma measure_run s :
  message_core (modeMessageData s) →
  measure_message s = Some (tt, set_modeMessageData (measured (modeMessageData s)) s).
Proof.
  intros Hm. destruct (measure_message_run s (or_intror Hm)) as (w & E & _). rewrite E.
  unfold measured, text_width_m, measure_message, mbind, M_bind, gets, text_width_of, try in *.
  destruct (getTextWidth _ _ _) as [v|]; [|done]. by injection E as <-.
Qed.

Lemma modeMessageInit_run s :
  message_core (modeMessageData s) →
  modeMessageInit None s = Some (tt, set_modeMessageData (measured (entered (modeMessageData s))) s).
Proof.
  intros Hm. pose proof (entered_core _ Hm) as He. unfold modeMessageInit.
  erewrite bind_run by reflexivity. revert He. unfold entered.
  destruct ((0 <=? modeMsgsIndex (modeMessageData s)) && _) eqn:E; intros He.
  - apply andb_prop in E as [E1%Z.leb_le E2%Z.ltb_lt].
    destruct (lookup_lt_is_Some_2 modeMessageMsgs (Z.to_nat (modeMsgsIndex (modeMessageData s))))
      as [t Et].
    { pose proof modeMessageMsgs_count. unfold modeMsgsIndexLast in *. lia. }
    rewrite Et in He |- *. cbn [default from_option id] in *.
    erewrite bind_run; [|cbn [when]; erewrite bind_run by reflexivity; reflexivity].
    rewrite measure_run by exact He. by destruct s.
  - erewrite bind_run by reflexivity. by rewrite measure_run.
Qed.

(** Leaving for the clock or the empty mode changes the driver, what is asked
    of the surroundings, and the mode. *)
Lemma changeDisplayMode_run i s :
  i = displayModeNothing ∨ i = displayModeBasicClock → mem_ok (matrix s) →
  ∃ h out w, changeDisplayMode i None s =
    Some (tt, drawn_to h out w (set_currModeIndex i s)) ∧ mem_ok h.
Proof.
  intros Hi Hs.
  assert (∃ e, find_mode i 0 (modeEntries (W:=W)) = Some (i, e) ∧ draws (handlerInit e None) any)
    as (e & Ee & He).
  { destruct Hi as [-> | ->].
    - exists entryNothing. split; [reflexivity|]. cbn [handlerInit entryNothing].
      apply draws_noop.
    - exists entryBasicClock. split; [reflexivity|]. cbn [handlerInit entryBasicClock].
      apply modeBasicClockSlow_draws. }
  unfold changeDisplayMode. rewrite Ee. erewrite bind_run by reflexivity.
  destruct (draws_run (ht clearAll;; ht_send renderAll;; handlerInit e None;;
                       tell (broadcast_display (inboxMsgType e))) (set_currModeIndex i s))
    as ([] & h & out & w & E & Hh); [|done|by exists h, out, w].
  repeat (apply draws_seq; [by eauto with display|]). apply draws_tell.
Qed.

Lemma enter_message_run s :
  mem_ok (matrix s) → message_core (modeMessageData s) →
  ∃ h out w, changeDisplayMode displayModeMessage None s =
    Some (tt, drawn_to h out w (set_modeMessageData (measured (entered (modeMessageData s)))
                                  (set_currModeIndex displayModeMessage s))) ∧ mem_ok h.
Proof.
  intros Hs Hm. unfold changeDisplayMode.
  assert (find_mode displayModeMessage 0 (modeEntries (W:=W)) = Some (2, entryMessage)) as -> by done.
  erewrite bind_run by reflexivity.
  destruct (draws_run (ht clearAll;; ht_send renderAll) (set_currModeIndex 2 s))
    as ([] & h & out & w & E & Hh); [|done|].
  { apply draws_seq; eauto with display. }
  unfold mbind, M_bind in E |- *. unfold ht, modify in *. cbv beta iota in *.
  rewrite E. cbn [handlerInit entryMessage]. rewrite modeMessageInit_run by done.
  eexists h, out, _. split; [|done]. unfold tell, modify. by destruct s.
Qed.

(** ** One frame of a message *)

(** What a frame makes of the message: the text that wraps around, *)
Definition wrap_next (m : ModeMessageData) : ModeMessageData * bool :=
  let m := set_currX 0 m in
  let m := if alternateFont m then measured (set_font (getNextFont (font m)) m) else m in
  if repeats m =? forever_int then (m, false)
  else if repeats m - 1 <? 0 then (set_repeats forever_int m, true)
  else (set_repeats (repeats m - 1) m, false).

(** the bounce, with the number of color changes, *)
Definition bounce_next (m : ModeMessageData) : ModeMessageData * Z :=
  if incrementY m =? 0 then (m, 0)
  else
    let y := currYFactor m + incrementY m in
    let m1 := set_currYFactor y m in
    if (incrementY m <? 0) && (y <? 0) then (set_incrementY (- incrementY m) m1, 0)
    else if (0 <? incrementY m) && ((COM_SIZE - getFontHeight (font m)) * INCREMENT_Y_SCALE <=? y)
    then
      let m2 := set_incrementY (- incrementY m) m1 in
      if incrementX m then (m2, 0)
      else (if alternateFont m then set_font (getNextFont (font m)) m2 else m2, 1)
    else (m1, 0).

(** and both: the message, the color changes, and whether the mode is left. *)
Definition fast_next (m : ModeMessageData) : ModeMessageData * Z * bool :=
  if incrementX m then
    let m1 := set_currX (currX m + 1) m in
    if wd m + OUT_SIZE <=? currX m + 1 then
      let '(m2, finished) := wrap_next m1 in
      if finished && completedCallback m then (m2, 1, true)
      else let '(m3, k) := bounce_next m2 in (m3, 1 + k, false)
    else let '(m3, k) := bounce_next m1 in (m3, k, false)
  else let '(m3, k) := bounce_next m in (m3, k, false).

(** The state with another message, color effect and mode. *)
Definition after (m : ModeMessageData) (k : Z) (gone : bool) (s : DisplayState W) : DisplayState W :=
  set_currModeIndex (if gone then displayModeBasicClock else currModeIndex s)
    (set_modeMessageDataColorEffect (modeMessageDataColorEffect s + k) (set_modeMessageData m s)).

Lemma after_drawn m k g h out w s :
  after m k g (drawn_to h out w s) = drawn_to h out w (after m k g s).
Proof. by destruct s. Qed.

Lemma drawn_drawn h out w h' out' w' s :
  drawn_to h out w (drawn_to h' out' w' s) = drawn_to h out w s.
Proof. by destruct s. Qed.

Lemma after_after m k m' k' g s :
  after m k g (after m' k' false s) = after m (k' + k) g s.
Proof. destruct s. unfold after. cbn. by rewrite Z.add_assoc. Qed.

Lemma set_currX_core x m : message_core m → message_core (set_currX x m).
Proof. by intros []. Qed.

Lemma set_font_core f m : message_core m → message_core (set_font f m).
Proof. by intros []. Qed.

Lemma set_repeats_core n m :
  - 2 ^ 31 < n < 2 ^ 31 → message_core m → message_core (set_repeats n m).
Proof. by intros ? []. Qed.

Lemma wrap_next_core m : message_core m → message_core (wrap_next m).1.
Proof.
  intros Hm. unfold wrap_next.
  set (m2 := if alternateFont (set_currX 0 m) then _ else _).
  assert (message_core m2) as H2.
  { unfold m2. case_match; [apply measured_core, set_font_core|]; by apply set_currX_core. }
  pose proof (mc_repeats _ H2). unfold forever_int.
  destruct (_ =? _); [done|]. destruct (Z.ltb_spec (repeats m2 - 1) 0); cbn [fst];
    apply set_repeats_core; done || lia.
Qed.

Lemma wrap_next_callback m : completedCallback (wrap_next m).1 = completedCallback m.
Proof. unfold wrap_next. repeat case_match; done. Qed.

Lemma wrap_next_scroll m : incrementX (wrap_next m).1 = incrementX m ∧ currX (wrap_next m).1 = 0.
Proof. unfold wrap_next. repeat case_match; done. Qed.

Lemma bounce_next_scroll m :
  incrementX (bounce_next m).1 = incrementX m ∧ currX (bounce_next m).1 = currX m ∧
  0 <= (bounce_next m).2 <= (if incrementX m then 0 else 1).
Proof. unfold bounce_next. repeat case_match; cbn; auto with lia. Qed.

Lemma bounce_next_core m : message_core m → message_core (bounce_next m).1.
Proof.
  intros [Hl Hw Hr Hs Hu Hd]. unfold bounce_next. pose proof (getFontHeight_range (font m)).
  destruct (Z.eqb_spec (incrementY m) 0); [by constructor|].
  destruct ((incrementY m <? 0) && _) eqn:E1.
  { apply andb_prop in E1 as [?%Z.ltb_lt ?%Z.ltb_lt].
    constructor; cbn [fst msg wd repeats incrementY currYFactor set_incrementY set_currYFactor];
      try done; lia. }
  destruct ((0 <? incrementY m) && _) eqn:E2.
  - apply andb_prop in E2 as [?%Z.ltb_lt ?%Z.leb_le]. unfold COM_SIZE, INCREMENT_Y_SCALE in *.
    case_match; [|case_match];
      (constructor; cbn [fst msg wd repeats incrementY currYFactor set_incrementY set_currYFactor
         set_font]; try done; lia).
  - unfold COM_SIZE, INCREMENT_Y_SCALE in *.
    constructor; cbn [fst msg wd repeats incrementY currYFactor set_currYFactor]; try done; lia.
Qed.

Lemma fast_next_ok m :
  message_core m → scroll_ok m →
  message_core (fast_next m).1.1 ∧ scroll_ok (fast_next m).1.1 ∧ 0 <= (fast_next m).1.2 <= 1.
Proof.
  intros Hc Hx. unfold fast_next. destruct (incrementX m) eqn:Ei.
  2: { pose proof (bounce_next_core m Hc). pose proof (bounce_next_scroll m) as (Hi & _ & Hk).
       destruct (bounce_next m) as [m3 k]. cbn [fst snd] in *. rewrite Ei in Hk.
       split; [done|]. split; [|done]. intros ?. congruence. }
  specialize (Hx Ei). unfold OUT_SIZE, NUM_OF_BICOLOR_UNITS. pose proof (mc_wd _ Hc).
  pose proof (set_currX_core (currX m + 1) m Hc) as H1. set (m1 := set_currX (currX m + 1) m) in *.
  destruct (Z.leb_spec (wd m + 32 * 4) (currX m + 1)).
  - pose proof (wrap_next_core m1 H1) as Hc2. pose proof (wrap_next_scroll m1) as [Hi2 Hx2].
    destruct (wrap_next m1) as [m2 fin]. cbn [fst] in *. destruct (_ && _).
    + cbn [fst snd]. split; [done|]. split; [|lia]. intros _. rewrite Hx2. lia.
    + pose proof (bounce_next_core m2 Hc2). pose proof (bounce_next_scroll m2) as (Hi3 & Hx3 & Hk).
      change (incrementX m1) with (incrementX m) in Hi2. rewrite Hi2, Ei in Hk. destruct (bounce_next m2) as [m3 k]. cbn [fst snd] in *.
      split; [done|]. split; [|lia]. intros _. rewrite Hx3, Hx2. lia.
  - pose proof (bounce_next_core m1 H1). pose proof (bounce_next_scroll m1) as (Hi3 & Hx3 & Hk).
    change (incrementX m1) with (incrementX m) in Hk. rewrite Ei in Hk.
    destruct (bounce_next m1) as [m3 k]. cbn [fst snd] in *.
    split; [done|]. split; [|lia]. intros _. rewrite Hx3. unfold m1. cbn [currX set_currX]. lia.
Qed.

Lemma int_run z s : - 2 ^ 31 <= z < 2 ^ 31 → int z s = Some (z, s).
Proof.
  intros Hz. unfold int. by rewrite (proj2 (Z.leb_le _ _)), (proj2 (Z.ltb_lt _ _)) by lia.
Qed.

Lemma update_run f s :
  update_message f s = Some (tt, set_modeMessageData (f (modeMessageData s)) s).
Proof. done. Qed.

Lemma after_same s : after (modeMessageData s) 0 false s = s.
Proof. destruct s. unfold after. cbn. by rewrite Z.add_0_r. Qed.

(** Leaving through the callback. *)
Lemma completed_run m s :
  mem_ok (matrix s) →
  ∃ h out w, completed m s =
    Some (tt, drawn_to h out w (after (modeMessageData s) 0 (completedCallback m) s)) ∧ mem_ok h.
Proof.
  intros Hs. unfold completed, when. destruct (completedCallback m).
  - destruct (changeDisplayMode_run displayModeBasicClock s (or_intror eq_refl) Hs)
      as (h & out & w & E & Hh).
    exists h, out, w. rewrite E. split; [|done]. destruct s. unfold after. cbn.
    by rewrite Z.add_0_r.
  - exists (matrix s), (sent s), (world s). by rewrite after_same, drawn_to_same.
Qed.

Lemma message_wrap_run s :
  mem_ok (matrix s) → message_core (modeMessageData s) →
  0 <= modeMessageDataColorEffect s < 2 ^ 31 - 1 →
  let r := wrap_next (modeMessageData s) in
  let gone := r.2 && completedCallback (modeMessageData s) in
  ∃ h out w, message_wrap s = Some (gone, drawn_to h out w (after r.1 1 gone s)) ∧ mem_ok h.
Proof.
  intros Hs Hm He. set (m := modeMessageData s) in *.
  set (m2 := if alternateFont (set_currX 0 m)
             then measured (set_font (getNextFont (font (set_currX 0 m))) (set_currX 0 m))
             else set_currX 0 m).
  assert (message_core m2) as H2.
  { unfold m2. case_match; [apply measured_core, set_font_core|]; by apply set_currX_core. }
  assert (message_wrap s =
    (m ← gets modeMessageData;
     if repeats m =? forever_int then mret false
     else
       n ← int (repeats m - 1);
       update_message (set_repeats n);;
       if n <? 0 then
         update_message (set_repeats forever_int);; completed m;; mret (completedCallback m)
       else mret false) (after m2 1 false s)) as ->.
  { unfold message_wrap. erewrite bind_run by apply update_run.
    erewrite bind_run by (by apply bump_run). erewrite bind_run by reflexivity.
    cbn [modeMessageData set_modeMessageDataColorEffect set_modeMessageData].
    unfold m2. fold m. change (alternateFont m) with (alternateFont (set_currX 0 m)).
    destruct (alternateFont (set_currX 0 m)); cbn [when].
    - erewrite bind_run; [|erewrite bind_run by apply update_run;
        apply measure_run, set_font_core, set_currX_core; exact Hm]. by destruct s.
    - erewrite bind_run by reflexivity. by destruct s. }
  erewrite bind_run by reflexivity. cbn zeta.
  assert (wrap_next m = if repeats m2 =? forever_int then (m2, false)
    else if repeats m2 - 1 <? 0 then (set_repeats forever_int m2, true)
    else (set_repeats (repeats m2 - 1) m2, false)) as -> by done.
  assert (completedCallback m = completedCallback m2) as -> by (unfold m2; by case_match).
  change (modeMessageData (after m2 1 false s)) with m2.
  destruct (repeats m2 =? forever_int).
  { exists (matrix s), (sent s), (world s). split; [|done]. by destruct s. }
  pose proof (mc_repeats _ H2). erewrite bind_run by (apply int_run; lia).
  erewrite bind_run by apply update_run.
  destruct (repeats m2 - 1 <? 0); cbn [fst snd andb].
  - erewrite bind_run by apply update_run.
    set (s2 := set_modeMessageData _ _).
    destruct (completed_run m2 s2) as (h & out & w & E & Hh); [by destruct s|].
    erewrite bind_run by exact E. exists h, out, w. split; [|done]. clear E.
    destruct s. unfold s2, after. cbn. rewrite Z.add_0_r. done.
  - exists (matrix s), (sent s), (world s). split; [|done]. by destruct s.
Qed.

Lemma message_bounce_run s :
  message_core (modeMessageData s) →
  (incrementX (modeMessageData s) = false → 0 <= modeMessageDataColorEffect s < 2 ^ 31 - 1) →
  let r := bounce_next (modeMessageData s) in
  message_bounce s = Some (tt, after r.1 r.2 false s).
Proof.
  intros Hm He. cbn zeta. set (m := modeMessageData s) in *. unfold message_bounce, bounce_next.
  erewrite bind_run by reflexivity. fold m. pose proof Hm as [_ _ _ Hsp Hu Hd].
  destruct (Z.eqb_spec (incrementY m) 0) as [E0|E0]; cbn [negb when fst snd].
  { unfold m. by rewrite after_same. }
  erewrite bind_run by (apply int_run; lia). erewrite bind_run by apply update_run.
  destruct ((incrementY m <? 0) && _) eqn:E1.
  { rewrite update_run. destruct s. unfold after. cbn. by rewrite Z.add_0_r. }
  destruct ((0 <? incrementY m) && _) eqn:E2.
  2: { destruct s. unfold after. cbn. by rewrite Z.add_0_r. }
  erewrite bind_run by apply update_run. destruct (incrementX m) eqn:Ei; cbn [negb when fst snd].
  { destruct s. unfold after. cbn. by rewrite Z.add_0_r. }
  erewrite bind_run by (by apply bump_run, He). destruct (alternateFont m); cbn [when].
  - rewrite update_run. by destruct s.
  - by destruct s.
Qed.

Lemma message_frame_run s :
  mem_ok (matrix s) →
  (incrementX (modeMessageData s) = true →
   - 2 ^ 31 <= OUT_SIZE - currX (modeMessageData s) < 2 ^ 31) →
  ∃ h out w, message_frame s = Some (tt, drawn_to h out w s) ∧ mem_ok h.
Proof.
  intros Hs Hx. unfold message_frame.
  erewrite bind_run by reflexivity.
  destruct (draws_run (draw_message (modeMessageData s) (Z.rem (modeMessageDataColorEffect s) 3) [0; 1];;
    drawBackgroundMessages;; drawBackgroundImgs;;
    m ← gets modeMessageData; draw_confetti (confetti m);; ht_send renderAll)
    (set_matrix (clearAll (matrix s)) s)) as ([] & h & out & w & E & Hh).
  - apply draws_seq.
    { by apply draw_message_draws. }
    repeat (apply draws_seq; [by eauto with display|]).
    eapply (draws_bind _ _ any); [apply draws_gets|]. intros m _.
    apply draws_seq; eauto with display.
  - by apply clearAll_ok.
  - exists h, out, w. split; [|done]. etrans; [exact E|]. by destruct s.
Qed.

(** The scrolling alone, and the frame from it. *)
Definition scroll_next (m : ModeMessageData) : ModeMessageData * Z * bool :=
  if incrementX m then
    let m1 := set_currX (currX m + 1) m in
    if wd m + OUT_SIZE <=? currX m + 1 then
      let '(m2, finished) := wrap_next m1 in (m2, 1, finished && completedCallback m)
    else (m1, 0, false)
  else (m, 0, false).

Lemma fast_next_scroll m :
  fast_next m =
  let '(m1, k, gone) := scroll_next m in
  if gone then (m1, k, true) else let '(m2, k2) := bounce_next m1 in (m2, k + k2, false).
Proof.
  unfold fast_next, scroll_next. destruct (incrementX m); [|by destruct (bounce_next m)]. cbv zeta.
  destruct (_ <=? _); [|by destruct (bounce_next _)].
  destruct (wrap_next _) as [m2 fin]. destruct (fin && _); [done|]. by destruct (bounce_next m2).
Qed.

Lemma message_scroll_run s :
  mem_ok (matrix s) → message_core (modeMessageData s) →
  0 <= modeMessageDataColorEffect s < 2 ^ 31 - 1 →
  (incrementX (modeMessageData s) = true → - 2 ^ 31 <= currX (modeMessageData s) + 1 < 2 ^ 31) →
  let '(m1, k, gone) := scroll_next (modeMessageData s) in
  message_core m1 ∧ incrementX m1 = incrementX (modeMessageData s) ∧
  (incrementX m1 = false → k = 0) ∧
  ∃ h out w, message_scroll s = Some (gone, drawn_to h out w (after m1 k gone s)) ∧ mem_ok h.
Proof.
  intros Hs Hm He Hx. set (m := modeMessageData s) in *.
  assert (∀ s', s' = s → ∃ h out w, Some (false, s') = Some (false, drawn_to h out w (after m 0 false s)) ∧ mem_ok h)
    as Hsame.
  { intros ? ->. exists (matrix s), (sent s), (world s). split; [|done]. unfold m, after, drawn_to.
    destruct s. cbn. by rewrite Z.add_0_r. }
  unfold message_scroll, scroll_next. erewrite bind_run by reflexivity. fold m.
  destruct (incrementX m) eqn:Ei; [|split_and!; [done|done|done|by apply Hsame]]. specialize (Hx eq_refl).
  pose proof (mc_wd _ Hm) as Hw. pose proof (set_currX_core (currX m + 1) m Hm) as H1.
  erewrite bind_run by (apply int_run; lia). erewrite bind_run by apply update_run.
  erewrite bind_run by (apply int_run; unfold OUT_SIZE, NUM_OF_BICOLOR_UNITS; lia).
  change (modeMessageData s) with m. set (m1 := set_currX (currX m + 1) m) in *. cbv zeta.
  assert (set_modeMessageData m1 s = after m1 0 false s) as -> by (destruct s; unfold after; cbn; by rewrite Z.add_0_r).
  destruct (wd m + OUT_SIZE <=? currX m + 1).
  - destruct (message_wrap_run (after m1 0 false s)) as (h & out & w & E & Hh); [done|done|simpl; lia|].
    change (modeMessageData (after m1 0 false s)) with m1 in E.
    change (completedCallback m1) with (completedCallback m) in E.
    pose proof (wrap_next_core m1 H1) as Hc. pose proof (wrap_next_scroll m1) as [Hi _].
    change (incrementX m1) with (incrementX m) in Hi. rewrite Ei in Hi.
    destruct (wrap_next m1) as [m2 fin]. cbn [fst snd] in *.
    split_and!; [done|done|by rewrite Hi|]. exists h, out, w. split; [|done].
    rewrite E, after_after. done.
  - split_and!; [done|done|done|]. exists (matrix s), (sent s), (world s). split; [|done]. by destruct s.
Qed.

(** A frame of the message mode: the message advances as [fast_next] says. *)
Lemma modeMessageFast_run n s :
  display_ok n s → n < 2 ^ 31 - 1 →
  let '(m, k, gone) := fast_next (modeMessageData s) in
  ∃ h out w, modeMessageFast s = Some (tt, drawn_to h out w (after m k gone s)) ∧ mem_ok h.
Proof.
  intros [Hb Hx] Hn. pose proof Hb as [Hmem _ He _ _ _ Hm].
  destruct (message_frame_run s Hmem) as (h0 & out0 & w0 & E0 & Hh0).
  { intros Hi. specialize (Hx Hi). unfold OUT_SIZE, NUM_OF_BICOLOR_UNITS. lia. }
  unfold modeMessageFast. erewrite bind_run by exact E0. rewrite fast_next_scroll.
  pose proof (message_scroll_run (drawn_to h0 out0 w0 s) Hh0 Hm) as Hs.
  change (modeMessageData (drawn_to h0 out0 w0 s)) with (modeMessageData s) in Hs.
  destruct (scroll_next (modeMessageData s)) as [[m1 k] gone].
  destruct Hs as (Hm1 & Hi & Hk & h & out & w & E & Hh); [simpl; lia|intros Hi; specialize (Hx Hi); lia|].
  erewrite bind_run by exact E. destruct gone; cbv beta iota.
  { exists h, out, w. split; [|done]. by rewrite after_drawn, drawn_drawn. }
  set (s1 := drawn_to h out w _). pose proof (message_bounce_run s1 Hm1) as Hbounce.
  change (modeMessageData s1) with m1 in Hbounce. cbv zeta in Hbounce. rewrite Hbounce.
  - destruct (bounce_next m1) as [m2 k2]. exists h, out, w. split; [|done].
    unfold s1. by rewrite after_drawn, after_after, after_drawn, drawn_drawn.
  - intros Hf. specialize (Hk Hf). subst k. unfold s1. simpl. lia.
Qed.

(** ** The other handlers keep it *)

(** [R] is what else holds of the mode and of the message. *)
Section invariant.
Variable R : Z → ModeMessageData → Prop.
Hypothesis R_leave : ∀ i j m, j = displayModeNothing ∨ j = displayModeBasicClock → R i m → R j m.
Hypothesis R_message : ∀ i m m', R i m → R i m'.

Definition display_in (n : Z) (s : DisplayState W) : Prop :=
  display_ok n s ∧ R (currModeIndex s) (modeMessageData s).

Definition keeps {A} (n : Z) (m : M W A) : Prop := triple (display_in n) m (λ _, display_in n).

Lemma steady_display_in n : steady (display_in n).
Proof. apply steady_and; [apply steady_display_ok|]. done. Qed.

Lemma keeps_draws {A} n (m : M W A) : draws m any → keeps n m.
Proof. intros Hm. apply draws_keep; [done|]. apply steady_display_in. Qed.

Lemma keeps_seq {A B} n (m : M W A) (k : M W B) : keeps n m → keeps n k → keeps n (m ≫= λ _, k).
Proof. apply triple_seq. Qed.

Lemma keeps_gets {A B} n (f : DisplayState W → A) (k : A → M W B) :
  (∀ s, display_in n s → keeps n (k (f s))) → keeps n (gets f ≫= k).
Proof.
  intros Hk. apply triple_bind_gets. intros s0 Hs. by apply (triple_at (display_in n)); [apply Hk|].
Qed.

Lemma keeps_ask {A B} n (f : W → A * W) (k : A → M W B) :
  (∀ a, keeps n (k a)) → keeps n (ask f ≫= k).
Proof.
  intros Hk. apply (triple_bind _ _ (λ _, display_in n)); [|done].
  apply keeps_draws, ask_draws.
Qed.

Lemma keeps_statics n f :
  (∀ st, statics_ok st → statics_ok (f st)) → keeps n (update_statics f).
Proof.
  intros Hf. apply triple_modify. intros s [[Hb Hx] HR]. split; [|done]. split; [|done].
  apply base_ok_statics; [done|]. apply Hf, Hb.
Qed.

Lemma keeps_message n f :
  (∀ m, message_core m → scroll_ok m → message_core (f m) ∧ scroll_ok (f m)) →
  keeps n (update_message f).
Proof.
  intros Hf. apply triple_modify. intros s [[Hb Hx] HR].
  destruct (Hf _ (bo_message _ _ Hb) Hx). split; [|by apply (R_message _ (modeMessageData s))].
  split; [|done]. by apply base_ok_message.
Qed.

Lemma keeps_tickers n f : keeps n (update_tickers f).
Proof. apply triple_modify. intros s [[[] Hx] HR]. split; [split; [by constructor|done]|done]. Qed.

Lemma after_ok n k m g s :
  display_ok n s → message_core m → scroll_ok m → 0 <= k → display_ok (n + k) (after m k g s).
Proof.
  intros [[] Hx] Hm Hx' Hk. split; [|done]. constructor; try done; cbn.
  - destruct g; unfold displayModeBasicClock; lia.
  - lia.
Qed.

Lemma drawn_ok n h out w s : display_ok n s → mem_ok h → display_ok n (drawn_to h out w s).
Proof. intros Hs Hh. by apply (steady_display_ok n). Qed.

Lemma keeps_changeMode n i :
  i = displayModeNothing ∨ i = displayModeBasicClock → keeps n (changeDisplayMode i None).
Proof.
  intros Hi s Hs. destruct (changeDisplayMode_run i s Hi) as (h & out & w & E & Hh);
    [by destruct Hs as [[[]]]|].
  eexists tt, _. split; [exact E|]. destruct Hs as [[[] Hx] HR].
  split; [|by apply (R_leave (currModeIndex s))]. apply drawn_ok; [|done].
  split; [|done]. constructor; try done. cbn.
  unfold displayModeNothing, displayModeBasicClock in *. lia.
Qed.

Lemma keeps_completed n m : keeps n (completed m).
Proof.
  unfold completed. apply triple_when. intros _. apply keeps_changeMode. by right.
Qed.

Lemma modeBasicClockFast_keeps n : keeps n modeBasicClockFast.
Proof.
  unfold modeBasicClockFast. apply keeps_gets. intros s _. destruct (_ && _).
  - apply keeps_changeMode. by left.
  - apply keeps_draws, draws_seq; eauto with display.
Qed.

Lemma upDown_keeps n topic board x y frame advance :
  (∀ st, statics_ok st → 0 <= frame st < 4) →
  (∀ f st, statics_ok st → 0 <= f < 4 → statics_ok (advance f st)) →
  keeps n (upDownAnimation topic board x y frame advance).
Proof.
  intros Hf Ha. unfold upDownAnimation. apply keeps_ask. intros r.
  destruct (negb _); [apply keeps_draws, draws_noop|].
  destruct (_ && _); [apply keeps_draws, draws_noop|].
  apply keeps_gets. intros s [[Hb _] _]. pose proof (Hf _ (bo_statics _ _ Hb)).
  apply keeps_seq.
  - apply keeps_statics. intros st Hst. apply Ha; [done|].
    pose proof (Z.rem_bound_pos (frame (statics s) + 1) 4). lia.
  - apply keeps_draws. repeat (apply draws_seq; [by eauto with display|]). eauto with display.
Qed.

Lemma carAnimation_keeps n : keeps n modeBasicClockSDoCarAnimation.
Proof.
  unfold modeBasicClockSDoCarAnimation. do 3 (apply keeps_ask; intros ?).
  destruct (_ && _); [apply keeps_draws, draws_noop|].
  apply keeps_seq.
  { apply triple_when. intros _. apply keeps_statics. intros st []. by constructor. }
  apply keeps_gets. intros s [[Hb _] _]. pose proof (so_counter _ (bo_statics _ _ Hb)).
  destruct (Z.leb_spec animationsAfterOff (animationCounter (statics s)));
    [apply keeps_draws, draws_noop|].
  apply keeps_seq.
  { apply keeps_statics. intros st []. constructor; try done. cbn. lia. }
  apply keeps_gets. intros s' [[Hb' _] _]. pose proof (so_car _ (bo_statics _ _ Hb')) as Hcar.
  apply keeps_gets. intros s'' _. apply keeps_seq.
  { apply keeps_statics. by intros st []. }
  case_match.
  - apply keeps_seq.
    { apply keeps_statics. intros st []. constructor; try done. cbn.
      destruct Hcar as [-> | ->]; auto. }
    apply keeps_draws. repeat (apply draws_seq; [by eauto with display|]). eauto with display.
  - apply keeps_draws, draws_seq; [by eauto with display|]. apply draws_seq; [|by eauto with display].
    apply draws_ht_try. intros h Hh.
    destruct (drawImage_safe _ _ _ 86 8 0 h (carAnimation_blank _ Hcar) Hh) as (h' & E & Hh' & _).
    eauto.
Qed.

Lemma upDownAnimation_keeps n : keeps n modeBasicClockSDoUpDownAnimation.
Proof.
  unfold modeBasicClockSDoUpDownAnimation. apply keeps_seq; [|apply keeps_seq].
  - apply upDown_keeps; [by intros st []|]. intros f st [] Hf. by constructor.
  - apply upDown_keeps; [by intros st []|]. intros f st [] Hf. by constructor.
  - apply carAnimation_keeps.
Qed.

Lemma nothing_keeps n : keeps n modeNothingCheckMotion.
Proof.
  unfold modeNothingCheckMotion. apply keeps_gets. intros s _.
  case_match; [apply keeps_changeMode; by right|].
  apply keeps_seq; [apply keeps_draws; eauto with display|]. apply keeps_gets. intros s' _.
  apply keeps_seq.
  { apply keeps_draws, draws_for_each. intros b _. apply draws_when. intros _.
    apply draws_seq; eauto with display. }
  apply keeps_seq; [apply keeps_draws; eauto with display|].
  apply keeps_statics. intros st [Hr Hc Hk Ht Hh Hcar Hcnt Hck]. cbv zeta.
  unfold OUT_SIZE, NUM_OF_BICOLOR_UNITS, COM_SIZE, displayColorYellow, u8 in *.
  destruct (Z.ltb_spec 2 ((nothing_color st + 1) mod 2 ^ 8)).
  - destruct (Z.leb_spec (32 * 4) (nothing_row st + 1)), (Z.leb_spec 16 (nothing_col st + 1));
      constructor; try done; cbn; unfold OUT_SIZE, NUM_OF_BICOLOR_UNITS, COM_SIZE; lia.
  - constructor; try done; cbn. pose proof (Z.mod_pos_bound (nothing_color st + 1) (2 ^ 8)). lia.
Qed.

Lemma blink_keeps n : keeps n modeMessageCheckBlink.
Proof.
  apply keeps_message. intros m Hm Hx. destruct (blink m); [|done].
  split; [by destruct Hm|done].
Qed.

Lemma timeout_keeps n : keeps n modeMessageCheckTimeout.
Proof.
  unfold modeMessageCheckTimeout. apply keeps_gets. intros s _.
  case_match; [apply keeps_draws, draws_noop|].
  assert (∀ t, keeps n (update_message (set_timeout t))) as Ht.
  { intros t. apply keeps_message. intros m Hm Hx. split; [by destruct Hm|done]. }
  apply keeps_seq; [apply Ht|]. case_match; [|apply keeps_draws, draws_noop].
  apply keeps_seq; [apply Ht|apply keeps_completed].
Qed.

Lemma dim_keeps n : keeps n updateDim.
Proof.
  unfold updateDim. do 2 (apply keeps_gets; intros ? _). case_match.
  { apply keeps_draws, draws_noop. }
  apply keeps_seq.
  { apply keeps_draws, draws_ht_send. intros h Hh.
    pose proof (setBrightness_ok) as Hb. eexists _, _. split; [by rewrite <-surjective_pairing|].
    by apply Hb. }
  apply keeps_seq.
  { apply triple_modify. intros s' [[[] Hx] HR]. split; [split; [by constructor|done]|done]. }
  apply keeps_draws, draws_tell.
Qed.

(** ** The ticks *)

Lemma current_mode_run s :
  0 <= currModeIndex s < 3 →
  ∃ m, current_mode s = Some (m, s) ∧ allModes (W:=W) !! Z.to_nat (currModeIndex s) = Some m ∧
    displayMode (mode_entry m) = currModeIndex s.
Proof.
  intros Hi. unfold current_mode. erewrite bind_run by reflexivity.
  destruct (lookup_lt_is_Some_2 (allModes (W:=W)) (Z.to_nat (currModeIndex s))) as [m E];
    [simpl; lia|].
  exists m. rewrite (proj2 (Z.leb_le _ _)), E by lia. split; [done|]. split; [done|].
  assert (currModeIndex s = 0 ∨ currModeIndex s = 1 ∨ currModeIndex s = 2) as Hc by lia.
  destruct Hc as [Hc|[Hc|Hc]]; rewrite Hc in E |- *; by injection E as <-.
Qed.

Lemma getDisplayMode_run s :
  0 <= currModeIndex s < 3 → getDisplayMode s = Some (currModeIndex s, s).
Proof.
  intros Hi. destruct (current_mode_run s Hi) as (m & E & _ & Hm).
  unfold getDisplayMode. erewrite bind_run by exact E. by rewrite <-Hm.
Qed.

Lemma check_keeps n : keeps n checkHT1632.
Proof.
  intros s [[Hb Hx] HR]. pose proof Hb as [Hmem Hi _ Hst _ _ _].
  set (c := checkCount (statics s) + 1).
  assert (∀ c', 0 <= c' < checkCountMax →
    display_in n (set_statics (set_checkCount c' (statics s)) s)) as Hok.
  { intros c' Hc. split; [|done]. split; [|done]. apply base_ok_statics; [done|]. destruct Hst. by constructor. }
  set (s1 := set_statics (set_checkCount c (statics s)) s).
  unfold checkHT1632. erewrite bind_run by reflexivity.
  erewrite (bind_run (update_statics _) _ _ _ s1) by reflexivity.
  erewrite bind_run by (by apply (getDisplayMode_run s1)).
  destruct ((_ <? checkCountMax) && _) eqn:E.
  - exists tt, s1. split; [done|]. apply Hok. apply andb_prop in E as [E%Z.ltb_lt _].
    pose proof (so_check _ Hst). unfold c in *. lia.
  - destruct (draws_run (ht_send reinit) s1) as ([] & h & out & w & Er & Hh);
      [by eauto with display|done|].
    erewrite bind_run by exact Er. eexists tt, _. split; [reflexivity|].
    replace (set_statics _ _) with
      (drawn_to h out w (set_statics (set_checkCount 0 (statics s)) s)) by (by destruct s).
    apply (steady_display_in n); [|done]. by apply Hok.
Qed.

(** What holds of every handler of the table holds of the tick. *)
Lemma call_handler_keeps n (h : Mode → option (M W ())) :
  (∀ m f, m ∈ allModes → h m = Some f → keeps n f) → keeps n (call_handler h).
Proof.
  intros Hh s Hs. pose proof Hs as [[[_ Hi _ _ _ _ _] _] _].
  destruct (current_mode_run s Hi) as (m & E & Hl & _).
  unfold call_handler. erewrite bind_run by exact E.
  destruct (h m) as [f|] eqn:Ef; [|by exists tt, s].
  apply (Hh m f); [by eapply list_elem_of_lookup_2|done|done].
Qed.

Ltac each_mode :=
  intros m f Hm Hf;
  repeat (apply elem_of_cons in Hm as [->|Hm]; [
    cbn in Hf; first [discriminate|injection Hf as <-]|]);
  try by apply elem_of_nil in Hm.

Lemma tick250_keeps n : keeps n (call_handler handlerTick250ms).
Proof.
  apply call_handler_keeps. each_mode; [apply upDownAnimation_keeps|apply blink_keeps].
Qed.

Lemma tick500_keeps n : keeps n (call_handler handlerTick500ms).
Proof. apply call_handler_keeps. each_mode. apply modeBasicClockFast_keeps. Qed.

Lemma tick1sec_keeps n : keeps n (call_handler handlerTick1Sec).
Proof.
  apply call_handler_keeps. each_mode;
    [apply nothing_keeps|apply keeps_draws, draws_noop|apply timeout_keeps].
Qed.

Lemma tick10sec_keeps n : keeps n (call_handler handlerTick10Sec).
Proof. apply call_handler_keeps. each_mode. apply keeps_draws, modeBasicClockSlow_draws. Qed.

Lemma other_ticks_keep n :
  keeps n (call_handler handlerTick100ms) ∧ keeps n (call_handler handlerTick5Sec) ∧
  keeps n (call_handler handlerTick25Sec) ∧ keeps n (call_handler handlerTick1Min).
Proof.
  split_and!; apply call_handler_keeps; each_mode. apply keeps_draws, draws_noop.
Qed.

Lemma keeps_weaken n n' (m : M W ()) s :
  keeps n m → display_in n s → n <= n' → ∃ s', m s = Some (tt, s') ∧ display_in n' s'.
Proof.
  intros Hm Hs Hn. destruct (Hm s Hs) as ([] & s' & E & [[Hb Hx] HR]). exists s'. split; [done|].
  split; [|done]. split; [by eapply base_ok_weaken|done].
Qed.

Lemma fast_handler_ok n s :
  display_ok n s → n < 2 ^ 31 - 1 →
  ∃ s', call_handler handlerTickFast s = Some (tt, s') ∧ display_ok (n + 1) s'.
Proof.
  intros Hs Hn. pose proof Hs as [[_ Hi _ _ _ _ Hm] Hx].
  destruct (current_mode_run s Hi) as (m & E & Hl & _).
  unfold call_handler. erewrite bind_run by exact E.
  destruct (handlerTickFast m) as [f|] eqn:Ef.
  2: { exists s. split; [done|]. destruct Hs as [Hb ?]. split; [|done].
       eapply base_ok_weaken; [done|lia]. }
  assert (f = modeMessageFast) as ->.
  { assert (m ∈ allModes (W:=W)) as Hin by (by eapply list_elem_of_lookup_2).
    revert Hin Ef. clear. intros Hm Hf.
    repeat (apply elem_of_cons in Hm as [->|Hm];
      [cbn in Hf; first [discriminate|by injection Hf as <-]|]). by apply elem_of_nil in Hm. }
  pose proof (modeMessageFast_run n s Hs Hn) as Hr.
  destruct (fast_next_ok _ Hm Hx) as (Hm' & Hx' & Hk).
  destruct (fast_next (modeMessageData s)) as [[m' k] gone]. cbn [fst snd] in *.
  destruct Hr as (h & out & w & Er & Hh). exists (drawn_to h out w (after m' k gone s)).
  split; [done|]. apply drawn_ok; [|done].
  destruct (after_ok n k m' gone s Hs Hm' Hx' ltac:(lia)) as [Hb ?]. split; [|done].
  eapply base_ok_weaken; [done|lia].
Qed.

Lemma ticker_then n n' f (m : M W ()) s :
  display_in n s →
  (∀ s, display_in n s → ∃ s', m s = Some (tt, s') ∧ display_in n' s') →
  ∃ s', (update_tickers f;; m) s = Some (tt, s') ∧ display_in n' s'.
Proof.
  intros Hs Hm. destruct (keeps_tickers n f s Hs) as ([] & s1 & E & Hs1).
  erewrite bind_run by exact E. by apply Hm.
Qed.

(** ** Requests *)

(** The numbers of a request that the arithmetic of the scrolling and of the
    bounce has to take: positions up to 2^21, and not the least [int] for the
    repetitions. *)
Definition param_in_range (kvp : string * string) : Prop :=
  let '(k, v) := kvp in
  (is_param k "x" = true ∨ is_param k "y" = true → strtoul (c_str v) 10 <= 2 ^ 21) ∧
  (is_param k "repeats" = true → strtoul (c_str v) 10 ≠ 2 ^ 31).

(** A message while a request fills it. *)
Record fresh (m : ModeMessageData) : Prop := {
  fr_msg : Z.of_nat (String.length (msg m)) < 4096;
  fr_wd : -1 <= wd m <= 100000;
  fr_repeats : - 2 ^ 31 < repeats m < 2 ^ 31;
  fr_speed : incrementY m = 0 ∨ incrementY m = 800;
  fr_y : 0 <= currYFactor m <= 2 ^ 21 * 1000;
  fr_x : 0 <= currX m <= 2 ^ 21;
}.

Lemma fresh_ok m : fresh m → message_core m ∧ scroll_ok m.
Proof.
  intros [? ? ? ? ? ?]. split; [constructor; auto with lia|]. intros _. lia.
Qed.

Definition filling (n : Z) (s : DisplayState W) : Prop := base_ok n s ∧ fresh (modeMessageData s).

Lemma filling_draws {A} n (m : M W A) : draws m any → triple (filling n) m (λ _, filling n).
Proof.
  intros Hm. apply draws_keep; [done|]. apply steady_and; [apply steady_base_ok|]. done.
Qed.

Lemma filling_set n f :
  (∀ m, fresh m → fresh (f m)) → triple (filling n) (set_msg_data f) (λ _, filling n).
Proof.
  intros Hf. apply triple_modify. intros s [Hb Hm]. split; [|by apply Hf].
  apply base_ok_message; [done|]. by apply fresh_ok, Hf.
Qed.

Lemma message_text_draws size value :
  (∀ t, Z.of_nat (String.length (snprintf_s size t)) < Z.of_nat size) →
  draws (W:=W) (message_text size value) (λ t, Z.of_nat (String.length t) < Z.of_nat size).
Proof.
  intros Ht. unfold message_text. destruct (_ && _); [|by apply draws_ret].
  apply (draws_bind _ _ any); [|intros t _; by apply draws_ret].
  unfold lookupDictValue. apply (draws_bind _ _ any); [apply ask_draws|].
  intros r _. by apply draws_ret.
Qed.

Lemma filling_bind_draws {A B} n (m : M W A) (k : A → M W B) Qa Q :
  draws m Qa → (∀ a, Qa a → triple (filling n) (k a) Q) → triple (filling n) (m ≫= k) Q.
Proof.
  intros Hm Hk s [Hb Hf]. destruct (Hm s (bo_mem _ _ Hb)) as (a & h & out & w & E & Hh & Ha).
  erewrite bind_run by exact E. apply (Hk a Ha). split; [by apply base_ok_drawn|done].
Qed.

Lemma handle_msg_filling n value : triple (filling n) (handle_msg value) (λ _, filling n).
Proof.
  unfold handle_msg. destruct (strncase_eq 7 value "#cookie").
  - apply (filling_bind_draws n _ _ any).
    { destruct (string_empty _); [apply ask_draws|by apply draws_ret]. }
    intros i _. apply filling_set. by intros m [].
  - apply (filling_bind_draws n _ _ (λ t, Z.of_nat (String.length t) < 4096)).
    { pose proof (message_text_draws MESSAGE_MAX_SIZE value) as Hd.
      change (Z.of_nat MESSAGE_MAX_SIZE) with 4096 in Hd. apply Hd, message_fits. }
    intros t Ht. apply filling_set. intros m []. by constructor.
Qed.

Lemma y_factor_range v :
  0 <= v <= 2 ^ 21 → 0 <= s32 (u32 (v * INCREMENT_Y_SCALE)) <= 2 ^ 21 * 1000.
Proof. intros Hv. unfold INCREMENT_Y_SCALE. rewrite u32_small, s32_small by lia. lia. Qed.

Lemma repeats_range v : 0 <= v <= ULONG_MAX → v ≠ 2 ^ 31 → - 2 ^ 31 < s32 v < 2 ^ 31.
Proof.
  unfold ULONG_MAX. intros Hv Hne. pose proof (s32_range v).
  assert (s32 v ≠ - 2 ^ 31); [|lia]. unfold s32, swrap. change (32 - 1) with 31. intros E.
  assert ((v + 2 ^ 31) mod 2 ^ 32 = 0) as Hm by lia.
  destruct (decide (v < 2 ^ 31)).
  - rewrite Z.mod_small in Hm; lia.
  - replace (v + 2 ^ 31) with (v - 2 ^ 31 + 1 * 2 ^ 32) in Hm by lia.
    rewrite Z.mod_add, Z.mod_small in Hm; lia.
Qed.

Lemma handle_msg_param_filling n kvp :
  param_in_range kvp → triple (filling n) (handle_msg_param kvp) (λ _, filling n).
Proof.
  destruct kvp as [k v]. intros [Hxy Hr]. unfold handle_msg_param. cbv zeta.
  pose proof (strtoul_range (c_str v) 10 ltac:(lia)) as Hv.
  destruct (is_param k "msg"); [apply handle_msg_filling|].
  destruct (is_param k "x").
  { apply filling_set. intros m []. constructor; try done. cbn. specialize (Hxy (or_introl eq_refl)).
    rewrite s32_small by lia. lia. }
  destruct (is_param k "y").
  { apply filling_set. intros m []. constructor; try done. cbn.
    apply y_factor_range. specialize (Hxy (or_intror eq_refl)). lia. }
  destruct (is_param k "font"); [apply filling_set; by intros m []|].
  destruct (is_param k "alternateFont"); [apply filling_set; by intros m []|].
  destruct (is_param k "confetti"); [apply filling_set; by intros m []|].
  destruct (is_param k "bounce").
  { apply filling_set. intros m []. constructor; try done. cbn. unfold INCREMENT_Y_VALUE.
    case_match; auto. }
  destruct (is_param k "noScroll"); [apply filling_set; by intros m []|].
  destruct (is_param k "blink"); [apply filling_set; by intros m []|].
  destruct (is_param k "color"); [apply filling_set; by intros m []|].
  destruct (is_param k "repeats").
  { apply filling_set. intros m []. constructor; try done. cbn.
    apply repeats_range; [done|by apply Hr]. }
  destruct (is_param k "timeout"); [apply filling_set; by intros m []|].
  apply triple_noop.
Qed.

Lemma initModeMessageData_run currX0 currY inX inY conf bl f t s :
  0 <= modeMessageDataColorEffect s < 2 ^ 31 - 1 →
  initModeMessageData currX0 currY inX inY conf bl f t s =
  Some (tt, after (mkModeMessageData EmptyString modeMsgsIndexLast inX conf false
    displayColorAlternate bl true (if inY then INCREMENT_Y_VALUE else 0) forever_int t f currX0
    (currY * INCREMENT_Y_SCALE) bl (wd (modeMessageData s))) 1 false s).
Proof.
  intros He. unfold initModeMessageData. erewrite bind_run by reflexivity.
  rewrite bump_run by done. by destruct s.
Qed.

Lemma enter_message_ok n s :
  filling n s →
  ∃ s', changeDisplayMode displayModeMessage None s = Some (tt, s') ∧ display_ok n s' ∧
    currModeIndex s' = displayModeMessage ∧
    modeMessageData s' = measured (entered (modeMessageData s)).
Proof.
  intros [Hb Hf]. destruct (fresh_ok _ Hf) as [Hc Hx].
  destruct (enter_message_run s (bo_mem _ _ Hb) Hc) as (h & out & w & E & Hh).
  eexists. split; [exact E|]. split; [|done]. apply drawn_ok; [|done]. split.
  - destruct Hb. constructor; try done. cbn. by apply measured_core, entered_core.
  - cbn. unfold scroll_ok in *. unfold measured, entered. by case_match.
Qed.

(** The message a request starts from. *)
Definition request_default (w : Z) : ModeMessageData :=
  mkModeMessageData EmptyString modeMsgsIndexLast true 0 false displayColorAlternate false true 0
    forever_int 60 font5x4 0 (5 * INCREMENT_Y_SCALE) false w.

Lemma msgModePost_run n s p :
  display_ok n s → n < 2 ^ 31 - 1 → Forall param_in_range p →
  ∃ s1 s2 s', modeMessageData s1 = request_default (wd (modeMessageData s)) ∧
    for_each p handle_msg_param s1 = Some (tt, s2) ∧ filling (n + 1) s1 ∧
    doHandleMsgModePost p s = Some (tt, s') ∧ display_ok (n + 1) s' ∧
    currModeIndex s' = displayModeMessage ∧
    modeMessageData s' = measured (entered (modeMessageData s2)).
Proof.
  intros [Hb Hx] Hn Hp. unfold doHandleMsgModePost. pose proof (bo_effect _ _ Hb).
  erewrite bind_run by (apply initModeMessageData_run; lia).
  set (s1 := after _ 1 false s).
  assert (filling (n + 1) s1) as H1.
  { pose proof (bo_message _ _ Hb) as Hc. pose proof (mc_wd _ Hc).
    assert (fresh (modeMessageData s1)) as Hf
      by (constructor; cbn; unfold forever_int, INCREMENT_Y_SCALE; auto with lia).
    split; [|done]. apply (after_ok n 1 (modeMessageData s1) false s); [done| | |lia];
      by apply fresh_ok. }
  assert (triple (filling (n + 1)) (for_each p handle_msg_param) (λ _, filling (n + 1))) as Hl.
  { apply triple_for_each. intros kvp Hin. apply handle_msg_param_filling.
    rewrite Forall_forall in Hp. by apply Hp. }
  destruct (Hl s1 H1) as ([] & s2 & E & H2). erewrite bind_run by exact E.
  destruct (enter_message_ok (n + 1) s2 H2) as (s' & E' & Hs' & Hi & Hm).
  by exists s1, s2, s'.
Qed.

(** Background items. *)
Lemma triple_for_params {A} (P : DisplayState W → Prop) (Q : A → Prop) l body :
  (∀ kvp a, Q a → triple P (body kvp a) (λ a s, Q a ∧ P s)) →
  ∀ a, Q a → triple P (for_params l body a) (λ a s, Q a ∧ P s).
Proof.
  intros Hb. induction l as [|kvp l IH]; intros a Ha; cbn [for_params].
  - apply triple_ret. auto.
  - eapply triple_bind; [by apply Hb|]. intros a' s [Ha' Hs]. by apply IH.
Qed.

Lemma background_index_range value : 0 <= background_index 100 value < 100.
Proof.
  unfold background_index. cbv zeta. set (i := s32 _).
  destruct (Z.ltb_spec i 0); [simpl; lia|]. destruct (Z.leb_spec 100 i); simpl; lia.
Qed.

Lemma imgPost_keeps n p : keeps n (doHandleImgBackgroundPost p).
Proof.
  unfold doHandleImgBackgroundPost.
  apply (triple_bind _ _ (λ a s, 0 <= a.1 < 100 ∧ display_in n s)).
  - apply (triple_for_params (display_in n) (λ a, 0 <= a.1 < 100)); [|done].
    intros [k v] [i img] Hi. cbn [fst] in Hi. unfold handle_img_param. cbv zeta.
    destruct (is_param k "index").
    { apply triple_ret. intros s Hs. split; [|done]. apply background_index_range. }
    destruct (is_param k "enabled"); [by apply triple_ret|].
    destruct (is_param k "clearAll").
    { apply (triple_seq _ _ (display_in n)); [|by apply triple_ret]. apply triple_when. intros _.
      apply triple_modify. intros s [[[] Hx] HR]. split; [|done]. split; [|done].
      constructor; try done. cbn. by rewrite length_fmap. }
    repeat case_match; by apply triple_ret.
  - intros [i img]. cbn [fst snd]. apply triple_modify. intros s [Hi [[[] Hx] HR]].
    split; [|done]. split; [|done]. constructor; try done. cbn. by rewrite length_insert.
Qed.

Lemma bgmsgPost_keeps n p : keeps n (doHandleMsgBackgroundPost p).
Proof.
  set (Q := λ a : Z * BackgroundMessage, 0 <= a.1 < 100 ∧ Z.of_nat (String.length (bm_msg a.2)) < 120).
  unfold doHandleMsgBackgroundPost.
  apply (triple_bind _ _ (λ a s, Q a ∧ display_in n s)).
  - apply (triple_for_params (display_in n) Q); [|done].
    intros [k v] [i m] [Hi Hm]. cbn [fst snd] in *. unfold handle_bgmsg_param. cbv zeta.
    destruct (is_param k "index").
    { apply triple_ret. intros s Hs. split; [|done]. split; [|done]. apply background_index_range. }
    destruct (is_param k "msg").
    { apply (triple_bind _ _ (λ t s, Z.of_nat (String.length t) < 120 ∧ display_in n s)).
      - apply (draws_triple _ _ (display_in n)).
        + pose proof (message_text_draws BACKGROUND_MESSAGE_MSG_SIZE (c_str v)) as Hd.
          change (Z.of_nat BACKGROUND_MESSAGE_MSG_SIZE) with 120 in Hd. apply Hd, background_fits.
        + apply steady_display_in.
        + apply steady_display_in.
      - intros t. apply triple_ret. by intros s [Ht Hs]. }
    destruct (is_param k "enabled"); [by apply triple_ret|].
    destruct (is_param k "clearAll").
    { apply (triple_seq _ _ (display_in n)); [|by apply triple_ret]. apply triple_when. intros _.
      apply triple_modify. intros s [[[? ? ? ? [Hl Hf] ? ?] Hx] HR].
      split; [|done]. split; [|done]. constructor; try done. cbn. rewrite length_fmap. split; [done|].
      apply Forall_fmap. by eapply Forall_impl. }
    repeat case_match; by apply triple_ret.
  - intros [i m]. cbn [fst snd]. apply triple_modify.
    intros s [[Hi Hm] [[[? ? ? ? [Hl Hf] ? ?] Hx] HR]]. split; [|done]. split; [|done].
    constructor; try done. cbn. rewrite length_insert. split; [done|]. by apply Forall_insert.
Qed.

End invariant.
End keeping.
