(* ===== verification/DisplayClock.v ===== *)
(** * The clock's face and the dimming

    What the texts of the clock mode say about the time, and how the brightness
    follows the light sensor. *)
From S2P Require Import Prelude CLib CommonUtils Inbox Sensors Ht1632 DisplayTypes DisplayState DisplayInternal DisplayProofs.

(** ** The face *)

(** The texts [modeBasicClockSlow] and [modeBasicClockShowSeconds] draw. *)
Record ClockFace := mkClockFace {
  face_time : string;
  face_half : string;
  face_day : string;
  face_date : string;
  face_seconds : string;
}.

Definition clock_face (t : tm) : ClockFace :=
  mkClockFace (clock_time_text t) (clock_half_text t) (clock_day_text t) (clock_date_text t)
    (clock_seconds_text t).

(** What [localtime_r] fills in; a leap second is the 60th. *)
Record tm_ok (t : tm) : Prop := {
  tm_sec_ok : 0 <= tm_sec t <= 60;
  tm_min_ok : 0 <= tm_min t < 60;
  tm_hour_ok : 0 <= tm_hour t < 24;
  tm_mday_ok : 1 <= tm_mday t <= 31;
  tm_mon_ok : 0 <= tm_mon t < 12;
  tm_wday_ok : 0 <= tm_wday t < 7;
}.

(** The position of a name among names. *)
Definition index_of (p : string -> bool) (names : list string) : Z :=
  match list_find (fun n => p n = true) names with Some (i, _) => Z.of_nat i | None => -1 end.

(** A reader of the face, who knows twelve hour clocks and English dates. *)
Definition read_face (f : ClockFace) : tm :=
  mkTm (strtoul (face_seconds f) 10) (strtoul (string_drop 3 (face_time f)) 10)
    (strtoul (string_take 2 (face_time f)) 10 mod 12 + (if String.eqb (face_half f) "pm" then 12 else 0))
    (strtoul (string_drop 4 (face_date f)) 10)
    (index_of (fun m => String.eqb (string_take 4 (face_date f)) (string_take 3 m +:+ " ")) months)
    (index_of (String.eqb (face_day f)) daysOfWeek).

(** The English ending of an ordinal. *)
Definition ordinal_ending (n : Z) : string :=
  if n / 10 mod 10 =? 1 then "th"
  else if n mod 10 =? 1 then "st" else if n mod 10 =? 2 then "nd" else if n mod 10 =? 3 then "rd"
  else "th".

Lemma check_range (p : Z → bool) lo n z :
  forallb p (seqZ lo n) = true → lo <= z < lo + n → p z = true.
Proof.
  intros Hp Hz. rewrite forallb_forall in Hp. apply Hp. apply list_elem_of_In, elem_of_seqZ. lia.
Qed.

Lemma read_seconds t : 0 <= tm_sec t <= 60 → strtoul (clock_seconds_text t) 10 = tm_sec t.
Proof.
  intros Hs. unfold clock_seconds_text. apply Z.eqb_eq. revert Hs. generalize (tm_sec t). intros z Hz.
  apply (check_range (λ z, strtoul (snprintf_s 10 (pad_left (chr 48) 2 (print_int z) +:+ " ")) 10 =? z)
    0 61); [by vm_compute|lia].
Qed.

(** The time of day, checked for every minute of it. *)
Definition reads_minute (h m : Z) : bool :=
  let t := mkTm 0 m h 1 0 0 in
  let shown := strtoul (string_take 2 (clock_time_text t)) 10 in
  (strtoul (string_drop 3 (clock_time_text t)) 10 =? m) && (1 <=? shown) && (shown <=? 12)
  && (shown mod 12 + (if String.eqb (clock_half_text t) "pm" then 12 else 0) =? h).

Lemma read_minute h m : 0 <= h < 24 → 0 <= m < 60 → reads_minute h m = true.
Proof.
  intros Hh Hm. apply (check_range (reads_minute h) 0 60); [|lia].
  apply (check_range (λ h, forallb (reads_minute h) (seqZ 0 60)) 0 24); [by vm_compute|lia].
Qed.

Definition reads_date (mon mday : Z) : bool :=
  let date := clock_date_text (mkTm 0 0 0 mday mon 0) in
  (strtoul (string_drop 4 date) 10 =? mday)
  && (index_of (λ m, String.eqb (string_take 4 date) (string_take 3 m +:+ " ")) months =? mon)
  && String.eqb date
       (string_take 3 (default EmptyString (months !! Z.to_nat mon)) +:+ " " +:+ print_dec mday
        +:+ ordinal_ending mday).

Lemma read_date mon mday : 0 <= mon < 12 → 1 <= mday <= 31 → reads_date mon mday = true.
Proof.
  intros Hm Hd. apply (check_range (reads_date mon) 1 31); [|lia].
  apply (check_range (λ m, forallb (reads_date m) (seqZ 1 31)) 0 12); [by vm_compute|lia].
Qed.

Definition reads_day (wday : Z) : bool :=
  index_of (String.eqb (clock_day_text (mkTm 0 0 0 1 0 wday))) daysOfWeek =? wday.

Lemma read_day wday : 0 <= wday < 7 → reads_day wday = true.
Proof. intros Hw. apply (check_range reads_day 0 7); [by vm_compute|lia]. Qed.

(** C23: the face of the clock tells the time: for every time the system gives,
    leap seconds included, a reader of twelve hour clocks reads the hour,
    minute, second, month, day and weekday back; the hour shown is from 1 to
    12, and the date is the first three letters of the month with the English
    ordinal of the day. *)
Theorem clock_tells_time t :
  tm_ok t →
  read_face (clock_face t) = t ∧
  1 <= strtoul (string_take 2 (clock_time_text t)) 10 <= 12 ∧
  clock_date_text t =
    string_take 3 (default EmptyString (months !! Z.to_nat (tm_mon t))) +:+ " "
    +:+ print_dec (tm_mday t) +:+ ordinal_ending (tm_mday t).
Proof.
  intros [Hs Hm Hh Hd Hmon Hw]. pose proof (read_minute _ _ Hh Hm) as Ht.
  pose proof (read_date _ _ Hmon Hd) as Hdate. pose proof (read_day _ Hw) as Hday.
  apply andb_true_iff in Ht as [[[Ht1%Z.eqb_eq Hlo%Z.leb_le]%andb_true_iff Hhi%Z.leb_le]%andb_true_iff
    Ht2%Z.eqb_eq].
  apply andb_true_iff in Hdate as [[Hd1%Z.eqb_eq Hd2%Z.eqb_eq]%andb_true_iff Hd3%String.eqb_eq].
  apply Z.eqb_eq in Hday. split; [|split; [exact (conj Hlo Hhi)|exact Hd3]].
  unfold read_face, clock_face. cbn [face_time face_half face_day face_date face_seconds].
  rewrite read_seconds by done. destruct t as [sec min hour mday mon wday]. f_equal; assumption.
Qed.

Definition demo_time : tm := mkTm 5 7 0 22 8 3.

Lemma clock_tells_time_witness :
  tm_ok demo_time ∧ clock_face demo_time = mkClockFace "12:07" "am" "Wednesday" "Sep 22nd" "05 " ∧
  read_face (clock_face demo_time) = demo_time.
Proof.
  assert (tm_ok demo_time) as H by (constructor; cbn; lia).
  split; [exact H|]. split; [reflexivity|]. exact (proj1 (clock_tells_time demo_time H)).
Defined.

(** ** The dimming *)

Section dimming.
Context {W : Type} `{DisplayWorld W}.
Implicit Types s : DisplayState W.

(** A reading that decides; the others leave the room as it is. *)
Definition outside_band (v : Z) : Prop :=
  v < Light.darkRoomThresholdLowWaterMark ∨ Light.darkRoomThresholdHighWaterMark <= v.

#[export] Instance outside_band_decision v : Decision (outside_band v) := _.

(** Whether the room is dark: what the last deciding reading said. *)
Definition dark_after (dark : bool) (readings : list Z) : bool :=
  match last (filter outside_band readings) with
  | Some v => v <? Light.darkRoomThresholdLowWaterMark
  | None => dark
  end.

(** The changes of the room, in order. *)
Fixpoint changes (dark : bool) (readings : list Z) : list bool :=
  match readings with
  | [] => []
  | v :: readings =>
      let dark' := dark_after dark [v] in
      if bool_decide (dark = dark') then changes dark readings else dark' :: changes dark' readings
  end.

Definition brightness_for (dark : bool) : Z := if dark then 1 else 16.

(** What the driver sends for changes. *)
Definition brightness_commands (h : HT1632) (l : list bool) : list ht_event :=
  l ≫= λ dark, (setBrightness (brightness_for dark) h).1.

Definition bright_message (dark : bool) : InboxMsgType :=
  if dark then inboxMsgTypeDisplayBrightLow else inboxMsgTypeDisplayBrightHigh.

(** The surroundings move on, and the display looks at the light. *)
Definition dim_tick (w : W) : M W () := modify (set_world w);; updateDim.

Definition dimmed (out : list ht_event) (b : Z) (dark : bool) (w : W) s : DisplayState W :=
  set_world w (set_roomIsDark dark
    (set_sent (sent s ++ out) (set_matrix (set_brightness b (matrix s)) s))).

Lemma dark_after_one dark v :
  dark_after dark [v] =
  if dark then v <? Light.darkRoomThresholdHighWaterMark else v <? Light.darkRoomThresholdLowWaterMark.
Proof.
  unfold dark_after, filter, list_filter. unfold outside_band, Light.darkRoomThresholdLowWaterMark,
    Light.darkRoomThresholdHighWaterMark. case_decide; cbn; destruct dark; lia.
Qed.

Lemma dark_after_cons dark v l : dark_after dark (v :: l) = dark_after (dark_after dark [v]) l.
Proof.
  unfold dark_after. rewrite filter_cons, filter_cons, filter_nil.
  destruct (decide (outside_band v)); [|done].
  rewrite last_cons. by destruct (last (filter outside_band l)).
Qed.

(** One look at the light. *)
Lemma dim_tick_run w s :
  let dark := dark_after (roomIsDark s) [light_value w] in
  dim_tick w s = Some (tt,
    if bool_decide (roomIsDark s = dark) then set_world w s
    else dimmed (setBrightness (brightness_for dark) (matrix s)).1 (brightness_for dark) dark
           (broadcast_display (bright_message dark) w) s).
Proof.
  cbv zeta. rewrite dark_after_one. unfold dim_tick, updateDim.
  do 3 (erewrite bind_run by reflexivity). cbn [roomIsDark world set_world].
  destruct (roomIsDark s); destruct (_ <? _); done.
Qed.

Lemma setBrightness_wire dark b h :
  (setBrightness (brightness_for dark) (set_brightness b h)).1 =
  (setBrightness (brightness_for dark) h).1.
Proof. by destruct dark. Qed.

Lemma dark_after_app dark l k : dark_after dark (l ++ k) = dark_after (dark_after dark l) k.
Proof.
  unfold dark_after. rewrite filter_app, last_app. by destruct (last (filter outside_band k)).
Qed.

Lemma changes_none dark l : changes dark l = [] → dark_after dark l = dark.
Proof.
  revert dark. induction l as [|v l IH]; intros dark; [done|].
  cbn [changes]. rewrite (dark_after_cons _ _ l). case_bool_decide as E; [|done].
  intros Hl. rewrite <-E. by apply IH.
Qed.

(** A run of looks at the light, from its surroundings. *)
Lemma dim_run ws s :
  let readings := light_value <$> ws in
  let l := changes (roomIsDark s) readings in
  ∃ w', for_each ws dim_tick s = Some (tt,
    dimmed (brightness_commands (matrix s) l)
      (if bool_decide (l = []) then brightness (matrix s)
       else brightness_for (dark_after (roomIsDark s) readings))
      (dark_after (roomIsDark s) readings) w' s).
Proof.
  revert s. induction ws as [|w ws IH]; intros s; cbv zeta.
  { exists (world s). cbn. unfold dimmed. rewrite app_nil_r. by destruct s as [[]]. }
  cbn [for_each fmap list_fmap changes]. rewrite (dark_after_cons _ _ (light_value <$> ws)).
  pose proof (dim_tick_run w s) as E. cbv zeta in E.
  set (dark := dark_after (roomIsDark s) [light_value w]) in *.
  case_bool_decide as Hd; (unfold mbind at 1, M_bind at 1; rewrite E).
  - destruct (IH (set_world w s)) as [w' E']. exists w'. rewrite E'. cbn [roomIsDark set_world matrix].
    rewrite <-Hd. done.
  - set (s1 := dimmed _ _ _ _ s). destruct (IH s1) as [w' E']. exists w'. rewrite E'.
    cbn [roomIsDark set_world set_roomIsDark dimmed s1 matrix sent].
    rewrite (bool_decide_eq_false_2 (dark :: _ = [])) by done.
    unfold dimmed, brightness_commands. cbn [matrix set_world set_roomIsDark set_sent set_matrix sent].
    rewrite bind_cons, app_assoc. do 2 f_equal.
    assert (∀ l, (l ≫= λ d, (setBrightness (brightness_for d) (set_brightness (brightness_for dark)
      (matrix s))).1) = (l ≫= λ d, (setBrightness (brightness_for d) (matrix s)).1)) as Hout.
    { intros l. apply list_bind_ext; [|done]. intros d. apply setBrightness_wire. }
    rewrite Hout. clear. change (brightness (set_brightness ?b _)) with b.
    set (l := light_value <$> ws). assert (
      (if bool_decide (changes dark l = []) then brightness_for dark else brightness_for (dark_after dark l))
      = brightness_for (dark_after dark l)) as Hb.
    { case_bool_decide as Hl; [|done]. by rewrite (changes_none _ _ Hl). }
    by rewrite Hb.
Qed.

(** C24: the brightness follows the light with a hysteresis: over any sequence
    of looks at the light sensor the room counts as dark exactly when the last
    reading outside of the band from 460 to 599 was below it; the driver sends
    the brightness command once per change, low for dark and high for bright,
    and nothing in between; the change is broadcast; nothing else of the
    display changes. *)
Theorem dimming_hysteresis ws s :
  let readings := light_value <$> ws in
  let dark := dark_after (roomIsDark s) readings in
  ∃ s', for_each ws dim_tick s = Some (tt, s') ∧
    s' = dimmed (brightness_commands (matrix s) (changes (roomIsDark s) readings))
           (if bool_decide (changes (roomIsDark s) readings = []) then brightness (matrix s)
            else brightness_for dark) dark (world s') s ∧
    ∀ w, dim_tick w s' = Some (tt,
      let dark' := dark_after (roomIsDark s) (readings ++ [light_value w]) in
      if bool_decide (dark = dark') then set_world w s'
      else dimmed (setBrightness (brightness_for dark') (matrix s)).1 (brightness_for dark') dark'
             (broadcast_display (bright_message dark') w) s').
Proof.
  cbv zeta. destruct (dim_run ws s) as [w' E]. eexists. split; [exact E|]. split; [done|].
  intros w. pose proof (dim_tick_run w) as Ew. cbv zeta in Ew. rewrite Ew.
  cbn [roomIsDark set_world set_roomIsDark dimmed matrix set_sent set_matrix].
  rewrite <-dark_after_app. rewrite setBrightness_wire. reflexivity.
Qed.
End dimming.
