(* ===== verification/DisplayProps.v ===== *)
(** * What the display promises

    Safety of every event, the machine a shown message is, how long it stays
    and how often it passes, and what a request sets; with the witnesses, on a
    display whose surroundings are the real ones. *)
From S2P Require Import Prelude StdMap CLib CommonUtils Inbox Sensors TimerTick Dictionary Ht1632 Fonts.
From S2P Require Import DisplayTypes DisplayState DisplayInternal Display DisplayProofs.

#[local] Opaque modeMessageMsgs MESSAGE_MAX_SIZE BACKGROUND_MESSAGE_MSG_SIZE.

(** ** Events *)

(** What can happen to the component: a tick of one of its timers, or a
    request. *)
Inductive DisplayEvent :=
  | TickFast | Tick100ms | Tick250ms | Tick500ms | Tick1sec | Tick5sec | Tick10sec | Tick25sec
  | Tick1min
  | MsgModePost (p : StringMap)
  | ImgBackgroundPost (p : StringMap)
  | MsgBackgroundPost (p : StringMap).

Section events.
Context {W : Type} `{DisplayWorld W}.
Implicit Types s : DisplayState W.

Definition event_handler (e : DisplayEvent) : M W () :=
  match e with
  | TickFast => displayTickFast
  | Tick100ms => displayTick100ms
  | Tick250ms => displayTick250ms
  | Tick500ms => displayTick500ms
  | Tick1sec => displayTick1sec
  | Tick5sec => displayTick5sec
  | Tick10sec => displayTick10sec
  | Tick25sec => displayTick25sec
  | Tick1min => displayTick1min
  | MsgModePost p => doHandleMsgModePost p
  | ImgBackgroundPost p => doHandleImgBackgroundPost p
  | MsgBackgroundPost p => doHandleMsgBackgroundPost p
  end.

Definition event_in_range (e : DisplayEvent) : Prop :=
  match e with MsgModePost p => Forall param_in_range p | _ => True end.

(** The events that are neither a frame nor a message request. *)
Definition is_other (e : DisplayEvent) : bool :=
  match e with TickFast | MsgModePost _ => false | _ => true end.

Lemma event_keeps (R : Z → ModeMessageData → Prop) n e :
  (∀ i j m, j = displayModeNothing ∨ j = displayModeBasicClock → R i m → R j m) →
  (∀ i m m', R i m → R i m') → is_other e = true → keeps R n (event_handler e).
Proof.
  intros Hleave Hmessage He. pose proof (other_ticks_keep R n) as (H100 & H5 & H25 & H1).
  destruct e; try done; cbn [event_handler];
    try (apply keeps_seq; [apply keeps_tickers|]); try done.
  - by apply tick250_keeps.
  - apply keeps_seq; [apply check_keeps|]. apply keeps_seq; [apply keeps_tickers|].
    by apply tick500_keeps.
  - apply keeps_seq; [by apply tick1sec_keeps|apply dim_keeps].
  - apply tick10sec_keeps.
  - apply imgPost_keeps.
  - apply bgmsgPost_keeps.
Qed.

Definition anything (i : Z) (m : ModeMessageData) : Prop := True.

Lemma event_ok n s e :
  display_ok n s → n < 2 ^ 31 - 1 → event_in_range e →
  ∃ s', event_handler e s = Some (tt, s') ∧ display_ok (n + 1) s'.
Proof.
  intros Hs Hn He. destruct (is_other e) eqn:Eo.
  - destruct (keeps_weaken anything n (n + 1) (event_handler e) s) as (s' & E & Hs' & _);
      [by apply event_keeps|done|lia|eauto].
  - destruct e; try done; cbn [event_handler].
    + unfold displayTickFast. destruct (keeps_tickers anything n
        (λ t, set_tickerFast (u8 (tickerFast t + 1)) t) s) as ([] & s1 & E & Hs1 & _); [done|].
      erewrite bind_run by exact E. by apply fast_handler_ok.
    + destruct (msgModePost_run n s p Hs Hn He) as (s1 & s2 & s' & _ & _ & _ & E & Hs' & _). eauto.
Qed.

Lemma events_ok evs n s :
  display_ok n s → n + Z.of_nat (length evs) < 2 ^ 31 → Forall event_in_range evs →
  ∃ s', for_each evs event_handler s = Some (tt, s') ∧ display_ok (n + Z.of_nat (length evs)) s'.
Proof.
  revert n s. induction evs as [|e evs IH]; intros n s Hs Hn He; cbn [for_each length] in *.
  - exists s. by rewrite Z.add_0_r.
  - apply Forall_cons in He as [He Hes]. destruct (event_ok n s e Hs ltac:(lia) He) as (s1 & E & Hs1).
    erewrite bind_run by exact E.
    destruct (IH (n + 1) s1 Hs1 ltac:(lia) Hes) as (s2 & E2 & Hs2). exists s2.
    split; [done|]. by replace (n + Z.of_nat (S (length evs))) with (n + 1 + Z.of_nat (length evs)) by lia.
Qed.

(** Construction succeeds on a driver with its buffers, whatever was sent. *)
Lemma initDisplay_sent_ok out h w :
  mem_ok h → ∃ s, initDisplay (set_sent out (DisplayState_init h w)) = Some (tt, s) ∧ display_ok 1 s.
Proof.
  intros Hh. unfold initDisplay. do 2 (erewrite bind_run by reflexivity).
  erewrite bind_run by (apply initModeMessageData_run; cbn; lia).
  do 2 (erewrite bind_run by apply update_run).
  assert (∀ s, filling 1 s → ∃ s', changeDisplayMode displayModeMessage None s = Some (tt, s') ∧
    display_ok 1 s') as Hent.
  { intros s Hs. destruct (enter_message_ok 1 s Hs) as (s' & E & Hs' & _). eauto. }
  apply Hent. split.
  - constructor; cbn; try done.
    + constructor; cbn; unfold OUT_SIZE, NUM_OF_BICOLOR_UNITS, COM_SIZE, animationsAfterOff, checkCountMax;
        auto; lia.
    + split; [done|]. apply Forall_fmap, Forall_replicate. done.
    + constructor; cbn; unfold forever_int, INCREMENT_Y_SCALE; auto with lia.
  - constructor; cbn; unfold forever_int, INCREMENT_Y_SCALE; auto with lia.
Qed.

Lemma initDisplay_ok h w :
  mem_ok h → ∃ s, initDisplay (DisplayState_init h w) = Some (tt, s) ∧ display_ok 1 s.
Proof. apply (initDisplay_sent_ok []). Qed.

End events.

(** ** A shown message as a machine of its own *)

(** What an event makes of the message, and whether it ends the message. *)
Definition message_event (e : DisplayEvent) (m : ModeMessageData) : ModeMessageData * bool :=
  match e with
  | TickFast => let '(m', _, gone) := fast_next m in (m', gone)
  | Tick250ms =>
      (if blink m then set_blinkBlankInEffect (negb (blinkBlankInEffect m)) m else m, false)
  | Tick1sec =>
      if timeout m =? forever_u32 then (m, false)
      else
        let t := u32 (timeout m - 1) in
        if t =? 0 then (set_timeout forever_u32 m, completedCallback m)
        else (set_timeout t m, false)
  | _ => (m, false)
  end.

(** The message after a sequence of events, while it is shown. *)
Fixpoint message_run (evs : list DisplayEvent) (m : ModeMessageData) : option ModeMessageData :=
  match evs with
  | [] => Some m
  | e :: evs =>
      let '(m', gone) := message_event e m in
      if gone then None else message_run evs m'
  end.

Definition no_message_post (e : DisplayEvent) : Prop :=
  match e with MsgModePost _ => False | _ => True end.

Section message.
Context {W : Type} `{DisplayWorld W}.
Implicit Types s : DisplayState W.

Lemma call_message (h : Mode → option (M W ())) s :
  currModeIndex s = displayModeMessage →
  call_handler h s = match h modeMessage with Some f => f s | None => Some (tt, s) end.
Proof.
  intros Hi. unfold call_handler, current_mode.
  erewrite bind_run; [|erewrite bind_run by reflexivity; rewrite Hi; reflexivity].
  by destruct (h modeMessage).
Qed.

(** The mode and the message are as given. *)
Definition shows (i : Z) (m : ModeMessageData) (i' : Z) (m' : ModeMessageData) : Prop :=
  i' = i ∧ m' = m.

Lemma shows_in n s : display_ok n s → display_in (shows (currModeIndex s) (modeMessageData s)) n s.
Proof. done. Qed.

(** An event that runs a handler the mode has not. *)
Lemma idle_tick n f h s :
  display_ok n s → currModeIndex s = displayModeMessage → h modeMessage = None →
  ∃ s', (update_tickers f;; call_handler h) s = Some (tt, s') ∧ display_ok n s' ∧
    currModeIndex s' = displayModeMessage ∧ modeMessageData s' = modeMessageData s.
Proof.
  intros Hs Hi Hh. destruct (keeps_tickers _ n f s (shows_in n s Hs)) as ([] & s1 & E & Hs1 & Hi1 & Hm1).
  exists s1. erewrite bind_run by exact E. rewrite call_message by congruence. rewrite Hh.
  rewrite Hi1, Hm1. done.
Qed.

Lemma display_ok_next n s : display_ok n s → display_ok (n + 1) s.
Proof. intros [Hb Hx]. split; [|done]. eapply base_ok_weaken; [done|lia]. Qed.

Lemma message_fast n s :
  display_ok n s → n < 2 ^ 31 - 1 → currModeIndex s = displayModeMessage →
  let '(m, gone) := message_event TickFast (modeMessageData s) in
  ∃ s', displayTickFast s = Some (tt, s') ∧ display_ok (n + 1) s' ∧ modeMessageData s' = m ∧
    currModeIndex s' = if gone then displayModeBasicClock else displayModeMessage.
Proof.
  intros Hs Hn Hi. destruct (keeps_tickers _ n (λ t, set_tickerFast (u8 (tickerFast t + 1)) t) s
    (shows_in n s Hs)) as ([] & s1 & E & Hs1 & Hi1 & Hm1).
  unfold displayTickFast. erewrite bind_run by exact E. rewrite call_message by congruence.
  cbn [handlerTickFast modeMessage]. unfold message_event. rewrite <-Hm1.
  pose proof (modeMessageFast_run n s1 Hs1 Hn) as Hr. pose proof Hs1 as [Hb Hx].
  destruct (fast_next_ok _ (bo_message _ _ Hb) Hx) as (Hm & Hx' & Hk).
  destruct (fast_next (modeMessageData s1)) as [[m k] gone]. cbn [fst snd] in *.
  destruct Hr as (h & out & w & Er & Hh). exists (drawn_to h out w (after m k gone s1)).
  split; [done|]. split; [|split; [done|]].
  - apply drawn_ok; [|done]. destruct (after_ok n k m gone s1 Hs1 Hm Hx' ltac:(lia)) as [Hb' ?].
    split; [|done]. eapply base_ok_weaken; [done|lia].
  - cbn. rewrite Hi1, Hi. by destruct gone.
Qed.

Lemma message_second n s :
  display_ok n s → currModeIndex s = displayModeMessage →
  let '(m, gone) := message_event Tick1sec (modeMessageData s) in
  ∃ s', displayTick1sec s = Some (tt, s') ∧ display_ok n s' ∧ modeMessageData s' = m ∧
    currModeIndex s' = if gone then displayModeBasicClock else displayModeMessage.
Proof.
  intros Hs Hi. destruct (keeps_tickers _ n (λ t, set_ticker1sec (u8 (ticker1sec t + 1)) t) s
    (shows_in n s Hs)) as ([] & s1 & E & Hs1 & Hi1 & Hm1).
  unfold displayTick1sec. erewrite bind_run by exact E.
  assert (Hdim : ∀ s2, display_ok n s2 → ∃ s', updateDim s2 = Some (tt, s') ∧ display_ok n s' ∧
    modeMessageData s' = modeMessageData s2 ∧ currModeIndex s' = currModeIndex s2).
  { intros s2 Hs2. destruct (dim_keeps _ n s2 (shows_in n s2 Hs2)) as ([] & s3 & E3 & Hs3 & Hi3 & Hm3).
    exists s3. auto. }
  assert (∃ s2, call_handler handlerTick1Sec s1 = Some (tt, s2) ∧ display_ok n s2 ∧
    (modeMessageData s2, currModeIndex s2) =
    let '(m, gone) := message_event Tick1sec (modeMessageData s) in
    (m, if gone then displayModeBasicClock else displayModeMessage)) as (s2 & E2 & Hs2 & Hv).
  { assert (display_ok n (set_modeMessageData (message_event Tick1sec (modeMessageData s1)).1 s1)) as Hset.
    { destruct Hs1 as [Hb Hx]. unfold message_event. pose proof (bo_message _ _ Hb) as Hc.
      assert (∀ t, message_core (set_timeout t (modeMessageData s1))) as Ht by (intros t; by destruct Hc).
      split; [apply base_ok_message; [done|]|]; cbv zeta; repeat case_match;
        first [exact Hc|apply Ht|exact Hx]. }
    rewrite call_message by congruence. cbn [handlerTick1Sec modeMessage].
    unfold modeMessageCheckTimeout, message_event in *. erewrite bind_run by reflexivity.
    rewrite <-Hm1. destruct (timeout (modeMessageData s1) =? forever_u32).
    { exists s1. split; [done|]. split; [done|]. by rewrite Hi1, Hi. }
    erewrite bind_run by apply update_run. destruct (u32 _ =? 0).
    - erewrite bind_run by apply update_run. set (s2 := set_modeMessageData _ _).
      replace s2 with (set_modeMessageData (set_timeout forever_u32 (modeMessageData s1)) s1)
        by (by destruct s1).
      cbn [fst] in Hset. clear s2. set (s2 := set_modeMessageData _ _) in *.
      destruct (completed_run (modeMessageData s1) s2) as (h & out & w & E2 & Hh);
        [by destruct Hset as [[]]|].
      rewrite E2. eexists. split; [done|]. split.
      + apply drawn_ok; [|done]. rewrite <-(Z.add_0_r n). pose proof Hset as [Hb Hx].
        apply after_ok; [done|by apply bo_message in Hb|done|lia].
      + cbn. rewrite Hi1, Hi. done.
    - eexists. split; [done|]. split; [exact Hset|]. cbn. by rewrite Hi1, Hi. }
  erewrite bind_run by exact E2. destruct (Hdim s2 Hs2) as (s3 & E3 & Hs3 & Hm3 & Hi3).
  destruct (message_event Tick1sec (modeMessageData s)) as [m gone]. injection Hv as <- Hv.
  exists s3. split; [done|]. split; [done|]. by rewrite Hi3.
Qed.

Lemma message_event_run n s e :
  display_ok n s → n < 2 ^ 31 - 1 → currModeIndex s = displayModeMessage → no_message_post e →
  let '(m, gone) := message_event e (modeMessageData s) in
  ∃ s', event_handler e s = Some (tt, s') ∧ display_ok (n + 1) s' ∧ modeMessageData s' = m ∧
    currModeIndex s' = if gone then displayModeBasicClock else displayModeMessage.
Proof.
  intros Hs Hn Hi He.
  assert (Hidle : ∀ f h, h (modeMessage (W:=W)) = None →
    ∃ s', (update_tickers f;; call_handler h) s = Some (tt, s') ∧ display_ok (n + 1) s' ∧
      modeMessageData s' = modeMessageData s ∧ currModeIndex s' = displayModeMessage).
  { intros f h Hh. destruct (idle_tick n f h s Hs Hi Hh) as (s' & E & Hs' & Hi' & Hm').
    exists s'. auto using display_ok_next. }
  assert (Hkeep : ∀ m : M W (), keeps (shows (currModeIndex s) (modeMessageData s)) n m →
    ∃ s', m s = Some (tt, s') ∧ display_ok (n + 1) s' ∧
      modeMessageData s' = modeMessageData s ∧ currModeIndex s' = displayModeMessage).
  { intros m Hm. destruct (Hm s (shows_in n s Hs)) as ([] & s' & E & Hs' & Hi' & Hm').
    exists s'. rewrite Hi', Hm'. auto using display_ok_next. }
  destruct e; cbn [event_handler message_event]; try done; try (by apply Hidle).
  - pose proof (message_fast n s Hs Hn Hi) as Hf. cbn [message_event] in Hf.
    destruct (fast_next (modeMessageData s)) as [[m k] gone]. exact Hf.
  - set (f := λ t, set_ticker250ms (u8 (ticker250ms t + 1)) t).
    destruct (keeps_tickers _ n f s (shows_in n s Hs)) as ([] & s1 & E & Hs1 & Hi1 & Hm1).
    unfold displayTick250ms. erewrite bind_run by exact E. rewrite call_message by congruence.
    cbn [handlerTick250ms modeMessage]. unfold modeMessageCheckBlink. rewrite update_run, Hm1.
    eexists. split; [done|]. split; [|split; [done|cbn; congruence]].
    apply display_ok_next. destruct Hs1 as [Hb Hx]. rewrite Hm1 in Hx.
    pose proof (bo_message _ _ Hb) as Hc. rewrite Hm1 in Hc.
    split; [apply base_ok_message; [done|]|]; cbn; case_match; try done. by destruct Hc.
  - apply Hkeep. unfold displayTick500ms. apply keeps_seq; [apply check_keeps|].
    apply keeps_seq; [apply keeps_tickers|]. intros s2 Hs2. pose proof Hs2 as [_ [Hi2 _]].
    exists tt, s2. by rewrite call_message by congruence.
  - pose proof (message_second n s Hs Hi) as Hf.
    destruct (message_event Tick1sec (modeMessageData s)) as [m gone] eqn:Ee.
    unfold message_event in Ee. rewrite Ee.
    destruct Hf as (s' & E & Hs' & Hm' & Hi'). exists s'. auto using display_ok_next.
  - apply Hkeep. unfold displayTick25sec. intros s2 Hs2. pose proof Hs2 as [_ [Hi2 _]].
    exists tt, s2. by rewrite call_message by congruence.
  - apply Hkeep. unfold displayTick1min. intros s2 Hs2. pose proof Hs2 as [_ [Hi2 _]].
    exists tt, s2. by rewrite call_message by congruence.
  - apply Hkeep, imgPost_keeps.
  - apply Hkeep, bgmsgPost_keeps.
Qed.

(** Outside of the message mode, only a message request leads into it. *)
Definition not_message (i : Z) (m : ModeMessageData) : Prop := i ≠ displayModeMessage.

Lemma gone_event n s e :
  display_ok n s → n < 2 ^ 31 - 1 → currModeIndex s ≠ displayModeMessage → no_message_post e →
  ∃ s', event_handler e s = Some (tt, s') ∧ display_ok (n + 1) s' ∧
    currModeIndex s' ≠ displayModeMessage.
Proof.
  intros Hs Hn Hi He. destruct (is_other e) eqn:Eo.
  - destruct (keeps_weaken not_message n (n + 1) (event_handler e) s) as (s' & E & Hs' & Hi');
      [|done|lia|by exists s'].
    apply event_keeps; [|done|done]. intros i j m Hj _.
    unfold not_message, displayModeMessage, displayModeNothing, displayModeBasicClock in *. lia.
  - destruct e; try done. cbn [event_handler]. unfold displayTickFast.
    destruct (keeps_tickers not_message n (λ t, set_tickerFast (u8 (tickerFast t + 1)) t) s)
      as ([] & s1 & E & Hs1 & Hi1); [done|].
    erewrite bind_run by exact E. exists s1. split; [|by split; [apply display_ok_next|]].
    pose proof Hs1 as [[_ Hr _ _ _ _ _] _].
    destruct (current_mode_run s1 Hr) as (m & Em & Hl & _). unfold call_handler.
    erewrite bind_run by exact Em. unfold not_message, displayModeMessage in Hi1.
    assert (currModeIndex s1 = 0 ∨ currModeIndex s1 = 1) as [E1|E1] by lia;
      rewrite E1 in Hl; by injection Hl as <-.
Qed.

Lemma gone_events n s evs :
  display_ok n s → n + Z.of_nat (length evs) < 2 ^ 31 → currModeIndex s ≠ displayModeMessage →
  Forall no_message_post evs →
  ∃ s', for_each evs event_handler s = Some (tt, s') ∧
    display_ok (n + Z.of_nat (length evs)) s' ∧ currModeIndex s' ≠ displayModeMessage.
Proof.
  revert n s. induction evs as [|e evs IH]; intros n s Hs Hn Hi He; cbn [for_each length] in *.
  - exists s. by rewrite Z.add_0_r.
  - apply Forall_cons in He as [He Hes].
    destruct (gone_event n s e Hs ltac:(lia) Hi He) as (s1 & E & Hs1 & Hi1).
    erewrite bind_run by exact E.
    destruct (IH (n + 1) s1 Hs1 ltac:(lia) Hi1 Hes) as (s2 & E2 & Hs2 & Hi2). exists s2.
    by replace (n + Z.of_nat (S (length evs))) with (n + 1 + Z.of_nat (length evs)) by lia.
Qed.

(** While a message is shown, the display implements the message's machine. *)
Lemma message_machine n s evs :
  display_ok n s → n + Z.of_nat (length evs) < 2 ^ 31 → currModeIndex s = displayModeMessage →
  Forall no_message_post evs →
  ∃ s', for_each evs event_handler s = Some (tt, s') ∧
    display_ok (n + Z.of_nat (length evs)) s' ∧
    match message_run evs (modeMessageData s) with
    | Some m => currModeIndex s' = displayModeMessage ∧ modeMessageData s' = m
    | None => currModeIndex s' ≠ displayModeMessage
    end.
Proof.
  revert n s. induction evs as [|e evs IH]; intros n s Hs Hn Hi He; cbn [for_each length message_run] in *.
  - exists s. by rewrite Z.add_0_r.
  - apply Forall_cons in He as [He Hes].
    pose proof (message_event_run n s e Hs ltac:(lia) Hi He) as Hr.
    destruct (message_event e (modeMessageData s)) as [m gone].
    destruct Hr as (s1 & E & Hs1 & Hm1 & Hi1). erewrite bind_run by exact E.
    replace (n + Z.of_nat (S (length evs))) with (n + 1 + Z.of_nat (length evs)) by lia.
    destruct gone.
    + destruct (gone_events (n + 1) s1 evs) as (s2 & E2 & Hs2 & Hi2); [done|lia| |done|by exists s2].
      by rewrite Hi1.
    + destruct (IH (n + 1) s1 Hs1 ltac:(lia) Hi1 Hes) as (s2 & E2 & Hs2 & Hv).
      exists s2. by rewrite <-Hm1.
Qed.

End message.

(** ** What a request sets *)

Definition message_names : list string :=
  ["msg"; "x"; "y"; "font"; "alternateFont"; "confetti"; "bounce"; "noScroll"; "blink"; "color";
   "repeats"; "timeout"].

(** A parameter as the request has it, through [g], or the default. *)
Definition param_or {A} (p : StringMap) (name : string) (g : string → A) (d : A) : A :=
  match map_find name p with Some v => g (c_str v) | None => d end.

Definition number (v : string) : Z := strtoul v 10.

(** Evaluates the comparisons of a literal key with the names. *)
Ltac eval_params :=
  repeat match goal with
  | |- context [is_param (String ?a ?b) ?c] =>
      let v := eval vm_compute in (is_param (String a b) c) in
      change (is_param (String a b) c) with v
  | H : context [is_param (String ?a ?b) ?c] |- _ =>
      let v := eval vm_compute in (is_param (String a b) c) in
      change (is_param (String a b) c) with v in H
  end.

Section requests.
Context {W : Type} `{DisplayWorld W}.
Implicit Types s : DisplayState W.

(** The parts of the message that no [msg] parameter touches. *)
Definition untouched {A} (F : ModeMessageData → A) : Prop :=
  (∀ t m, F (set_msg t m) = F m) ∧ (∀ i m, F (set_modeMsgsIndex i m) = F m) ∧
  (∀ w m, F (set_wd w m) = F m).

Lemma handle_msg_untouched {A} (F : ModeMessageData → A) n value s s' :
  untouched F → filling n s → handle_msg value s = Some (tt, s') →
  F (modeMessageData s') = F (modeMessageData s).
Proof.
  intros (Ht & Hi & _) [Hb _] E. unfold handle_msg in E. destruct (strncase_eq 7 value "#cookie").
  - destruct (draws_run (W:=W) (if string_empty (string_drop 7 value)
      then ask (random_number modeMsgsIndexLast) else mret (strtoul (string_drop 7 value) 10)) s)
      as (a & h & out & w & E1 & _); [|apply (bo_mem _ _ Hb)|].
    { case_match; [apply ask_draws|by apply draws_ret]. }
    erewrite bind_run in E by exact E1. unfold set_msg_data in E. rewrite update_run in E.
    injection E as <-. cbn. apply Hi.
  - destruct (draws_run (W:=W) (message_text MESSAGE_MAX_SIZE value) s) as (a & h & out & w & E1 & _).
    { eapply draws_any, message_text_draws, message_fits. }
    { apply (bo_mem _ _ Hb). }
    erewrite bind_run in E by exact E1. unfold set_msg_data in E. rewrite update_run in E.
    injection E as <-. cbn. apply Ht.
Qed.

(** A field that one parameter sets, by its value, and no other one touches,
    if the parameters have [Pv]. *)
Definition sets (Pv : string → string → Prop) {A} (F : ModeMessageData → A) (name : string)
    (g : string → A) : Prop :=
  ∀ n k v s s', filling n s → k ∈ message_names → Pv k v →
  handle_msg_param (k, v) s = Some (tt, s') →
  F (modeMessageData s') = if decide (k = name) then g (c_str v) else F (modeMessageData s).

Lemma posted_field Pv {A} (F : ModeMessageData → A) name g n p s s' :
  sets Pv F name g → map_sorted p → (∀ k, k ∈ p.*1 → k ∈ message_names) →
  (∀ k v, (k, v) ∈ p → Pv k v) → Forall param_in_range p →
  filling n s → for_each p handle_msg_param s = Some (tt, s') →
  F (modeMessageData s') = param_or p name g (F (modeMessageData s)).
Proof.
  intros HF. revert s. induction p as [|[k v] p IH]; intros s Hs Hn HP Hr Hf E; cbn [for_each] in E.
  { by injection E as <-. }
  apply Forall_cons in Hr as [Hr1 Hr]. apply map_sorted_inv in Hs as [Hs Hlt].
  destruct (handle_msg_param_filling n (k, v) Hr1 s Hf) as ([] & s1 & E1 & Hf1).
  erewrite bind_run in E by exact E1.
  assert (k ∈ message_names) as Hk by (apply Hn, list_elem_of_here).
  assert (∀ k, k ∈ p.*1 → k ∈ message_names) as Hn' by (intros k' Hk'; by apply Hn, list_elem_of_further).
  assert (∀ k v, (k, v) ∈ p → Pv k v) as HP' by (intros k' v' Hk'; by apply HP, list_elem_of_further).
  rewrite (IH s1 Hs Hn' HP' Hr Hf1 E).
  rewrite (HF n k v s s1 Hf Hk (HP k v ltac:(apply list_elem_of_here)) E1). unfold param_or. cbn [map_find].
  case_decide as Ek.
  - subst k. rewrite less_irrefl. by rewrite (map_find_None_lt name p).
  - destruct (less name k) eqn:El.
    + assert (map_find name p = None) as ->; [|done].
      apply map_find_None_lt. intros e He. specialize (Hlt e He). by eapply less_trans.
    + destruct (less k name) eqn:El'; [done|]. destruct Ek. symmetry. by apply less_total.
Qed.

(** What holds of the fields of the message when it was requested. *)
Record requested (p : StringMap) (m : ModeMessageData) : Prop := {
  rq_x : currX m = param_or p "x" (λ v, s32 (number v)) 0;
  rq_y : currYFactor m =
    param_or p "y" (λ v, s32 (u32 (number v * INCREMENT_Y_SCALE))) (5 * INCREMENT_Y_SCALE);
  rq_font : font m = param_or p "font" number font5x4;
  rq_alternate : alternateFont m =
    param_or p "alternateFont" (λ v, parseBooleanValue (Some v)) false;
  rq_confetti : confetti m = param_or p "confetti" (λ v, s32 (number v)) 0;
  rq_bounce : incrementY m =
    param_or p "bounce" (λ v, if parseBooleanValue (Some v) then INCREMENT_Y_VALUE else 0) 0;
  rq_scroll : incrementX m =
    param_or p "noScroll" (λ v, negb (parseBooleanValue (Some v))) true;
  rq_blink : blink m = param_or p "blink" (λ v, parseBooleanValue (Some v)) false;
  rq_color : displayColor m = param_or p "color" number displayColorAlternate;
  rq_repeats : repeats m = param_or p "repeats" (λ v, s32 (number v)) forever_int;
  rq_timeout : timeout m = param_or p "timeout" number 60;
  rq_callback : completedCallback m = true;
}.

Definition request_ok (p : StringMap) : Prop :=
  map_sorted p ∧ (∀ k, k ∈ p.*1 → k ∈ message_names) ∧ Forall param_in_range p.

Ltac solve_sets :=
  clear; intros n k v s s' Hf Hk HP E; unfold message_names in Hk;
  repeat (apply elem_of_cons in Hk as [->|Hk]; [
    unfold handle_msg_param in E; eval_params; cbv beta iota zeta in E;
    first [rewrite decide_True by done | rewrite decide_False by done];
    first [ by (eapply handle_msg_untouched; [|exact Hf|exact E])
          | unfold set_msg_data in E; rewrite update_run in E; by injection E as <- ]|]);
  by apply elem_of_nil in Hk.

Lemma request_fields n p s s' :
  request_ok p → filling n s → modeMessageData s = request_default (wd (modeMessageData s)) →
  for_each p handle_msg_param s = Some (tt, s') → requested p (modeMessageData s').
Proof.
  intros (Hs & Hn & Hr) Hf Hm E.
  assert (∀ {A} (F : ModeMessageData → A) name g, sets (λ _ _, True) F name g →
    F (modeMessageData s') = param_or p name g (F (request_default (wd (modeMessageData s))))) as Hp.
  { intros A F name g HF. rewrite <-Hm. by eapply (posted_field (λ _ _, True)). }
  constructor.
  - apply (Hp _ currX). solve_sets.
  - apply (Hp _ currYFactor). solve_sets.
  - apply (Hp _ font). solve_sets.
  - apply (Hp _ alternateFont). solve_sets.
  - apply (Hp _ confetti). solve_sets.
  - apply (Hp _ incrementY). solve_sets.
  - apply (Hp _ incrementX). solve_sets.
  - apply (Hp _ blink). solve_sets.
  - apply (Hp _ displayColor). solve_sets.
  - apply (Hp _ repeats). solve_sets.
  - apply (Hp _ timeout). solve_sets.
  - rewrite (Hp _ completedCallback "" (λ _, true)); [unfold param_or; by case_match|solve_sets].
Qed.

(** A [msg] parameter that asks neither for a stock text nor for an entry of
    the dictionary. *)
Definition plain (k v : string) : Prop :=
  k = "msg" → strncase_eq 7 (c_str v) "#cookie" = false ∧
              strncase_eq msgDictPrefixLen (c_str v) msgDictPrefix = false.

Ltac solve_text :=
  clear; intros n k v s s' Hf Hk HP E; unfold message_names in Hk;
  apply elem_of_cons in Hk as [->|Hk]; [
    unfold handle_msg_param in E; eval_params; cbv beta iota zeta in E;
    destruct (HP eq_refl) as [H1 H2]; unfold handle_msg in E; rewrite H1 in E;
    unfold message_text in E; rewrite H2 in E; cbn [andb] in E;
    unfold set_msg_data in E; erewrite bind_run in E by reflexivity; rewrite update_run in E;
    by injection E as <- |];
  repeat (apply elem_of_cons in Hk as [->|Hk]; [
    unfold handle_msg_param in E; eval_params; cbv beta iota zeta in E;
    rewrite ?decide_False by done; unfold set_msg_data in E; rewrite update_run in E;
    by injection E as <- |]);
  by apply elem_of_nil in Hk.

Lemma request_text n p s s' :
  request_ok p → (∀ k v, (k, v) ∈ p → plain k v) → filling n s →
  modeMessageData s = request_default (wd (modeMessageData s)) →
  for_each p handle_msg_param s = Some (tt, s') →
  msg (modeMessageData s') = param_or p "msg" (snprintf_s MESSAGE_MAX_SIZE) EmptyString ∧
  modeMsgsIndex (modeMessageData s') = modeMsgsIndexLast.
Proof.
  intros (Hs & Hn & Hr) HP Hf Hm E. split.
  - rewrite (posted_field plain msg "msg" (snprintf_s MESSAGE_MAX_SIZE) n p s s'); try done.
    + by rewrite Hm.
    + solve_text.
  - rewrite (posted_field plain modeMsgsIndex "" (λ _, modeMsgsIndexLast) n p s s'); try done.
    + rewrite Hm. unfold param_or. by case_match.
    + solve_text.
Qed.

Lemma request_shows n s p :
  display_ok n s → n < 2 ^ 31 - 1 → request_ok p →
  ∃ s', doHandleMsgModePost p s = Some (tt, s') ∧ display_ok (n + 1) s' ∧
    currModeIndex s' = displayModeMessage ∧ requested p (modeMessageData s') ∧
    wd (modeMessageData s') = text_width_m (modeMessageData s') ∧
    ((∀ k v, (k, v) ∈ p → plain k v) →
     msg (modeMessageData s') = param_or p "msg" (snprintf_s MESSAGE_MAX_SIZE) EmptyString).
Proof.
  intros Hs Hn Hp. destruct (msgModePost_run n s p Hs Hn (proj2 (proj2 Hp)))
    as (s1 & s2 & s' & Hm1 & E & Hf & E' & Hs' & Hi & Hm).
  exists s'. split; [done|]. split; [done|]. split; [done|].
  assert (modeMessageData s1 = request_default (wd (modeMessageData s1))) as Hm1'
    by (by rewrite Hm1).
  split; [|split; [by rewrite Hm|]].
  - rewrite Hm. destruct (request_fields (n + 1) p s1 s2 Hp Hf Hm1' E) as [].
    unfold measured, entered. constructor; by case_match.
  - intros HP. destruct (request_text (n + 1) p s1 s2 Hp HP Hf Hm1' E) as [Ht Hidx].
    rewrite Hm. unfold measured, entered. rewrite Hidx. exact Ht.
Qed.
End requests.

(** ** How long a message is shown *)

Definition is_second (e : DisplayEvent) : bool := match e with Tick1sec => true | _ => false end.
Definition is_frame (e : DisplayEvent) : bool := match e with TickFast => true | _ => false end.

Fixpoint count (f : DisplayEvent → bool) (evs : list DisplayEvent) : Z :=
  match evs with [] => 0 | e :: evs => b2z (f e) + count f evs end.

Lemma count_nonneg f evs : 0 <= count f evs.
Proof. induction evs as [|e evs IH]; cbn; [done|]. unfold b2z. case_match; lia. Qed.

(** What a frame keeps of the message. *)
Lemma wrap_next_fields m :
  timeout (wrap_next m).1 = timeout m ∧ completedCallback (wrap_next m).1 = completedCallback m ∧
  alternateFont (wrap_next m).1 = alternateFont m ∧
  (repeats m = forever_int → repeats (wrap_next m).1 = forever_int ∧ (wrap_next m).2 = false) ∧
  (0 <= repeats m → (wrap_next m).2 = (repeats m =? 0) ∧
     (0 < repeats m → repeats (wrap_next m).1 = repeats m - 1)) ∧
  (alternateFont m = false → wd (wrap_next m).1 = wd m).
Proof.
  unfold wrap_next. set (m2 := if alternateFont (set_currX 0 m) then _ else _).
  assert (timeout m2 = timeout m ∧ completedCallback m2 = completedCallback m ∧
    alternateFont m2 = alternateFont m ∧ repeats m2 = repeats m ∧
    (alternateFont m = false → wd m2 = wd m)) as (H1 & H2 & H3 & H4 & H5).
  { unfold m2. cbn [alternateFont set_currX]. destruct (alternateFont m) eqn:Ea;
      split_and!; done || congruence. }
  rewrite H4. unfold forever_int. destruct (Z.eqb_spec (repeats m) (-1)) as [E|E].
  - cbn [fst snd]. split_and!; try done; intros; [by split; congruence|lia].
  - destruct (Z.ltb_spec (repeats m - 1) 0); cbn [fst snd]; (split_and!; try done); intros; try lia.
    split; [|done]. symmetry. apply Z.eqb_neq. lia.
Qed.

Lemma bounce_next_fields m :
  timeout (bounce_next m).1 = timeout m ∧ completedCallback (bounce_next m).1 = completedCallback m ∧
  alternateFont (bounce_next m).1 = alternateFont m ∧ repeats (bounce_next m).1 = repeats m ∧
  wd (bounce_next m).1 = wd m ∧ incrementX (bounce_next m).1 = incrementX m ∧
  currX (bounce_next m).1 = currX m.
Proof. unfold bounce_next. cbv zeta. repeat case_match; split_and!; done || congruence. Qed.

Lemma fast_next_forever m :
  repeats m = forever_int →
  timeout (fast_next m).1.1 = timeout m ∧
  completedCallback (fast_next m).1.1 = completedCallback m ∧
  repeats (fast_next m).1.1 = forever_int ∧ (fast_next m).2 = false.
Proof.
  intros Hr. unfold fast_next. cbv zeta. destruct (incrementX m).
  2: { pose proof (bounce_next_fields m) as (? & ? & _ & ? & _).
       destruct (bounce_next m) as [m3 k]. cbn in *. split_and!; congruence. }
  set (m1 := set_currX _ m). destruct (_ <=? _).
  - pose proof (wrap_next_fields m1) as (H1 & H2 & _ & H3 & _). destruct (H3 Hr) as [H4 H5].
    destruct (wrap_next m1) as [m2 fin]. cbn [fst snd] in *. rewrite H5. cbn [andb].
    pose proof (bounce_next_fields m2) as (? & ? & _ & ? & _).
    destruct (bounce_next m2) as [m3 k]. cbn in *. split_and!; congruence.
  - pose proof (bounce_next_fields m1) as (? & ? & _ & ? & _).
    destruct (bounce_next m1) as [m3 k]. cbn in *. split_and!; done || congruence.
Qed.

(** A message that is left to its timeout. *)
Lemma timeout_run evs m :
  completedCallback m = true → repeats m = forever_int → 0 <= timeout m < 2 ^ 32 →
  is_Some (message_run evs m) ↔
  timeout m = 0 ∨ timeout m = forever_u32 ∨ count is_second evs < timeout m.
Proof.
  revert m. induction evs as [|e evs IH]; intros m Hc Hr Ht; cbn [message_run count].
  { split; [|by eexists]. intros _. destruct (decide (timeout m = 0)); [by left|]. right; right. lia. }
  assert (Hsame : ∀ m', completedCallback m' = true → repeats m' = forever_int →
    timeout m' = timeout m → is_Some (message_run evs m') ↔
      timeout m = 0 ∨ timeout m = forever_u32 ∨ count is_second evs < timeout m).
  { intros m' H1 H2 H3. rewrite IH by (done || lia). by rewrite H3. }
  destruct e; cbn [message_event is_second b2z]; rewrite ?Z.add_0_l; try (by apply Hsame).
  - pose proof (fast_next_forever m Hr) as (H1 & H2 & H3 & H4).
    destruct (fast_next m) as [[m' k] gone]. cbn [fst snd] in *. rewrite H4.
    apply Hsame; congruence.
  - apply Hsame; by case_match.
  - unfold forever_u32 in *. destruct (Z.eqb_spec (timeout m) (2 ^ 32 - 1)) as [E|E].
    { rewrite IH by done. split; intros _; auto. }
    pose proof (count_nonneg is_second evs). destruct (Z.eqb_spec (u32 (timeout m - 1)) 0) as [E'|E'].
    + rewrite Hc. assert (timeout m = 1) as ->.
      { destruct (decide (timeout m = 0)) as [E0|]; [by rewrite E0 in E'|].
        rewrite u32_small in E' by lia. lia. }
      split; [intros [? ?]; done|]. lia.
    + rewrite IH by (done || apply u32_range). cbn [timeout set_timeout].
      destruct (decide (timeout m = 0)) as [E0|].
      * rewrite E0. split; intros _; [by left|]. right; left. done.
      * rewrite u32_small by lia. rewrite u32_small in E' by lia. split; lia.
Qed.

(** A scrolling message: what is left of its [n + 1] passes, in frames. *)
Definition frames_left (m : ModeMessageData) : Z :=
  repeats m * (wd m + OUT_SIZE) + (wd m + OUT_SIZE - currX m).

Record scrolling (m : ModeMessageData) : Prop := {
  sc_scroll : incrementX m = true;
  sc_font : alternateFont m = false;
  sc_callback : completedCallback m = true;
  sc_timeout : timeout m = forever_u32;
  sc_repeats : 0 <= repeats m;
  sc_wd : -1 <= wd m;
  sc_x : 0 <= currX m < wd m + OUT_SIZE;
}.

Lemma fast_next_scrolling m :
  scrolling m →
  if (fast_next m).2 then frames_left m = 1
  else scrolling (fast_next m).1.1 ∧ frames_left (fast_next m).1.1 = frames_left m - 1.
Proof.
  intros [Hs Hf Hc Ht Hr Hw Hx]. unfold fast_next. rewrite Hs. cbv zeta.
  set (m1 := set_currX (currX m + 1) m). unfold frames_left.
  destruct (Z.leb_spec (wd m + OUT_SIZE) (currX m + 1)).
  - pose proof (wrap_next_fields m1) as (H1 & H2 & H3 & _ & H4 & H5).
    pose proof (wrap_next_scroll m1) as [H6 H7].
    destruct (H4 Hr) as [H8 H9]. specialize (H5 Hf).
    change (repeats m1) with (repeats m) in *. change (wd m1) with (wd m) in *.
    change (incrementX m1) with (incrementX m) in *. change (timeout m1) with (timeout m) in *.
    change (completedCallback m1) with (completedCallback m) in *.
    change (alternateFont m1) with (alternateFont m) in *.
    destruct (wrap_next m1) as [m2 fin]. cbn [fst snd] in *. rewrite Hc, andb_true_r, H8.
    destruct (Z.eqb_spec (repeats m) 0) as [E|E]; cbn [snd]; [lia|].
    pose proof (bounce_next_fields m2) as (B1 & B2 & B3 & B4 & B5 & B6 & B7).
    destruct (bounce_next m2) as [m3 k]. cbn [fst snd] in *.
    specialize (H9 ltac:(lia)). split; [constructor; congruence || lia|]. nia.
  - pose proof (bounce_next_fields m1) as (B1 & B2 & B3 & B4 & B5 & B6 & B7).
    change (repeats m1) with (repeats m) in *. change (wd m1) with (wd m) in *.
    change (incrementX m1) with (incrementX m) in *. change (timeout m1) with (timeout m) in *.
    change (completedCallback m1) with (completedCallback m) in *.
    change (alternateFont m1) with (alternateFont m) in *.
    change (currX m1) with (currX m + 1) in *.
    destruct (bounce_next m1) as [m3 k]. cbn [fst snd] in *.
    split; [constructor; congruence || lia|]. rewrite B4, B5, B7. lia.
Qed.

Lemma passes_run evs m :
  scrolling m → is_Some (message_run evs m) ↔ count is_frame evs < frames_left m.
Proof.
  revert m. induction evs as [|e evs IH]; intros m Hm; cbn [message_run count].
  { split; [|by eexists]. intros _. destruct Hm. unfold frames_left. nia. }
  assert (Hsame : ∀ m', scrolling m' → frames_left m' = frames_left m →
    is_Some (message_run evs m') ↔ count is_frame evs < frames_left m).
  { intros m' H1 H2. by rewrite IH, H2. }
  destruct e; cbn [message_event is_frame b2z]; rewrite ?Z.add_0_l; try (by apply Hsame).
  - pose proof (fast_next_scrolling m Hm) as Hn. pose proof (count_nonneg is_frame evs).
    destruct (fast_next m) as [[m' k] gone]. cbn [fst snd] in *. destruct gone.
    + split; [intros [? ?]; done|]. lia.
    + destruct Hn as [Hn1 Hn2]. rewrite IH by done. lia.
  - apply Hsame; case_match; try done. by destruct Hm.
  - rewrite (sc_timeout _ Hm). cbn. by apply Hsame.
Qed.

Section promises.
Context {W : Type} `{DisplayWorld W}.
Implicit Types s : DisplayState W.

(** A message request does what its parameters say: from any state of the
    display it is handled without an error and shows the message, whose
    position, font, colors, speed, repetitions and timeout are the parameters'
    values, or the defaults for those the request has not; a text that names
    no stock text and no dictionary entry is the text, cut to the size of the
    array, and its width is measured. *)
Theorem message_request n s p :
  display_ok n s → n < 2 ^ 31 - 1 → request_ok p →
  ∃ s', event_handler (MsgModePost p) s = Some (tt, s') ∧ display_ok (n + 1) s' ∧
    currModeIndex s' = displayModeMessage ∧ requested p (modeMessageData s') ∧
    wd (modeMessageData s') = text_width_m (modeMessageData s') ∧
    ((∀ k v, (k, v) ∈ p → plain k v) →
     msg (modeMessageData s') = param_or p "msg" (snprintf_s MESSAGE_MAX_SIZE) EmptyString).
Proof. apply request_shows. Qed.

(** C5: while a message is shown, the display implements the message's own
    machine: after a message request and any ticks and background requests,
    its message data are those of [message_run] as long as that goes on, and
    once that ends the display has left the message mode and does not come
    back. *)
Theorem message_refines n s p evs :
  display_ok n s → n + 1 + Z.of_nat (length evs) < 2 ^ 31 → request_ok p →
  Forall no_message_post evs →
  ∃ s1 s', event_handler (MsgModePost p) s = Some (tt, s1) ∧
    for_each evs event_handler s1 = Some (tt, s') ∧
    match message_run evs (modeMessageData s1) with
    | Some m => currModeIndex s' = displayModeMessage ∧ modeMessageData s' = m
    | None => currModeIndex s' ≠ displayModeMessage
    end.
Proof.
  intros Hs Hn Hp He. destruct (request_shows n s p Hs ltac:(lia) Hp) as (s1 & E & Hs1 & Hi & _).
  destruct (message_machine (n + 1) s1 evs Hs1 Hn Hi He) as (s' & E' & _ & Hm).
  by exists s1, s'.
Qed.

(** The mode after a request and more events, by the message's machine. *)
Lemma shown_after n s p evs :
  display_ok n s → n + 1 + Z.of_nat (length evs) < 2 ^ 31 → request_ok p →
  Forall no_message_post evs →
  ∃ s1 s', event_handler (MsgModePost p) s = Some (tt, s1) ∧
    for_each evs event_handler s1 = Some (tt, s') ∧ requested p (modeMessageData s1) ∧
    message_core (modeMessageData s1) ∧
    wd (modeMessageData s1) = text_width_m (modeMessageData s1) ∧
    (currModeIndex s' = displayModeMessage ↔ is_Some (message_run evs (modeMessageData s1))).
Proof.
  intros Hs Hn Hp He.
  destruct (request_shows n s p Hs ltac:(lia) Hp) as (s1 & E & Hs1 & Hi & Hr & Hw & _).
  destruct (message_machine (n + 1) s1 evs Hs1 Hn Hi He) as (s' & E' & _ & Hm).
  exists s1, s'. split_and!; try done; [by apply Hs1|..].
  destruct (message_run evs (modeMessageData s1)) as [m|].
  - split; [by eexists|by intros _; apply Hm].
  - split; [done|by intros [? ?]].
Qed.

Lemma param_number_range p name d :
  0 <= d < 2 ^ 32 → 0 <= param_or p name number d < 2 ^ 32.
Proof.
  intros Hd. unfold param_or, number. case_match; [|done].
  pose proof (strtoul_range (c_str s) 10 ltac:(lia)). unfold ULONG_MAX in *. lia.
Qed.

(** C21: a message that is not limited by repetitions is shown for the seconds
    its timeout says, 60 by default, counted by the one second tick, however
    frames, other ticks and background requests come between; 2^32 - 1 means
    forever, and so does 0. *)
Theorem message_times_out n s p evs :
  display_ok n s → n + 1 + Z.of_nat (length evs) < 2 ^ 31 → request_ok p →
  map_find "repeats" p = None → Forall no_message_post evs →
  let t := param_or p "timeout" number 60 in
  ∃ s1 s', event_handler (MsgModePost p) s = Some (tt, s1) ∧
    for_each evs event_handler s1 = Some (tt, s') ∧
    (currModeIndex s' = displayModeMessage ↔
     t = 0 ∨ t = forever_u32 ∨ count is_second evs < t).
Proof.
  intros Hs Hn Hp Hrep He t.
  destruct (shown_after n s p evs Hs Hn Hp He) as (s1 & s' & E & E' & Hr & _ & _ & Hm).
  exists s1, s'. split; [done|]. split; [done|]. rewrite Hm, timeout_run.
  - by rewrite (rq_timeout _ _ Hr).
  - apply (rq_callback _ _ Hr).
  - rewrite (rq_repeats _ _ Hr). unfold param_or. by rewrite Hrep.
  - rewrite (rq_timeout _ _ Hr). apply param_number_range. lia.
Qed.


Definition far_request : StringMap := [("x", "2147483647")].

(** The position of a message is not checked: a request for the largest
    [int] is accepted, and the next frame increments it beyond [int], which
    C++ leaves undefined. *)
Theorem message_position_overflow n s :
  display_ok n s → n < 2 ^ 31 - 1 →
  ∃ s1, event_handler (MsgModePost far_request) s = Some (tt, s1) ∧
    event_handler TickFast s1 = None.
Proof.
  intros [Hb Hx] Hn. pose proof (bo_effect _ _ Hb) as He. pose proof (bo_message _ _ Hb) as Hc.
  pose proof (mc_wd _ Hc) as Hwd. cbn [event_handler]. unfold doHandleMsgModePost.
  erewrite bind_run by (apply initModeMessageData_run; lia). set (s0 := after _ 1 false s).
  set (m := set_currX (2 ^ 31 - 1) (modeMessageData s0)).
  assert (for_each far_request handle_msg_param s0 = Some (tt, set_modeMessageData m s0)) as E.
  { cbn [for_each far_request]. erewrite bind_run; [reflexivity|].
    unfold handle_msg_param. eval_params. cbv beta iota zeta. unfold set_msg_data.
    rewrite update_run. unfold m. do 3 f_equal. }
  erewrite bind_run by exact E.
  destruct (enter_message_run (set_modeMessageData m s0)) as (h & out & w & E' & Hh).
  { by destruct Hb. }
  { constructor; cbn; unfold forever_int, INCREMENT_Y_SCALE; auto with lia. }
  rewrite E'. eexists. split; [reflexivity|]. unfold displayTickFast.
  set (s2 := drawn_to _ _ _ _). set (s3 := set_tickers (set_tickerFast (u8 (tickerFast (tickers s2) + 1)) (tickers s2)) s2).
  erewrite (bind_run _ _ s2 tt s3) by reflexivity. rewrite call_message by done.
  cbn [handlerTickFast modeMessage]. unfold modeMessageFast.
  assert (modeMessageData s3 = measured (entered m)) as Hm3 by done.
  assert (currX (modeMessageData s3) = 2 ^ 31 - 1 ∧ incrementX (modeMessageData s3) = true) as [Hx3 Hi3].
  { rewrite Hm3. unfold measured, entered. by case_match. }
  destruct (message_frame_run s3) as (h4 & out4 & w4 & E4 & _); [done| |].
  { intros _. rewrite Hx3. unfold OUT_SIZE, NUM_OF_BICOLOR_UNITS. lia. }
  erewrite bind_run by exact E4. unfold message_scroll.
  unfold mbind at 1, M_bind at 1. erewrite bind_run by reflexivity.
  change (modeMessageData (drawn_to h4 out4 w4 s3)) with (modeMessageData s3). rewrite Hi3, Hx3.
  done.
Qed.
End promises.

(** ** A display in its real surroundings *)

Definition demo_surroundings : Surroundings TimerTick :=
  mkSurroundings demo_dictionary Motion.initial [500; 700] ∅ (λ _, mkTm 5 7 0 22 8 3) 0 Z.of_nat 0.

Definition demo_init : DisplayState (Surroundings TimerTick) :=
  DisplayState_init (filled 0) demo_surroundings.

Definition demo_events : list DisplayEvent :=
  [TickFast; Tick500ms; MsgBackgroundPost [("enabled", "1"); ("index", "9999"); ("msg", "hi")];
   Tick250ms; Tick1sec].

Lemma demo_start :
  ∃ s, initDisplay demo_init = Some (tt, s) ∧ display_ok 1 s.
Proof. apply initDisplay_ok, filled_ok. Qed.

(** Decides that concrete parameters are known, in order and in range. *)
Ltac concrete_in_range :=
  repeat (apply Forall_cons; split; [
    split; [intros [Hk|Hk]; first [discriminate Hk | vm_compute; discriminate]
           |intros Hk; first [discriminate Hk | vm_compute; discriminate]]|]);
  apply Forall_nil; exact I.
Ltac concrete_request :=
  split; [unfold map_sorted; repeat constructor|];
  split; [intros k Hk; unfold message_names;
          repeat (apply elem_of_cons in Hk as [->|Hk]; [set_solver|]); by apply elem_of_nil in Hk|];
  concrete_in_range.


Definition demo_post : StringMap :=
  [("color", "1"); ("msg", "hello"); ("timeout", "3")].

Lemma demo_post_ok : request_ok demo_post.
Proof. concrete_request. Qed.

Lemma message_request_witness :
  ∃ s, initDisplay demo_init = Some (tt, s) ∧
  ∃ s', event_handler (MsgModePost demo_post) s = Some (tt, s') ∧ display_ok 2 s' ∧
    currModeIndex s' = displayModeMessage ∧ requested demo_post (modeMessageData s') ∧
    wd (modeMessageData s') = text_width_m (modeMessageData s') ∧
    ((∀ k v, (k, v) ∈ demo_post → plain k v) →
     msg (modeMessageData s') =
       param_or demo_post "msg" (snprintf_s MESSAGE_MAX_SIZE) EmptyString).
Proof.
  destruct demo_start as (s & E & Hs). exists s. split; [exact E|].
  apply (message_request 1 s demo_post Hs); [reflexivity|exact demo_post_ok].
Defined.

Lemma message_refines_witness :
  ∃ s, initDisplay demo_init = Some (tt, s) ∧
  ∃ s1 s', event_handler (MsgModePost demo_post) s = Some (tt, s1) ∧
    for_each demo_events event_handler s1 = Some (tt, s') ∧
    match message_run demo_events (modeMessageData s1) with
    | Some m => currModeIndex s' = displayModeMessage ∧ modeMessageData s' = m
    | None => currModeIndex s' ≠ displayModeMessage
    end.
Proof.
  destruct demo_start as (s & E & Hs). exists s. split; [exact E|].
  apply (message_refines 1 s demo_post demo_events Hs);
    [reflexivity|exact demo_post_ok|repeat constructor].
Defined.

(** After three seconds the message with the timeout of three is gone. *)
Lemma message_times_out_witness :
  ∃ s, initDisplay demo_init = Some (tt, s) ∧
  ∃ s1 s', event_handler (MsgModePost demo_post) s = Some (tt, s1) ∧
    for_each (demo_events ++ [Tick1sec; Tick1sec]) event_handler s1 = Some (tt, s') ∧
    (currModeIndex s' = displayModeMessage ↔
     param_or demo_post "timeout" number 60 = 0 ∨
     param_or demo_post "timeout" number 60 = forever_u32 ∨
     count is_second (demo_events ++ [Tick1sec; Tick1sec]) < param_or demo_post "timeout" number 60).
Proof.
  destruct demo_start as (s & E & Hs). exists s. split; [exact E|].
  apply (message_times_out 1 s demo_post (demo_events ++ [Tick1sec; Tick1sec]) Hs);
    [reflexivity|exact demo_post_ok|reflexivity|repeat constructor].
Defined.

Definition demo_passes : StringMap :=
  [("msg", "hi"); ("repeats", "1"); ("timeout", "4294967295")].

Lemma demo_passes_ok : request_ok demo_passes.
Proof. concrete_request. Qed.


Lemma message_position_overflow_witness :
  ∃ s, initDisplay demo_init = Some (tt, s) ∧
  ∃ s1, event_handler (MsgModePost far_request) s = Some (tt, s1) ∧
    event_handler TickFast s1 = None.
Proof.
  destruct demo_start as (s & E & Hs). exists s. split; [exact E|].
  apply (message_position_overflow 1 s Hs). reflexivity.
Defined.
