(* ===== verification/DisplayThread.v ===== *)
(** * The display's thread: src/src/display.cpp

    [Display::runThreadLoop] around the iterations of Display.v: its nine
    services, the start of the driver and of the component, and their end; and
    that the thread, whatever it is asked and however its iterations interleave
    with the timer's passes, does what Services.v demands of a polling loop. *)
From S2P Require Import Prelude StdMap CLib CommonUtils Inbox TimerTick Services ThreadSystem Sensors Dictionary.
From S2P Require Import Ht1632 DisplayTypes DisplayState DisplayInternal Display DisplayProofs DisplayProps.

#[local] Opaque modeMessageMsgs MESSAGE_MAX_SIZE BACKGROUND_MESSAGE_MSG_SIZE.

Definition displayFastTick : TimerTickService := new_service TimerTick.millisPerTick true ServiceCv.

(** [display100msTick] ... [display1minTick] *)
Definition display_intervals : list Z := [100; 250; 500; 1000; 5000; 10000; 25000; 60000].
Definition display_slow_ticks : list TimerTickService :=
  (λ i, new_service i true ServiceBool) <$> display_intervals.

Section thread.
Context {W : Type} `{DisplayWorld W}.
Implicit Types (s : DisplayState W) (d : Display W).

(** An undefined step of the component, as an outcome of the loop. *)
Definition defined {A} (what : string) (o : option A) : res A :=
  match o with Some a => Ok a | None => Throw (Undefined what) end.

(** The loop's part under [instanceMutex], and the requests of other threads. *)
#[export] Instance display_loop : PollingLoop (Display W) (DisplayTodoType * StringMap) := {|
  loop_services := (displayFastTick, display_slow_ticks);
  loop_iterate flags d := defined "display iteration" (mjoin (iteration None flags d));
  loop_post todo := enqueueDisplayTodo todo.1 todo.2;
|}.

(** What precedes the loop and what follows it. *)
Definition display_begin (burst : option (line → Z)) (garbage : list Z) (w : W) (t : TimerTick) d
    : res (list Z * TimerTick * Display W) :=
  let! (ps, t) := enter (all_services (D := Display W)) t in
  let! d := defined "display start" (thread_start burst garbage w d) in
  Ok (ps, t, d).

Definition display_end (ps : list Z) (t : TimerTick) d : res (TimerTick * Display W) :=
  let! d := defined "display end" (thread_exit d) in
  Ok (leave ps t, d).

(** The same without the services. *)
Definition display_ends (burst : option (line → Z)) (garbage : list Z) (w : W) : ThreadEnds (Display W) := {|
  thread_begin d := defined "display start" (thread_start burst garbage w d);
  thread_end d := defined "display end" (thread_exit d);
|}.

(** ** An iteration is a sequence of events *)

Definition todo_event (todo : DisplayTodoType * StringMap) : DisplayEvent :=
  match todo.1 with
  | displayTodoTypeHandleMsgModePost => MsgModePost todo.2
  | displayTodoTypeHandleImgBackgroundPost => ImgBackgroundPost todo.2
  | displayTodoTypeHandleMsgBackgroundPost => MsgBackgroundPost todo.2
  end.

Definition slow_events : list DisplayEvent :=
  [Tick100ms; Tick250ms; Tick500ms; Tick1sec; Tick5sec; Tick10sec; Tick25sec; Tick1min].

Definition raised_events (flags : list bool) : list DisplayEvent :=
  (filter (λ e, e.1 = true) (zip flags slow_events)).*2.

Definition iteration_events (flags : list bool) d : list DisplayEvent :=
  option_list (todo_event <$> head (displayTodos d)) ++ TickFast :: raised_events flags.

Lemma for_each_app {A} (l k : list A) (body : A → M W ()) s :
  for_each (l ++ k) body s = '(_, s) ← for_each l body s; for_each k body s.
Proof.
  revert s. induction l as [|a l IH]; intros s; [done|]. cbn. unfold mbind, M_bind.
  destruct (body a s) as [[[] s1]|]; [apply IH|done].
Qed.

Lemma flagged_run flags evs s :
  for_each (zip flags (event_handler <$> evs)) (λ e, when e.1 e.2) s =
  for_each ((filter (λ e, e.1 = true) (zip flags evs)).*2) event_handler s.
Proof.
  revert evs s. induction flags as [|f flags IH]; intros [|e evs] s; try done.
  cbn [fmap list_fmap zip zip_with for_each]. destruct f; cbn [fst snd when].
  - rewrite filter_cons_True by done. cbn [fmap list_fmap for_each snd]. unfold mbind, M_bind.
    destruct (event_handler e s) as [[[] s1]|]; [apply IH|done].
  - rewrite filter_cons_False by done. apply IH.
Qed.

Lemma iteration_ticks_run flags s :
  iteration_ticks flags s = for_each (TickFast :: raised_events flags) event_handler s.
Proof.
  unfold iteration_ticks. change slow_ticks with (event_handler <$> slow_events). cbn [for_each].
  unfold mbind, M_bind. cbn [event_handler]. destruct (displayTickFast s) as [[[] s1]|]; [|done].
  apply flagged_run.
Qed.

Lemma iteration_run flags d s :
  internal d = Some s →
  iteration None flags d =
    '(_, s') ← for_each (iteration_events flags d) event_handler s;
    Some (Some (mkDisplayThread (tail (displayTodos d)) (Some s'))).
Proof.
  intros Es. unfold iteration, iteration_events, checkTodoList, dequeueDisplayTodo.
  assert (∀ todos s, (d ← on_internal (iteration_ticks flags) (mkDisplayThread todos (Some s));
                      Some (Some d)) =
    '(_, s') ← for_each (TickFast :: raised_events flags) event_handler s;
    Some (Some (mkDisplayThread todos (Some s')))) as Ht.
  { intros todos s1. unfold on_internal. cbn [internal displayTodos]. rewrite iteration_ticks_run.
    by destruct (for_each _ _ s1) as [[[] s2]|]. }
  destruct d as [[|todo todos] o]; cbn [internal displayTodos head fmap option_fmap option_map] in *;
    subst o; [apply Ht|].
  change (option_list (Some ?x) ++ ?l) with (x :: l).
  assert (∀ s, event_handler (todo_event todo) s = handle_todo todo s) as Eh by (by destruct todo as [[] p]).
  assert (on_internal (handle_todo todo) (mkDisplayThread todos (Some s)) =
    '(_, s') ← event_handler (todo_event todo) s; Some (mkDisplayThread todos (Some s'))) as ->
    by (unfold on_internal; cbn [internal displayTodos]; by rewrite Eh).
  cbn [for_each tail displayTodos].
  assert (∀ (m k : M W ()) s, (m;; k) s = '(_, s') ← m s; k s') as Hseq
    by (intros m k s0; unfold mbind at 1, M_bind; by destruct (m s0) as [[[] s1]|]).
  rewrite Hseq. destruct (event_handler (todo_event todo) s) as [[[] s1]|]; [apply Ht|done].
Qed.

(** ** Its invariant *)

(** Only a frame and a message request can advance the color effect. *)
Definition weight (evs : list DisplayEvent) : Z :=
  Z.of_nat (length (filter (λ e, is_other e = false) evs)).

Lemma event_weighed n s e :
  display_ok n s → n < 2 ^ 31 - 1 → event_in_range e →
  ∃ s', event_handler e s = Some (tt, s') ∧ display_ok (n + weight [e]) s'.
Proof.
  intros Hs Hn He. unfold weight. destruct (is_other e) eqn:Eo.
  - rewrite filter_cons_False by congruence. cbn. rewrite Z.add_0_r.
    destruct (keeps_weaken anything n n (event_handler e) s) as (s' & E & Hs' & _);
      [by apply event_keeps|done|lia|eauto].
  - rewrite filter_cons_True by done. by apply event_ok.
Qed.

Lemma weight_cons e evs : weight (e :: evs) = weight [e] + weight evs.
Proof. unfold weight. rewrite !filter_cons. destruct (decide _); cbn [length filter list_filter]; lia. Qed.

Lemma events_weighed evs n s :
  display_ok n s → n + weight evs < 2 ^ 31 → Forall event_in_range evs →
  ∃ s', for_each evs event_handler s = Some (tt, s') ∧ display_ok (n + weight evs) s'.
Proof.
  revert n s. induction evs as [|e evs IH]; intros n s Hs Hn He.
  - exists s. unfold weight. cbn. by rewrite Z.add_0_r.
  - apply Forall_cons in He as [He Hes]. rewrite weight_cons in *.
    assert (0 <= weight evs) by (unfold weight; lia). assert (0 <= weight [e]) by (unfold weight; lia).
    destruct (is_other e) eqn:Eo.
    + assert (weight [e] = 0) as Ew by (unfold weight; by rewrite filter_cons_False by congruence).
      rewrite Ew in *. destruct (keeps_weaken anything n n (event_handler e) s) as (s1 & E & Hs1 & _);
        [by apply event_keeps|done|lia|]. cbn [for_each]. erewrite bind_run by exact E.
      by apply (IH n s1).
    + assert (weight [e] = 1) as Ew by (unfold weight; by rewrite filter_cons_True).
      destruct (event_weighed n s e Hs ltac:(lia) He) as (s1 & E & Hs1).
      cbn [for_each]. erewrite bind_run by exact E. rewrite Z.add_assoc.
      by apply IH; [|lia|].
Qed.

Lemma raised_other flags : Forall (λ e, is_other e = true) (raised_events flags).
Proof.
  apply Forall_forall. intros e. unfold raised_events. rewrite list_elem_of_fmap.
  intros ([f e'] & -> & Hin%list_elem_of_filter). destruct Hin as [_ Hin].
  apply elem_of_zip_r in Hin. cbn in *.
  repeat (apply elem_of_cons in Hin as [->|Hin]; [done|]). by apply not_elem_of_nil in Hin.
Qed.

Lemma iteration_weight flags d : weight (iteration_events flags d) <= 2.
Proof.
  unfold iteration_events. assert (weight (TickFast :: raised_events flags) = 1) as E.
  { rewrite weight_cons. enough (weight (raised_events flags) = 0) as -> by done.
    unfold weight. induction (raised_other flags) as [|e l He _ IH]; [done|].
    by rewrite filter_cons_False by congruence. }
  destruct (displayTodos d) as [|todo todos]; cbn [head fmap option_fmap option_map];
    [change (weight (TickFast :: raised_events flags) <= 2); lia|].
  change (weight (todo_event todo :: TickFast :: raised_events flags) <= 2).
  rewrite weight_cons, E. unfold weight. rewrite filter_cons. destruct (decide _); cbn; lia.
Qed.

Definition todo_in_range (todo : DisplayTodoType * StringMap) : Prop :=
  event_in_range (todo_event todo).

Lemma iteration_in_range flags d :
  Forall todo_in_range (displayTodos d) → Forall event_in_range (iteration_events flags d).
Proof.
  intros Ht. unfold iteration_events. apply Forall_app. split.
  - destruct Ht; cbn; [constructor|by apply Forall_singleton].
  - constructor; [done|]. eapply Forall_impl; [apply raised_other|]. by intros [].
Qed.

(** After [n] iterations. *)
Definition display_inv (n : Z) d : Prop :=
  0 <= n ∧ Forall todo_in_range (displayTodos d) ∧
  ∃ s, internal d = Some s ∧ display_ok (1 + 2 * n) s.

Lemma display_ok_weaken n n' s : display_ok n s → n <= n' → display_ok n' s.
Proof. intros [Hb Hs] Hn. split; [by eapply base_ok_weaken|done]. Qed.

#[export] Instance display_loop_laws :
  PollingLaws (Display W) (DisplayTodoType * StringMap) display_inv todo_in_range
    (λ n, n <= 2 ^ 30 - 2).
Proof.
  split.
  - repeat constructor.
  - intros n d x (Hn & Ht & s & E & Hs) Hx. split; [done|]. split; [|by exists s].
    cbn. apply Forall_app. split; [done|by apply Forall_singleton].
  - intros n d flags (Hn & Ht & s & E & Hs) Hl.
    pose proof (iteration_weight flags d) as Hw.
    destruct (events_weighed (iteration_events flags d) _ s Hs ltac:(lia) (iteration_in_range flags d Ht))
      as (s' & Es & Hs').
    exists (mkDisplayThread (tail (displayTodos d)) (Some s')). split.
    + cbn [loop_iterate display_loop]. by rewrite (iteration_run flags d s E), Es.
    + split; [lia|]. split; [destruct Ht; [constructor|done]|]. exists s'. split; [done|].
      eapply display_ok_weaken; [done|lia].
Qed.

(** ** Start and end *)

Lemma thread_start_ok burst garbage w d :
  buffer_ok garbage → ∃ d', thread_start burst garbage w d = Some d' ∧
    displayTodos d' = displayTodos d ∧ ∃ s, internal d' = Some s ∧ display_ok 1 s.
Proof.
  intros Hg. destruct (begin_safe display_pins burst garbage HT1632_new Hg) as (out & h & Eb & Hm).
  destruct (initDisplay_sent_ok out h w Hm) as (s & E & Hs). unfold thread_start.
  revert Eb E. generalize (begin display_pins burst garbage HT1632_new). generalize (initDisplay (W := W)).
  intros I o -> E. cbn. rewrite E. cbn. eexists. split; [done|]. split; [done|]. by exists s.
Qed.

Lemma thread_exit_ok d s :
  internal d = Some s → mem_ok (matrix s) →
  ∃ d', thread_exit d = Some d' ∧ displayTodos d' = displayTodos d ∧ internal d' = None.
Proof.
  intros E Hm. unfold thread_exit, on_internal. rewrite E.
  assert (draws (W := W) DisplayInternal_delete any) as Hd.
  { unfold DisplayInternal_delete. apply draws_seq; [apply ht_clearAll_draws|].
    apply draws_seq; [apply ht_renderAll_draws|]. apply draws_ht_send. eauto. }
  destruct (Hd s Hm) as ([] & h & out & w & -> & _). cbn. by eexists.
Qed.

Lemma display_thread_laws burst garbage w :
  buffer_ok garbage →
  ThreadLaws (H0 := display_ends burst garbage w) (Display W) (DisplayTodoType * StringMap) display_inv
    todo_in_range (λ d, Forall todo_in_range (displayTodos d)).
Proof.
  intros Hg. split.
  - repeat (constructor; [split; [done|by (left + right)]|]). constructor.
  - intros d x Hd Hx. cbn. apply Forall_app. split; [done|by apply Forall_singleton].
  - intros d Hd. destruct (thread_start_ok burst garbage w d Hg) as (d' & E & Et & s & Es & Hs).
    exists d'. unfold thread_begin, display_ends. rewrite E. split; [reflexivity|]. split; [reflexivity|].
    rewrite Et. split; [exact Hd|]. exists s. split; [exact Es|exact Hs].
  - intros n d (_ & Ht & s & E & Hs). destruct (thread_exit_ok d s E (bo_mem _ _ (proj1 Hs))) as (d' & E' & Et & _).
    exists d'. unfold thread_end, display_ends. rewrite E'. split; [reflexivity|]. rewrite Et. exact Ht.
Qed.

End thread.

(** The periods of the display's services, in passes of the timer. *)
Example display_periods :
  period displayFastTick = 2 ∧
  (period <$> display_slow_ticks) = [9; 21; 42; 84; 417; 834; 2084; 5001].
Proof. done. Qed.

(** ** Witnesses *)

Definition demo_garbage : list Z := replicate (Z.to_nat ADDR_SPACE_SIZE) 7.

(** Two passes of the timer let the loop go on once. *)
Definition demo_thread : list (PollingEvent (DisplayTodoType * StringMap)) :=
  let pass := Timer (λ _, true) in
  [Request (displayTodoTypeHandleMsgModePost, [("msg", "hello")]); pass; pass; Iterate; pass; pass;
   Iterate].

Example demo_thread_runs :
  match display_begin None demo_garbage demo_surroundings TimerTick_new Display_new with
  | Ok (ps, t, d) =>
      match polling_run ps demo_thread t d with
      | Some (Ok (t, d)) =>
          (displayTodos d = []) ∧
          match display_end ps t d with Ok (t, d) => objects t = ∅ | _ => False end
      | _ => False
      end
  | Throw _ => False
  end.
Proof. vm_compute. split; reflexivity. Qed.

