(* ===== verification/WebPages.v ===== *)
(** * The pages of the web server: src/src/webHandlerInternal.cpp

    The HTML the GET handlers produce. A buffer under construction is the list
    of the pieces appended to it, as in StatusReport.v. *)
From S2P Require Import Prelude CLib Dictionary Ht1632 DisplayTypes LedStrip StatusReport WebForm.

Definition FORM_MSG_BOX_LEN : Z := 64.

(** ** Form elements *)

Definition addCheckboxOrRadio (element name val label : string) (selected : bool) : list string :=
  ["<label><input type='"; element; "' name='"; name; "' value='"; val; "' "]
  ++ (if selected then ["checked "] else []) ++ ["/> "; label; "</label>"].

Definition addRadioButton (name val label : string) (selected : bool) : list string :=
  addCheckboxOrRadio "radio" name val label selected.

(** The overload for an [int] value. *)
Definition addRadioButtonInt (name : string) (valAutoInt : Z) (label : string) (selected : bool)
    : list string :=
  addRadioButton name (INT2STR valAutoInt) label selected.

Definition addCheckBox (name val label : string) (selected : bool) : list string :=
  addCheckboxOrRadio "checkbox" name val label selected.

Definition addFormFont : list string :=
  ["<br/>Font: "]
  ++ addRadioButtonInt "font" font5x4 "5x4" true
  ++ addRadioButtonInt "font" font8x4 "8x4" false
  ++ addRadioButtonInt "font" font7x5 "7x5" false
  ++ addRadioButtonInt "font" font8x6 "8x6" false
  ++ addRadioButtonInt "font" font16x8 "16x8" false.

Definition addFormColor (includeAlternate : bool) : list string :=
  ["<br/>Color: "]
  ++ addRadioButtonInt "color" displayColorGreen "green" (negb includeAlternate)
  ++ addRadioButtonInt "color" displayColorRed "red" false
  ++ addRadioButtonInt "color" displayColorYellow "yellow" false
  ++ (if includeAlternate then addRadioButtonInt "color" displayColorAlternate "alternate" true
      else []).

Definition addXYCoordinatesInput : list string :=
  ["<br/>X (0-"; INT2STR (OUT_SIZE - 1); "): <input type='range' size='3' min='0' max='";
   INT2STR (OUT_SIZE - 1); "' value='0' name='x'>";
   "  Y (0-"; INT2STR (COM_SIZE - 1); "): <input type='range' size='2' min='0' max='";
   INT2STR (COM_SIZE - 1); "' value=0 name='y'>"].

Definition addAnimationStepInput : list string :=
  ["<br/>Animation: "]
  ++ addRadioButtonInt "animationStep" animationStepNone "none" true
  ++ addRadioButtonInt "animationStep" animationStepFast "fast" false
  ++ addRadioButtonInt "animationStep" animationStep250ms "250ms" false
  ++ addRadioButtonInt "animationStep" animationStep500ms "500ms" false
  ++ addRadioButtonInt "animationStep" animationStep1sec "1sec" false
  ++ addRadioButtonInt "animationStep" animationStep5sec "5sec" false
  ++ ["<br/>phase (0-255): <input type='range' size=3 min=0 max=255 value=2 name='animationPhase'>";
      " value (0-254): <input type='range' size=3 min=0 max=254 value=0 name='animationPhaseValue'>"].

Definition contentStart : list string :=
  ["<html>"; "<head>"; "<title>Embedded Office Clock Display Controller</title>";
   "<style type="; dquote; "text/css"; dquote; ">"; "BODY { font-family: sans-serif }";
   "H1 { font-size: 14pt; text-decoration: underline }"; "P { font-size: 10pt; }";
   "</style>"; "</head>"; "<body>"].
Definition contentStop : list string := ["</body></html>"].

(** ** The pages *)

Definition page_notFound (uriPath : string) : list string :=
  ["<html><head>"; "<title>404 Not Found</title>"; "</head><body>"; "<h1>Not Found</h1>";
   "<p>The requested URL "; uriPath; " was not found on this server.</p>"; "</body></html>"].

Definition page_submit : list string := ["</p><input type='submit' value='Submit'/></form>"].

(** The index of a background item, and its two switches. *)
Definition page_index (count : Z) : list string :=
  ["<br/>Index (0-"; INT2STR (count - 1); "): <input type='range' min='0' max='";
   INT2STR (count - 1); "' value=0 name='index'>"].
Definition page_switches : list string :=
  ["<br/>Enabled: "] ++ addCheckBox "enabled" "yes" "" true
  ++ ["  Clear all: "] ++ addCheckBox "clearAll" "yes" "" false.

Definition page_imgBackground : list string :=
  contentStart
  ++ ["<form action='/imgBackground' method='post'>"; "<h1>Background Img</h1><p>"]
  ++ page_index BACKGROUND_IMG_COUNT
  ++ ["<br/>ImgArt Name: "]
  ++ addRadioButtonInt "imgArt" (-1) "default" true
  ++ (seqZ 0 imgArtLast ≫= λ i,
        addRadioButtonInt "imgArt" i
          (string_drop imgArtStrUniqueOffset (default EmptyString (imgArtStr !! Z.to_nat i))) false)
  ++ page_switches
  ++ addFormColor false ++ addXYCoordinatesInput ++ addAnimationStepInput
  ++ page_submit ++ contentStop.

Definition page_msgBackground : list string :=
  contentStart
  ++ ["<form action='/msgBackground' method='post'>"; "<h1>Background Message</h1><p>"]
  ++ page_index BACKGROUND_MESSAGE_COUNT
  ++ ["<br/>Msg: <input type='text' size='16' name='msg'>"]
  ++ page_switches
  ++ addFormFont ++ addFormColor false ++ addXYCoordinatesInput ++ addAnimationStepInput
  ++ page_submit ++ contentStop.

Definition page_msgMode : list string :=
  contentStart
  ++ ["<form action='/msgMode' method='post'>"; "<h1>Display Message</h1><p>";
      "<input type='text' size='"; INT2STR FORM_MSG_BOX_LEN; "' name='msg'><br/>"]
  ++ addFormFont
  ++ ["<br/>Alternate font: "] ++ addCheckBox "alternateFont" "yes" "" false
  ++ ["<br/>Confetti: "] ++ addCheckBox "confetti" "15" "" false
  ++ ["<br/>Bounce: "] ++ addCheckBox "bounce" "yes" "" false
  ++ ["<br/>NoScroll: "] ++ addCheckBox "noScroll" "yes" "" false
  ++ ["<br/>Blink: "] ++ addCheckBox "blink" "yes" "" false
  ++ addFormColor true
  ++ ["<br/>Scroll Repeat: "]
  ++ addRadioButton "repeats" "0" "none" false ++ addRadioButton "repeats" "5" "5" false
  ++ addRadioButton "repeats" "10" "10" false ++ addRadioButton "repeats" "100" "100" true
  ++ ["<br/>Timeout (sec): "]
  ++ addRadioButton "timeout" "3" "3" false ++ addRadioButton "timeout" "10" "10" false
  ++ addRadioButton "timeout" "60" "60" true ++ addRadioButton "timeout" "300" "300" false
  ++ addXYCoordinatesInput
  ++ page_submit ++ contentStop.

(** [mode_str] is what [LedStrip::getLedStripModeStr] answers. *)
Definition page_ledStrip (mode_str : Z → string) : list string :=
  contentStart
  ++ ["<form action='/ledStrip' method='post'>"; "<h1>Led Strip Config</h1><p>";
      "Pixels (0 to "; INT2STR (numberOfLeds - 1); ") formatting:"; "<input type='text' size='";
      INT2STR FORM_MSG_BOX_LEN;
      "' name='rawFormat'> e.g: pixels 3,4,5 with color R,G,B and pixel 9 with a 21bit color ==> 3-5:127,45,0 ; 9:762";
      "<br/>Extra Param: <input type='text' size='5' name='"; ledStripParamExtra; "'>";
      "<br/>Clear all Pixels: "]
  ++ addCheckBox ledStripParamClearAllPixels "yes" "" false
  ++ ["<br/> Mode: "]
  ++ (seqZ 0 ledStripModeCount ≫= λ i,
        addRadioButtonInt ledStripParamLedStripMode i (mode_str i) (i =? ledStripModeManual))
  ++ ["<p>Default Color (used whan it was not specified in pixel format):"; "<br/>";
      "Red (0-127): <input type='range' size=3 min=0 max=127 value=0 name='red'>";
      "  Green (0-127): <input type='range' size=3 min=0 max=127 value=0 name='green'>";
      "  Blue (0-127): <input type='range' size=3 min=0 max=127 value=0 name='blue'>";
      "<br/>Timeout (sec): "]
  ++ addRadioButton ledStripParamTimeout "3" "3" true
  ++ addRadioButton ledStripParamTimeout "10" "10" false
  ++ addRadioButton ledStripParamTimeout "60" "60" false
  ++ addRadioButton ledStripParamTimeout "300" "300" false
  ++ addRadioButton ledStripParamTimeout "-1" "never" false
  ++ page_submit ++ contentStop.

Definition page_dictionary : list string :=
  contentStart
  ++ ["<form action='/dictionary' method='post'>"; "<h1>Global Dictionary Config</h1><p>";
      "<br/>Operation: "]
  ++ addRadioButton dictionaryParamOperation dictionaryParamOperationSet
       dictionaryParamOperationSet false
  ++ addRadioButton dictionaryParamOperation dictionaryParamOperationAdd
       dictionaryParamOperationAdd true
  ++ addRadioButton dictionaryParamOperation dictionaryParamOperationDel
       dictionaryParamOperationDel false
  ++ ["<br/>Key: <input type='text' size='30' name='"; dictionaryParamKey; "'>";
      "<br/>Data: <input type='text' size='30' name='"; dictionaryParamData; "'>";
      "<br/>Timeout (sec): "]
  ++ addRadioButton dictionaryParamTimeout "3000" "3" false
  ++ addRadioButton dictionaryParamTimeout "10000" "10" false
  ++ addRadioButton dictionaryParamTimeout "60000" "60" true
  ++ addRadioButton dictionaryParamTimeout "300000" "300" false
  ++ addRadioButton dictionaryParamTimeout "-1" "never" false
  ++ page_submit ++ contentStop.

Definition page_root : list string :=
  contentStart
  ++ ["<h1>Office Clock main page</h1><p>";
      "<br/><a href='status'>status</a>"; "<br/><a href='status.json'>status (json)</a>";
      "<br/><a href='msgMode'>msg mode</a>"; "<br/><a href='imgBackground'>image background</a>";
      "<br/><a href='msgBackground'>message background</a>";
      "<br/><a href='ledStrip'>led strip</a>"; "<br/><a href='dictionary'>dictionary</a>";
      "<br/><a href='sound'>sound</a>"; "<br/><a href='stop'>stop</a> (careful!)"]
  ++ contentStop.
