(* ===== verification/Web.v ===== *)
(** * The web handlers: src/src/webHandlerInternal.cpp, webHandlerInternal.h

    The table of the handlers with their counters, the dispatch of a request,
    and what every handler does. What the handlers ask of the other components
    is the interface [WebServices]; libevent is the parsed request and the list
    of calls that build the reply. *)
From S2P Require Import Prelude StdMap CLib CommonUtils StatusReport WebForm WebPages.

(** ** Keys *)

(** [evhttp_cmd_type] of <event2/http.h>. *)
Definition EVHTTP_REQ_GET : Z := 1.
Definition EVHTTP_REQ_POST : Z := 2.
Definition EVHTTP_REQ_HEAD : Z := 4.
Definition EVHTTP_REQ_PUT : Z := 8.

Record WebHandlerKey := mkKey {
  key_method : Z;
  key_uriPath : string;
}.

Definition uriNotFound : WebHandlerKey := mkKey EVHTTP_REQ_GET "__notFound".
Definition uriHead : WebHandlerKey := mkKey EVHTTP_REQ_HEAD "/".
Definition get_key (uriPath : string) : WebHandlerKey := mkKey EVHTTP_REQ_GET uriPath.

#[export] Instance WebHandlerKey_eq_dec : EqDecision WebHandlerKey.
Proof. solve_decision. Defined.

(** [operator<]: by the method, then by the path. *)
Definition key_less (k1 k2 : WebHandlerKey) : bool :=
  if negb (key_method k1 =? key_method k2) then key_method k1 <? key_method k2
  else less (key_uriPath k1) (key_uriPath k2).

#[export] Program Instance WebHandlerKey_less : StdLess WebHandlerKey := {| less := key_less |}.
Next Obligation. intros [m p]. unfold key_less. cbn [key_method key_uriPath]. rewrite Z.eqb_refl. apply less_irrefl. Qed.
Next Obligation.
  intros [m p] [m' p'] [m'' p'']. unfold key_less. cbn [key_method key_uriPath].
  destruct (Z.eqb_spec m m'), (Z.eqb_spec m' m''), (Z.eqb_spec m m''); cbn [negb]; try lia.
  apply less_trans.
Qed.
Next Obligation.
  intros [m p] [m' p']. unfold key_less. cbn [key_method key_uriPath].
  rewrite (Z.eqb_sym m' m). destruct (Z.eqb_spec m m') as [->|]; cbn [negb]; [|lia].
  intros H1 H2. f_equal. by apply less_total.
Qed.

(** [operator()]: the name of the key in the status reports. *)
Definition key_name (k : WebHandlerKey) : string :=
  if bool_decide (key_uriPath k = key_uriPath uriNotFound) then key_uriPath k
  else
    let method :=
      if key_method k =? EVHTTP_REQ_GET then "get"
      else if key_method k =? EVHTTP_REQ_POST then "post"
      else if key_method k =? EVHTTP_REQ_PUT then "put"
      else if key_method k =? EVHTTP_REQ_HEAD then "head"
      else print_int (key_method k) in
    text [key_uriPath k; " ("; method; ")"].

(** ** Handlers *)

(** The classes derived from [WebHandler]. *)
Inductive WebHandlerClass :=
  | WebHandlerNotFound
  | WebHandlerHeadRoot
  | WebHandlerRoot
  | WebHandlerStatus
  | WebHandlerStatusJson
  | WebHandlerMsgMode
  | WebHandlerMsgModePost
  | WebHandlerImgBackground
  | WebHandlerImgBackgroundPost
  | WebHandlerMsgBackground
  | WebHandlerMsgBackgroundPost
  | WebHandlerLedStrip
  | WebHandlerLedStripPost
  | WebHandlerDictionary
  | WebHandlerDictionaryPost
  | WebHandlerStop.

(** An object of such a class. *)
Record WebHandler := mkHandler {
  handler_class : WebHandlerClass;
  hits : Z;
}.

Definition bumpHits (h : WebHandler) : WebHandler :=
  mkHandler (handler_class h) (u32 (hits h + 1)).

(** The objects by their address, and the table of addresses by their key. *)
Record WebHandlerInternal := mkWeb {
  objects : list WebHandler;
  webHandlers : list (WebHandlerKey * nat);
}.

Definition WebHandlerInternal_new : WebHandlerInternal := mkWeb [] [].

(** [new] of a handler. *)
Definition new_handler (c : WebHandlerClass) (w : WebHandlerInternal) : nat * WebHandlerInternal :=
  (length (objects w), mkWeb (objects w ++ [mkHandler c 0]) (webHandlers w)).

Definition register_address (k : WebHandlerKey) (a : nat) (w : WebHandlerInternal)
    : WebHandlerInternal :=
  mkWeb (objects w) (map_set k a (webHandlers w)).

(** [webHandlers[k] = new c] *)
Definition register (k : WebHandlerKey) (c : WebHandlerClass) (w : WebHandlerInternal)
    : WebHandlerInternal :=
  let '(a, w) := new_handler c w in register_address k a w.

Definition _start (w : WebHandlerInternal) : WebHandlerInternal :=
  let w := register uriNotFound WebHandlerNotFound w in
  let w := register uriHead WebHandlerHeadRoot w in
  let '(webHandlerRoot, w) := new_handler WebHandlerRoot w in
  let w := register_address (get_key "/") webHandlerRoot w in
  let w := register_address (get_key "/index.html") webHandlerRoot w in
  let w := register (get_key "/status") WebHandlerStatus w in
  let w := register (get_key "/status.json") WebHandlerStatusJson w in
  let w := register (get_key "/msgMode") WebHandlerMsgMode w in
  let w := register (mkKey EVHTTP_REQ_POST "/msgMode") WebHandlerMsgModePost w in
  let w := register (get_key "/imgBackground") WebHandlerImgBackground w in
  let w := register (mkKey EVHTTP_REQ_POST "/imgBackground") WebHandlerImgBackgroundPost w in
  let w := register (get_key "/msgBackground") WebHandlerMsgBackground w in
  let w := register (mkKey EVHTTP_REQ_POST "/msgBackground") WebHandlerMsgBackgroundPost w in
  let w := register (get_key "/ledStrip") WebHandlerLedStrip w in
  let w := register (mkKey EVHTTP_REQ_POST "/ledStrip") WebHandlerLedStripPost w in
  let w := register (get_key "/dictionary") WebHandlerDictionary w in
  let w := register (mkKey EVHTTP_REQ_POST "/dictionary") WebHandlerDictionaryPost w in
  let w := register (get_key "/stop") WebHandlerStop w in
  register (mkKey EVHTTP_REQ_POST "/stop") WebHandlerStop w.

(** [shutdown]: the addresses deleted, each once although the table may hold
    it under several keys. *)
Definition WebHandlerInternal_shutdown (w : WebHandlerInternal) : list nat :=
  remove_dups (snd <$> webHandlers w).

(** Finding a handler counts a hit. *)
Definition findWebHandler (k : WebHandlerKey) (w : WebHandlerInternal)
    : option nat * WebHandlerInternal :=
  match map_find k (webHandlers w) with
  | None => (None, w)
  | Some a => (Some a, mkWeb (alter bumpHits a (objects w)) (webHandlers w))
  end.

(** The name and the hits of every key, in the order of the table. *)
Definition getHandlerHits (w : WebHandlerInternal) : list (string * Z) :=
  omap (λ '(k, a), h ← objects w !! a; Some (key_name k, hits h)) (webHandlers w).

(** ** What the handlers need *)

(** The components behind the handlers: the status report, the queues of the
    display and of the LED strip, the dictionary, and the server itself. *)
Class WebServices (S : Type) := {
  gather_status : list (string * Z) → S → option (StatusSnapshot * S);
  enqueue_msgMode : StringMap → S → S;
  enqueue_imgBackground : StringMap → S → S;
  enqueue_msgBackground : StringMap → S → S;
  enqueue_ledStrip : StringMap → S → S;
  led_mode_str : S → Z → string;
  dictionary_post : StringMap → S → bool * S;
  server_stop : S → Z * S;
  services_ok : S → Prop;
  gather_status_ok l s : services_ok s →
    ∃ snap s', gather_status l s = Some (snap, s') ∧ services_ok s' ∧ handlerHits snap = l;
  enqueue_ok p s : services_ok s →
    services_ok (enqueue_msgMode p s) ∧ services_ok (enqueue_imgBackground p s) ∧
    services_ok (enqueue_msgBackground p s) ∧ services_ok (enqueue_ledStrip p s);
  dictionary_post_ok p s : services_ok s → services_ok (dictionary_post p s).2;
  server_stop_ok s : services_ok s → services_ok (server_stop s).2;
}.

(** ** The handlers' [process] *)
Section process.
Context {S : Type} `{WebServices S}.
Implicit Types (s : S) (w : WebHandlerInternal).

(** What a handler leaves: its reply or an exception, the calls it made to
    build the reply so far, and the components. *)
Definition Handled : Type := res HandleRequestReply * list RequestOutput * S.

Definition page (pieces : list string) s : Handled := (Ok replyOk, addBody (text pieces), s).

(** A handler of POST: the form, then [f] on its values. *)
Definition post (present : bool) (r : RequestInfo)
    (f : StringMap → S → HandleRequestReply * list RequestOutput * S) s : Handled :=
  match parsePost present (requestBody r) with
  | Throw e => (Throw e, [], s)
  | Ok (reply, out, postValues) =>
      if negb (code reply =? 200) then (Ok reply, out, s)
      else let '(reply', out', s') := f postValues s in (Ok reply', out ++ out', s')
  end.

Definition enqueue (f : StringMap → S → S) (p : StringMap) s
    : HandleRequestReply * list RequestOutput * S :=
  (replyNoContent, [], f p s).

(** [process] of one class each; [present] tells whether the reply already has
    a content type. *)
Definition process_NotFound (r : RequestInfo) s : Handled :=
  (Ok replyNotFound, addBody (text (page_notFound (uriPath r))), s).

Definition process_Status (present : bool) (hitsNow : list (string * Z)) s : Handled :=
  match gather_status hitsNow s with
  | None => (Throw (Undefined "the gathering of the status does not end"), [], s)
  | Some (snapshot, s') =>
      (Ok replyOk, setHeaderContentTypeText present ++ addBody (renderStatusText snapshot), s')
  end.

Definition process_StatusJson (present : bool) (hitsNow : list (string * Z)) s : Handled :=
  match gather_status hitsNow s with
  | None => (Throw (Undefined "the gathering of the status does not end"), [], s)
  | Some (snapshot, s') =>
      (Ok replyOk, setHeaderContentType present "application/json"
         ++ addBody (renderStatusJson snapshot), s')
  end.

Definition process_DictionaryPost (present : bool) (r : RequestInfo) s : Handled :=
  post present r (λ p s,
    let '(ok, s') := dictionary_post p s in
    if negb ok then
      let '(reply, out) := RETURN_ERROR present 761 "Was unable to parse request on dictionary" in
      (reply, out, s')
    else (replyNoContent, [], s')) s.

Definition process_Stop s : Handled :=
  let '(rc, s') := server_stop s in
  (Ok (if rc =? 0 then replyNoContent else replyInternalError), [], s').

Definition process_HeadRoot s : Handled := (Ok replyNoContent, [], s).

(** The virtual call. *)
Definition handler_process (c : WebHandlerClass) (present : bool) (r : RequestInfo)
    (hitsNow : list (string * Z)) s : Handled :=
  match c with
  | WebHandlerNotFound => process_NotFound r s
  | WebHandlerHeadRoot => process_HeadRoot s
  | WebHandlerRoot => page page_root s
  | WebHandlerStatus => process_Status present hitsNow s
  | WebHandlerStatusJson => process_StatusJson present hitsNow s
  | WebHandlerMsgMode => page page_msgMode s
  | WebHandlerMsgModePost => post present r (enqueue enqueue_msgMode) s
  | WebHandlerImgBackground => page page_imgBackground s
  | WebHandlerImgBackgroundPost => post present r (enqueue enqueue_imgBackground) s
  | WebHandlerMsgBackground => page page_msgBackground s
  | WebHandlerMsgBackgroundPost => post present r (enqueue enqueue_msgBackground) s
  | WebHandlerLedStrip => page (page_ledStrip (led_mode_str s)) s
  | WebHandlerLedStripPost => post present r (enqueue enqueue_ledStrip) s
  | WebHandlerDictionary => page page_dictionary s
  | WebHandlerDictionaryPost => process_DictionaryPost present r s
  | WebHandlerStop => process_Stop s
  end.

(** [WebHandlerInternal::process] *)
Definition web_process (present : bool) (r : RequestInfo) w s : Handled * WebHandlerInternal :=
  let '(a, w) := findWebHandler (mkKey (method r) (uriPath r)) w in
  let '(a, w) := match a with
                 | None => if method r =? EVHTTP_REQ_HEAD then findWebHandler uriHead w else (None, w)
                 | Some _ => (a, w)
                 end in
  let '(a, w) := match a with None => findWebHandler uriNotFound w | Some _ => (a, w) end in
  match a with
  | None => ((Ok replyNotFound, [], s), w)
  | Some a =>
      match objects w !! a with
      | None => ((Throw (Undefined "a handler that was deleted"), [], s), w)
      | Some h => (handler_process (handler_class h) present r (getHandlerHits w) s, w)
      end
  end.

(** [parseRequest]: a request without a path asks for the root. *)
Definition parseRequest (method : Z) (path : option string) (body : option (list ascii))
    : RequestInfo :=
  mkRequest method
    (match path with None | Some EmptyString => "/" | Some p => p end) body.

(** [what()] *)
Definition what (e : exn) : string :=
  match e with
  | RuntimeError t | LogicError t | InvalidArgument t | OutOfRange t | Undefined t => t
  | AssertionFailed => EmptyString
  end.

(** The server's state: the handlers, unless there are none, and the rest. *)
Record Web := mkServer {
  instance : option WebHandlerInternal;
  services : S;
}.

(** [handleRequest]; a failed assertion or an undefined step is not caught. *)
Definition handleRequest (present : bool) (r : RequestInfo) (server : Web)
    : res (HandleRequestReply * list RequestOutput * Web) :=
  match instance server with
  | None => Ok (replyServerUnavail, [], server)
  | Some w =>
      let '(reply, out, s, w) := web_process present r w (services server) in
      let server := mkServer (Some w) s in
      match reply with
      | Ok reply => Ok (reply, out, server)
      | Throw ((AssertionFailed | Undefined _) as e) => Throw e
      | Throw e =>
          Ok (replyInternalError, out ++ [AddPrintf (text ["Internal error: "; what e; nl])], server)
      end
  end.

(** Requests one after another. *)
Fixpoint serve (present : bool) (rs : list RequestInfo) (server : Web)
    : res (list (HandleRequestReply * list RequestOutput) * Web) :=
  match rs with
  | [] => Ok ([], server)
  | r :: rs =>
      let! (reply, out, server) := handleRequest present r server in
      let! (replies, server) := serve present rs server in
      Ok ((reply, out) :: replies, server)
  end.
End process.
Arguments Web S : clear implicits.
Arguments Handled S : clear implicits.

(** ** Where a request goes *)

(** The server once [start] ran. *)
Definition started : WebHandlerInternal := _start WebHandlerInternal_new.

(** The key that answers a request: its own, or the one for HEAD, or the one
    for pages not found. *)
Definition route (r : RequestInfo) : WebHandlerKey :=
  let k := mkKey (method r) (uriPath r) in
  match map_find k (webHandlers started) with
  | Some _ => k
  | None => if method r =? EVHTTP_REQ_HEAD then uriHead else uriNotFound
  end.

(** The object behind it, and its class. *)
Definition routed_to (r : RequestInfo) : nat :=
  default 0%nat (map_find (route r) (webHandlers started)).
Definition class_at (a : nat) : WebHandlerClass :=
  default WebHandlerNotFound (handler_class <$> objects started !! a).

(** The requests answered by an object. *)
Definition answered_by (a : nat) (rs : list RequestInfo) : Z :=
  Z.of_nat (length (filter (λ r, routed_to r = a) rs)).

Definition form_accepted (r : RequestInfo) : bool :=
  code (parsed false (requestBody r)).1.1 =? 200.

(** The status of a reply, by the class of the handler. *)
Definition reply_ok (c : WebHandlerClass) (r : RequestInfo) (reply : HandleRequestReply) : Prop :=
  match c with
  | WebHandlerNotFound => reply = replyNotFound
  | WebHandlerHeadRoot => reply = replyNoContent
  | WebHandlerMsgModePost | WebHandlerImgBackgroundPost | WebHandlerMsgBackgroundPost
  | WebHandlerLedStripPost =>
      reply = if form_accepted r then replyNoContent else replyInternalError
  | WebHandlerDictionaryPost =>
      reply = replyInternalError ∨ form_accepted r = true ∧ reply = replyNoContent
  | WebHandlerStop => reply = replyNoContent ∨ reply = replyInternalError
  | _ => reply = replyOk
  end.

Lemma parsed_present present body :
  code (parsed present body).1.1 = code (parsed false body).1.1 ∧
  (code (parsed present body).1.1 ≠ 200 → (parsed present body).1.1 = replyInternalError).
Proof. unfold parsed. destruct body; [|done]. case_bool_decide; [|done]. by destruct (tokenize l). Qed.

(** The table and the classes behind it, without the counters. *)
Definition same_handlers (w : WebHandlerInternal) : Prop :=
  webHandlers w = webHandlers started ∧
  handler_class <$> objects w = handler_class <$> objects started.

Lemma started_sorted : map_sorted (webHandlers started).
Proof. unfold started, _start, register, register_address. repeat apply map_set_sorted. apply map_sorted_nil. Qed.

Lemma started_addresses :
  forallb (λ e, (e.2 <? length (objects started))%nat) (webHandlers started) = true.
Proof. by vm_compute. Qed.

Lemma started_names : NoDup (key_name ∘ fst <$> webHandlers started).
Proof.
  apply (proj1 (bool_decide_eq_true _)). vm_compute. reflexivity.
Qed.

Lemma started_head : map_find uriHead (webHandlers started) = Some 1%nat.
Proof. by vm_compute. Qed.
Lemma started_notFound : map_find uriNotFound (webHandlers started) = Some 0%nat.
Proof. by vm_compute. Qed.

#[local] Opaque started.

Lemma route_registered r : ∃ a, map_find (route r) (webHandlers started) = Some a.
Proof.
  unfold route. destruct (map_find (mkKey _ _) _) as [a|] eqn:E; [by exists a|].
  destruct (method r =? EVHTTP_REQ_HEAD); eauto using started_head, started_notFound.
Qed.

Lemma registered_class w k a :
  same_handlers w → map_find k (webHandlers started) = Some a →
  ∃ h, objects w !! a = Some h ∧ handler_class h = class_at a.
Proof.
  intros [_ Hc] Hk. apply map_find_spec in Hk; [|apply started_sorted].
  pose proof started_addresses as Ha. rewrite forallb_forall in Ha.
  specialize (Ha (k, a)). rewrite <-list_elem_of_In in Ha. specialize (Ha Hk). cbn [snd] in Ha.
  apply Nat.ltb_lt in Ha. assert (length (objects w) = length (objects started)) as Hl.
  { apply (f_equal length) in Hc. by rewrite !length_fmap in Hc. }
  destruct (lookup_lt_is_Some_2 (objects w) a) as [h E]; [lia|]. exists h. split; [done|].
  unfold class_at. rewrite <-list_lookup_fmap, <-Hc, list_lookup_fmap, E. done.
Qed.

Definition bumped (a : nat) (w : WebHandlerInternal) : WebHandlerInternal :=
  mkWeb (alter bumpHits a (objects w)) (webHandlers w).

Lemma bumped_same a w : same_handlers w → same_handlers (bumped a w).
Proof.
  intros [Ht Hc]. split; [done|]. rewrite <-Hc. apply list_eq. intros i. cbn [objects bumped].
  rewrite !list_lookup_fmap. destruct (decide (i = a)) as [->|].
  - rewrite list_lookup_alter_eq. by destruct (objects w !! a).
  - by rewrite list_lookup_alter_ne.
Qed.

Section serving.
Context {S : Type} `{WebServices S}.
Implicit Types (s : S) (w : WebHandlerInternal).

Lemma web_process_run present r w s :
  same_handlers w →
  ∃ h, handler_class h = class_at (routed_to r) ∧
    web_process present r w s =
      (handler_process (handler_class h) present r (getHandlerHits (bumped (routed_to r) w)) s,
       bumped (routed_to r) w).
Proof.
  intros Hw. assert (Hfind : ∀ k, findWebHandler k w =
    match map_find k (webHandlers started) with
    | None => (None, w)
    | Some a => (Some a, bumped a w)
    end).
  { intros k. unfold findWebHandler, bumped. by rewrite (proj1 Hw). }
  destruct (route_registered r) as [a Ha].
  assert (routed_to r = a) as Hr by (unfold routed_to; by rewrite Ha). rewrite Hr.
  destruct (registered_class (bumped a w) (route r) a (bumped_same a w Hw) Ha) as (h & E & Hh).
  exists h. split; [done|]. unfold web_process. rewrite Hfind. unfold route in Ha.
  destruct (map_find (mkKey (method r) (uriPath r)) _) eqn:E1.
  - rewrite E1 in Ha. injection Ha as ->. by rewrite E.
  - destruct (method r =? EVHTTP_REQ_HEAD).
    + rewrite Hfind, Ha. by rewrite E.
    + rewrite Hfind, Ha. by rewrite E.
Qed.

(** A POST is answered and leaves the components as its handler does. *)
Lemma post_run present r f s :
  body_fits (requestBody r) →
  post present r f s =
    let '(reply, out, vals) := parsed present (requestBody r) in
    if code reply =? 200 then
      let '(reply', out', s') := f vals s in (Ok reply', out ++ out', s')
    else (Ok reply, out, s).
Proof.
  intros Hb. unfold post. rewrite parsePost_parsed by done.
  destruct (parsed present (requestBody r)) as [[reply out] vals]. by destruct (code reply =? 200).
Qed.

Lemma enqueue_run present r f s :
  body_fits (requestBody r) → services_ok s → (∀ p, services_ok (f p s)) →
  ∃ reply out s', post present r (enqueue f) s = (Ok reply, out, s') ∧ services_ok s' ∧
    reply = if form_accepted r then replyNoContent else replyInternalError.
Proof.
  intros Hb Hs Hf. rewrite post_run by done. unfold form_accepted.
  destruct (parsed_present present (requestBody r)) as [Hc Hi].
  destruct (parsed present (requestBody r)) as [[reply out] vals]. cbn [fst] in *. rewrite <-Hc.
  destruct (Z.eqb_spec (code reply) 200); eauto 10.
Qed.

Lemma handler_process_ok c present r l s :
  services_ok s → body_fits (requestBody r) →
  ∃ reply out s', handler_process c present r l s = (Ok reply, out, s') ∧ services_ok s' ∧
    reply_ok c r reply.
Proof.
  intros Hs Hb. destruct c; cbn [handler_process reply_ok];
    unfold process_NotFound, process_Status, process_StatusJson, process_DictionaryPost, process_Stop,
      process_HeadRoot;
    try (by eexists _, _, _; split; [reflexivity|]);
    try (apply enqueue_run; try done; intros p; by apply (enqueue_ok p s Hs)).
  - destruct (gather_status_ok l s Hs) as (snap & s' & -> & Hs' & _). eauto 10.
  - destruct (gather_status_ok l s Hs) as (snap & s' & -> & Hs' & _). eauto 10.
  - rewrite post_run by done. unfold form_accepted.
    destruct (parsed_present present (requestBody r)) as [Hc Hi].
    destruct (parsed present (requestBody r)) as [[reply out] vals]. cbn [fst] in *. rewrite <-Hc.
    destruct (Z.eqb_spec (code reply) 200) as [E|E]; [|by eexists _, _, _; eauto].
    pose proof (dictionary_post_ok vals s Hs) as Hd. destruct (dictionary_post vals s) as [[] s'];
      eexists _, _, _; (split; [reflexivity|]); eauto.
  - pose proof (server_stop_ok s Hs) as Hd. destruct (server_stop s) as [rc s'].
    eexists _, _, _. split; [reflexivity|]. split; [done|]. by destruct (rc =? 0); auto.
Qed.

Lemma handleRequest_run present r w s :
  same_handlers w → services_ok s → body_fits (requestBody r) →
  ∃ reply out s',
    handleRequest present r (mkServer (Some w) s) =
      Ok (reply, out, mkServer (Some (bumped (routed_to r) w)) s') ∧
    handler_process (class_at (routed_to r)) present r (getHandlerHits (bumped (routed_to r) w)) s
      = (Ok reply, out, s') ∧
    services_ok s' ∧ reply_ok (class_at (routed_to r)) r reply.
Proof.
  intros Hw Hs Hb. destruct (web_process_run present r w s Hw) as (h & Hh & E).
  destruct (handler_process_ok (class_at (routed_to r)) present r
    (getHandlerHits (bumped (routed_to r) w)) s Hs Hb) as (reply & out & s' & E' & Hs' & Hr).
  exists reply, out, s'. unfold handleRequest. cbn [instance services]. rewrite E, Hh, E'. done.
Qed.

(** The counters as they are after requests. *)
Definition counted (rs : list RequestInfo) (w : WebHandlerInternal) : Prop :=
  same_handlers w ∧ ∀ a h, objects w !! a = Some h → hits h = u32 (answered_by a rs).

#[local] Transparent started.
Lemma started_hits : forallb (λ h, hits h =? 0) (objects started) = true.
Proof. by vm_compute. Qed.

Lemma started_reached :
  forallb (λ a, bool_decide (a ∈ (webHandlers started).*2)) (seq 0 (length (objects started))) = true.
Proof. by vm_compute. Qed.
#[local] Opaque started.

Lemma counted_start : counted [] started.
Proof.
  split; [done|]. intros a h Ha. assert (hits h =? 0 = true) as ->%Z.eqb_eq; [|done].
  pose proof started_hits as Hf. rewrite forallb_forall in Hf. apply Hf, list_elem_of_In. by eapply list_elem_of_lookup_2.
Qed.

Lemma counted_bumped rs r w : counted rs w → counted (rs ++ [r]) (bumped (routed_to r) w).
Proof.
  intros [Hw Hh]. split; [by apply bumped_same|]. intros a h Ha. cbn [objects bumped] in Ha.
  unfold answered_by. rewrite filter_app, length_app. cbn [filter list_filter].
  destruct (decide (routed_to r = a)) as [<-|Hne].
  - rewrite list_lookup_alter_eq in Ha. destruct (objects w !! routed_to r) as [h'|] eqn:E; [|done].
    injection Ha as <-. cbn [bumpHits hits length]. rewrite (Hh _ _ E). unfold answered_by, u32.
    rewrite Nat2Z.inj_add. by rewrite Zplus_mod_idemp_l.
  - rewrite list_lookup_alter_ne in Ha by done. rewrite (Hh _ _ Ha).
    cbn [length]. by rewrite Nat.add_0_r.
Qed.

Lemma serve_run present before rs w s :
  counted before w → services_ok s → Forall (λ r, body_fits (requestBody r)) rs →
  ∃ replies w' s', serve present rs (mkServer (Some w) s) = Ok (replies, mkServer (Some w') s') ∧
    counted (before ++ rs) w' ∧ services_ok s' ∧
    Forall2 (λ r reply, reply_ok (class_at (routed_to r)) r reply.1) rs replies.
Proof.
  revert before w s. induction rs as [|r rs IH]; intros before w s Hw Hs Hb; cbn [serve].
  { eexists _, _, _. split; [reflexivity|]. by rewrite app_nil_r. }
  apply Forall_cons in Hb as [Hb Hbs].
  destruct (handleRequest_run present r w s (proj1 Hw) Hs Hb) as (reply & out & s1 & E & _ & Hs1 & Hr).
  rewrite E. cbn [res_bind].
  destruct (IH (before ++ [r]) (bumped (routed_to r) w) s1 (counted_bumped before r w Hw) Hs1 Hbs)
    as (replies & w' & s' & E' & Hw' & Hs' & Hrs).
  rewrite E'. eexists _, _, _. split; [reflexivity|]. rewrite <-app_assoc in Hw'.
  split; [done|]. split; [done|]. by constructor.
Qed.

Lemma counted_hits rs w :
  counted rs w →
  getHandlerHits w = ((λ e, (key_name e.1, u32 (answered_by e.2 rs))) <$> webHandlers started).
Proof.
  intros [Hw Hh]. unfold getHandlerHits. rewrite (proj1 Hw).
  assert (∀ e, e ∈ webHandlers started → ∃ h, objects w !! e.2 = Some h) as Ha.
  { intros [k a] He. destruct (registered_class w k a Hw) as (h & E & _); [|by exists h].
    by apply map_find_spec; [apply started_sorted|]. }
  induction (webHandlers started) as [|[k a] l IH]; [done|]. cbn [omap list_omap fmap list_fmap].
  destruct (Ha (k, a)) as [h E]; [by apply list_elem_of_here|]. cbn [snd] in E. rewrite E. simpl.
  rewrite (Hh a h E). f_equal. apply IH. intros e He. by apply Ha, list_elem_of_further.
Qed.

(** Every object is in the table. *)
Lemma shutdown_complete w :
  same_handlers w →
  NoDup (WebHandlerInternal_shutdown w) ∧
  ∀ a, a ∈ WebHandlerInternal_shutdown w ↔ (a < length (objects w))%nat.
Proof.
  intros [Hw Hc]. unfold WebHandlerInternal_shutdown. rewrite Hw. split; [apply NoDup_remove_dups|].
  intros a. rewrite elem_of_remove_dups.
  assert (length (objects w) = length (objects started)) as ->.
  { apply (f_equal length) in Hc. by rewrite !length_fmap in Hc. }
  split; intros Ha.
  - apply list_elem_of_fmap in Ha as (e & -> & He). pose proof started_addresses as Hf.
    rewrite forallb_forall in Hf. apply list_elem_of_In, Hf in He. by apply Nat.ltb_lt.
  - pose proof started_reached as Hf. rewrite forallb_forall in Hf.
    specialize (Hf a). rewrite <-list_elem_of_In, elem_of_seq in Hf. specialize (Hf ltac:(lia)).
    by apply bool_decide_eq_true in Hf.
Qed.

End serving.
