(* ===== verification/WebReply.v ===== *)
(** * A reply on the wire: [worker_handler] of src/pulsar/worker.c

    What a worker of the web server does with a request: the headers every
    reply has, the handler with the calls it makes, and what is sent. *)
From S2P Require Import Prelude CLib WebForm WebPages Web.

Definition SERVER_NAME : string := "pulsar".

(** What [evhttp_send_reply] gets. *)
Record Response := mkResponse {
  status : Z;
  status_reason : string;
  headers : list (string * string);
  body : list string;
}.

Definition reply_headers : list (string * string) :=
  [("Content-Type", "text/html; charset=UTF-8"); ("Server", SERVER_NAME);
   ("Cache-Control", "private, max-age=0, no-cache, no-store")].

(** libevent's list of headers: names compare without case, a removal takes
    the first and an addition goes last. *)
Fixpoint remove_header (h : string) (hs : list (string * string)) : list (string * string) :=
  match hs with
  | [] => []
  | (k, v) :: hs => if strcase_eq k h then hs else (k, v) :: remove_header h hs
  end.

Definition apply_output (r : Response) (o : RequestOutput) : Response :=
  match o with
  | RemoveHeader h => mkResponse (status r) (status_reason r) (remove_header h (headers r)) (body r)
  | AddHeader h v => mkResponse (status r) (status_reason r) (headers r ++ [(h, v)]) (body r)
  | AddPrintf t => mkResponse (status r) (status_reason r) (headers r) (body r ++ [t])
  end.

Section handler.
Context {S : Type} `{WebServices S}.

(** The reply has a content type when the handler starts. *)
Definition worker_handler (r : RequestInfo) (server : Web S) : res (Response * Web S) :=
  let! (reply, out, server) := handleRequest true r server in
  Ok (foldl apply_output (mkResponse (code reply) (reason reply) reply_headers []) out, server).

(** ** One content type *)

Definition replaces (t : string) : list RequestOutput :=
  [RemoveHeader "Content-Type"; AddHeader "Content-Type" t].

(** The calls of a handler that touch the headers: none, or one replacement
    of the content type. *)
Definition is_header (o : RequestOutput) : bool :=
  match o with AddPrintf _ => false | _ => true end.
Definition header_calls (out : list RequestOutput) : list RequestOutput := List.filter is_header out.

Lemma header_calls_app a b : header_calls (a ++ b) = header_calls a ++ header_calls b.
Proof. apply List.filter_app. Qed.
Lemma header_calls_body t : header_calls (addBody t) = [].
Proof. unfold addBody. by destruct (string_empty t). Qed.

Definition text_or (t : option string) : list RequestOutput :=
  match t with Some t => replaces t | None => [] end.

(** The content type a handler sets, if any. *)
Definition sets_type (c : WebHandlerClass) (reply : HandleRequestReply) : option string :=
  match c with
  | WebHandlerStatus => Some "text/plain"
  | WebHandlerStatusJson => Some "application/json"
  | WebHandlerMsgModePost | WebHandlerImgBackgroundPost | WebHandlerMsgBackgroundPost
  | WebHandlerLedStripPost | WebHandlerDictionaryPost =>
      if code reply =? 204 then None else Some "text/plain"
  | _ => None
  end.

Lemma header_calls_error line what :
  header_calls (RETURN_ERROR true line what).2 = replaces "text/plain" ∧
  code (RETURN_ERROR true line what).1 = 500.
Proof.
  split; [|done]. unfold RETURN_ERROR. cbn [snd]. by rewrite header_calls_app, header_calls_body.
Qed.

Lemma parsed_header_calls b :
  let '(reply, out, _) := parsed true b in
  if code reply =? 200 then header_calls out = []
  else header_calls out = replaces "text/plain" ∧ code reply = 500.
Proof.
  unfold parsed. destruct b as [bytes|]; [|apply header_calls_error].
  case_bool_decide; [|apply header_calls_error]. destruct (tokenize bytes); [done|apply header_calls_error].
Qed.

Lemma post_header_calls r f (s : S) reply out s' :
  body_fits (requestBody r) → post true r f s = (Ok reply, out, s') →
  (∀ p s, let '(reply, out, _) := f p s in
          header_calls out = if code reply =? 204 then [] else replaces "text/plain") →
  header_calls out = if code reply =? 204 then [] else replaces "text/plain".
Proof.
  intros Hb. rewrite post_run by done. pose proof (parsed_header_calls (requestBody r)) as Hp.
  destruct (parsed true (requestBody r)) as [[reply' out'] vals]. destruct (code reply' =? 200).
  - intros E Hf. specialize (Hf vals s). destruct (f vals s) as [[reply2 out2] s2]. simplify_eq.
    by rewrite header_calls_app, Hp, Hf.
  - intros E _. simplify_eq. destruct Hp as [-> ->]. done.
Qed.

Lemma handler_header_calls c r l (s : S) reply out s' :
  body_fits (requestBody r) → handler_process c true r l s = (Ok reply, out, s') →
  header_calls out = text_or (sets_type c reply).
Proof.
  intros Hb. destruct c; cbn [handler_process sets_type];
    unfold page, process_NotFound, process_Status, process_StatusJson, process_DictionaryPost,
      process_Stop, process_HeadRoot;
    try (intros E; simplify_eq; apply header_calls_body);
    try (intros E; simplify_eq; done);
    try (intros E; rewrite (post_header_calls _ _ _ _ _ _ Hb E); [by destruct (code reply =? 204)|done]).
  - destruct (gather_status l s) as [[snap s1]|]; intros E; simplify_eq.
    by rewrite header_calls_app, header_calls_body.
  - destruct (gather_status l s) as [[snap s1]|]; intros E; simplify_eq.
    by rewrite header_calls_app, header_calls_body.
  - intros E. rewrite (post_header_calls _ _ _ _ _ _ Hb E); [by destruct (code reply =? 204)|].
    intros p s1. destruct (dictionary_post p s1) as [[] s2]; cbn [negb]; [done|].
    destruct (header_calls_error 761 "Was unable to parse request on dictionary") as [Hh Hc].
    destruct (RETURN_ERROR _ _ _) as [rep o]. cbn [fst snd] in *. by rewrite Hc, Hh.
  - destruct (server_stop s) as [rc s1]. intros E. by simplify_eq.
Qed.

(** Only the calls that touch the headers matter to them. *)
Lemma apply_headers out v :
  headers (foldl apply_output v out) = headers (foldl apply_output v (header_calls out)).
Proof.
  assert (∀ v v', headers v = headers v' → ∀ o, headers (apply_output v o) = headers (apply_output v' o)) as Hcong.
  { intros v1 v2 Hv []; cbn; by rewrite Hv. }
  assert (∀ o v v', headers v = headers v' →
    headers (foldl apply_output v o) = headers (foldl apply_output v' o)) as Hfold.
  { induction o as [|a o IH]; intros v1 v2 Hv; [done|]. cbn. by apply IH, Hcong. }
  revert v. induction out as [|a out IH]; intros v; [done|]. cbn [foldl header_calls List.filter].
  destruct a; cbn [is_header foldl]; [apply IH|apply IH|]. rewrite IH. by apply Hfold.
Qed.

(** The headers of a reply: exactly one content type, one server, one cache
    control. The content type is the handler's, HTML by default. *)
Theorem one_content_type r w (s : S) :
  same_handlers w → services_ok s → body_fits (requestBody r) →
  ∃ v server', worker_handler r (mkServer (Some w) s) = Ok (v, server') ∧
    headers v ≡ₚ
      [("Content-Type", default "text/html; charset=UTF-8"
          (sets_type (class_at (routed_to r)) (mkReply (status v) (status_reason v))));
       ("Server", SERVER_NAME); ("Cache-Control", "private, max-age=0, no-cache, no-store")] ∧
    reply_ok (class_at (routed_to r)) r (mkReply (status v) (status_reason v)).
Proof.
  intros Hw Hs Hb. destruct (handleRequest_run true r w s Hw Hs Hb) as (reply & out & s' & E & Hh & _ & Hr).
  pose proof (handler_header_calls _ _ _ _ _ _ _ Hb Hh) as Hc.
  unfold worker_handler. rewrite E. eexists _, _. split; [reflexivity|].
  assert (∀ o v, (status (foldl apply_output v o), status_reason (foldl apply_output v o)) =
                 (status v, status_reason v)) as Hstatus.
  { induction o as [|a o IH]; intros v; [done|]. cbn. rewrite IH. by destruct a. }
  specialize (Hstatus out (mkResponse (code reply) (reason reply) reply_headers [])).
  injection Hstatus as H1 H2. rewrite H1, H2. cbn [status status_reason].
  destruct reply as [cd rs]. split; [|exact Hr]. rewrite apply_headers, Hc.
  destruct (sets_type _ _) as [t|]; [|done]. cbn -[strcase_eq]. 
  change (strcase_eq "Content-Type" "Content-Type") with true. cbn. solve_Permutation.
Qed.
End handler.
