(* ===== verification/Office.v ===== *)
(** * The clock behind the web server: src/src/statusReportGather.cpp and the
      components the handlers of src/src/webHandlerInternal.cpp bind

    The components of one running clock put together, as the implementation of
    the interface the web handlers ask for; and what follows from it end to
    end: from a form that is posted to the message on the display. *)
From S2P Require Import Prelude StdMap CLib CommonUtils Inbox TimerTick Sensors Dictionary.
From S2P Require Import Ht1632 StatusReport WebForm DisplayTypes DisplayState DisplayInternal Display.
From S2P Require Import DisplayProofs DisplayProps WebPages Web LedStrip.

(** ** The components *)

(** While the display's thread runs, the singletons the display shares with
    the others are those of its state; before and after they are [ashore].
    [engine] is the strip's source of random numbers,
    [strerror] is [mosquitto_strerror], [stop] what [server_stop] answers from
    call to call. *)
Record Office (T : Type) := mkOffice {
  display : Display (Surroundings T);
  ashore : Surroundings T;
  ledStrip : LedStrip;
  engine : nat → Z;
  mqttInfo : MqttClientInfo;
  strerror : Z → string;
  loadavg : option string;
  meminfo : option string;
  stop : nat → Z;
  stops : nat;
}.
Arguments mkOffice {T}.
Arguments display {T}.
Arguments ashore {T}.
Arguments ledStrip {T}.
Arguments engine {T}.
Arguments mqttInfo {T}.
Arguments strerror {T}.
Arguments loadavg {T}.
Arguments meminfo {T}.
Arguments stop {T}.
Arguments stops {T}.

Section office.
Context {T : Type} `{TimerService T}.
Implicit Types o : Office T.

Definition shared o : Surroundings T :=
  match Display.internal (display o) with Some s => world s | None => ashore o end.

Definition set_display (d : Display (Surroundings T)) o : Office T :=
  mkOffice d (ashore o) (ledStrip o) (engine o) (mqttInfo o) (strerror o) (loadavg o) (meminfo o) (stop o)
    (stops o).
Definition set_ledStrip (l : LedStrip) o : Office T :=
  mkOffice (display o) (ashore o) l (engine o) (mqttInfo o) (strerror o) (loadavg o) (meminfo o) (stop o)
    (stops o).

(** A change of the dictionary, wherever the singletons are. *)
Definition set_dictionary (d : Dictionary T) o : Office T :=
  match Display.internal (display o) with
  | Some s =>
      set_display (mkDisplayThread (displayTodos (display o))
        (Some (set_world (set_sur_dictionary d (world s)) s))) o
  | None =>
      mkOffice (display o) (set_sur_dictionary d (ashore o)) (ledStrip o) (engine o) (mqttInfo o) (strerror o)
        (loadavg o) (meminfo o) (stop o) (stops o)
  end.

(** [gatherStatusSnapshot]'s calls: the size and the counters of the dictionary
    are read before its entries, which may drop expired ones. *)
Definition gather (hits : list (string * Z)) o : option (StatusSnapshot * Office T) :=
  let w := shared o in
  displayMode ← getInternalDisplayMode (display o);
  '(entries, d) ← gather_dictionary (sur_dictionary w);
  Some (gatherStatusSnapshot (Some hits) (sur_motion w) (Light.getLightValue (sur_lightValues w))
          displayMode (getInternalDisplayDimmed (display o)) (getInternalLedStripMode (engine o) (ledStrip o))
          (mqttInfo o) (strerror o) (getDictionaryStatus (sur_dictionary w))
          (Dictionary.size (sur_dictionary w)) entries (loadavg o) (meminfo o),
        set_dictionary d o).

Definition post_dictionary (p : StringMap) o : bool * Office T :=
  let '(ok, d) := parsePostRequest p (sur_dictionary (shared o)) in (ok, set_dictionary d o).

Definition stop_server o : Z * Office T :=
  (stop o (stops o),
   mkOffice (display o) (ashore o) (ledStrip o) (engine o) (mqttInfo o) (strerror o) (loadavg o) (meminfo o)
     (stop o) (S (stops o))).

(** The dictionary and the display are in order. *)
Definition office_ok o : Prop :=
  dict_ok (sur_dictionary (shared o)) ∧
  ∀ s, Display.internal (display o) = Some s → ∃ n, display_ok n s.

Lemma set_dictionary_ok d o : office_ok o → dict_ok d → office_ok (set_dictionary d o).
Proof.
  intros [_ Ho] Hd. unfold office_ok, shared, set_dictionary in *.
  destruct (Display.internal (display o)) as [s|] eqn:E; cbn [set_display display Display.internal].
  - split; [exact Hd|]. intros s' [= <-]. destruct (Ho s eq_refl) as [n [[] Hx]]. exists n.
    split; [by constructor|exact Hx].
  - rewrite E. by split.
Qed.

Lemma same_display_ok d o :
  office_ok o → Display.internal d = Display.internal (display o) → office_ok (set_display d o).
Proof.
  intros Ho E. unfold office_ok, shared in *. cbn [set_display display ashore]. by rewrite E.
Qed.

Lemma display_mode_name o : office_ok o → ∃ m, getInternalDisplayMode (display o) = Some m.
Proof.
  intros [_ Ho]. unfold getInternalDisplayMode.
  destruct (Display.internal (display o)) as [s|]; [|by eexists].
  destruct (Ho s eq_refl) as [n [Hb _]]. unfold getDisplayModeStr.
  destruct (current_mode_run s (bo_mode _ _ Hb)) as (m & E & _). erewrite bind_run by exact E.
  by eexists.
Qed.

Lemma gather_runs l o :
  office_ok o → ∃ snap o', gather l o = Some (snap, o') ∧ office_ok o' ∧ handlerHits snap = l.
Proof.
  intros Ho. unfold gather. destruct (display_mode_name o Ho) as [m ->]. cbn [mbind option_bind].
  destruct (gather_dictionary_ok _ (proj1 Ho)) as (es & d & -> & Hd & _).
  cbn [mbind option_bind]. eexists _, _. split; [reflexivity|]. split; [|done].
  by apply set_dictionary_ok.
Qed.

#[export] Program Instance Office_services : WebServices (Office T) := {|
  gather_status := gather;
  enqueue_msgMode p o := set_display (Display.enqueueMsgModePost p (display o)) o;
  enqueue_imgBackground p o := set_display (enqueueImgBackgroundPost p (display o)) o;
  enqueue_msgBackground p o := set_display (enqueueMsgBackgroundPost p (display o)) o;
  enqueue_ledStrip p o := set_ledStrip (LedStrip.enqueueMsgModePost p (ledStrip o)) o;
  led_mode_str o m := getLedStripModeStr (engine o) m (ledStrip o);
  dictionary_post := post_dictionary;
  server_stop := stop_server;
  services_ok := office_ok;
  gather_status_ok := gather_runs;
|}.
Next Obligation. intros p o Ho. split_and!; by apply same_display_ok || exact Ho. Qed.
Next Obligation.
  intros p o Ho. unfold post_dictionary.
  pose proof (parsePostRequest_ok p (sur_dictionary (shared o)) (proj1 Ho)) as Hd.
  destruct (parsePostRequest p _) as [ok d]. by apply set_dictionary_ok.
Qed.
Next Obligation. intros o Ho. exact Ho. Qed.
End office.

(** ** From the form to the display *)
Section posted.
Context {T : Type} `{TimerService T}.
Implicit Types o : Office T.

Definition msgMode_post (fields : list (string * string)) : RequestInfo :=
  mkRequest EVHTTP_REQ_POST "/msgMode" (Some (form_encode fields)).

(** The fields of a form that the display's requests know, within their range. *)
Definition message_fields (fields : list (string * string)) : Prop :=
  NoDup fields.*1 ∧ Forall field_ok fields ∧ Forall (λ f, f.1 ∈ message_names) fields ∧
  Forall param_in_range fields.

Lemma message_fields_request fields vals :
  message_fields fields → map_sorted vals →
  (∀ k v, map_find k vals = Some v ↔ (k, v) ∈ fields) → request_ok vals.
Proof.
  intros (_ & _ & Hn & Hr) Hs Hv.
  assert (∀ k v, (k, v) ∈ vals → (k, v) ∈ fields) as Hin.
  { intros k v He. apply Hv. by apply map_find_spec. }
  split; [done|]. split.
  - intros k ([k' v] & -> & He)%list_elem_of_fmap. rewrite Forall_forall in Hn.
    exact (Hn (k', v) (Hin _ _ He)).
  - apply Forall_forall. intros [k v] He. rewrite Forall_forall in Hr. exact (Hr _ (Hin _ _ He)).
Qed.

Lemma msgMode_routed fields :
  class_at (routed_to (msgMode_post fields)) = WebHandlerMsgModePost.
Proof. by vm_compute. Qed.

(** What the server does with such a form. *)
Lemma posted_form present w o fields :
  same_handlers w → office_ok o → fields ≠ [] → message_fields fields →
  (length (form_encode fields) < 4096)%nat →
  ∃ vals out w', handleRequest present (msgMode_post fields) (mkServer (Some w) o) =
      Ok (replyNoContent, out, mkServer (Some w')
        (set_display (Display.enqueueMsgModePost vals (display o)) o)) ∧
    request_ok vals ∧ ∀ k v, map_find k vals = Some v ↔ (k, v) ∈ fields.
Proof.
  intros Hw Ho Hne Hf Hl. pose proof Hf as (Hd & Hok & _).
  destruct (form_parsed present fields Hne Hd Hok Hl) as (vals & E & Hs & Hv).
  assert (body_fits (requestBody (msgMode_post fields))) as Hb by (unfold body_fits; cbn; lia).
  assert (services_ok o) as Ho' by exact Ho.
  destruct (handleRequest_run present (msgMode_post fields) w o Hw Ho' Hb)
    as (reply & out & o' & Er & Ep & _ & _).
  rewrite msgMode_routed in Ep. cbn [handler_process] in Ep. rewrite (post_run _ _ _ _ Hb) in Ep.
  change (requestBody (msgMode_post fields)) with (Some (form_encode fields)) in Ep.
  rewrite E in Ep. change (code replyOk =? 200) with true in Ep. cbn [enqueue] in Ep.
  exists vals, out, (bumped (routed_to (msgMode_post fields)) w). rewrite Er.
  injection Ep as <- <- <-. split; [done|]. split; [by eapply message_fields_request|done].
Qed.

(** C1: a message posted to the web server is shown. On a server that answered
    any requests before, with the display running and no request waiting, a
    POST of a form to /msgMode is answered with 204 (no content); at the next
    look into its queue the display takes the request and shows the message:
    its settings are the fields of the form, percent-decoded, or the defaults
    for fields the form has not, and its text is the form's, cut to 4095
    bytes, unless that names a stock text or an entry of the dictionary. *)
Theorem posted_message_shown present w o s n fields :
  same_handlers w → office_ok o → display o = mkDisplayThread [] (Some s) → display_ok n s →
  n < 2 ^ 31 - 1 → fields ≠ [] → message_fields fields →
  (length (form_encode fields) < 4096)%nat →
  ∃ out w' o' vals s',
    handleRequest present (msgMode_post fields) (mkServer (Some w) o) =
      Ok (replyNoContent, out, mkServer (Some w') o') ∧
    (∀ k v, map_find k vals = Some v ↔ (k, v) ∈ fields) ∧
    Display.checkTodoList (display o') = Some (mkDisplayThread [] (Some s')) ∧ display_ok (n + 1) s' ∧
    DisplayState.currModeIndex s' = displayModeMessage ∧ requested vals (modeMessageData s') ∧
    (Forall (λ f, plain f.1 f.2) fields → ∀ t, ("msg", t) ∈ fields →
      msg (modeMessageData s') = snprintf_s MESSAGE_MAX_SIZE t).
Proof.
  intros Hw Ho Ed Hs Hn Hne Hf Hl.
  destruct (posted_form present w o fields Hw Ho Hne Hf Hl) as (vals & out & w' & E & Hr & Hv).
  destruct (request_shows n s vals Hs Hn Hr) as (s' & Em & Hs' & Hi & Hq & _ & Ht).
  exists out, w'. eexists _, vals, s'. split; [exact E|]. split; [done|]. split.
  { cbn [set_display display]. rewrite Ed. unfold Display.enqueueMsgModePost, enqueueDisplayTodo.
    cbn [displayTodos Display.internal app]. unfold Display.checkTodoList, dequeueDisplayTodo.
    cbn [displayTodos]. unfold Display.on_internal, handle_todo. cbn [fst snd Display.internal displayTodos].
    by rewrite Em. }
  do 3 (split; [done|]). intros Hp t Hin. rewrite Ht.
  - unfold param_or. rewrite (proj2 (Hv _ _) Hin). rewrite (c_str_whole t); [done|].
    destruct Hf as (_ & Hok & _). rewrite Forall_forall in Hok. by apply (Hok _ Hin).
  - intros k v He. rewrite Forall_forall in Hp. apply (Hp (k, v)), Hv.
    apply map_find_spec; [apply Hr|done].
Qed.
End posted.

(** ** Where the pages lead *)

(** The values of an attribute in a page, up to the closing quote. *)
Fixpoint until_quote (s : string) : string :=
  match s with
  | EmptyString => EmptyString
  | String c s => if byte c =? 39 then EmptyString else String c (until_quote s)
  end.

Fixpoint attributes (mark s : string) : list string :=
  match s with
  | EmptyString => []
  | String _ s' =>
      if String.prefix mark s then until_quote (string_drop (String.length mark) s) :: attributes mark s'
      else attributes mark s'
  end.

Definition links (page : list string) : list string := attributes "href='" (text page).
Definition form_of (page : list string) : list string := attributes "action='" (text page).
Definition fields_of (page : list string) : list string :=
  remove_dups (attributes "name='" (text page)).

Definition reached (m : Z) (path : string) : WebHandlerClass :=
  class_at (routed_to (mkRequest m path None)).

(** where the pages lead. Each link of the main page reaches the handler of
    that page, but for "sound", which no handler answers; the form of each page
    is posted to the handler of its kind; and the fields of the message form
    and of the dictionary form are exactly the parameters their handlers
    know. *)
Theorem pages_lead engine :
  ((λ l, (l, reached EVHTTP_REQ_GET ("/" +:+ l))) <$> links page_root) =
    [("status", WebHandlerStatus); ("status.json", WebHandlerStatusJson);
     ("msgMode", WebHandlerMsgMode); ("imgBackground", WebHandlerImgBackground);
     ("msgBackground", WebHandlerMsgBackground); ("ledStrip", WebHandlerLedStrip);
     ("dictionary", WebHandlerDictionary); ("sound", WebHandlerNotFound);
     ("stop", WebHandlerStop)] ∧
  ((λ page, reached EVHTTP_REQ_POST <$> form_of page) <$>
     [page_msgMode; page_imgBackground; page_msgBackground; page_ledStrip (mode_name engine);
      page_dictionary]) =
    [[WebHandlerMsgModePost]; [WebHandlerImgBackgroundPost]; [WebHandlerMsgBackgroundPost];
     [WebHandlerLedStripPost]; [WebHandlerDictionaryPost]] ∧
  fields_of page_msgMode ≡ₚ message_names ∧
  fields_of page_dictionary ≡ₚ
    [dictionaryParamOperation; dictionaryParamKey; dictionaryParamData; dictionaryParamTimeout].
Proof.
  split_and!; [by vm_compute..| |].
  - apply (proj1 (bool_decide_eq_true _)). vm_compute. reflexivity.
  - apply (proj1 (bool_decide_eq_true _)). vm_compute. reflexivity.
Qed.

(** ** Witnesses: a clock whose display runs *)

Definition demo_mqttInfo : MqttClientInfo :=
  mkMqttInfo (Some "192.168.10.238") 1883 182 false 0 0 0 0 0 0 0 0 0 0.

Definition demo_office (s : DisplayState (Surroundings TimerTick)) : Office TimerTick :=
  mkOffice (mkDisplayThread [] (Some s)) demo_surroundings (mkLedStrip [] None) (λ _, 0)
    demo_mqttInfo (λ _, "No error.") (Some "0.10 0.20 0.30 1/100 1") None (λ _, 0) 0.

Lemma demo_init_dictionary :
  (λ r, sur_dictionary (world r.2)) <$> initDisplay demo_init = Some (sur_dictionary demo_surroundings).
Proof. vm_compute. reflexivity. Qed.

Lemma demo_office_ok :
  ∃ s, initDisplay demo_init = Some (tt, s) ∧ display_ok 1 s ∧ office_ok (demo_office s).
Proof.
  destruct demo_start as (s & E & Hs). exists s. split; [done|]. split; [done|].
  pose proof demo_init_dictionary as Ed. rewrite E in Ed. injection Ed as Ed. split.
  - unfold shared. cbn [demo_office display Display.internal]. rewrite Ed. apply Dictionary_new_ok.
  - intros s' [= <-]. by exists 1.
Qed.

Definition demo_form : list (string * string) :=
  [("msg", "50% off & more"); ("color", "1"); ("timeout", "3")].

Lemma demo_form_ok : message_fields demo_form.
Proof.
  split; [|split; [|split]].
  - apply (proj1 (bool_decide_eq_true _)). vm_compute. reflexivity.
  - repeat constructor; discriminate.
  - unfold message_names. repeat (apply Forall_cons; split; [cbn; set_solver|]). constructor.
  - repeat (apply Forall_cons; split; [split; [intros [Hk|Hk]; discriminate Hk|intros Hk; discriminate Hk]|]).
    constructor.
Qed.

Lemma posted_message_shown_witness :
  ∃ s, initDisplay demo_init = Some (tt, s) ∧
  ∃ out w' o' vals s',
    handleRequest false (msgMode_post demo_form) (mkServer (Some started) (demo_office s)) =
      Ok (replyNoContent, out, mkServer (Some w') o') ∧
    (∀ k v, map_find k vals = Some v ↔ (k, v) ∈ demo_form) ∧
    Display.checkTodoList (display o') = Some (mkDisplayThread [] (Some s')) ∧ display_ok 2 s' ∧
    DisplayState.currModeIndex s' = displayModeMessage ∧ requested vals (modeMessageData s') ∧
    (Forall (λ f, plain f.1 f.2) demo_form → ∀ t, ("msg", t) ∈ demo_form →
      msg (modeMessageData s') = snprintf_s MESSAGE_MAX_SIZE t).
Proof.
  destruct demo_office_ok as (s & E & Hs & Ho). exists s. split; [exact E|].
  apply (posted_message_shown false started (demo_office s) s 1 demo_form (conj eq_refl eq_refl) Ho
    eq_refl Hs eq_refl ltac:(discriminate) demo_form_ok).
  apply Nat.ltb_lt. vm_compute. reflexivity.
Defined.

(** A visit: the main page, a message, a page that does not exist, a request
    for headers only, a dictionary entry, and the report. *)
Definition demo_visit : list RequestInfo :=
  [mkRequest EVHTTP_REQ_GET "/" None; msgMode_post demo_form;
   mkRequest EVHTTP_REQ_GET "/sound" None; mkRequest EVHTTP_REQ_HEAD "/anything" None;
   mkRequest EVHTTP_REQ_POST "/dictionary"
     (Some (form_encode [("dictionaryKey", "mail"); ("dictionaryData", "2 new")]));
   mkRequest EVHTTP_REQ_POST "/ledStrip" (Some []); mkRequest EVHTTP_REQ_GET "/status.json" None].

Lemma demo_visit_fits : Forall (λ r, body_fits (requestBody r)) demo_visit.
Proof. repeat (apply Forall_cons; split; [done || (unfold body_fits; vm_compute; reflexivity)|]). constructor. Qed.

