(* ===== verification/Mqtt.v ===== *)
(** * The MQTT client: src/src/mqttClient.h, src/src/mqttClient.cpp

    The thread that reports to the broker: what it publishes for the messages
    of the other threads, when it reconnects, and its counters. Its four timers
    are services of TimerTick.v. The library it talks to, the light sensor, the
    clock and the status document are the interface [MqttWorld]. *)
From S2P Require Import Prelude CLib CommonUtils Inbox TimerTick StatusReport.

(** ** Constants *)
Definition topicPrefix : string := "/officeClock/".
Definition topicLightSensor : string := topicPrefix +:+ "light".
Definition topicDisplayIntensity : string := topicPrefix +:+ "display_intensity".
Definition topicDisplayMode : string := topicPrefix +:+ "display_mode".
Definition topicMotion : string := topicPrefix +:+ "motion".
Definition topicMotionDetected : string := topicPrefix +:+ "last_motion".
Definition topicStatus : string := topicPrefix +:+ "status".

Definition MQTT_BROKER_DEFAULT_IP : string := "192.168.10.238".
Definition MQTT_BROKER_DEFAULT_PORT : Z := 1883.
Definition MQTT_BROKER_DEFAULT_KA : Z := 182.

(** [MOSQ_ERR_SUCCESS] and [MOSQ_ERR_NO_CONN] of <mosquitto.h>. *)
Definition MOSQ_ERR_SUCCESS : Z := 0.
Definition MOSQ_ERR_NO_CONN : Z := 4.

Definition mqttLoopInterval : Z := 445.
Definition periodicReportInterval : Z := (5 * 60 + 13) * 1000.
Definition reconnectDamperInterval : Z := 7 * 1000.
Definition motionDamperInterval : Z := 10 * 60 * 1000.

(** ** The client's information *)

Definition MqttClient_new : MqttClientInfo :=
  mkMqttInfo (Some MQTT_BROKER_DEFAULT_IP) MQTT_BROKER_DEFAULT_PORT MQTT_BROKER_DEFAULT_KA
    false 0 0 0 0 0 0 0 0 0 0.

Definition set_broker (ip : option string) (port ka : Z) (i : MqttClientInfo) : MqttClientInfo :=
  mkMqttInfo ip port ka (mqttBrokerConnected i) (last_loop_rc i) (connectAttempts i) (connects i)
    (disconnects i) (publishes i) (publishedMotions i) (publishesDropped i) (publishCallbacks i)
    (messages i) (mqtt_ticks i).
Definition set_connected (b : bool) (i : MqttClientInfo) : MqttClientInfo :=
  mkMqttInfo (mqttBrokerIp i) (mqttBrokerPort i) (mqttKeepAlive i) b (last_loop_rc i)
    (connectAttempts i) (connects i) (disconnects i) (publishes i) (publishedMotions i)
    (publishesDropped i) (publishCallbacks i) (messages i) (mqtt_ticks i).
Definition set_last_loop_rc (rc : Z) (i : MqttClientInfo) : MqttClientInfo :=
  mkMqttInfo (mqttBrokerIp i) (mqttBrokerPort i) (mqttKeepAlive i) (mqttBrokerConnected i) rc
    (connectAttempts i) (connects i) (disconnects i) (publishes i) (publishedMotions i)
    (publishesDropped i) (publishCallbacks i) (messages i) (mqtt_ticks i).

(** The counters, each an [Int32U]. *)
Inductive MqttCounter :=
  | ConnectAttempts | Connects | Disconnects | Publishes | PublishedMotions | PublishesDropped
  | PublishCallbacks | Messages | Ticks.

#[export] Instance MqttCounter_eq_dec : EqDecision MqttCounter.
Proof. solve_decision. Defined.

Definition increment (c : MqttCounter) (i : MqttClientInfo) : MqttClientInfo :=
  let bump c' v := if decide (c = c') then u32 (v + 1) else v in
  mkMqttInfo (mqttBrokerIp i) (mqttBrokerPort i) (mqttKeepAlive i) (mqttBrokerConnected i)
    (last_loop_rc i) (bump ConnectAttempts (connectAttempts i)) (bump Connects (connects i))
    (bump Disconnects (disconnects i)) (bump Publishes (publishes i))
    (bump PublishedMotions (publishedMotions i)) (bump PublishesDropped (publishesDropped i))
    (bump PublishCallbacks (publishCallbacks i)) (bump Messages (messages i))
    (bump Ticks (mqtt_ticks i)).

(** ** Callbacks of the library *)
Inductive MqttCallback := OnConnect (rc : Z) | OnDisconnect | OnPublish | OnMessage.

Definition mqtt_on_connect (rc : Z) (i : MqttClientInfo) : MqttClientInfo :=
  set_connected (rc =? 0) (increment Connects i).
Definition mqtt_on_disconnect (i : MqttClientInfo) : MqttClientInfo :=
  set_connected false (increment Disconnects i).
Definition mqtt_on_publish (i : MqttClientInfo) : MqttClientInfo := increment PublishCallbacks i.
Definition mqtt_on_message (i : MqttClientInfo) : MqttClientInfo := increment Messages i.

Definition callback (c : MqttCallback) : MqttClientInfo → MqttClientInfo :=
  match c with
  | OnConnect rc => mqtt_on_connect rc
  | OnDisconnect => mqtt_on_disconnect
  | OnPublish => mqtt_on_publish
  | OnMessage => mqtt_on_message
  end.

Definition callbacks (l : list MqttCallback) (i : MqttClientInfo) : MqttClientInfo :=
  foldl (λ i c, callback c i) i l.

(** ** Command line *)

(** [atoi], on a 32-bit [long]. *)
Definition atoi (s : string) : Z :=
  match strto_scan 10 s with
  | None => 0
  | Some (neg, v, _) => (clamp_signed LONG_MIN LONG_MAX neg v).1
  end.

(** [parseParams]: the options [getopt] finds, each with its argument. *)
Definition parse_param (i : MqttClientInfo) (opt : ascii * string) : MqttClientInfo :=
  let '(o, optarg) := opt in
  if decide (o = "M"%char) then set_broker (Some optarg) (mqttBrokerPort i) (mqttKeepAlive i) i
  else if decide (o = "P"%char) then set_broker (mqttBrokerIp i) (atoi optarg) (mqttKeepAlive i) i
  else if decide (o = "K"%char) then set_broker (mqttBrokerIp i) (mqttBrokerPort i) (atoi optarg) i
  else i.

Definition parseParams (options : list (ascii * string)) (i : MqttClientInfo) : MqttClientInfo :=
  foldl parse_param i options.

(** ** What the client asks for *)

(** The calls of libmosquitto, with the callbacks each runs before it returns;
    the light sensor, the time stamp and the status document. *)
Class MqttWorld (W : Type) := {
  mosquitto_publish : string → string → bool → W → Z * list MqttCallback * W;
  mosquitto_loop : W → Z * list MqttCallback * W;
  mosquitto_connect : option string → Z → Z → W → Z * list MqttCallback * W;
  mosquitto_close : W → list MqttCallback * W;
  light_level : W → Z;
  timestamp : W → string * W;
  status_document : MqttClientInfo → W → string * W;
}.

(** A call of [mosquitto_publish]. *)
Record Publication := mkPublication {
  pub_topic : string;
  pub_payload : string;
  pub_retain : bool;
}.

Section client.
Context {W : Type} `{MqttWorld W}.

(** The client and the locals of its thread: the services are the addresses of
    the objects on its stack, [published] and [attempts] what it called. *)
Record MqttThread := mkMqtt {
  mqttClientInfo : MqttClientInfo;
  timerTick : TimerTick;
  timerTickServiceMqttLoop : Z;
  timerTickPeriodicReport : Z;
  timerTickReconnectDamper : Z;
  timerTickMotionDamper : Z;
  readyForTimerTickServiceMessage : bool;
  publishedMotionOn : bool;
  published : list Publication;
  attempts : list (option string * Z * Z);
  mqtt_world : W;
}.
Implicit Types st : MqttThread.

Definition set_info (i : MqttClientInfo) st : MqttThread :=
  mkMqtt i (timerTick st) (timerTickServiceMqttLoop st) (timerTickPeriodicReport st)
    (timerTickReconnectDamper st) (timerTickMotionDamper st) (readyForTimerTickServiceMessage st)
    (publishedMotionOn st) (published st) (attempts st) (mqtt_world st).
Definition set_timerTick (t : TimerTick) st : MqttThread :=
  mkMqtt (mqttClientInfo st) t (timerTickServiceMqttLoop st) (timerTickPeriodicReport st)
    (timerTickReconnectDamper st) (timerTickMotionDamper st) (readyForTimerTickServiceMessage st)
    (publishedMotionOn st) (published st) (attempts st) (mqtt_world st).
Definition set_ready (b : bool) st : MqttThread :=
  mkMqtt (mqttClientInfo st) (timerTick st) (timerTickServiceMqttLoop st)
    (timerTickPeriodicReport st) (timerTickReconnectDamper st) (timerTickMotionDamper st) b
    (publishedMotionOn st) (published st) (attempts st) (mqtt_world st).
Definition set_publishedMotionOn (b : bool) st : MqttThread :=
  mkMqtt (mqttClientInfo st) (timerTick st) (timerTickServiceMqttLoop st)
    (timerTickPeriodicReport st) (timerTickReconnectDamper st) (timerTickMotionDamper st)
    (readyForTimerTickServiceMessage st) b (published st) (attempts st) (mqtt_world st).
Definition add_published (p : Publication) st : MqttThread :=
  mkMqtt (mqttClientInfo st) (timerTick st) (timerTickServiceMqttLoop st)
    (timerTickPeriodicReport st) (timerTickReconnectDamper st) (timerTickMotionDamper st)
    (readyForTimerTickServiceMessage st) (publishedMotionOn st) (published st ++ [p]) (attempts st)
    (mqtt_world st).
Definition add_attempt (a : option string * Z * Z) st : MqttThread :=
  mkMqtt (mqttClientInfo st) (timerTick st) (timerTickServiceMqttLoop st)
    (timerTickPeriodicReport st) (timerTickReconnectDamper st) (timerTickMotionDamper st)
    (readyForTimerTickServiceMessage st) (publishedMotionOn st) (published st)
    (attempts st ++ [a]) (mqtt_world st).
Definition set_world (w : W) st : MqttThread :=
  mkMqtt (mqttClientInfo st) (timerTick st) (timerTickServiceMqttLoop st)
    (timerTickPeriodicReport st) (timerTickReconnectDamper st) (timerTickMotionDamper st)
    (readyForTimerTickServiceMessage st) (publishedMotionOn st) (published st) (attempts st) w.

Definition update_info (f : MqttClientInfo → MqttClientInfo) st : MqttThread :=
  set_info (f (mqttClientInfo st)) st.

(** [service.getAndResetExpired()] *)
Definition take_expired (p : Z) st : bool * MqttThread :=
  match objects (timerTick st) !! p with
  | None => (false, st)
  | Some s =>
      let '(b, s') := getAndResetExpired s in
      (b, set_timerTick (set_object p s' (timerTick st)) st)
  end.

(** [service.getCookie()] *)
Definition cookie_of (p : Z) st : Z :=
  match objects (timerTick st) !! p with Some s => getCookie s | None => nullCookie end.

Definition doPublish (topic payload : string) (retain : bool) st : MqttThread :=
  let '(rc, calls, w) := mosquitto_publish (c_str topic) (c_str payload) retain (mqtt_world st) in
  let st := add_published (mkPublication (c_str topic) (c_str payload) retain) st in
  let st := update_info (callbacks calls) (set_world w st) in
  let st := if negb (rc =? MOSQ_ERR_SUCCESS) then update_info (increment PublishesDropped) st
            else st in
  update_info (increment Publishes) st.

Definition doPeriodicReport st : MqttThread :=
  let lightValueBuffer := snprintf_s 6 (print_int (s32 (light_level (mqtt_world st)))) in
  let st := doPublish topicLightSensor lightValueBuffer false st in
  let '(statusJson, w) := status_document (mqttClientInfo st) (mqtt_world st) in
  doPublish topicStatus statusJson false (set_world w st).

(** A reconnection, and what it answers. *)
Definition do_connect st : Z * MqttThread :=
  let i := mqttClientInfo st in
  let '(rc, calls, w) :=
    mosquitto_connect (mqttBrokerIp i) (mqttBrokerPort i) (mqttKeepAlive i) (mqtt_world st) in
  let st := add_attempt (mqttBrokerIp i, mqttBrokerPort i, mqttKeepAlive i) st in
  let st := update_info (callbacks calls) (set_world w st) in
  (rc, update_info (increment ConnectAttempts) st).

(** The message of the loop's timer. *)
Definition handle_loop st : MqttThread :=
  let st := set_ready false st in
  let '(rc, calls, w) := mosquitto_loop (mqtt_world st) in
  let st := update_info (callbacks calls) (set_world w st) in
  let st := update_info (increment Ticks) st in
  let '(report, st) :=
    if rc =? MOSQ_ERR_SUCCESS then take_expired (timerTickPeriodicReport st) st else (false, st) in
  let '(rc, st) :=
    if report then (rc, doPeriodicReport st)
    else
      let '(reconnect, st) :=
        if (rc =? MOSQ_ERR_NO_CONN) || negb (mqttBrokerConnected (mqttClientInfo st))
        then take_expired (timerTickReconnectDamper st) st else (false, st) in
      if reconnect then do_connect st else (rc, st) in
  if negb (rc =? last_loop_rc (mqttClientInfo st)) then update_info (set_last_loop_rc rc) st else st.

Definition handle_motionOff st : MqttThread :=
  if publishedMotionOn st then set_publishedMotionOn false (doPublish topicMotion "off" true st)
  else st.

Definition handle_motionOn st : MqttThread :=
  let '(allowed, st) := take_expired (timerTickMotionDamper st) st in
  if allowed then
    let st := set_publishedMotionOn true (doPublish topicMotion "on" true st) in
    let '(now, w) := timestamp (mqtt_world st) in
    let st := doPublish topicMotionDetected now true (set_world w st) in
    let t := (startTimerTickService (cookie_of (timerTickMotionDamper st) st) (timerTick st)).2 in
    update_info (increment PublishedMotions) (set_timerTick t st)
  else st.

(** The [switch] of the loop, on a message that is not the last. *)
Definition handle_message (t : InboxMsgType) st : MqttThread :=
  match t with
  | inboxMsgTypeTimerTickMessage => handle_loop st
  | inboxMsgTypeMotionOff => handle_motionOff st
  | inboxMsgTypeMotionOn => handle_motionOn st
  | inboxMsgTypeDisplayBrightHigh => doPublish topicDisplayIntensity "high" true st
  | inboxMsgTypeDisplayBrightLow => doPublish topicDisplayIntensity "low" true st
  | inboxMsgTypeDisplayModeNothing => doPublish topicDisplayMode "screen_saver" true st
  | inboxMsgTypeDisplayModeBasicClock => doPublish topicDisplayMode "clock" true st
  | inboxMsgTypeDisplayModeMessage => doPublish topicDisplayMode "message" true st
  | inboxMsgTypeNoop | inboxMsgTypeTerminate => st
  end.

(** One iteration of the loop, from the wait for a message to the next one;
    [None] leaves the loop. *)
Definition mqtt_iteration (m : InboxMsg) st : option MqttThread :=
  match inboxMsgType m with
  | inboxMsgTypeTerminate => None
  | t => Some (set_ready true (handle_message t st))
  end.

(** ** Before and after the loop *)

Definition loop_service : TimerTickService :=
  new_service mqttLoopInterval true (ServiceMessage threadIdMqttClient true).
Definition report_service : TimerTickService := new_service periodicReportInterval true ServiceBool.
Definition reconnect_service : TimerTickService :=
  set_expired true (new_service reconnectDamperInterval true ServiceBool).
Definition damper_service : TimerTickService :=
  set_expired true (new_service motionDamperInterval false ServiceBool).

(** What precedes the loop; [mosq] tells whether [mosquitto_new] succeeds. *)
Definition mqtt_start (options : list (ascii * string)) (mosq : bool) (t : TimerTick) (w : W)
    : res MqttThread :=
  let i := parseParams options MqttClient_new in
  if negb mosq then Throw (RuntimeError "unable to allocate mosq")
  else
    let! (pLoop, t) := add_service loop_service true t in
    let! (pReport, t) := add_service report_service true t in
    let! (pReconnect, t) := add_service reconnect_service true t in
    let! (pDamper, t) := add_service damper_service false t in
    Ok (mkMqtt i t pLoop pReport pReconnect pDamper true false [] [] w).

(** What follows it: the connection closes, the timers are unregistered and
    their objects die with the stack frame. *)
Definition mqtt_exit (ib : Inbox) st : Inbox * TimerTick * MqttClientInfo * W :=
  let '(calls, w) := mosquitto_close (mqtt_world st) in
  let drop p st := set_timerTick (unregisterTimerTickService (cookie_of p st) (timerTick st)) st in
  let st := update_info (callbacks calls) st in
  let st := drop (timerTickMotionDamper st) st in
  let st := drop (timerTickReconnectDamper st) st in
  let st := drop (timerTickPeriodicReport st) st in
  let st := drop (timerTickServiceMqttLoop st) st in
  let t := free_service (timerTickMotionDamper st) (free_service (timerTickReconnectDamper st)
             (free_service (timerTickPeriodicReport st)
                (free_service (timerTickServiceMqttLoop st) (timerTick st)))) in
  (clear ib, t, mqttClientInfo st, w).

(** ** The thread among the others *)

(** What happens next: the timer thread makes a pass over its table, in which
    the condition function of the loop's service answers as given (a pass may
    fall into an iteration, where the flag is off); or the client gets a
    message. *)
Inductive MqttEvent := Pass (answer : bool) | Got (m : InboxMsg).

Definition timer_pass (answer : bool) st : MqttThread :=
  set_timerTick
    (tick (λ p, if p =? timerTickServiceMqttLoop st then answer else true) (timerTick st)).1.1 st.

Definition mqtt_event (e : MqttEvent) st : option MqttThread :=
  match e with
  | Pass answer => Some (timer_pass answer st)
  | Got m => mqtt_iteration m st
  end.

Fixpoint mqtt_run (es : list MqttEvent) st : option MqttThread :=
  match es with
  | [] => Some st
  | e :: es => st ← mqtt_event e st; mqtt_run es st
  end.
End client.
Arguments MqttThread W : clear implicits.
