(* ===== verification/MqttProofs.v ===== *)
(** * What the MQTT client promises

    What it says about motion, as a small machine of its own, how often it
    connects, and that its counters count; with a witness on a broker that
    refuses every other publication. *)
From S2P Require Import Prelude CLib CommonUtils Inbox TimerTick StatusReport Mqtt.

(** ** The machine of the motion messages *)

(** How the damper stands: free, or the passes until it is. *)
Record MotionState := mkMotionState {
  damper : option Z;
  said_on : bool;
}.

Definition motion_start : MotionState := mkMotionState None false.

(** The passes from a start of the damper to its expiry. *)
Definition damper_passes : Z := 1 + motionDamperInterval / millisPerTick.
Definition reconnect_passes : Z := 1 + reconnectDamperInterval / millisPerTick.

Definition damper_pass (d : option Z) : option Z :=
  match d with
  | None => None
  | Some n => if n =? 1 then None else Some (n - 1)
  end.

(** The state after an event and what is said about motion. *)
Definition motion_step (e : MqttEvent) (s : MotionState) : MotionState * list string :=
  match e with
  | Pass _ => (mkMotionState (damper_pass (damper s)) (said_on s), [])
  | Got m =>
      match inboxMsgType m with
      | inboxMsgTypeMotionOn =>
          match damper s with
          | None => (mkMotionState (Some damper_passes) true, ["on"])
          | Some _ => (s, [])
          end
      | inboxMsgTypeMotionOff =>
          if said_on s then (mkMotionState (damper s) false, ["off"]) else (s, [])
      | _ => (s, [])
      end
  end.

Fixpoint motion_run (es : list MqttEvent) (s : MotionState) : MotionState * list string :=
  match es with
  | [] => (s, [])
  | e :: es =>
      let '(s1, l1) := motion_step e s in
      let '(s2, l2) := motion_run es s1 in (s2, l1 ++ l2)
  end.

Definition is_pass (e : MqttEvent) : bool := match e with Pass _ => true | _ => false end.
Definition is_loop (e : MqttEvent) : bool :=
  match e with Got m => bool_decide (inboxMsgType m = inboxMsgTypeTimerTickMessage) | _ => false end.

Definition number_of (f : MqttEvent → bool) (es : list MqttEvent) : Z :=
  Z.of_nat (length (filter (λ e, f e = true) es)).

(** The thread is not told to stop. *)
Definition goes_on (e : MqttEvent) : Prop :=
  match e with Got m => inboxMsgType m ≠ inboxMsgTypeTerminate | _ => True end.

(** What was published about motion. *)
Definition motion_topics (l : list Publication) : list string :=
  pub_payload <$> filter (λ p, pub_topic p = topicMotion) l.

Definition ons (l : list string) : Z := Z.of_nat (length (filter (λ p, p = "on") l)).

(** An "off" follows an "on". *)
Definition off_after_on (l : list string) : Prop :=
  ∀ l1 l2, l = l1 ++ "off" :: l2 → last l1 = Some "on".

Lemma ons_app l k : ons (l ++ k) = ons l + ons k.
Proof. unfold ons. rewrite filter_app, length_app. lia. Qed.

Lemma number_of_cons f e es : number_of f (e :: es) = (if f e then 1 else 0) + number_of f es.
Proof. unfold number_of. rewrite filter_cons. destruct (f e); case_decide; simpl; done || lia. Qed.

Lemma number_of_nonneg f es : 0 <= number_of f es.
Proof. unfold number_of. lia. Qed.

(** ** The machine says "on" rarely, and "off" only after it *)

(** What the machine may have said when it stands so. *)
Definition damper_budget (d : option Z) : Z := default 0 d.
Definition damper_ok (d : option Z) : Prop := ∀ n, d = Some n → 0 < n <= damper_passes.

Lemma damper_passes_pos : 0 < damper_passes.
Proof. by vm_compute. Qed.

#[local] Opaque damper_passes.

Lemma motion_run_rate es s :
  damper_ok (damper s) →
  damper_ok (damper (motion_run es s).1) ∧
  ons (motion_run es s).2 * damper_passes + damper_budget (damper s) <=
    number_of is_pass es + damper_budget (damper (motion_run es s).1).
Proof.
  revert s. induction es as [|e es IH]; intros s Hd; cbn [motion_run].
  { split; [done|]. cbn [snd fst]. change (ons []) with 0. unfold number_of. cbn. lia. }
  rewrite number_of_cons. destruct (motion_step e s) as [s1 l1] eqn:E1.
  assert (damper_ok (damper s1) ∧ ons l1 * damper_passes + damper_budget (damper s) <=
    (if is_pass e then 1 else 0) + damper_budget (damper s1)) as [Hd1 Hb1].
  { pose proof damper_passes_pos.
    destruct e as [a|m]; cbn [motion_step is_pass] in *.
    - injection E1 as <- <-. change (ons []) with 0. cbn [damper]. unfold damper_pass. destruct (damper s) as [n|]; cbn.
      + specialize (Hd n eq_refl). destruct (Z.eqb_spec n 1); unfold damper_ok; cbn; (split; [|lia]);
          intros ? [=]; lia.
      + split; [done|lia].
    - assert (∀ s', s1 = s' → l1 = [] → damper s' = damper s →
        damper_ok (damper s1) ∧ ons l1 * damper_passes + damper_budget (damper s) <=
          0 + damper_budget (damper s1)) as Hsame.
      { intros ? -> -> ->. change (ons []) with 0. split; [done|lia]. }
      destruct (inboxMsgType m); try (by injection E1 as <- <-; eapply Hsame).
      + destruct (damper s) as [n|] eqn:En; injection E1 as <- <-.
        * rewrite <-En in *. by eapply Hsame.
        * change (ons ["on"]) with 1. unfold damper_ok. cbn. split; [intros ? [= <-]; lia|lia].
      + destruct (said_on s); injection E1 as <- <-; [|by eapply Hsame].
        change (ons ["off"]) with 0. cbn [damper]. split; [done|lia]. }
  destruct (IH s1 Hd1) as [Hd2 Hb2]. destruct (motion_run es s1) as [s2 l2]. cbn [fst snd] in *.
  split; [done|]. rewrite ons_app. lia.
Qed.

(** The flag tells what was said last. *)
Lemma motion_run_order es s l :
  (said_on s = true → last l = Some "on") → off_after_on l →
  off_after_on (l ++ (motion_run es s).2).
Proof.
  revert s l. induction es as [|e es IH]; intros s l Hs Hl; cbn [motion_run].
  { by rewrite app_nil_r. }
  destruct (motion_step e s) as [s1 l1] eqn:E1.
  assert ((said_on s1 = true → last (l ++ l1) = Some "on") ∧ off_after_on (l ++ l1)) as [Hs1 Hl1].
  { assert (Hsame : said_on s1 = said_on s → l1 = [] →
      (said_on s1 = true → last (l ++ l1) = Some "on") ∧ off_after_on (l ++ l1)).
    { intros -> ->. by rewrite app_nil_r. }
    destruct e as [a|m]; cbn [motion_step] in E1; [injection E1 as <- <-; by apply Hsame|].
    destruct (inboxMsgType m); try (by injection E1 as <- <-; apply Hsame).
    - destruct (damper s); injection E1 as <- <-; [by apply Hsame|].
      rewrite last_snoc. split; [done|]. intros k1 k2 Hk. destruct k2 as [|x k2 _] using rev_ind.
      { apply app_inj_tail in Hk as [_ [=]]. }
      rewrite app_comm_cons, app_assoc in Hk. apply app_inj_tail in Hk as [Hk _]. by eapply Hl.
    - destruct (said_on s) eqn:Eo; injection E1 as <- <-; [|by apply Hsame].
      split; [done|]. intros k1 k2 Hk. destruct k2 as [|x k2 _] using rev_ind.
      { apply app_inj_tail in Hk as [<- _]. by apply Hs. }
      rewrite app_comm_cons, app_assoc in Hk. apply app_inj_tail in Hk as [Hk _]. by eapply Hl. }
  specialize (IH s1 (l ++ l1) Hs1 Hl1). destruct (motion_run es s1) as [s2 l2]. cbn [snd] in *.
  by rewrite app_assoc.
Qed.

(** ** The client's steps *)
Section client.
Context {W : Type} `{MqttWorld W}.
Implicit Types st : MqttThread W.

(** The parts that most steps leave alone. *)
Definition broker (i : MqttClientInfo) : option string * Z * Z :=
  (mqttBrokerIp i, mqttBrokerPort i, mqttKeepAlive i).
Definition addresses st : list Z :=
  [timerTickServiceMqttLoop st; timerTickPeriodicReport st; timerTickReconnectDamper st;
   timerTickMotionDamper st].

(** The counters count: publications and attempts to connect, all of them to
    the broker of the command line. *)
Record books st : Prop := {
  bk_publishes : publishes (mqttClientInfo st) = u32 (Z.of_nat (length (published st)));
  bk_attempts : connectAttempts (mqttClientInfo st) = u32 (Z.of_nat (length (attempts st)));
  bk_motions : publishedMotions (mqttClientInfo st) = u32 (ons (motion_topics (published st)));
  bk_broker : Forall (λ a, a = broker (mqttClientInfo st)) (attempts st);
}.

Lemma callbacks_same l i :
  broker (callbacks l i) = broker i ∧ publishes (callbacks l i) = publishes i ∧
  connectAttempts (callbacks l i) = connectAttempts i ∧
  publishedMotions (callbacks l i) = publishedMotions i.
Proof.
  revert i. induction l as [|c l IH]; intros i; [done|]. cbn [callbacks foldl].
  destruct (IH (callback c i)) as (E1 & E2 & E3 & E4). unfold callbacks in *.
  rewrite E1, E2, E3, E4. by destruct c.
Qed.

(** What a step leaves: the timers, the flag of the motion, what is published
    besides [l], and the attempts besides [a]. *)
Record leaves (l : list Publication) (a : list (option string * Z * Z)) st st' : Prop := {
  lv_timers : timerTick st' = timerTick st;
  lv_addresses : addresses st' = addresses st;
  lv_on : publishedMotionOn st' = publishedMotionOn st;
  lv_published : published st' = published st ++ l;
  lv_attempts : attempts st' = attempts st ++ a;
  lv_broker : broker (mqttClientInfo st') = broker (mqttClientInfo st);
  lv_publishes : publishes (mqttClientInfo st') =
    u32 (publishes (mqttClientInfo st) + Z.of_nat (length l));
  lv_connects : connectAttempts (mqttClientInfo st') =
    u32 (connectAttempts (mqttClientInfo st) + Z.of_nat (length a));
  lv_motions : publishedMotions (mqttClientInfo st') = publishedMotions (mqttClientInfo st);
}.

Lemma u32_idem z : u32 (u32 z) = u32 z.
Proof. unfold u32. by rewrite Zmod_mod. Qed.

Lemma u32_add z k : u32 (u32 z + k) = u32 (z + k).
Proof. unfold u32. by rewrite Zplus_mod_idemp_l. Qed.

Lemma leaves_trans l1 a1 l2 a2 st1 st2 st3 :
  leaves l1 a1 st1 st2 → leaves l2 a2 st2 st3 → leaves (l1 ++ l2) (a1 ++ a2) st1 st3.
Proof.
  intros [A1 A2 A3 A4 A5 A6 A7 A8 A9] [B1 B2 B3 B4 B5 B6 B7 B8 B9].
  constructor; rewrite ?length_app, ?Nat2Z.inj_add; try congruence.
  - by rewrite B4, A4, app_assoc.
  - by rewrite B5, A5, app_assoc.
  - by rewrite B7, A7, u32_add, Z.add_assoc.
  - by rewrite B8, A8, u32_add, Z.add_assoc.
Qed.

(** The two counters are in the range of their type. *)
Definition in_width st : Prop :=
  u32 (publishes (mqttClientInfo st)) = publishes (mqttClientInfo st) ∧
  u32 (connectAttempts (mqttClientInfo st)) = connectAttempts (mqttClientInfo st).

Lemma leaves_nothing f st :
  in_width st →
  (∀ i, broker (f i) = broker i ∧ publishes (f i) = publishes i ∧
    connectAttempts (f i) = connectAttempts i ∧ publishedMotions (f i) = publishedMotions i) →
  leaves [] [] st (update_info f st).
Proof.
  intros [H1 H2] Hf. destruct (Hf (mqttClientInfo st)) as (E1 & E2 & E3 & E4).
  constructor; cbn; rewrite ?app_nil_r, ?Z.add_0_r; done || congruence.
Qed.

Lemma leaves_width l a st st' : leaves l a st st' → in_width st'.
Proof. intros []. split; rewrite ?lv_publishes0, ?lv_connects0; apply u32_idem. Qed.

Lemma leaves_world w st : in_width st → leaves [] [] st (set_world w st).
Proof. intros [H1 H2]. constructor; cbn; rewrite ?app_nil_r, ?Z.add_0_r; done. Qed.

Lemma increment_same c i :
  c ≠ Publishes → c ≠ ConnectAttempts → c ≠ PublishedMotions →
  broker (increment c i) = broker i ∧ publishes (increment c i) = publishes i ∧
  connectAttempts (increment c i) = connectAttempts i ∧
  publishedMotions (increment c i) = publishedMotions i.
Proof. intros H1 H2 H3. unfold increment. split_and!; cbn; rewrite ?decide_False by congruence; done. Qed.

Lemma doPublish_leaves topic payload retain st :
  in_width st →
  leaves [mkPublication (c_str topic) (c_str payload) retain] [] st
    (doPublish topic payload retain st).
Proof.
  intros [H1 H2]. unfold doPublish.
  destruct (mosquitto_publish _ _ _ _) as [[rc calls] w]. cbv zeta.
  set (pub := mkPublication _ _ _). set (st1 := update_info (callbacks calls) _).
  assert (broker (mqttClientInfo st1) = broker (mqttClientInfo st) ∧
    publishes (mqttClientInfo st1) = publishes (mqttClientInfo st) ∧
    connectAttempts (mqttClientInfo st1) = connectAttempts (mqttClientInfo st) ∧
    publishedMotions (mqttClientInfo st1) = publishedMotions (mqttClientInfo st)) as (B1 & B2 & B3 & B4)
    by apply callbacks_same.
  set (st2 := if negb _ then _ else st1).
  assert (broker (mqttClientInfo st2) = broker (mqttClientInfo st1) ∧
    publishes (mqttClientInfo st2) = publishes (mqttClientInfo st1) ∧
    connectAttempts (mqttClientInfo st2) = connectAttempts (mqttClientInfo st1) ∧
    publishedMotions (mqttClientInfo st2) = publishedMotions (mqttClientInfo st1)) as (C1 & C2 & C3 & C4).
  { unfold st2. case_match; [|done]. by apply increment_same. }
  assert (∀ A (f : MqttThread W → A), (∀ i s, f (set_info i s) = f s) → f st2 = f st1) as Hf.
  { intros A f Ef. unfold st2. case_match; [|done]. apply Ef. }
  constructor.
  - exact (Hf _ timerTick ltac:(done)).
  - exact (Hf _ addresses ltac:(done)).
  - exact (Hf _ publishedMotionOn ltac:(done)).
  - exact (Hf _ published ltac:(done)).
  - rewrite app_nil_r. exact (Hf _ attempts ltac:(done)).
  - etrans; [|etrans; [exact C1|exact B1]]. done.
  - cbn [update_info set_info mqttClientInfo increment publishes]. rewrite decide_True by done. by rewrite C2, B2.
  - cbn [update_info set_info mqttClientInfo increment connectAttempts length]. rewrite decide_False by done. by rewrite C3, B3, Z.add_0_r.
  - cbn [update_info set_info mqttClientInfo increment publishedMotions]. rewrite decide_False by done. by rewrite C4, B4.
Qed.

Lemma doPeriodicReport_leaves st :
  in_width st →
  ∃ p q, leaves [mkPublication (c_str topicLightSensor) p false; mkPublication (c_str topicStatus) q false]
    [] st (doPeriodicReport st).
Proof.
  intros Hw. unfold doPeriodicReport. set (st1 := doPublish _ _ _ st).
  assert (leaves _ [] st st1) as H1 by (by apply doPublish_leaves).
  destruct (status_document _ _) as [json w]. eexists _, _.
  pose proof (leaves_width _ _ _ _ H1) as Hw1. pose proof (leaves_world w st1 Hw1) as H2.
  pose proof (doPublish_leaves topicStatus json false _ (leaves_width _ _ _ _ H2)) as H3.
  exact (leaves_trans _ _ _ _ _ _ _ H1 (leaves_trans _ _ _ _ _ _ _ H2 H3)).
Qed.

Lemma do_connect_leaves st :
  in_width st → leaves [] [broker (mqttClientInfo st)] st (do_connect st).2.
Proof.
  intros [H1 H2]. unfold do_connect. destruct (mosquitto_connect _ _ _ _) as [[rc calls] w]. cbv zeta.
  cbn [snd]. set (st1 := update_info (callbacks calls) _).
  assert (broker (mqttClientInfo st1) = broker (mqttClientInfo st) ∧
    publishes (mqttClientInfo st1) = publishes (mqttClientInfo st) ∧
    connectAttempts (mqttClientInfo st1) = connectAttempts (mqttClientInfo st) ∧
    publishedMotions (mqttClientInfo st1) = publishedMotions (mqttClientInfo st)) as (B1 & B2 & B3 & B4)
    by apply callbacks_same.
  constructor; try done.
  - cbn. by rewrite app_nil_r.
  - cbn [update_info set_info mqttClientInfo increment publishes length].
    rewrite decide_False by done. by rewrite B2, Z.add_0_r.
  - cbn [update_info set_info mqttClientInfo increment connectAttempts length].
    rewrite decide_True by done. by rewrite B3.
Qed.

(** ** The timers *)

(** A service of the client in the timer's table. *)
Definition service_at (t : TimerTick) (p : Z) (P : TimerTickService → Prop) : Prop :=
  ∃ s, objects t !! p = Some s ∧ cookie s ≠ nullCookie ∧ trigger s = ServiceBool ∧ P s.

Definition damper_at (t : TimerTick) (p : Z) (d : option Z) : Prop :=
  damper_ok d ∧ service_at t p (λ s, interval s = motionDamperInterval ∧ periodic s = false ∧
    expired s = bool_decide (d = None) ∧ ticksLeft s = damper_budget d).

(** After [n] passes and [k] attempts: what is left of the period, and the
    attempts that were allowed. *)
Definition reconnect_at (t : TimerTick) (p n k : Z) : Prop :=
  service_at t p (λ s, interval s = reconnectDamperInterval ∧ periodic s = true ∧
    0 < ticksLeft s <= reconnect_passes ∧
    (k + b2z (expired s) - 1) * reconnect_passes + (reconnect_passes - ticksLeft s) <= n).

Record timers_ok (n k : Z) (d : option Z) st : Prop := {
  tm_table : table_ok (timerTick st);
  tm_damper : damper_at (timerTick st) (timerTickMotionDamper st) d;
  tm_reconnect : reconnect_at (timerTick st) (timerTickReconnectDamper st) n k;
  tm_distinct : NoDup (addresses st);
}.

Lemma set_object_lookup p s t q :
  objects (set_object p s t) !! q = if decide (q = p) then Some s else objects t !! q.
Proof.
  cbn. case_decide as E; [subst; apply lookup_insert_eq|by apply lookup_insert_ne].
Qed.

Lemma service_other t p q s P :
  q ≠ p → service_at t q P → service_at (set_object p s t) q P.
Proof. intros Hne (s' & E & Hs). exists s'. by rewrite set_object_lookup, decide_False. Qed.

Lemma damper_passes_eq s : interval s = motionDamperInterval → period s = damper_passes.
Proof. unfold period. intros ->. done. Qed.
Lemma reconnect_passes_eq s : interval s = reconnectDamperInterval → period s = reconnect_passes.
Proof. unfold period. intros ->. done. Qed.

(** A pass of the timer over one boolean service. *)
Lemma tick_bool cond p s :
  cookie s ≠ nullCookie → trigger s = ServiceBool → 0 <= ticksLeft s →
  same_service s (tick_obj cond p s) ∧
  expired (tick_obj cond p s) = expired s || (ticksLeft s =? 1) ∧
  ticksLeft (tick_obj cond p s) =
    if ticksLeft s =? 0 then 0
    else if ticksLeft s =? 1 then (if periodic s then period s else 0)
    else ticksLeft s - 1.
Proof.
  intros Hc Ht Hn. destruct (tick_service_timing (cond p) s Hc Hn) as (H1 & _ & H3).
  split; [exact H1|]. split; [|exact H3]. unfold tick_obj, tick_service.
  destruct (Z.ltb_spec 0 (ticksLeft s)).
  - cbn [ticksLeft set_ticksLeft]. destruct (Z.eqb_spec (ticksLeft s) 1) as [E|E].
    + rewrite E. change (1 - 1 =? 0) with true. unfold expireTrigger. cbn [trigger set_ticksLeft].
      rewrite Ht, orb_true_r. cbn [fst snd]. destruct (_ && _); [by rewrite start_ticksLeft|done].
    + rewrite (proj2 (Z.eqb_neq _ _)) by lia. by rewrite orb_false_r.
  - rewrite (proj2 (Z.eqb_neq _ _)) by lia. by rewrite orb_false_r.
Qed.

Lemma service_pass cond t p P :
  table_ok t → service_at t p P →
  ∃ s, objects t !! p = Some s ∧ cookie s ≠ nullCookie ∧ trigger s = ServiceBool ∧ P s ∧
    objects (tick cond t).1.1 !! p = Some (tick_obj cond p s).
Proof.
  intros Ht (s & E & Hc & Hb & Hs). exists s. do 4 (split; [done|]). rewrite tick_lookup, E by done.
  unfold registered_obj. cbn. by rewrite (proj2 (Z.eqb_neq _ _)).
Qed.

Lemma damper_passes_cookie cond t p d :
  table_ok t → damper_at t p d → damper_at (tick cond t).1.1 p (damper_pass d).
Proof.
  intros Ht [Hd Hs]. destruct (service_pass cond t p _ Ht Hs) as (s & _ & Hc & Hb & (Hi & Hp & He & Hn) & E).
  pose proof damper_passes_pos as Hpos.
  destruct (tick_bool cond p s Hc Hb) as ((Si & Sp & Sc & St) & Se & Sn).
  { rewrite Hn. destruct d as [n|]; cbn; [|lia]. specialize (Hd n eq_refl). lia. }
  split.
  { intros n. unfold damper_pass. destruct d as [m|]; [|done]. specialize (Hd m eq_refl).
    destruct (Z.eqb_spec m 1); [done|]. intros [= <-]. lia. }
  exists (tick_obj cond p s). split; [done|]. split; [congruence|]. split; [congruence|].
  split; [congruence|]. split; [congruence|]. rewrite Se, Sn, He, Hn, Hp.
  unfold damper_pass, damper_budget. destruct d as [n|]; cbn [default from_option id].
  - specialize (Hd n eq_refl). destruct (Z.eqb_spec n 0); [lia|]. by destruct (Z.eqb_spec n 1).
  - done.
Qed.

Lemma reconnect_pass cond t p n k :
  table_ok t → reconnect_at t p n k → reconnect_at (tick cond t).1.1 p (n + 1) k.
Proof.
  intros Ht Hs. destruct (service_pass cond t p _ Ht Hs) as (s & _ & Hc & Hb & (Hi & Hp & Hl & Hk) & E).
  destruct (tick_bool cond p s Hc Hb ltac:(lia)) as ((Si & Sp & Sc & St) & Se & Sn).
  exists (tick_obj cond p s). split; [done|]. split; [congruence|]. split; [congruence|].
  split; [congruence|]. split; [congruence|]. rewrite Se, Sn, Hp.
  rewrite (reconnect_passes_eq s Hi). assert (1 < reconnect_passes) by (by vm_compute).
  assert (0 <= b2z (expired s) <= 1) by (destruct (expired s); cbn; lia).
  destruct (Z.eqb_spec (ticksLeft s) 0); [lia|]. destruct (Z.eqb_spec (ticksLeft s) 1) as [E1|E1].
  - rewrite orb_true_r. cbn [b2z]. split; [lia|]. rewrite E1 in Hk. nia.
  - rewrite orb_false_r. split; [lia|]. lia.
Qed.

Lemma pass_ok n k d a st :
  timers_ok n k d st → timers_ok (n + 1) k (damper_pass d) (timer_pass a st).
Proof.
  intros [H1 H2 H3 H4]. constructor; cbn [timerTick timer_pass set_timerTick]; try done.
  - by apply tick_ok.
  - by apply damper_passes_cookie.
  - by apply reconnect_pass.
Qed.

(** Asking a service for its flag. *)
Lemma take_run p st s :
  objects (timerTick st) !! p = Some s →
  take_expired p st =
    (expired s, set_timerTick (set_object p (set_expired false s) (timerTick st)) st).
Proof. intros E. unfold take_expired. by rewrite E. Qed.

(** The report's flag is nobody else's. *)
Lemma take_report_ok n k d st :
  timers_ok n k d st → timers_ok n k d (take_expired (timerTickPeriodicReport st) st).2.
Proof.
  intros Ht. unfold take_expired. destruct (objects (timerTick st) !! _) as [s|] eqn:E; [|done].
  destruct Ht as [H1 [Hd H2] H3 H4]. cbn [getAndResetExpired snd].
  pose proof H4 as H4'. unfold addresses in H4'. rewrite !NoDup_cons in H4'. destruct H4' as (_ & N1 & N2 & _).
  constructor; cbn [timerTick set_timerTick addresses]; try done.
  - by apply (set_object_ok _ _ s).
  - split; [done|]. apply service_other; [|done]. intros Heq. apply N1. rewrite <-Heq. set_solver.
  - apply service_other; [|done]. intros Heq. apply N1. rewrite <-Heq. set_solver.
Qed.

(** The reconnection's flag allows one attempt. *)
Lemma take_reconnect_ok n k d st :
  timers_ok n k d st →
  let '(b, st') := take_expired (timerTickReconnectDamper st) st in
  timers_ok n (k + b2z b) d st' ∧ ∃ t, st' = set_timerTick t st.
Proof.
  intros [H1 [Hd H2] (s & E & Hc & Hb & Hi & Hp & Hl & Hk) H4]. rewrite (take_run _ _ s E).
  pose proof H4 as H4'. unfold addresses in H4'. rewrite !NoDup_cons in H4'. destruct H4' as (_ & N1 & N2 & _).
  split; [|by eexists]. constructor; cbn [timerTick set_timerTick addresses]; try done.
  - by apply (set_object_ok _ _ s).
  - split; [done|]. apply service_other; [|done]. intros Heq. apply N2. rewrite <-Heq. set_solver.
  - exists (set_expired false s). rewrite set_object_lookup, decide_True by done.
    split; [done|]. do 5 (split; [done|]). cbn [expired set_expired ticksLeft b2z]. lia.
Qed.

(** ** What the client says, event by event *)

(** The client's state seen through its damper, after [n] passes. *)
Record client_ok (n : Z) (ms : MotionState) st : Prop := {
  ck_timers : timers_ok n (Z.of_nat (length (attempts st))) (damper ms) st;
  ck_books : books st;
  ck_on : publishedMotionOn st = said_on ms;
}.

Lemma books_width st : books st → in_width st.
Proof. intros [E1 E2 _ _]. split; rewrite ?E1, ?E2; apply u32_idem. Qed.

Lemma motion_topics_app l k : motion_topics (l ++ k) = motion_topics l ++ motion_topics k.
Proof. unfold motion_topics. by rewrite filter_app, fmap_app. Qed.

(** Publications and attempts are counted. *)
Lemma leaves_books l a st st' :
  books st → leaves l a st st' → Forall (λ x, x = broker (mqttClientInfo st)) a →
  ons (motion_topics l) = 0 → books st'.
Proof.
  intros [E1 E2 E3 E4] [] Ha Hl. constructor.
  - by rewrite lv_publishes0, lv_published0, E1, u32_add, length_app, Nat2Z.inj_add.
  - by rewrite lv_connects0, lv_attempts0, E2, u32_add, length_app, Nat2Z.inj_add.
  - by rewrite lv_motions0, lv_published0, E3, motion_topics_app, ons_app, Hl, Z.add_0_r.
  - rewrite lv_attempts0, lv_broker0. by apply Forall_app.
Qed.

Lemma timers_same n k d st st' :
  timers_ok n k d st → timerTick st' = timerTick st → addresses st' = addresses st →
  timers_ok n k d st'.
Proof.
  intros [H1 H2 H3 H4] Et Ea. unfold addresses in *. injection Ea as E1 E2 E3 E4.
  constructor; unfold addresses; by rewrite ?Et, ?E1, ?E2, ?E3, ?E4.
Qed.

(** Published without an attempt to connect. *)
Lemma leaves_ok n ms l st st' :
  client_ok n ms st → leaves l [] st st' → ons (motion_topics l) = 0 → client_ok n ms st'.
Proof.
  intros [Ht Hb Ho] Hl Hm. constructor.
  - destruct Hl. rewrite lv_attempts0, app_nil_r. by eapply timers_same.
  - by eapply leaves_books.
  - by rewrite (lv_on _ _ _ _ Hl).
Qed.

Lemma timers_only_ok n ms t st :
  client_ok n ms st → timers_ok n (Z.of_nat (length (attempts st))) (damper ms) (set_timerTick t st) →
  client_ok n ms (set_timerTick t st).
Proof. intros [Ht [E1 E2 E3 E4] Ho] H1. by constructor. Qed.

(** One attempt, when the reconnection's timer allows it. *)
Lemma reconnect_ok n ms st :
  client_ok n ms st →
  let '(b, st1) := take_expired (timerTickReconnectDamper st) st in
  let st2 := (if b then do_connect st1 else (0, st1)).2 in
  client_ok n ms st2 ∧ broker (mqttClientInfo st2) = broker (mqttClientInfo st) ∧
  published st2 = published st.
Proof.
  intros [Ht Hb Ho]. pose proof (take_reconnect_ok _ _ _ _ Ht) as Hr.
  destruct (take_expired _ st) as [b st1]. destruct Hr as [Hr (t & ->)].
  assert (books (set_timerTick t st)) as Hb1 by (by destruct Hb).
  destruct b; cbn [snd b2z] in *.
  - pose proof (do_connect_leaves _ (books_width _ Hb1)) as Hl. split_and!.
    + constructor.
      * destruct Hl. rewrite lv_attempts0, length_app, Nat2Z.inj_add. by eapply timers_same.
      * eapply leaves_books; [done..| |done]. by constructor.
      * by rewrite (lv_on _ _ _ _ Hl).
    + by rewrite (lv_broker _ _ _ _ Hl).
    + by rewrite (lv_published _ _ _ _ Hl), app_nil_r.
  - split_and!; [|done..]. rewrite Z.add_0_r in Hr. by constructor.
Qed.

(** What an event keeps, and what it adds to what is said about motion. *)
Record said (n : Z) (ms : MotionState) (l : list string) st st' : Prop := {
  sd_ok : client_ok n ms st';
  sd_broker : broker (mqttClientInfo st') = broker (mqttClientInfo st);
  sd_topics : motion_topics (published st') = motion_topics (published st) ++ l;
}.

Lemma leaves_said n ms l st st' :
  client_ok n ms st → leaves l [] st st' → motion_topics l = [] → said n ms [] st st'.
Proof.
  intros Hc Hl Hm. constructor; [|by destruct Hl|].
  - eapply leaves_ok; [done..|]. by rewrite Hm.
  - by rewrite (lv_published _ _ _ _ Hl), motion_topics_app, Hm.
Qed.

Lemma said_trans n ms st1 st2 st3 :
  said n ms [] st1 st2 → said n ms [] st2 st3 → said n ms [] st1 st3.
Proof. intros [A1 A2 A3] [B1 B2 B3]. constructor; [done|congruence|]. by rewrite B3, A3, app_nil_r. Qed.

Lemma said_refl n ms st : client_ok n ms st → said n ms [] st st.
Proof. intros H1. constructor; [done..|]. by rewrite app_nil_r. Qed.

(** Changes of the information that no counter sees. *)
Lemma info_said n ms f st :
  client_ok n ms st →
  (∀ i, broker (f i) = broker i ∧ publishes (f i) = publishes i ∧
    connectAttempts (f i) = connectAttempts i ∧ publishedMotions (f i) = publishedMotions i) →
  said n ms [] st (update_info f st).
Proof.
  intros Hc Hf. apply (leaves_said _ _ []); [done| |done].
  apply leaves_nothing; [|done]. by apply books_width, Hc.
Qed.

Lemma world_said n ms w st : client_ok n ms st → said n ms [] st (set_world w st).
Proof.
  intros Hc. apply (leaves_said _ _ []); [done| |done]. by apply leaves_world, books_width, Hc.
Qed.

Lemma publish_said n ms topic payload retain st :
  client_ok n ms st → c_str topic ≠ topicMotion →
  said n ms [] st (doPublish topic payload retain st).
Proof.
  intros Hc Ht. eapply leaves_said; [done|apply doPublish_leaves, books_width, Hc|].
  unfold motion_topics. rewrite filter_cons_False by done. done.
Qed.

Lemma report_said n ms st : client_ok n ms st → said n ms [] st (doPeriodicReport st).
Proof.
  intros Hc. destruct (doPeriodicReport_leaves st) as (p & q & Hl); [by apply books_width, Hc|].
  by eapply leaves_said.
Qed.

Lemma take_report_said n ms st :
  client_ok n ms st → said n ms [] st (take_expired (timerTickPeriodicReport st) st).2.
Proof.
  intros Hc. pose proof (take_report_ok _ _ _ _ (ck_timers _ _ _ Hc)) as Ht.
  assert (∃ t, (take_expired (timerTickPeriodicReport st) st).2 = set_timerTick t st) as (t & E).
  { unfold take_expired. destruct (_ !! _); [by eexists|]. exists (timerTick st). by destruct st. }
  rewrite E in *. constructor; [by apply timers_only_ok|done|by rewrite app_nil_r].
Qed.

Lemma take_reconnect_said n ms st :
  client_ok n ms st →
  let '(b, st1) := take_expired (timerTickReconnectDamper st) st in
  said n ms [] st (if b then do_connect st1 else (0, st1)).2.
Proof.
  intros Hc. pose proof (reconnect_ok _ _ _ Hc) as Hr.
  destruct (take_expired _ st) as [b st1]. destruct Hr as (H1 & H2 & H3).
  constructor; [done..|]. by rewrite H3, app_nil_r.
Qed.

(** The loop's message: nothing about motion. *)
Lemma handle_loop_said n ms st : client_ok n ms st → said n ms [] st (handle_loop st).
Proof.
  intros Hc. unfold handle_loop. assert (client_ok n ms (set_ready false st)) as Hr.
  { destruct Hc as [Ht [] Ho]. constructor; [by eapply timers_same|by constructor|done]. }
  assert (said n ms [] st (set_ready false st)) as H1 by (constructor; [done..|by rewrite app_nil_r]).
  destruct (mosquitto_loop _) as [[rc calls] w].
  set (st1 := set_ready false st) in *. set (st2 := update_info (callbacks calls) (set_world w st1)).
  set (st3 := update_info (increment Ticks) st2).
  assert (said n ms [] st st3) as H3.
  { pose proof (world_said _ _ w _ Hr) as H2.
    pose proof (info_said _ _ _ _ (sd_ok _ _ _ _ _ H2) (callbacks_same calls)) as H4.
    eapply said_trans; [exact H1|]. eapply said_trans; [exact H2|]. eapply said_trans; [exact H4|].
    apply info_said; [apply H4|]. intros i. by apply increment_same. }
  clearbody st3. clear st1 st2 Hr H1. cbv zeta.
  destruct (if rc =? MOSQ_ERR_SUCCESS then _ else _) as [report st4] eqn:E4.
  assert (said n ms [] st st4) as H4.
  { destruct (rc =? MOSQ_ERR_SUCCESS); [|by simplify_eq]. eapply said_trans; [exact H3|].
    replace st4 with (take_expired (timerTickPeriodicReport st3) st3).2 by (by rewrite E4).
    apply take_report_said, H3. }
  clear E4. destruct (if report then _ else _) as [rc5 st5] eqn:E5.
  assert (said n ms [] st st5) as H5.
  { destruct report.
    - simplify_eq. eapply said_trans; [exact H4|]. apply report_said, H4.
    - destruct (_ || _); [|by simplify_eq/=]. eapply said_trans; [exact H4|].
      pose proof (take_reconnect_said _ _ _ (sd_ok _ _ _ _ _ H4)) as H5.
      destruct (take_expired _ st4) as [b st6]. destruct b; [by rewrite E5 in H5|].
      injection E5 as _ <-. exact H5. }
  clear E5. destruct (negb (rc5 =? _)); [|exact H5]. eapply said_trans; [exact H5|]. apply info_said; [apply H5|done].
Qed.

Lemma handle_motionOff_said n ms st m :
  client_ok n ms st → inboxMsgType m = inboxMsgTypeMotionOff →
  said n (motion_step (Got m) ms).1 (motion_step (Got m) ms).2 st (handle_motionOff st).
Proof.
  intros Hc Hm. cbn [motion_step]. rewrite Hm. unfold handle_motionOff. rewrite (ck_on _ _ _ Hc).
  destruct (said_on ms) eqn:Eo; [|by apply said_refl].
  pose proof (doPublish_leaves topicMotion "off" true st (books_width _ (ck_books _ _ _ Hc))) as Hl.
  pose proof (leaves_ok _ _ _ _ _ Hc Hl ltac:(done)) as [Ht [] Ho]. constructor.
  - constructor; [by eapply timers_same|by constructor|done].
  - by destruct Hl.
  - change (published (set_publishedMotionOn false ?x)) with (published x).
    by rewrite (lv_published _ _ _ _ Hl), motion_topics_app.
Qed.

(** The damper's object changed, the others as they were. *)
Lemma damper_changed n k d d' s s' st :
  timers_ok n k d st → objects (timerTick st) !! timerTickMotionDamper st = Some s →
  cookie s' = cookie s → cookie s' ≠ nullCookie → trigger s' = ServiceBool → damper_ok d' →
  interval s' = motionDamperInterval → periodic s' = false →
  expired s' = bool_decide (d' = None) → ticksLeft s' = damper_budget d' →
  timers_ok n k d' (set_timerTick (set_object (timerTickMotionDamper st) s' (timerTick st)) st).
Proof.
  intros [H1 H2 H3 H4] E Hc Hn Hb Hd Hi Hp He Hl.
  pose proof H4 as H4'. unfold addresses in H4'. rewrite !NoDup_cons in H4'. destruct H4' as (_ & _ & N3 & _).
  constructor; cbn [timerTick set_timerTick]; [by eapply set_object_ok| | |done].
  - split; [done|]. exists s'. rewrite set_object_lookup, decide_True by done. by split_and!.
  - apply service_other; [|done]. intros Heq. apply N3. cbn [set_timerTick timerTickReconnectDamper] in Heq. rewrite Heq. set_solver.
Qed.

Definition damper_taken (s : TimerTickService) st : MqttThread W :=
  set_timerTick (set_object (timerTickMotionDamper st) (set_expired false s) (timerTick st)) st.

Lemma take_damper n ms st :
  client_ok n ms st →
  ∃ s, take_expired (timerTickMotionDamper st) st =
      (bool_decide (damper ms = None), damper_taken s st) ∧
    match damper ms with
    | Some _ => client_ok n ms (damper_taken s st)
    | None => ∀ st2, timerTick st2 = timerTick (damper_taken s st) → addresses st2 = addresses st →
        attempts st2 = attempts st →
        timers_ok n (Z.of_nat (length (attempts st2))) (Some damper_passes)
          (set_timerTick (startTimerTickService (cookie_of (timerTickMotionDamper st2) st2)
             (timerTick st2)).2 st2)
    end.
Proof.
  intros Hk. pose proof (ck_timers _ _ _ Hk) as Ht.
  destruct (tm_damper _ _ _ _ Ht) as [Hd (s & E & Hc & Hb & Hi & Hp & He & Hl)].
  exists s. rewrite (take_run _ _ s E), He. split; [done|]. destruct (damper ms) as [m|] eqn:Em.
  { apply timers_only_ok; [done|]. rewrite Em. by eapply damper_changed. }
  intros st2 Et2 Ea2 En2.
  assert (timerTickMotionDamper st2 = timerTickMotionDamper st) as Ep by (by injection Ea2).
  cbn [timerTick damper_taken set_timerTick] in Et2.
  set (s1 := set_expired false s) in *.
  assert (objects (timerTick st2) !! timerTickMotionDamper st = Some s1) as E2.
  { rewrite Et2, set_object_lookup. by rewrite decide_True. }
  assert (timerTickServices (timerTick st2) !! cookie s = Some (timerTickMotionDamper st)) as E3.
  { rewrite Et2. by apply (ok_cookie _ (tm_table _ _ _ _ Ht)). }
  assert (startTimerTickService (cookie_of (timerTickMotionDamper st2) st2) (timerTick st2) =
    (true, set_object (timerTickMotionDamper st) (_startTimerTickService2 s1) (timerTick st2))) as ->.
  { unfold startTimerTickService, cookie_of, getCookie. rewrite Ep, E2. change (cookie s1) with (cookie s).
    by rewrite E3, E2. }
  cbn [snd]. rewrite Et2, start_ticksLeft. set (s2 := set_ticksLeft (period s1) s1).
  assert (set_object (timerTickMotionDamper st) s2
    (set_object (timerTickMotionDamper st) s1 (timerTick st)) =
    set_object (timerTickMotionDamper st) s2 (timerTick st)) as ->.
  { unfold set_object. cbn. by rewrite insert_insert_eq. }
  assert (period s1 = damper_passes) as Eq by (by apply damper_passes_eq).
  eapply (timers_same _ _ _ (set_timerTick _ st)); [|done|].
  - eapply damper_changed; [|exact E|..]; try done.
    + rewrite En2. exact Ht.
    + intros m [= <-]. pose proof damper_passes_pos. lia.
  - exact Ea2.
Qed.

(** The message of a motion: said once, the damper starts, and it is counted. *)
Lemma handle_motionOn_said n ms st m :
  client_ok n ms st → inboxMsgType m = inboxMsgTypeMotionOn →
  said n (motion_step (Got m) ms).1 (motion_step (Got m) ms).2 st (handle_motionOn st).
Proof.
  intros Hk Hm. cbn [motion_step]. rewrite Hm. unfold handle_motionOn.
  destruct (take_damper _ _ _ Hk) as (s & -> & Hd). destruct (damper ms) as [d|] eqn:Ed.
  { rewrite bool_decide_false by done. constructor; [done..|]. by rewrite app_nil_r. }
  rewrite bool_decide_true by done. set (st1 := damper_taken s st) in *.
  assert (books st1) as Hb by (destruct (ck_books _ _ _ Hk); by constructor).
  pose proof (doPublish_leaves topicMotion "on" true st1 (books_width _ Hb)) as L1.
  set (st2 := doPublish topicMotion "on" true st1) in *. cbv zeta.
  set (st3 := set_publishedMotionOn true st2). destruct (timestamp _) as [now w].
  pose proof (leaves_width _ _ _ _ L1 : in_width st3) as W3.
  pose proof (leaves_world w _ W3) as L3.
  pose proof (doPublish_leaves topicMotionDetected now true _ (leaves_width _ _ _ _ L3)) as L4.
  pose proof (leaves_trans _ _ _ _ _ _ _ L3 L4) as L5. set (st5 := doPublish topicMotionDetected now true (set_world w st3)) in *.
  clearbody st5. clear L3 L4. destruct L1, L5. cbn [app] in *.
  assert (attempts st5 = attempts st) as Ea by (by rewrite lv_attempts1, app_nil_r; cbn; rewrite lv_attempts0, app_nil_r).
  assert (published st5 = published st ++ [mkPublication topicMotion "on" true;
    mkPublication topicMotionDetected (c_str now) true]) as Ep.
  { rewrite lv_published1. cbn. by rewrite lv_published0, <-app_assoc. }
  specialize (Hd st5 (eq_trans lv_timers1 lv_timers0)
    (eq_trans lv_addresses1 lv_addresses0) Ea).
  assert (motion_topics (published st5) = motion_topics (published st) ++ ["on"]) as Em
    by (by rewrite Ep, motion_topics_app).
  assert (broker (mqttClientInfo st5) = broker (mqttClientInfo st)) as Eb
    by (rewrite lv_broker1; exact lv_broker0).
  destruct (ck_books _ _ _ Hk) as [B1 B2 B3 B4].
  constructor; [constructor|exact Eb|exact Em].
  - eapply timers_same; [exact Hd|done..].
  - constructor; cbn [update_info set_info mqttClientInfo increment publishes connectAttempts
      publishedMotions set_timerTick published attempts];
      rewrite ?decide_False, ?decide_True by done.
    + rewrite lv_publishes1. change (publishes (mqttClientInfo st3)) with (publishes (mqttClientInfo st2)).
      rewrite lv_publishes0, u32_add. change (publishes (mqttClientInfo st1)) with (publishes (mqttClientInfo st)).
      rewrite B1, Ep, length_app, <-Z.add_assoc, u32_add, Nat2Z.inj_add. done.
    + rewrite lv_connects1. change (connectAttempts (mqttClientInfo st3)) with (connectAttempts (mqttClientInfo st2)).
      rewrite lv_connects0, u32_add. change (connectAttempts (mqttClientInfo st1)) with (connectAttempts (mqttClientInfo st)).
      rewrite B2, Ea. cbn [length]. change (Z.of_nat 0) with 0. rewrite !Z.add_0_r. apply u32_idem.
    + rewrite lv_motions1. change (publishedMotions (mqttClientInfo st3)) with (publishedMotions (mqttClientInfo st2)).
      rewrite lv_motions0. change (publishedMotions (mqttClientInfo st1)) with (publishedMotions (mqttClientInfo st)).
      rewrite B3, Em, ons_app, u32_add. done.
    + change (Forall (λ a, a = broker (mqttClientInfo st5)) (attempts st5)). rewrite Ea, Eb. exact B4.
  - exact lv_on1.
Qed.

(** ** A run *)

Lemma event_said e n ms st :
  client_ok n ms st → goes_on e →
  ∃ st', mqtt_event e st = Some st' ∧
    said (n + b2z (is_pass e)) (motion_step e ms).1 (motion_step e ms).2 st st'.
Proof.
  intros Hk Hg. destruct e as [a|m]; cbn [mqtt_event is_pass b2z].
  { eexists. split; [done|]. destruct Hk as [Ht [] Ho]. constructor; [constructor|done|by rewrite app_nil_r].
    - by apply pass_ok.
    - by constructor.
    - done. }
  rewrite Z.add_0_r.
  assert (said n (motion_step (Got m) ms).1 (motion_step (Got m) ms).2 st
    (handle_message (inboxMsgType m) st)) as [[Ht [] Ho] Hb Ht2].
  { cbn [motion_step goes_on] in *. destruct (inboxMsgType m) eqn:Em; try done; cbn [handle_message].
    all: try (by apply said_refl); try (by apply publish_said); try (by apply handle_loop_said).
    - pose proof (handle_motionOn_said n ms st m Hk Em) as Hs. cbn [motion_step] in Hs. by rewrite Em in Hs.
    - pose proof (handle_motionOff_said n ms st m Hk Em) as Hs. cbn [motion_step] in Hs. by rewrite Em in Hs. }
  exists (set_ready true (handle_message (inboxMsgType m) st)). split.
  { unfold mqtt_iteration. cbn [goes_on] in Hg. by destruct (inboxMsgType m). }
  constructor; [constructor|done|done]; [by eapply timers_same|by constructor|done].
Qed.

Lemma run_said es n ms st :
  client_ok n ms st → Forall goes_on es →
  ∃ st', mqtt_run es st = Some st' ∧
    said (n + number_of is_pass es) (motion_run es ms).1 (motion_run es ms).2 st st'.
Proof.
  revert n ms st. induction es as [|e es IH]; intros n ms st Hk Hg; cbn [mqtt_run motion_run].
  { exists st. split; [done|]. change (number_of is_pass []) with 0. rewrite Z.add_0_r. by apply said_refl. }
  inversion_clear Hg as [|? ? He Hes]. destruct (event_said e n ms st Hk He) as (st1 & -> & [K1 B1 T1]).
  cbn [mbind option_bind]. destruct (IH _ _ _ K1 Hes) as (st2 & -> & [K2 B2 T2]).
  destruct (motion_step e ms) as [s1 l1]. cbn [fst snd] in *. exists st2. split; [done|].
  rewrite number_of_cons, Z.add_assoc. destruct (motion_run es s1) as [s2 l2]. cbn [fst snd] in *.
  constructor; [by destruct (is_pass e)|congruence|]. by rewrite T2, T1, app_assoc.
Qed.

(** ** The start *)

Lemma mqtt_start_ok options t w :
  table_ok t → 0 < nextTimerTickId t < 2 ^ 64 - 4 →
  ∃ st, mqtt_start options true t w = Ok st ∧ client_ok 0 motion_start st ∧
    mqttClientInfo st = parseParams options MqttClient_new ∧ published st = [] ∧ attempts st = [].
Proof.
  intros Ht Hn. unfold mqtt_start. cbn [negb].
  destruct (add_service_spec loop_service true t Ht eq_refl ltac:(lia)) as (p1 & t1 & -> & T1 & N1 & F1 & O1).
  destruct (add_service_spec report_service true t1 T1 eq_refl ltac:(lia)) as (p2 & t2 & E2 & T2 & N2 & F2 & O2).
  destruct (add_service_spec reconnect_service true t2 T2 eq_refl ltac:(lia)) as (p3 & t3 & E3 & T3 & N3 & F3 & O3).
  destruct (add_service_spec damper_service false t3 T3 eq_refl ltac:(lia)) as (p4 & t4 & E4 & T4 & N4 & F4 & O4).
  cbn [res_bind]. rewrite E2. cbn [res_bind]. rewrite E3. cbn [res_bind]. rewrite E4. cbn [res_bind].
  eexists. split; [done|].
  rewrite O3, O2, O1 in F4. rewrite O2, O1 in F3. rewrite O1 in F2.
  repeat setoid_rewrite lookup_insert_None in F4. repeat setoid_rewrite lookup_insert_None in F3.
  repeat setoid_rewrite lookup_insert_None in F2.
  assert (∀ i, publishes (parseParams options i) = publishes i ∧
    connectAttempts (parseParams options i) = connectAttempts i ∧
    publishedMotions (parseParams options i) = publishedMotions i) as Hi.
  { induction options as [|[o a] os IH]; intros i; [done|]. cbn [parseParams foldl].
    specialize (IH (parse_param i (o, a))). unfold parseParams in *. destruct IH as (-> & -> & ->).
    unfold parse_param. by repeat case_decide. }
  destruct (Hi MqttClient_new) as (I1 & I2 & I3).
  split_and!; [|done..]. constructor; [constructor|constructor|done]; cbn.
  - done.
  - split; [done|]. exists (set_cookie (nextTimerTickId t3) damper_service).
    rewrite O4, lookup_insert_eq. cbn. split_and!; done || (unfold nullCookie; lia).
  - exists (_startTimerTickService2 (set_cookie (nextTimerTickId t2) reconnect_service)).
    rewrite O4, lookup_insert_ne, O3, lookup_insert_eq by (apply not_eq_sym; tauto). rewrite start_ticksLeft. cbn.
    split_and!; try done; unfold nullCookie; lia.
  - unfold addresses. cbn. repeat (constructor; [set_solver|]). constructor.
  - done.
  - done.
  - done.
  - constructor.
Qed.
End client.

(** ** Properties *)

(** C12: what the client says about motion. However the messages of the motion
    thread, the passes of the timer and everything else interleave, and
    whatever the broker answers, the messages under "/officeClock/motion" are
    those of the machine above: a motion is said only when the damper is free,
    which starts it for 50001 passes, so there is at most one "on" per ten
    minutes; and an "off" comes directly after an "on", so that the broker's
    retained value is never "off" without a motion before it and "off" is never
    repeated. *)
Theorem mqtt_motion {W} `{MqttWorld W} options t w es :
  table_ok t → 0 < nextTimerTickId t < 2 ^ 64 - 4 → Forall goes_on es →
  ∃ st0 st, mqtt_start options true t w = Ok st0 ∧ mqtt_run es st0 = Some st ∧
    let said := motion_topics (published st) in
    said = (motion_run es motion_start).2 ∧ off_after_on said ∧
    ons said <= 1 + number_of is_pass es / 50001.
Proof.
  intros Ht Hn Hg. destruct (mqtt_start_ok options t w Ht Hn) as (st0 & H1 & Hk & _ & Hp & _).
  destruct (run_said es 0 _ _ Hk Hg) as (st & H2 & [K B T]). exists st0, st.
  split; [done|]. split; [done|]. cbv zeta. split.
  - by rewrite T, Hp.
  - rewrite T, Hp. change (motion_topics []) with (@nil string). split; [apply (motion_run_order _ _ []); [done|]|].
    { intros [|? ?] ? [=]. }
    destruct (motion_run_rate es motion_start) as [Hd Hr]; [done|]. cbn [app].
    change (damper_budget (damper motion_start)) with 0 in Hr.
    assert (damper_budget (damper (motion_run es motion_start).1) <= damper_passes).
    { destruct (damper _) as [d|]; cbn; [by apply Hd|]. pose proof damper_passes_pos. lia. }
    change damper_passes with 50001 in *.
    assert (ons (motion_run es motion_start).2 - 1 <= number_of is_pass es / 50001); [|lia].
    apply Z.div_le_lower_bound; lia.
Qed.


(** ** Witnesses: a broker that refuses every other call *)

#[export] Instance demo_broker : MqttWorld Z := {
  mosquitto_publish _ _ _ w := (if Z.even w then MOSQ_ERR_SUCCESS else MOSQ_ERR_NO_CONN, [OnPublish], w + 1);
  mosquitto_loop w := (if Z.even w then MOSQ_ERR_SUCCESS else MOSQ_ERR_NO_CONN, [], w + 1);
  mosquitto_connect _ _ _ w := (0, [OnConnect 0], w + 1);
  mosquitto_close w := ([OnDisconnect], w);
  light_level w := w;
  timestamp w := ("now", w);
  status_document _ w := ("{}", w);
}.

Definition msg_of (t : InboxMsgType) : InboxMsg := mkInboxMsg t [].

Definition demo_mqtt_events : list MqttEvent :=
  [Got (msg_of inboxMsgTypeTimerTickMessage); Pass true; Got (msg_of inboxMsgTypeMotionOff);
   Got (msg_of inboxMsgTypeMotionOn); Got (msg_of inboxMsgTypeMotionOff);
   Got (msg_of inboxMsgTypeMotionOn); Pass false; Got (msg_of inboxMsgTypeTimerTickMessage);
   Got (msg_of inboxMsgTypeDisplayModeMessage)].

Lemma demo_mqtt_goes_on : Forall goes_on demo_mqtt_events.
Proof. repeat constructor; done. Qed.

(** The demonstration says both words and connects. *)
Lemma demo_mqtt_speaks :
  ∃ st0 st, mqtt_start [("P"%char, "1884")] true TimerTick_new 0 = Ok st0 ∧
    mqtt_run demo_mqtt_events st0 = Some st ∧
    motion_topics (published st) = ["on"; "off"] ∧
    attempts st = [(Some MQTT_BROKER_DEFAULT_IP, 1884, 182)].
Proof. eexists _, _. split; [by vm_compute|]. by vm_compute. Qed.

Lemma mqtt_motion_witness :
  ∃ st0 st, mqtt_start [("P"%char, "1884")] true TimerTick_new 0 = Ok st0 ∧
    mqtt_run demo_mqtt_events st0 = Some st ∧
    let said := motion_topics (published st) in
    said = (motion_run demo_mqtt_events motion_start).2 ∧ off_after_on said ∧
    ons said <= 1 + number_of is_pass demo_mqtt_events / 50001.
Proof. apply (mqtt_motion _ TimerTick_new 0 _ table_ok_new); [done|exact demo_mqtt_goes_on]. Defined.

