(* ===== verification/Main.v ===== *)
(** * The program: src/src/main.cpp

    The start, the seven threads with their inboxes, and the end: the web
    server returns, the others are told to terminate and are joined, the timer
    last. A thread is what it does with its inbox and with the timer; what else
    it does is the file of its component. The section of the system is a
    transition system over all interleavings of these steps. *)
From S2P Require Import Prelude CLib Inbox.

(** ** The start *)

Inductive ThreadMain :=
  | displayMain | ledStripMain | timerTickMain | lightSensorMain | motionSensorMain
  | mqttClientMain | dictionaryMain.

(** The switch of [allocThreadInfoArray]. *)
Definition thread_main (i : Z) : res ThreadMain :=
  if i =? threadIdDisplay then Ok displayMain
  else if i =? threadIdLedStrip then Ok ledStripMain
  else if i =? threadIdTimerTick then Ok timerTickMain
  else if i =? threadIdLightSensor then Ok lightSensorMain
  else if i =? threadIdMotionSensor then Ok motionSensorMain
  else if i =? threadIdMqttClient then Ok mqttClientMain
  else if i =? threadIdDictionary then Ok dictionaryMain
  else Throw (RuntimeError ("allocThreadInfoArray got bad ThreadId: " +:+ print_int i)).

Definition allocThreadInfoArray : res (list ThreadMain) :=
  foldr (λ i acc, let! m := thread_main i in let! ms := acc in Ok (m :: ms)) (Ok [])
    (seqZ 0 threadIdCount).

Definition create_inboxes (reg : InboxRegistry) : InboxRegistry :=
  foldl (λ reg i, (getInbox i reg).2) reg (seqZ 0 threadIdCount).

(** ** The system *)

(** A thread is about to look into its inbox, or at work on what it found, or
    gone. [woken] is the flag of its [TimerTickServiceCv]. *)
Inductive ThreadState := Ready | Busy | Exited.
#[export] Instance ThreadState_eq_dec : EqDecision ThreadState.
Proof. solve_decision. Defined.

Record Thread := mkThread {
  state : ThreadState;
  woken : bool;
}.

(** Where the main thread is: in the server, or waiting to join a thread. *)
Inductive Phase := Serving | Joining (i : Z) | JoiningTimer | Done.

Record System := mkSystem {
  registry : InboxRegistry;
  threads : gmap Z Thread;
  phase : Phase;
}.

Definition set_registry (r : InboxRegistry) (s : System) : System :=
  mkSystem r (threads s) (phase s).
Definition set_phase (p : Phase) (s : System) : System := mkSystem (registry s) (threads s) p.
Definition set_thread (i : Z) (t : Thread) (s : System) : System :=
  mkSystem (registry s) (<[i := t]> (threads s)) (phase s).

(** [main] up to [pulsar_main]: what it prints on a failure, or the system.
    [spi] and [adc] are the results of [initialize], [None] without a device. *)
Definition main_start (gpio : bool) (spi adc : option bool) : string + System :=
  if negb gpio then inl "Unable to initialize GPIO access"
  else if bool_decide (spi = Some false) then inl "Unable to initialize strip SPI output"
  else if negb (bool_decide (adc = Some true)) then inl "Unable to initialize analog input"
  else
    inr (mkSystem (create_inboxes ∅)
           (list_to_map ((λ i, (i, mkThread Ready false)) <$> seqZ 0 threadIdCount)) Serving).

(** The server returned. *)
Definition main_stop (s : System) : System :=
  set_phase (Joining 0)
    (set_registry (broadcast (InboxMsg_of inboxMsgTypeTerminate) threadIdTimerTick (registry s)) s).

Definition sendTerminateMessage (reg : InboxRegistry) (threadId : Z) : InboxRegistry :=
  send (InboxMsg_of inboxMsgTypeTerminate) threadId reg.

Definition exited (i : Z) (s : System) : bool :=
  match threads s !! i with Some t => bool_decide (state t = Exited) | None => true end.

(** The next join, or what follows it; [None] while it blocks. *)
Definition main_step (s : System) : option System :=
  match phase s with
  | Serving | Done => None
  | Joining i =>
      if i =? threadIdCount then
        Some (set_phase JoiningTimer
          (set_registry (sendTerminateMessage (registry s) threadIdTimerTick) s))
      else if i =? threadIdTimerTick then Some (set_phase (Joining (i + 1)) s)
      else if exited i s then Some (set_phase (Joining (i + 1)) s) else None
  | JoiningTimer =>
      if exited threadIdTimerTick s then Some (set_phase Done (set_registry (shutdown (registry s)) s))
      else None
  end.

(** ** The loops of the threads *)

(** The loops that poll their inbox and then wait for a [TimerTickServiceCv];
    the others wait for a message. *)
Definition waits_for_tick (i : Z) : bool :=
  (i =? threadIdDisplay) || (i =? threadIdLedStrip) || (i =? threadIdLightSensor)
  || (i =? threadIdMotionSensor).

(** The loops that clear their inbox when they end. *)
Definition clears_inbox (i : Z) : bool := (i =? threadIdMqttClient) || (i =? threadIdDictionary).

Definition is_terminate (m : InboxMsg) : bool := bool_decide (inboxMsgType m = inboxMsgTypeTerminate).

(** The head of a loop: a message is taken, if there is one, and ends the
    thread if it says so. *)
Definition loop_head (i : Z) (s : System) : option System :=
  t ← threads s !! i; ib ← registry s !! i;
  match state t with
  | Ready =>
      match pop ib with
      | None => if waits_for_tick i then Some (set_thread i (mkThread Busy (woken t)) s) else None
      | Some (m, ib') =>
          let s' := set_registry (<[i := if is_terminate m && clears_inbox i then clear ib' else ib']>
                                    (registry s)) s in
          Some (set_thread i (mkThread (if is_terminate m then Exited else Busy) (woken t)) s')
      end
  | _ => None
  end.

(** What a thread posts while it works: never the message to terminate. *)
Inductive Post := Broadcast (m : InboxMsg) | Send (m : InboxMsg) (threadId : Z).

Definition post_msg (p : Post) : InboxMsg := match p with Broadcast m | Send m _ => m end.

Definition do_post (from : Z) (reg : InboxRegistry) (p : Post) : InboxRegistry :=
  match p with Broadcast m => broadcast m from reg | Send m t => send m t reg end.

(** The rest of an iteration; a polling loop waits for its tick before. *)
Definition loop_work (i : Z) (posts : list Post) (s : System) : option System :=
  t ← threads s !! i;
  match state t with
  | Busy =>
      if (negb (waits_for_tick i) || woken t) && forallb (λ p, negb (is_terminate (post_msg p))) posts
      then Some (set_thread i (mkThread Ready false)
                   (set_registry (foldl (do_post i) (registry s) posts) s))
      else None
  | _ => None
  end.

(** An iteration of the timer: it looks into its inbox, then a pass over its
    table wakes the threads whose service expired and notifies others. *)
Definition timer_iteration (wakes notifies : list Z) (s : System) : option System :=
  t ← threads s !! threadIdTimerTick; ib ← registry s !! threadIdTimerTick;
  match state t with
  | Ready =>
      let pass (s : System) :=
        mkSystem (foldl (λ reg j, send timerTickMessage j reg) (registry s) notifies)
          (map_imap (λ j t, Some (if bool_decide (j ∈ wakes) then mkThread (state t) true else t))
             (threads s)) (phase s) in
      match pop ib with
      | None => Some (pass s)
      | Some (m, ib') =>
          let s := set_registry (<[threadIdTimerTick := ib']> (registry s)) s in
          if is_terminate m then Some (set_thread threadIdTimerTick (mkThread Exited (woken t)) s)
          else Some (pass s)
      end
  | _ => None
  end.

(** ** Executions *)
Inductive SystemEvent :=
  | ServerReturns
  | MainStep
  | Head (i : Z)
  | Work (i : Z) (posts : list Post)
  | TimerPass (wakes notifies : list Z).

Definition system_event (e : SystemEvent) (s : System) : option System :=
  match e with
  | ServerReturns => match phase s with Serving => Some (main_stop s) | _ => None end
  | MainStep => main_step s
  | Head i => if (0 <=? i) && (i <? threadIdTimerTick) then loop_head i s else None
  | Work i posts => if (0 <=? i) && (i <? threadIdTimerTick) then loop_work i posts s else None
  | TimerPass wakes notifies => timer_iteration wakes notifies s
  end.

Fixpoint system_run (es : list SystemEvent) (s : System) : option System :=
  match es with
  | [] => Some s
  | e :: es => s ← system_event e s; system_run es s
  end.

(** ** Queues *)

Definition queue (reg : InboxRegistry) (i : Z) : list InboxMsg := default [] (msgs <$> reg !! i).
Definition told (q : list InboxMsg) : bool := existsb is_terminate q.

(** The messages before the one to terminate. *)
Fixpoint ahead (q : list InboxMsg) : Z :=
  match q with
  | [] => 0
  | m :: q => if is_terminate m then 0 else 1 + ahead q
  end.

Lemma ahead_nonneg q : 0 <= ahead q.
Proof. induction q as [|m q IH]; cbn [ahead]; [lia|]. destruct (is_terminate m); lia. Qed.

Definition quiet (l : list InboxMsg) : Prop := forallb (λ m, negb (is_terminate m)) l = true.

Lemma quiet_app l k : quiet l → quiet k → quiet (l ++ k).
Proof. unfold quiet. intros Hl Hk. by rewrite forallb_app, Hl, Hk. Qed.

Lemma told_quiet q l : quiet l → told (q ++ l) = told q.
Proof.
  intros Hl. unfold told. rewrite existsb_app. replace (existsb is_terminate l) with false; [apply orb_false_r|].
  induction l as [|m l IH]; [done|]. unfold quiet in *. cbn [forallb existsb] in *.
  apply andb_true_iff in Hl as [Hm Hl]. rewrite <-(IH Hl). by destruct (is_terminate m).
Qed.

Lemma ahead_app q l : told q = true → ahead (q ++ l) = ahead q.
Proof.
  induction q as [|m q IH]; [done|]. cbn [app ahead told existsb]. destruct (is_terminate m); [done|].
  intros Hq. by rewrite IH.
Qed.

(** A registry that grew: the same inboxes, with quiet messages added. *)
Definition grew (reg reg' : InboxRegistry) : Prop :=
  ∀ j, is_Some (reg !! j) → is_Some (reg' !! j) ∧ ∃ l, quiet l ∧ queue reg' j = queue reg j ++ l.

#[global] Instance grew_preorder : PreOrder grew.
Proof.
  split.
  - intros reg j Hj. split; [done|]. exists []. by rewrite app_nil_r.
  - intros r1 r2 r3 H1 H2 j Hj. destruct (H1 j Hj) as [Hj2 (l & Hl & E)].
    destruct (H2 j Hj2) as [Hj3 (k & Hk & E')]. split; [done|]. exists (l ++ k).
    split; [by apply quiet_app|]. by rewrite E', E, app_assoc.
Qed.

Lemma grew_broadcast m from reg : is_terminate m = false → grew reg (broadcast m from reg).
Proof.
  intros Hm j [ib E]. unfold queue. rewrite broadcast_lookup, E. cbn. split; [by eexists|].
  destruct (j =? from); [exists []; by rewrite app_nil_r|]. exists [m]. split; [|done].
  unfold quiet. cbn. by rewrite Hm.
Qed.

Lemma grew_send m t reg : is_terminate m = false → grew reg (send m t reg).
Proof.
  intros Hm j [ib E]. unfold queue. rewrite send_lookup. case_decide as Et.
  - subst. rewrite E. cbn. split; [by eexists|]. exists [m]. split; [|done]. unfold quiet. cbn. by rewrite Hm.
  - rewrite E. split; [by eexists|]. exists []. by rewrite app_nil_r.
Qed.

Lemma grew_posts from posts reg :
  forallb (λ p, negb (is_terminate (post_msg p))) posts = true →
  grew reg (foldl (do_post from) reg posts).
Proof.
  revert reg. induction posts as [|p posts IH]; intros reg Hp; [done|]. cbn [forallb foldl] in *.
  apply andb_true_iff in Hp as [H1 H2]. apply negb_true_iff in H1. etrans; [|by apply IH].
  destruct p; [by apply grew_broadcast|by apply grew_send].
Qed.

Lemma grew_notifies l reg : grew reg (foldl (λ reg j, send timerTickMessage j reg) reg l).
Proof.
  revert reg. induction l as [|j l IH]; intros reg; [done|]. cbn [foldl]. etrans; [|apply IH].
  by apply grew_send.
Qed.

(** ** The invariant *)

(** A thread that was told: gone, or the message is on its way. *)
Definition ending (i : Z) (s : System) : Prop := exited i s = true ∨ told (queue (registry s) i) = true.
Definition going (i : Z) (s : System) : Prop := exited i s = false ∧ told (queue (registry s) i) = false.
Definition worker (i : Z) : Prop := 0 <= i < threadIdTimerTick.

Definition phase_ok (s : System) : Prop :=
  match phase s with
  | Serving => ∀ i, 0 <= i < threadIdCount → going i s
  | Joining k =>
      0 <= k <= threadIdCount ∧ (∀ i, worker i → ending i s) ∧
      (∀ i, worker i → i < k → exited i s = true) ∧ going threadIdTimerTick s
  | JoiningTimer => (∀ i, worker i → exited i s = true) ∧ ending threadIdTimerTick s
  | Done => ∀ i, 0 <= i < threadIdCount → exited i s = true
  end.

Record system_ok (s : System) : Prop := {
  so_threads i : 0 <= i < threadIdCount → is_Some (threads s !! i);
  so_inboxes i : phase s ≠ Done → 0 <= i < threadIdCount → is_Some (registry s !! i);
  so_timer t : threads s !! threadIdTimerTick = Some t → state t ≠ Busy;
  so_phase : phase_ok s;
}.

(** What a step of a thread leaves of another: its inbox may grow. *)
Record step_of (i : Z) (s s' : System) : Prop := {
  st_phase : phase s' = phase s;
  st_state j : j ≠ i → state <$> threads s' !! j = state <$> threads s !! j;
  st_same j : is_Some (threads s !! j) → is_Some (threads s' !! j);
  st_inbox j : is_Some (registry s !! j) → is_Some (registry s' !! j);
  st_grew j : j ≠ i → is_Some (registry s !! j) →
    ∃ l, quiet l ∧ queue (registry s') j = queue (registry s) j ++ l;
  st_own : is_Some (registry s !! i) → going i s → going i s';
  st_ending : is_Some (registry s !! i) → ending i s → ending i s';
  st_stays : exited i s = true → exited i s' = true;
}.

Lemma exited_state j s s' :
  state <$> threads s' !! j = state <$> threads s !! j → exited j s' = exited j s.
Proof.
  unfold exited. destruct (threads s' !! j), (threads s !! j); cbn; try done. by intros [= ->].
Qed.

Lemma st_other i j s s' : step_of i s s' → j ≠ i → exited j s' = exited j s.
Proof. intros Hs Hj. by apply exited_state, (st_state _ _ _ Hs). Qed.

Lemma going_other i j s s' :
  step_of i s s' → is_Some (registry s !! j) → going j s → going j s'.
Proof.
  intros Hs Hr [H1 H2]. destruct (decide (j = i)) as [->|Hne]; [by apply (st_own _ _ _ Hs)|].
  destruct (st_grew _ _ _ Hs j Hne Hr) as (l & Hl & E). split.
  - by rewrite (st_other _ _ _ _ Hs).
  - by rewrite E, told_quiet.
Qed.

Lemma ending_other i j s s' :
  step_of i s s' → is_Some (registry s !! j) → ending j s → ending j s'.
Proof.
  intros Hs Hr He. destruct (decide (j = i)) as [->|Hne]; [by apply (st_ending _ _ _ Hs)|].
  destruct (st_grew _ _ _ Hs j Hne Hr) as (l & Hl & E). destruct He as [He|He].
  - left. by rewrite (st_other _ _ _ _ Hs).
  - right. by rewrite E, told_quiet.
Qed.

Lemma exited_other i j s s' : step_of i s s' → exited j s = true → exited j s' = true.
Proof.
  intros Hs He. destruct (decide (j = i)) as [->|Hne]; [by apply (st_stays _ _ _ Hs)|].
  by rewrite (st_other _ _ _ _ Hs).
Qed.

Lemma step_of_ok i s s' :
  system_ok s → phase s ≠ Done → step_of i s s' →
  (∀ t, threads s' !! threadIdTimerTick = Some t → state t ≠ Busy) → system_ok s'.
Proof.
  intros [H1 H2 H3 H4] Hd Hs Ht. pose proof (st_phase _ _ _ Hs) as Hp. constructor.
  - intros j Hj. by apply (st_same _ _ _ Hs), H1.
  - intros j _ Hj. by apply (st_inbox _ _ _ Hs), H2.
  - exact Ht.
  - assert (∀ j, 0 <= j < threadIdCount → is_Some (registry s !! j)) as Hi by (intros j; by apply H2).
    unfold phase_ok in *. rewrite Hp. unfold worker, threadIdTimerTick, threadIdCount in *.
    destruct (phase s) as [|k| |]; [| | |done].
    + intros j Hj. eapply going_other; eauto.
    + destruct H4 as (Hk & He & Hx & Hg). split_and!; [lia|lia| | |].
      * intros j Hj. eapply ending_other; [done|apply Hi; lia|auto].
      * intros j Hj Hk'. eapply exited_other; eauto.
      * eapply going_other; [done|apply Hi; lia|done].
    + destruct H4 as (Hx & He). split.
      * intros j Hj. eapply exited_other; eauto.
      * eapply ending_other; [done|apply Hi; lia|done].
Qed.

(** ** The steps of the threads *)

(** What is left for a thread to do until it sees the message to terminate. *)
Definition cost (i : Z) (s : System) : Z :=
  match threads s !! i with
  | None => 0
  | Some t =>
      match state t with
      | Exited => 0
      | Ready => 2 * ahead (queue (registry s) i) + 1
      | Busy => 2 * ahead (queue (registry s) i) + 2
      end
  end.

Lemma cost_nonneg i s : 0 <= cost i s.
Proof.
  unfold cost. pose proof (ahead_nonneg (queue (registry s) i)).
  destruct (threads s !! i) as [[[] ?]|]; cbn; lia.
Qed.

Lemma cost_other i j s s' :
  step_of i s s' → j ≠ i → is_Some (registry s !! j) → ending j s → cost j s' = cost j s.
Proof.
  intros Hs Hj Hr He. pose proof (st_state _ _ _ Hs j Hj) as Est.
  destruct (st_grew _ _ _ Hs j Hj Hr) as (l & Hl & E). unfold cost. rewrite E.
  unfold ending, exited in He.
  destruct (threads s' !! j) as [t'|], (threads s !! j) as [t|]; cbn in *; try done.
  injection Est as ->. destruct (state t) eqn:Et; [..|done];
    (destruct He as [He|He]; [by apply bool_decide_eq_true in He|by rewrite ahead_app]).
Qed.

Lemma queue_insert reg i ib j : queue (<[i := ib]> reg) j = if decide (j = i) then msgs ib else queue reg j.
Proof. unfold queue. case_decide; [subst; by rewrite lookup_insert_eq|by rewrite lookup_insert_ne]. Qed.

Lemma exited_insert i t s j r :
  exited j (mkSystem r (<[i := t]> (threads s)) (phase s)) =
  if decide (j = i) then bool_decide (state t = Exited) else exited j s.
Proof. unfold exited. cbn. case_decide; [subst; by rewrite lookup_insert_eq|by rewrite lookup_insert_ne]. Qed.

Lemma insert_some {A} (m : gmap Z A) i x j : is_Some (m !! j) → is_Some (<[i := x]> m !! j).
Proof. intros Hj. apply lookup_insert_is_Some'. by right. Qed.

(** The step that takes a message of its own. *)
Lemma take_step i t m ib ib' tail s st' w' :
  threads s !! i = Some t → state t ≠ Exited → registry s !! i = Some ib →
  msgs ib = m :: tail → (is_terminate m = true → st' = Exited) →
  (is_terminate m = false → st' ≠ Exited ∧ msgs ib' = tail) →
  step_of i s (set_thread i (mkThread st' w') (set_registry (<[i := ib']> (registry s)) s)).
Proof.
  intros E Ht Er Em H1 H2. assert (queue (registry s) i = m :: tail) as Eq by (unfold queue; by rewrite Er).
  constructor; cbn [set_thread set_registry phase threads registry]; try done.
  - intros j Hj. by rewrite lookup_insert_ne.
  - intros j Hj. by apply insert_some.
  - intros j Hj. by apply insert_some.
  - intros j Hj _. exists []. rewrite queue_insert, decide_False by done. by rewrite app_nil_r.
  - intros _ [Hx Hq]. unfold going, set_thread. cbn [registry set_registry phase threads].
    rewrite queue_insert, exited_insert, !decide_True by done. cbn [state].
    rewrite Eq in Hq. cbn [told existsb] in Hq. apply orb_false_iff in Hq as [Hm Hq].
    destruct (H2 Hm) as [Hst ->]. by rewrite bool_decide_false.
  - intros _ [Hx|Hq].
    + exfalso. unfold exited in Hx. rewrite E in Hx. by apply bool_decide_eq_true in Hx.
    + unfold ending, set_thread. cbn [registry set_registry phase threads].
      rewrite queue_insert, exited_insert, !decide_True by done. cbn [state].
      rewrite Eq in Hq. cbn [told existsb] in Hq. destruct (is_terminate m).
      * left. rewrite H1 by done. by rewrite bool_decide_true.
      * right. destruct (H2 eq_refl) as [_ ->]. exact Hq.
  - intros Hx. exfalso. unfold exited in Hx. rewrite E in Hx. by apply bool_decide_eq_true in Hx.
Qed.

(** The step that takes none; inboxes may grow. *)
Lemma quiet_step i t s st' w' reg' :
  threads s !! i = Some t → state t ≠ Exited → st' ≠ Exited → grew (registry s) reg' →
  step_of i s (set_thread i (mkThread st' w') (set_registry reg' s)).
Proof.
  intros E Ht Hst Hg. constructor; cbn [set_thread set_registry phase threads registry]; try done.
  - intros j Hj. by rewrite lookup_insert_ne.
  - intros j Hj. by apply insert_some.
  - intros j Hj. by apply Hg.
  - intros j _ Hj. by apply Hg.
  - intros Hr [_ Hq]. destruct (Hg i Hr) as [_ (l & Hl & Eq)]. unfold going, set_thread.
    cbn [registry set_registry phase threads]. rewrite exited_insert, decide_True by done.
    cbn [state]. by rewrite bool_decide_false, Eq, told_quiet.
  - intros Hr [Hx|Hq].
    + exfalso. unfold exited in Hx. rewrite E in Hx. by apply bool_decide_eq_true in Hx.
    + destruct (Hg i Hr) as [_ (l & Hl & Eq)]. right. cbn. by rewrite Eq, told_quiet.
  - intros Hx. exfalso. unfold exited in Hx. rewrite E in Hx. by apply bool_decide_eq_true in Hx.
Qed.

Lemma step_of_trans i s1 s2 s3 : step_of i s1 s2 → step_of i s2 s3 → step_of i s1 s3.
Proof.
  intros [A1 A2 A3 A4 A5 A6 A7 A8] [B1 B2 B3 B4 B5 B6 B7 B8]. constructor; eauto.
  - congruence.
  - intros j Hj. by rewrite B2, A2.
  - intros j Hj Hr. destruct (A5 j Hj Hr) as (l & Hl & E).
    destruct (B5 j Hj (A4 j Hr)) as (k & Hk & E'). exists (l ++ k). split; [by apply quiet_app|].
    by rewrite E', E, app_assoc.
Qed.

Lemma head_step i s s' :
  loop_head i s = Some s' →
  step_of i s s' ∧ (told (queue (registry s) i) = true → cost i s' < cost i s) ∧
  ∃ t, threads s' = <[i := t]> (threads s).
Proof.
  unfold loop_head. destruct (threads s !! i) as [t|] eqn:E; [|done]. cbn [mbind option_bind].
  destruct (registry s !! i) as [ib|] eqn:Er; [|done]. cbn [mbind option_bind].
  destruct (state t) eqn:Et; [|done..].
  assert (state t ≠ Exited) as Hx by (by rewrite Et).
  assert (queue (registry s) i = msgs ib) as Eq by (unfold queue; by rewrite Er).
  unfold pop. destruct (msgs ib) as [|m tail] eqn:Em.
  - destruct (waits_for_tick i); [|done]. intros [= <-]. split; [|split].
    + apply (quiet_step i t s Busy (woken t) (registry s)); done.
    + by rewrite Eq.
    + by eexists.
  - intros [= <-]. split; [|split; [|by eexists]].
    + eapply take_step; [done..| |]; intros ->; [done|]. by cbn.
    + rewrite Eq. unfold cost. rewrite E, Et, Eq. cbn [set_thread set_registry threads registry].
      rewrite lookup_insert_eq, queue_insert, decide_True by done. cbn [state told existsb ahead].
      destruct (is_terminate m); cbn [andb orb state]; [lia|]. pose proof (ahead_nonneg tail).
      cbn [msgs]. lia.
Qed.

Lemma work_step i posts s s' :
  loop_work i posts s = Some s' →
  step_of i s s' ∧
  (is_Some (registry s !! i) → told (queue (registry s) i) = true → cost i s' < cost i s) ∧
  ∃ t, threads s' = <[i := t]> (threads s).
Proof.
  unfold loop_work. destruct (threads s !! i) as [t|] eqn:E; [|done]. cbn [mbind option_bind].
  destruct (state t) eqn:Et; [done| |done]. destruct (_ && _) eqn:Eb; [|done]. intros [= <-].
  apply andb_true_iff in Eb as [_ Hp]. pose proof (grew_posts i posts (registry s) Hp) as Hg.
  split; [|split; [|by eexists]].
  - apply (quiet_step i t); [done|by rewrite Et|done|done].
  - intros Hr Hq. unfold cost. rewrite E, Et. cbn [set_thread set_registry threads registry].
    rewrite lookup_insert_eq. cbn [state]. destruct (Hg i Hr) as [_ (l & _ & ->)].
    rewrite ahead_app by done. lia.
Qed.

Lemma pass_step i (wakes notifies : list Z) s :
  step_of i s (mkSystem (foldl (λ reg j, send timerTickMessage j reg) (registry s) notifies)
    (map_imap (λ j t, Some (if bool_decide (j ∈ wakes) then mkThread (state t) true else t))
       (threads s)) (phase s)).
Proof.
  set (ths := map_imap _ _). pose proof (grew_notifies notifies (registry s)) as Hg.
  assert (∀ j, state <$> ths !! j = state <$> threads s !! j) as Hst.
  { intros j. unfold ths. rewrite map_lookup_imap. destruct (threads s !! j) as [t|]; [|done]. cbn.
    by case_bool_decide. }
  assert (∀ j r, exited j (mkSystem r ths (phase s)) = exited j s) as Hx
    by (intros j r; by apply exited_state).
  constructor; cbn [threads registry phase]; try done.
  - intros j [t E]. unfold ths. rewrite map_lookup_imap, E. by eexists.
  - intros j Hj. by apply Hg.
  - intros j _ Hj. by apply Hg.
  - intros Hr [H1 H2]. unfold going. rewrite Hx. cbn [registry].
    destruct (Hg i Hr) as [_ (l & Hl & ->)]. by rewrite told_quiet.
  - intros Hr He. unfold ending. rewrite Hx. cbn [registry].
    destruct (Hg i Hr) as [_ (l & Hl & ->)]. by rewrite told_quiet.
  - by rewrite Hx.
Qed.

Lemma timer_step (wakes notifies : list Z) s s' :
  timer_iteration wakes notifies s = Some s' →
  step_of threadIdTimerTick s s' ∧
  ∀ t, threads s' !! threadIdTimerTick = Some t → state t ≠ Busy.
Proof.
  unfold timer_iteration. destruct (threads s !! threadIdTimerTick) as [t|] eqn:E; [|done].
  cbn [mbind option_bind]. destruct (registry s !! threadIdTimerTick) as [ib|] eqn:Er; [|done].
  cbn [mbind option_bind]. destruct (state t) eqn:Et; [|done..].
  assert (state t ≠ Exited) as Hx by (by rewrite Et).
  assert (∀ ths : gmap Z Thread, state <$> ths !! threadIdTimerTick = Some Ready →
    ∀ t', map_imap (λ j t, Some (if bool_decide (j ∈ wakes) then mkThread (state t) true else t)) ths
      !! threadIdTimerTick = Some t' → state t' ≠ Busy) as Hpass.
  { intros ths Hths t'. rewrite map_lookup_imap. destruct (ths !! threadIdTimerTick) as [t1|]; [|done].
    cbn in *. injection Hths as Hs. intros [= <-]. case_bool_decide; cbn; by rewrite Hs. }
  unfold pop. destruct (msgs ib) as [|m tail] eqn:Em.
  - intros [= <-]. split; [apply (pass_step _ wakes notifies s)|]. cbn [threads]. apply Hpass. by rewrite E, <-Et.
  - cbv zeta. destruct (is_terminate m) eqn:Ht; intros [= <-].
    + split.
      * eapply take_step; [done..| |]; by rewrite Ht.
      * cbn [set_thread threads]. rewrite lookup_insert_eq. by intros t' [= <-].
    + split; [|cbn [threads set_registry]; apply Hpass; by rewrite E, <-Et].
      set (s1 := set_registry (<[threadIdTimerTick := mkInbox tail (u32 (msgCount ib - 1))]> (registry s)) s).
      eapply (step_of_trans _ _ s1); [|apply (pass_step _ wakes notifies s1)].
      replace s1 with (set_thread threadIdTimerTick (mkThread (state t) (woken t)) s1).
      * eapply take_step; [done..| |]; rewrite Ht; [done|]. intros _. split; [by rewrite Et|done].
      * unfold s1, set_thread, set_registry. cbn. rewrite (insert_id (threads s)); [done|]. rewrite E. by destruct t.
Qed.

(** ** The events *)

Lemma exited_state_at i s t : threads s !! i = Some t → exited i s = bool_decide (state t = Exited).
Proof. unfold exited. by intros ->. Qed.

Lemma in_worker i : (0 <=? i) && (i <? threadIdTimerTick) = true → worker i.
Proof. unfold worker. rewrite andb_true_iff, Z.leb_le, Z.ltb_lt. lia. Qed.

Lemma worker_in i : worker i → 0 <= i < threadIdCount.
Proof. unfold worker, threadIdTimerTick, threadIdCount. lia. Qed.

(** Nothing happens after the end. *)
Lemma done_stuck e s : system_ok s → phase s = Done → system_event e s = None.
Proof.
  intros Hs Hp. pose proof (so_phase _ Hs) as Hx. unfold phase_ok in Hx. rewrite Hp in Hx.
  assert (∀ i t, 0 <= i < threadIdCount → threads s !! i = Some t → state t = Exited) as Hst.
  { intros i t Hi E. specialize (Hx i Hi). rewrite (exited_state_at _ _ _ E) in Hx.
    by apply bool_decide_eq_true in Hx. }
  destruct e as [| |i|i posts|wakes notifies]; cbn [system_event].
  - by rewrite Hp.
  - unfold main_step. by rewrite Hp.
  - destruct (_ && _) eqn:Ei; [|done]. apply in_worker, worker_in in Ei. unfold loop_head.
    destruct (threads s !! i) as [t|] eqn:E; [|done]. cbn. destruct (registry s !! i); [|done]. cbn.
    by rewrite (Hst i t Ei E).
  - destruct (_ && _) eqn:Ei; [|done]. apply in_worker, worker_in in Ei. unfold loop_work.
    destruct (threads s !! i) as [t|] eqn:E; [|done]. cbn. by rewrite (Hst i t Ei E).
  - unfold timer_iteration. destruct (threads s !! threadIdTimerTick) as [t|] eqn:E; [|done]. cbn.
    destruct (registry s !! threadIdTimerTick); [|done]. cbn. by rewrite (Hst threadIdTimerTick t ltac:(done) E).
Qed.

(** The main thread's own steps. *)
Lemma stop_ok s : system_ok s → phase s = Serving → system_ok (main_stop s).
Proof.
  intros [H1 H2 H3 H4] Hp. unfold phase_ok in H4. rewrite Hp in H4.
  assert (∀ i, 0 <= i < threadIdCount → is_Some (registry s !! i)) as Hi
    by (intros i; apply H2; by rewrite Hp).
  assert (∀ i, 0 <= i < threadIdCount → queue (registry (main_stop s)) i =
    queue (registry s) i ++ if i =? threadIdTimerTick then [] else [InboxMsg_of inboxMsgTypeTerminate]) as Hq.
  { intros i Hi'. destruct (Hi i Hi') as [ib E]. unfold queue. cbn. rewrite broadcast_lookup, E. cbn.
    destruct (i =? threadIdTimerTick); cbn; by rewrite ?app_nil_r. }
  constructor; try done.
  - intros i _ Hi'. destruct (Hi i Hi') as [ib E]. cbn. rewrite broadcast_lookup, E. by eexists.
  - unfold phase_ok. cbn [main_stop set_phase phase]. split_and!; [done|done| | |].
    + intros i Hw. right. rewrite Hq by (by apply worker_in). unfold worker in Hw.
      rewrite (proj2 (Z.eqb_neq _ _)) by lia. unfold told. rewrite existsb_app. apply orb_true_r.
    + unfold worker. lia.
    + destruct (H4 threadIdTimerTick ltac:(done)) as [Hx Ht]. split; [exact Hx|].
      rewrite Hq by done. cbn [Z.eqb threadIdTimerTick Pos.eqb]. by rewrite app_nil_r.
Qed.

Lemma terminate_timer_queue s j :
  queue (sendTerminateMessage (registry s) threadIdTimerTick) j =
  if decide (j = threadIdTimerTick) then
    queue (registry s) j ++ [InboxMsg_of inboxMsgTypeTerminate]
  else queue (registry s) j.
Proof.
  unfold queue, sendTerminateMessage. rewrite send_lookup. case_decide; [|done]. subst.
  by destruct (registry s !! threadIdTimerTick).
Qed.

Lemma main_step_ok s s' : system_ok s → main_step s = Some s' → system_ok s'.
Proof.
  intros [H1 H2 H3 H4] E. unfold main_step in E. unfold phase_ok in H4.
  destruct (phase s) as [|k| |] eqn:Hp; [done| | |done].
  - destruct H4 as (Hk & He & Hx & Hg).
    assert (∀ i, 0 <= i < threadIdCount → is_Some (registry s !! i)) as Hi by (intros i; by apply H2).
    destruct (Z.eqb_spec k threadIdCount) as [Ek|Ek].
    + injection E as <-. constructor; try done.
      * intros i _ Hi'. cbn. unfold sendTerminateMessage. rewrite send_lookup. case_decide; [by eexists|auto].
      * unfold phase_ok. cbn [set_phase phase set_registry]. split.
        { intros i Hw. apply (Hx i Hw). apply worker_in in Hw. lia. }
        right. cbn [registry set_registry set_phase]. rewrite terminate_timer_queue, decide_True by done.
        unfold told. rewrite existsb_app. apply orb_true_r.
    + assert (system_ok (set_phase (Joining (k + 1)) s) ∨
        ¬ (∀ i, worker i → i < k + 1 → exited i s = true)) as [Hok|Hno].
      { destruct (decide (k = threadIdTimerTick)) as [->|Hkt].
        - left. constructor; try done. { intros i _. apply Hi. } unfold phase_ok. cbn.
          split_and!; [lia|unfold threadIdTimerTick, threadIdCount; lia|done| |done].
          intros i Hw Hi'. apply (Hx i Hw). unfold worker in Hw. lia.
        - destruct (exited k s) eqn:Ex.
          + left. constructor; try done. { intros i _. apply Hi. } unfold phase_ok. cbn.
            split_and!; [lia|lia|done| |done]. intros i Hw Hi'.
            destruct (decide (i = k)) as [->|]; [done|]. apply (Hx i Hw). lia.
          + right. intros Hno. rewrite (Hno k) in Ex; [done| |lia].
            unfold worker, threadIdTimerTick, threadIdCount in *. lia. }
      * destruct (k =? threadIdTimerTick); [by injection E as <-|].
        destruct (exited k s); [by injection E as <-|done].
      * exfalso. apply Hno. intros i Hw Hi'. destruct (decide (i = k)) as [->|]; [|apply (Hx i Hw); lia].
        unfold worker in Hw. rewrite (proj2 (Z.eqb_neq k threadIdTimerTick)) in E by lia.
        by destruct (exited k s).
  - destruct H4 as [Hx He]. destruct (exited threadIdTimerTick s) eqn:Et; [|done].
    injection E as <-. constructor; try done. unfold phase_ok. cbn. intros i Hi'.
    destruct (decide (i = threadIdTimerTick)) as [->|]; [exact Et|]. apply (Hx i).
    unfold worker, threadIdTimerTick, threadIdCount in *. lia.
Qed.

Lemma system_event_ok e s s' : system_ok s → system_event e s = Some s' → system_ok s'.
Proof.
  intros Hs E. assert (phase s ≠ Done) as Hd by (intros Hd; by rewrite (done_stuck e s Hs Hd) in E).
  destruct e as [| |i|i posts|wakes notifies]; cbn [system_event] in E.
  - destruct (phase s) eqn:Hp; try done. injection E as <-. by apply stop_ok.
  - by apply (main_step_ok s).
  - destruct (_ && _) eqn:Ei; [|done]. apply in_worker in Ei.
    destruct (head_step i s s' E) as (Hst & _ & t & Et). eapply step_of_ok; [done..|].
    rewrite Et. rewrite lookup_insert_ne by (unfold worker in Ei; lia). apply (so_timer _ Hs).
  - destruct (_ && _) eqn:Ei; [|done]. apply in_worker in Ei.
    destruct (work_step i posts s s' E) as (Hst & _ & t & Et). eapply step_of_ok; [done..|].
    rewrite Et. rewrite lookup_insert_ne by (unfold worker in Ei; lia). apply (so_timer _ Hs).
  - destruct (timer_step wakes notifies s s' E) as (Hst & Ht). by eapply step_of_ok.
Qed.

(** ** Work that is left *)

Definition workers : list Z := seqZ 0 threadIdTimerTick.
Definition total_cost (s : System) : Z := foldr (λ i acc, cost i s + acc) 0 workers.

(** The steps of the threads that are joined first. *)
Definition own_step (e : SystemEvent) : bool :=
  match e with Head _ | Work _ _ => true | _ => false end.
Definition own_steps (es : list SystemEvent) : Z :=
  Z.of_nat (length (filter (λ e, own_step e = true) es)).

Lemma workers_elem i : i ∈ workers ↔ worker i.
Proof. unfold workers. rewrite elem_of_seqZ. unfold worker. lia. Qed.

Lemma total_cost_le s s' :
  (∀ i, worker i → cost i s' <= cost i s) → total_cost s' <= total_cost s.
Proof.
  intros Hc. unfold total_cost. setoid_rewrite <-workers_elem in Hc. revert Hc.
  induction workers as [|i l IH]; intros Hc; cbn [foldr]; [lia|].
  pose proof (Hc i ltac:(left)). specialize (IH ltac:(intros j Hj; apply Hc; by right)). lia.
Qed.

Lemma total_cost_lt i s s' :
  worker i → cost i s' < cost i s → (∀ j, worker j → j ≠ i → cost j s' = cost j s) →
  total_cost s' < total_cost s.
Proof.
  intros Hw Hi Hc. apply workers_elem in Hw. unfold total_cost. setoid_rewrite <-workers_elem in Hc.
  assert (∀ l, (∀ j, j ∈ l → cost j s' <= cost j s) →
    foldr (λ i acc, cost i s' + acc) 0 l <= foldr (λ i acc, cost i s + acc) 0 l) as Hle.
  { clear. induction l as [|j l IH]; intros Hc; cbn [foldr]; [lia|].
    pose proof (Hc j ltac:(left)). specialize (IH ltac:(intros k Hk; apply Hc; by right)). lia. }
  assert (∀ j, j ∈ workers → cost j s' <= cost j s) as Hall.
  { intros j Hj. destruct (decide (j = i)) as [->|Hne]; [lia|]. rewrite (Hc j Hj Hne). lia. }
  revert Hw Hall. clear Hc. induction workers as [|j l IH]; intros Hw Hall; [by apply elem_of_nil in Hw|].
  cbn [foldr]. apply elem_of_cons in Hw as [->|Hw].
  - specialize (Hle l ltac:(intros k Hk; apply Hall; by right)). lia.
  - pose proof (Hall j ltac:(left)). specialize (IH Hw ltac:(intros k Hk; apply Hall; by right)). lia.
Qed.

Lemma total_cost_nonneg s : 0 <= total_cost s.
Proof.
  unfold total_cost. induction workers as [|i l IH]; cbn [foldr]; [lia|].
  pose proof (cost_nonneg i s). lia.
Qed.

(** After the broadcast every worker is ending. *)
Lemma all_ending s i : system_ok s → phase s ≠ Serving → phase s ≠ Done → worker i → ending i s.
Proof.
  intros Hs H1 H2 Hw. pose proof (so_phase _ Hs) as Hp. unfold phase_ok in Hp.
  destruct (phase s); try done.
  - by apply Hp.
  - left. by apply Hp.
Qed.

Lemma cost_exited i s : exited i s = true → cost i s = 0.
Proof.
  unfold exited, cost. destruct (threads s !! i) as [t|]; [|done]. rewrite bool_decide_eq_true.
  by intros ->.
Qed.

Lemma ending_busy i s t :
  ending i s → threads s !! i = Some t → state t ≠ Exited → told (queue (registry s) i) = true.
Proof.
  intros [Hx|Hq] E Ht; [|done]. rewrite (exited_state_at _ _ _ E) in Hx. by apply bool_decide_eq_true in Hx.
Qed.

(** Every step keeps what is left or makes it less; the steps of the threads
    that are joined make it less. *)
Lemma event_cost e s s' :
  system_ok s → phase s ≠ Serving → system_event e s = Some s' →
  phase s' ≠ Serving ∧ total_cost s' <= total_cost s ∧
  (own_step e = true → total_cost s' < total_cost s).
Proof.
  intros Hs Hp E. assert (phase s ≠ Done) as Hd by (intros Hd; by rewrite (done_stuck e s Hs Hd) in E).
  assert (∀ i, worker i → is_Some (registry s !! i)) as Hi.
  { intros i Hw. apply (so_inboxes _ Hs); [done|by apply worker_in]. }
  pose proof (λ i, all_ending s i Hs Hp Hd) as He.
  assert (∀ i s', worker i → step_of i s s' → cost i s' < cost i s →
    phase s' ≠ Serving ∧ total_cost s' <= total_cost s ∧ total_cost s' < total_cost s) as Hstep.
  { intros i s1 Hw Hst Hc. assert (total_cost s1 < total_cost s) as Ht.
    { apply (total_cost_lt i); [done|done|]. intros j Hj Hne.
      by apply (cost_other i); [| |apply Hi|apply He]. }
    split; [by rewrite (st_phase _ _ _ Hst)|]. lia. }
  destruct e as [| |i|i posts|wakes notifies]; cbn [system_event own_step] in *.
  - by destruct (phase s).
  - pose proof (main_step_ok s s' Hs E) as Hs'. unfold main_step in E.
    destruct (phase s) as [|k| |] eqn:Eph; try done.
    + destruct (k =? threadIdCount).
      * injection E as <-. split; [done|]. split; [|done]. apply total_cost_le. intros i Hw.
        unfold cost. cbn [threads registry set_phase set_registry]. rewrite terminate_timer_queue.
        unfold worker in Hw. rewrite decide_False by lia. lia.
      * destruct (k =? threadIdTimerTick); [|destruct (exited k s); [|done]];
          injection E as <-; (split; [done|]); (split; [|done]); by apply total_cost_le.
    + destruct (exited threadIdTimerTick s) eqn:Et; [|done]. injection E as <-. split; [done|].
      split; [|done]. apply total_cost_le. intros i Hw. rewrite cost_exited; [apply cost_nonneg|].
      apply (so_phase _ Hs'). by apply worker_in.
  - destruct (_ && _) eqn:Ei; [|done]. apply in_worker in Ei.
    destruct (head_step i s s' E) as (Hst & Hc & _).
    destruct (Hstep i s' Ei Hst) as (A & B & C); [|done]. apply Hc. unfold loop_head in E.
    destruct (threads s !! i) as [t|] eqn:Et; [|done]. cbn in E. eapply ending_busy; [by apply He|done|].
    destruct (registry s !! i); [|done]. cbn in E. by destruct (state t).
  - destruct (_ && _) eqn:Ei; [|done]. apply in_worker in Ei.
    destruct (work_step i posts s s' E) as (Hst & Hc & _).
    destruct (Hstep i s' Ei Hst) as (A & B & C); [|done]. apply Hc; [by apply Hi|]. unfold loop_work in E.
    destruct (threads s !! i) as [t|] eqn:Et; [|done]. cbn in E. eapply ending_busy; [by apply He|done|].
    by destruct (state t).
  - destruct (timer_step wakes notifies s s' E) as (Hst & _). split; [by rewrite (st_phase _ _ _ Hst)|].
    split; [|done]. apply total_cost_le. intros i Hw.
    rewrite (cost_other threadIdTimerTick i s s' Hst); [lia| |by apply Hi|by apply He].
    unfold worker in Hw. lia.
Qed.

Lemma system_run_ok es s s' : system_ok s → system_run es s = Some s' → system_ok s'.
Proof.
  revert s. induction es as [|e es IH]; intros s Hs E; cbn [system_run] in E; [by simplify_eq|].
  destruct (system_event e s) as [s1|] eqn:E1; [|done]. cbn in E.
  apply (IH s1); [by eapply system_event_ok|done].
Qed.

Lemma system_run_app es1 es2 s : system_run (es1 ++ es2) s = system_run es1 s ≫= system_run es2.
Proof.
  revert s. induction es1 as [|e es IH]; intros s; [done|]. cbn [app system_run].
  destruct (system_event e s); cbn; [apply IH|done].
Qed.

Lemma own_steps_cons e es : own_steps (e :: es) = (if own_step e then 1 else 0) + own_steps es.
Proof. unfold own_steps. rewrite filter_cons. destruct (own_step e); case_decide; simpl; done || lia. Qed.

Lemma run_cost es s s' :
  system_ok s → phase s ≠ Serving → system_run es s = Some s' →
  phase s' ≠ Serving ∧ own_steps es + total_cost s' <= total_cost s.
Proof.
  revert s. induction es as [|e es IH]; intros s Hs Hp E; cbn [system_run] in E.
  { simplify_eq. change (own_steps []) with 0. split; [done|lia]. }
  destruct (system_event e s) as [s1|] eqn:E1; [|done]. cbn in E.
  destruct (event_cost e s s1 Hs Hp E1) as (Hp1 & Hle & Hlt).
  destruct (IH s1 (system_event_ok e s s1 Hs E1) Hp1 E) as [Hp' Hc]. split; [done|].
  rewrite own_steps_cons. destruct (own_step e); [specialize (Hlt eq_refl)|]; lia.
Qed.

(** ** The end is reached *)

Definition reaches (s s' : System) : Prop := ∃ es, system_run es s = Some s'.

Lemma reaches_refl s : reaches s s.
Proof. by exists []. Qed.

Lemma reaches_one e s s' : system_event e s = Some s' → reaches s s'.
Proof. intros E. exists [e]. cbn. by rewrite E. Qed.

Lemma reaches_trans s1 s2 s3 : reaches s1 s2 → reaches s2 s3 → reaches s1 s3.
Proof. intros [es1 E1] [es2 E2]. exists (es1 ++ es2). by rewrite system_run_app, E1. Qed.

(** A busy thread that is woken, or needs not be, goes on. *)
Lemma work_now i t s :
  worker i → threads s !! i = Some t → state t = Busy → waits_for_tick i = false ∨ woken t = true →
  ∃ s', system_event (Work i []) s = Some s'.
Proof.
  intros Hw E Et Hk. cbn [system_event]. unfold worker in Hw.
  rewrite (proj2 (Z.leb_le 0 i)), (proj2 (Z.ltb_lt i threadIdTimerTick)) by lia. cbn [andb].
  unfold loop_work. rewrite E. cbn [mbind option_bind]. rewrite Et.
  replace (_ && _) with true; [by eexists|]. symmetry. apply andb_true_iff. split; [|done].
  destruct Hk as [-> | ->]; [done|apply orb_true_r].
Qed.

(** The timer, while it lives, can wake a thread. *)
Lemma wake_one i t s :
  worker i → threads s !! i = Some t → going threadIdTimerTick s →
  is_Some (registry s !! threadIdTimerTick) →
  (∀ t, threads s !! threadIdTimerTick = Some t → state t ≠ Busy) →
  is_Some (threads s !! threadIdTimerTick) →
  ∃ s', system_event (TimerPass [i] []) s = Some s' ∧ threads s' !! i = Some (mkThread (state t) true).
Proof.
  intros Hw E [Hx Hq] [ib Er] Hnb [t6 E6]. cbn [system_event]. unfold timer_iteration.
  rewrite E6. cbn [mbind option_bind]. rewrite Er. cbn [mbind option_bind].
  rewrite (exited_state_at _ _ _ E6), bool_decide_eq_false in Hx. specialize (Hnb t6 E6).
  destruct (state t6); [|done..].
  assert (∀ r, (mkSystem r (map_imap (λ j t, Some (if bool_decide (j ∈ [i]) then mkThread (state t) true else t))
    (threads s)) (phase s)).(threads) !! i = Some (mkThread (state t) true)) as Hth.
  { intros r. cbn [threads]. rewrite map_lookup_imap, E. cbn. rewrite bool_decide_true by set_solver. done. }
  unfold pop. destruct (msgs ib) as [|m tail] eqn:Em; [by eexists|]. cbv zeta.
  assert (is_terminate m = false) as ->.
  { unfold queue in Hq. rewrite Er in Hq. cbn in Hq. rewrite Em in Hq. cbn in Hq.
    by apply orb_false_iff in Hq as [-> _]. }
  by eexists.
Qed.

Lemma worker_progress i k s :
  system_ok s → phase s = Joining k → worker i → exited i s = false →
  ∃ s', reaches s s' ∧ phase s' = Joining k ∧ total_cost s' < total_cost s.
Proof.
  intros Hs Hp Hw Hx. assert (phase s ≠ Serving ∧ phase s ≠ Done) as [Hns Hnd] by (by rewrite Hp).
  pose proof (so_phase _ Hs) as Hph. unfold phase_ok in Hph. rewrite Hp in Hph. destruct Hph as (_ & _ & _ & Hg).
  destruct (so_threads _ Hs i ltac:(by apply worker_in)) as [t E].
  destruct (so_inboxes _ Hs i Hnd ltac:(by apply worker_in)) as [ib Er].
  pose proof Hx as Hx'. rewrite (exited_state_at _ _ _ E), bool_decide_eq_false in Hx'.
  pose proof (ending_busy i s t (all_ending s i Hs Hns Hnd Hw) E Hx') as Hq.
  assert (Hwork : ∀ s1 t1, system_ok s1 → phase s1 = Joining k → total_cost s1 <= total_cost s →
    reaches s s1 → threads s1 !! i = Some t1 → state t1 = Busy →
    waits_for_tick i = false ∨ woken t1 = true →
    ∃ s', reaches s s' ∧ phase s' = Joining k ∧ total_cost s' < total_cost s).
  { intros s1 t1 Hs1 Hp1 Hc1 Hr1 E1 Hb1 Hk1. destruct (work_now i t1 s1 Hw E1 Hb1 Hk1) as [s2 E2].
    exists s2. split; [by eapply reaches_trans, reaches_one|].
    destruct (event_cost _ s1 s2 Hs1 ltac:(by rewrite Hp1) E2) as (_ & _ & Hlt). split.
    - cbn [system_event] in E2. destruct (_ && _); [|done].
      destruct (work_step _ _ _ _ E2) as [Hst _]. by rewrite (st_phase _ _ _ Hst).
    - specialize (Hlt eq_refl). lia. }
  destruct (state t) eqn:Et; [| |done].
  - assert (∃ s', system_event (Head i) s = Some s') as [s' Es].
    { cbn [system_event]. unfold worker in Hw.
      rewrite (proj2 (Z.leb_le 0 i)), (proj2 (Z.ltb_lt i threadIdTimerTick)) by lia. cbn [andb].
      unfold loop_head. rewrite E. cbn [mbind option_bind]. rewrite Er. cbn [mbind option_bind]. rewrite Et.
      unfold queue in Hq. rewrite Er in Hq. cbn in Hq. unfold pop. destruct (msgs ib); [done|by eexists]. }
    exists s'. split; [by eapply reaches_one|].
    destruct (event_cost _ s s' Hs Hns Es) as (_ & _ & Hlt). split; [|by apply Hlt].
    cbn [system_event] in Es. destruct (_ && _); [|done].
    destruct (head_step _ _ _ Es) as [Hst _]. by rewrite (st_phase _ _ _ Hst).
  - destruct (waits_for_tick i) eqn:Ew; [|by apply (Hwork s t); auto using reaches_refl; lia].
    destruct (woken t) eqn:Ewk; [by apply (Hwork s t); auto using reaches_refl; lia|].
    destruct (wake_one i t s Hw E Hg (so_inboxes _ Hs threadIdTimerTick Hnd ltac:(done)) (so_timer _ Hs)
      (so_threads _ Hs threadIdTimerTick ltac:(done))) as (s1 & E1 & Et1).
    destruct (event_cost _ s s1 Hs Hns E1) as (_ & Hle & _).
    apply (Hwork s1 (mkThread (state t) true)); try done; eauto using system_event_ok, reaches_one.
    cbn [system_event] in E1. destruct (timer_step _ _ _ _ E1) as [Hst _]. by rewrite (st_phase _ _ _ Hst).
Qed.

(** The joins come to an end. *)
Lemma joins_end n k s :
  system_ok s → phase s = Joining k → total_cost s + (threadIdCount - k) < Z.of_nat n →
  ∃ s', reaches s s' ∧ phase s' = JoiningTimer.
Proof.
  revert k s. induction n as [|n IH]; intros k s Hs Hp Hn.
  { pose proof (total_cost_nonneg s). pose proof (so_phase _ Hs) as Hph. unfold phase_ok in Hph.
    rewrite Hp in Hph. lia. }
  destruct (main_step s) as [s'|] eqn:E.
  - pose proof (main_step_ok _ _ Hs E) as Hs'.
    destruct (event_cost MainStep s s' Hs ltac:(by rewrite Hp) E) as (_ & Hle & _).
    assert (phase s' = JoiningTimer ∨ phase s' = Joining (k + 1)) as [H'|H'].
    { unfold main_step in E. rewrite Hp in E. destruct (k =? threadIdCount); [injection E as <-; by left|].
      right. destruct (k =? threadIdTimerTick); [by injection E as <-|].
      destruct (exited k s); [by injection E as <-|done]. }
    + exists s'. split; [by apply (reaches_one MainStep)|done].
    + destruct (IH (k + 1) s' Hs' H' ltac:(lia)) as (s2 & Hr & Hp2). exists s2. split; [|done].
      eapply reaches_trans; [by apply (reaches_one MainStep)|done].
  - assert (worker k ∧ exited k s = false) as [Hw Hx].
    { unfold main_step in E. rewrite Hp in E. pose proof (so_phase _ Hs) as Hph. unfold phase_ok in Hph.
      rewrite Hp in Hph. unfold worker. destruct (Z.eqb_spec k threadIdCount); [done|].
      destruct (Z.eqb_spec k threadIdTimerTick); [done|]. destruct (exited k s); [done|].
      unfold threadIdCount, threadIdTimerTick in *. split; [lia|done]. }
    destruct (worker_progress k k s Hs Hp Hw Hx) as (s1 & Hr1 & Hp1 & Hc1).
    destruct (IH k s1) as (s2 & Hr2 & Hp2); [|done|lia|].
    + destruct Hr1 as [es Es]. by eapply system_run_ok.
    + exists s2. split; [by eapply reaches_trans|done].
Qed.

(** So does the timer's. *)
Lemma timer_ends n s :
  system_ok s → phase s = JoiningTimer → ahead (queue (registry s) threadIdTimerTick) < Z.of_nat n →
  ∃ s', reaches s s' ∧ phase s' = Done.
Proof.
  revert s. induction n as [|n IH]; intros s Hs Hp Hn.
  { pose proof (ahead_nonneg (queue (registry s) threadIdTimerTick)). lia. }
  destruct (exited threadIdTimerTick s) eqn:Hx.
  { eexists. split; [apply (reaches_one MainStep)|].
    - cbn [system_event]. unfold main_step. by rewrite Hp, Hx.
    - done. }
  pose proof (so_phase _ Hs) as Hph. unfold phase_ok in Hph. rewrite Hp in Hph. destruct Hph as [_ [He|Hq]];
    [congruence|].
  destruct (so_threads _ Hs threadIdTimerTick ltac:(done)) as [t E].
  destruct (so_inboxes _ Hs threadIdTimerTick ltac:(by rewrite Hp) ltac:(done)) as [ib Er].
  pose proof (so_timer _ Hs t E) as Hb. pose proof Hx as Hx'.
  rewrite (exited_state_at _ _ _ E), bool_decide_eq_false in Hx'.
  assert (queue (registry s) threadIdTimerTick = msgs ib) as Eq by (unfold queue; by rewrite Er).
  rewrite Eq in *. destruct (msgs ib) as [|m tail] eqn:Em; [done|].
  assert (∃ s', system_event (TimerPass [] []) s = Some s' ∧ (exited threadIdTimerTick s' = true ∨
    is_terminate m = false ∧ queue (registry s') threadIdTimerTick = tail)) as (s1 & E1 & Hs1).
  { cbn [system_event]. unfold timer_iteration. rewrite E. cbn [mbind option_bind]. rewrite Er.
    cbn [mbind option_bind]. destruct (state t); [|done..]. unfold pop. rewrite Em. cbv zeta.
    destruct (is_terminate m); eexists; (split; [done|]).
    - left. unfold exited. cbn. by rewrite lookup_insert_eq.
    - right. split; [done|]. unfold queue. cbn. by rewrite lookup_insert_eq. }
  assert (phase s1 = JoiningTimer) as Hp1.
  { cbn [system_event] in E1. destruct (timer_step _ _ _ _ E1) as [Hst _]. by rewrite (st_phase _ _ _ Hst). }
  pose proof (system_event_ok _ _ _ Hs E1) as Hok. destruct Hs1 as [Hx1|[Hm Hq1]].
  - eexists. split; [eapply reaches_trans; [by eapply reaches_one|apply (reaches_one MainStep)]|].
    + cbn [system_event]. unfold main_step. by rewrite Hp1, Hx1.
    + done.
  - destruct (IH s1 Hok Hp1) as (s2 & Hr & Hp2).
    + rewrite Hq1. cbn [ahead] in Hn. rewrite Hm in Hn. lia.
    + exists s2. split; [by eapply reaches_trans; [eapply reaches_one|]|done].
Qed.

Lemma end_reached s : system_ok s → phase s ≠ Serving → ∃ s', reaches s s' ∧ phase s' = Done.
Proof.
  intros Hs Hp. assert (∀ s, system_ok s → phase s = JoiningTimer → ∃ s', reaches s s' ∧ phase s' = Done) as Ht.
  { intros s1 Hs1 Hp1. apply (timer_ends (S (Z.to_nat (ahead (queue (registry s1) threadIdTimerTick))))); [done..|].
    pose proof (ahead_nonneg (queue (registry s1) threadIdTimerTick)). lia. }
  destruct (phase s) as [|k| |] eqn:E; [done| |by apply Ht|by exists s; split; [apply reaches_refl|]].
  destruct (joins_end (S (Z.to_nat (total_cost s + (threadIdCount - k)))) k s Hs E) as (s1 & [es Hr] & Hp1).
  { pose proof (total_cost_nonneg s). pose proof (so_phase _ Hs) as Hph. unfold phase_ok in Hph.
    rewrite E in Hph. lia. }
  destruct (Ht s1) as (s2 & Hr2 & Hp2); [by eapply system_run_ok|done|]. exists s2.
  split; [by eapply reaches_trans; [exists es|]|done].
Qed.

(** ** The start is in order *)

Lemma main_start_ok gpio spi adc s :
  main_start gpio spi adc = inr s → system_ok s ∧ phase s = Serving.
Proof.
  unfold main_start. destruct (negb gpio); [done|]. case_bool_decide; [done|].
  destruct (negb _); [done|]. intros [= <-]. split; [|done].
  assert (∀ P : Z → Prop, P 0 → P 1 → P 2 → P 3 → P 4 → P 5 → P 6 →
    ∀ i, 0 <= i < threadIdCount → P i) as Hall.
  { intros P **. assert (i = 0 ∨ i = 1 ∨ i = 2 ∨ i = 3 ∨ i = 4 ∨ i = 5 ∨ i = 6) as Hi
      by (unfold threadIdCount in *; lia). by destruct_or! Hi; subst. }
  constructor.
  - apply Hall; vm_compute; by eexists.
  - intros i _. revert i. apply Hall; vm_compute; by eexists.
  - intros t E. vm_compute in E. by injection E as <-.
  - unfold phase_ok. cbn [phase]. apply Hall; by vm_compute.
Qed.

(** C7: the program ends. Whatever the threads did and posted before and after
    the server returned: the timer, on which the polling loops wait, outlives
    every other thread; once [main] told the threads to terminate, the message
    is not lost, the joined threads together make no more steps than were
    needed for the messages that were already queued, and from any state in
    between the run can be completed, with every thread gone and joined. *)
Theorem program_ends gpio spi adc s0 es s :
  main_start gpio spi adc = inr s0 → system_run es s0 = Some s →
  (exited threadIdTimerTick s = true → ∀ i, worker i → exited i s = true) ∧
  (phase s ≠ Serving →
   (∀ es' s', system_run es' s = Some s' → own_steps es' <= total_cost s) ∧
   ∃ es' s', system_run es' s = Some s' ∧ phase s' = Done ∧
     ∀ i, 0 <= i < threadIdCount → exited i s' = true).
Proof.
  intros H0 E. destruct (main_start_ok _ _ _ _ H0) as [Hs0 _]. pose proof (system_run_ok _ _ _ Hs0 E) as Hs.
  split.
  - intros Hx i Hw. pose proof (so_phase _ Hs) as Hp. unfold phase_ok in Hp. destruct (phase s).
    + destruct (Hp threadIdTimerTick ltac:(done)) as [Hg _]. congruence.
    + destruct Hp as (_ & _ & _ & Hg & _). congruence.
    + by apply Hp.
    + by apply Hp, worker_in.
  - intros Hns. split.
    + intros es' s' E'. destruct (run_cost es' s s' Hs Hns E') as [_ Hc].
      pose proof (total_cost_nonneg s'). lia.
    + destruct (end_reached s Hs Hns) as (s' & [es' E'] & Hd). exists es', s'.
      split; [done|]. split; [done|]. pose proof (so_phase _ (system_run_ok _ _ _ Hs E')) as Hp.
      unfold phase_ok in Hp. by rewrite Hd in Hp.
Qed.

(** A failure of a device is reported, and no thread is started. *)
Lemma main_start_failures spi adc :
  main_start false spi adc = inl "Unable to initialize GPIO access" ∧
  main_start true (Some false) adc = inl "Unable to initialize strip SPI output" ∧
  main_start true None None = inl "Unable to initialize analog input" ∧
  main_start true None (Some false) = inl "Unable to initialize analog input".
Proof. done. Qed.

(** The switch knows every thread. *)
Lemma allocThreadInfoArray_ok :
  allocThreadInfoArray = Ok [displayMain; ledStripMain; lightSensorMain; motionSensorMain;
    mqttClientMain; dictionaryMain; timerTickMain].
Proof. done. Qed.

(** ** Witness: a motion is on its way while the server returns *)

Definition demo_system : System :=
  match main_start true None (Some true) with inr s => s | inl _ => mkSystem ∅ ∅ Done end.

Definition demo_run : list SystemEvent :=
  [Head threadIdMotionSensor; TimerPass [threadIdMotionSensor; threadIdDisplay] [threadIdDictionary];
   Work threadIdMotionSensor [Broadcast (InboxMsg_of inboxMsgTypeMotionOn)]; Head threadIdDictionary;
   ServerReturns; Work threadIdDictionary []; Head threadIdMotionSensor; Head threadIdDisplay].

Lemma program_ends_witness :
  ∃ s, system_run demo_run demo_system = Some s ∧
  (exited threadIdTimerTick s = true → ∀ i, worker i → exited i s = true) ∧
  (phase s ≠ Serving →
   (∀ es' s', system_run es' s = Some s' → own_steps es' <= total_cost s) ∧
   ∃ es' s', system_run es' s = Some s' ∧ phase s' = Done ∧
     ∀ i, 0 <= i < threadIdCount → exited i s' = true).
Proof.
  destruct (system_run demo_run demo_system) as [s|] eqn:E; [|vm_compute in E; discriminate E].
  exists s. split; [reflexivity|].
  exact (program_ends true None (Some true) demo_system demo_run s eq_refl E).
Defined.
