(* ===== verification/Threads.v ===== *)
(** * The loops of the other threads: src/src/ledStrip.cpp,
      src/src/motionSensor.cpp, src/src/lightSensor.cpp, src/src/dictionary.cpp

    What precedes, repeats and follows in [runThreadLoop] of the LED strip, the
    two sensors and the dictionary, on the inboxes, the timer and the devices;
    that they are polling loops in the sense of Services.v, and what the system
    of Main.v takes them for. *)
From S2P Require Import Prelude StdMap CLib CommonUtils Gpio Inbox TimerTick Services ThreadSystem Lpd8806 Sensors Dictionary LedStrip Main.

(** ** The common head of the polling loops *)

(** [if (inbox.getMessage(msg)) { if (... == inboxMsgTypeTerminate) break; }]:
    whether the loop is left, and the inboxes. *)
Definition poll (threadId : Z) (reg : InboxRegistry) : bool * InboxRegistry :=
  let '(ib, reg) := getInbox threadId reg in
  let '(got, msg, ib) := getMessage InboxMsg_new ib in
  (got && bool_decide (inboxMsgType msg = inboxMsgTypeTerminate), <[threadId := ib]> reg).

(** ** The motion sensor *)

Definition doSensorRead_service : TimerTickService := new_service 1000 true ServiceCv.

Section motion.
Context {G : Type} `{GpioDevice G}.

Record MotionThread := mkMotionThread {
  motion_gpio : G;
  motionInfo : Motion.MotionInfo;
  motion_inboxes : InboxRegistry;
}.

Definition motion_check (m : MotionThread) : res MotionThread :=
  let! (changed, g, i, reg) :=
    Motion.checkMotionSensor (motion_gpio m) (motionInfo m) (motion_inboxes m) in
  Ok (mkMotionThread g i reg).

(** The line and the inboxes change while the thread waits. *)
#[export] Instance motion_loop : PollingLoop MotionThread (G * InboxRegistry) := {|
  loop_services := (doSensorRead_service, []);
  loop_iterate _ := motion_check;
  loop_post x m := mkMotionThread x.1 (motionInfo m) x.2;
|}.

Definition motion_begin (m : MotionThread) : res MotionThread :=
  let! g := run_ops (Motion.configureMotionInput Motion.sensorGpioPin) (motion_gpio m) in
  Ok (mkMotionThread g (motionInfo m) (motion_inboxes m)).

#[export] Instance motion_ends : ThreadEnds MotionThread := {|
  thread_begin := motion_begin;
  thread_end m := Ok m;
|}.
End motion.
Arguments MotionThread G : clear implicits.

(** A backend whose lines can be claimed and read without an exception. *)
Class QuietDevice (G : Type) `{GpioDevice G} : Prop := {
  quiet_configureInput pin g : is_ok (gpio_configureInput pin g) = true;
  quiet_read pin g : is_ok (gpio_read pin g) = true;
}.

(** The stopwatch keeps within its fields. *)
Definition motion_inv (i : Motion.MotionInfo) : Prop :=
  0 <= Motion.lastChangedSec i <= 59 ∧ 0 <= Motion.lastChangedMin i <= 59 ∧
  0 <= Motion.lastChangedHour i <= 254.

Lemma motion_update_inv d i : motion_inv i → motion_inv (Motion.update d i).1.2.
Proof.
  intros (Hs & Hm & Hh). unfold Motion.update. destruct (bool_decide _); [|by repeat split].
  rewrite (u8_small (Motion.lastChangedSec i + 1)), (u8_small (Motion.lastChangedMin i + 1)) by lia.
  destruct (Z.ltb_spec 59 (Motion.lastChangedSec i + 1)); [|by repeat split; cbn; lia].
  destruct (Z.ltb_spec 59 (Motion.lastChangedMin i + 1)); [|by repeat split; cbn; lia].
  destruct (Z.ltb_spec (Motion.lastChangedHour i) 254); repeat split; cbn; try lia;
    rewrite u8_small by lia; lia.
Qed.

#[export] Instance motion_laws `{QuietDevice G} :
  PollingLaws (MotionThread G) (G * InboxRegistry) (λ _ m, motion_inv (motionInfo m)) (λ _, True) (λ _, True).
Proof.
  split; [repeat constructor|done|]. intros n [g i reg] flags Hi _. cbn [loop_iterate motion_loop].
  unfold motion_check, Motion.checkMotionSensor, Motion.readMotionDetected. cbn.
  pose proof (quiet_read Motion.sensorGpioPin g) as Hr. destruct (gpio_read _ g) as [[v g']|]; [|done]. cbn.
  pose proof (motion_update_inv (is_high v) i Hi) as Hu.
  destruct (Motion.update (is_high v) i) as [[b i'] msg]. by eexists.
Qed.

#[export] Instance motion_thread_laws `{QuietDevice G} :
  ThreadLaws (MotionThread G) (G * InboxRegistry) (λ _ m, motion_inv (motionInfo m)) (λ _, True)
    (λ m, motion_inv (motionInfo m)).
Proof.
  split; [by repeat constructor|done| |eauto]. intros [g i reg] Hi. cbn. unfold motion_begin. cbn.
  unfold run_op. cbn. pose proof (quiet_configureInput Motion.sensorGpioPin g) as Hc.
  destruct (gpio_configureInput _ g); [|done]. by eexists.
Qed.

(** ** The light sensor *)

Definition sensorReadTimer_service : TimerTickService := new_service 600 true ServiceCv.

Section light.
Context {A : Type} `{AnalogInput A}.

Record LightThread := mkLightThread {
  analogInput : A;
  lightValues : list Z;
}.

(** The converter's samples change while the thread waits. *)
#[export] Instance light_loop : PollingLoop LightThread A := {|
  loop_services := (sensorReadTimer_service, []);
  loop_iterate _ l :=
    let! values := Light.doSensorRead (analogInput l) (lightValues l) in
    Ok (mkLightThread (analogInput l) values);
  loop_post a l := mkLightThread a (lightValues l);
|}.

#[export] Instance light_ends : ThreadEnds LightThread := {|
  thread_begin l := Ok l;
  thread_end l := Ok l;
|}.

(** At most ten samples, and a converter that can be read. *)
Definition light_inv (l : LightThread) : Prop :=
  (length (lightValues l) <= Light.maxLightValuesSize)%nat ∧
  Forall (λ v, 0 <= v <= 1023) (lightValues l) ∧ Light.read_ok (analogInput l) = true.

#[export] Instance light_laws :
  PollingLaws LightThread A (λ _, light_inv) (λ a, Light.read_ok a = true) (λ _, True).
Proof.
  split; [repeat constructor|by intros n l a (H1 & H2 & _)|].
  intros n [a values] flags (Hl & Hf & Hr) _. cbn [analogInput lightValues] in *.
  cbn [loop_iterate light_loop]. unfold Light.doSensorRead. cbn [analogInput lightValues].
  pose proof Hr as Hr'. unfold Light.read_ok in Hr'. rewrite andb_true_iff, !Z.leb_le in Hr'.
  destruct (Z.ltb_spec (readAnalog a 0) 0), (Z.ltb_spec (readAnalog a 1) 0); try lia. cbn [orb res_bind].
  eexists. split; [done|]. split_and!; cbn [lightValues analogInput]; [| |done].
  - unfold Light.trim, Light.maxLightValuesSize in *. rewrite length_app, length_drop. cbn. lia.
  - apply Forall_app. split; [by apply Forall_drop|]. apply Forall_singleton.
    pose proof (analog_range a 0). pose proof (analog_range a 1).
    rewrite Z.quot_div_nonneg by lia. split; [apply Z.div_pos; lia|]. apply Z.div_le_upper_bound; lia.
Qed.

#[export] Instance light_thread_laws :
  ThreadLaws LightThread A (λ _, light_inv) (λ a, Light.read_ok a = true) light_inv.
Proof. split; [by repeat constructor|by intros l a (H1 & H2 & _)|eauto|eauto]. Qed.
End light.
Arguments LightThread A : clear implicits.

(** ** The LED strip *)

Definition pinDATA : Z := 21.
Definition pinCLK : Z := 20.

Definition ledStripFastTick : TimerTickService := new_service TimerTick.millisPerTick true ServiceCv.

(** [ledStrip1secTick], [ledStrip10secTick] and [ledStrip1minTick] *)
Definition strip_slow_ticks : list TimerTickService :=
  (λ i, new_service i true ServiceBool) <$> [1000; 10000; 60000].

Section strip.
Variable engine : nat → Z.

Definition strip_iterate (flags : list bool) (d : LedStrip) : res LedStrip :=
  let flag (i : nat) := default false (flags !! i) in
  match LedStrip.iteration engine None (flag 0%nat) (flag 1%nat) (flag 2%nat) d with
  | Some d => Ok d
  | None => Throw (Undefined "the loop was left")
  end.

#[local] Instance strip_loop : PollingLoop LedStrip StringMap := {|
  loop_services := (ledStripFastTick, strip_slow_ticks);
  loop_iterate := strip_iterate;
  loop_post := LedStrip.enqueueMsgModePost;
|}.

(** The driver, on the transport of the strip if there is one. *)
Definition strip_driver (spi alloc : bool) : res LPD8806 :=
  if spi then new_spi alloc LedStrip.numberOfLeds
  else let! (_, s) := new_bitbang alloc LedStrip.numberOfLeds pinDATA pinCLK in Ok s.

(** The driver and the component come after the registrations. *)
Definition strip_thread_begin (spi alloc : bool) (st : LedStrip.Statics) (n : nat) (d : LedStrip)
    : res LedStrip :=
  let! s := strip_driver spi alloc in
  Ok (LedStrip.mkLedStrip (LedStrip.ledStripTodos d) (Some (LedStrip.LedStripInternal_new engine s st n))).

Definition strip_begin (spi alloc : bool) (st : LedStrip.Statics) (n : nat) (t : TimerTick) (d : LedStrip)
    : res (list Z * TimerTick * LedStrip) :=
  let! (ps, t) := enter (all_services (D := LedStrip)) t in
  let! d := strip_thread_begin spi alloc st n d in Ok (ps, t, d).

(** The component is deleted, the services leave the table, and the driver
    goes with the stack. *)
Definition strip_end (ps : list Z) (t : TimerTick) (d : LedStrip)
    : res (TimerTick * option LedStripInternalInfo * LedStrip) :=
  let '(last, d) := LedStrip.thread_exit d in
  let t := leave ps t in
  match last with
  | Some i => let! _ := destroy (lpd8806 i) in Ok (t, last, d)
  | None => Ok (t, last, d)
  end.

Definition strip_inv (n : Z) (d : LedStrip) : Prop :=
  ∃ i, LedStrip.internal d = Some i ∧ led_ok i.

Lemma strip_iterate_events flags d i :
  LedStrip.internal d = Some i →
  ∃ evs d', strip_iterate flags d = Ok d' ∧ LedStrip.internal d' = Some (led_run engine i evs).
Proof.
  intros E. unfold strip_iterate, LedStrip.iteration, LedStrip.checkTodoList, dequeueLedStripTodo.
  set (f0 := default false (flags !! 0%nat)). set (f1 := default false (flags !! 1%nat)).
  set (f2 := default false (flags !! 2%nat)).
  exists ((EPost <$> option_list (head (LedStrip.ledStripTodos d))) ++ EFast ::
          (if f0 then [ESec] else []) ++ (if f1 then [ETenSec] else []) ++ (if f2 then [EMin] else [])).
  eexists. split; [done|]. unfold led_run. rewrite !foldl_app.
  destruct d as [[|p todos] o]; cbn in *; subst o; by destruct f0, f1, f2.
Qed.

(** Deletion sees the strip the way every request does: it stays allocated. *)
#[local] Instance strip_laws :
  PollingLaws LedStrip StringMap strip_inv (λ _, True) (λ _, True).
Proof.
  split.
  - repeat constructor.
  - intros n d p (i & E & Hi) _. by exists i.
  - intros n d flags (i & E & Hi) _.
    destruct (strip_iterate_events flags d i E) as (evs & d' & Ed & Ei). exists d'. split; [exact Ed|].
    exists (led_run engine i evs). split; [done|]. by apply led_run_ok.
Qed.

Lemma strip_driver_ok spi :
  ∃ s, strip_driver spi true = Ok s ∧ wf s ∧ numLEDs s = LedStrip.numberOfLeds.
Proof.
  destruct spi; cbn; eexists; (split; [reflexivity|]); split; try reflexivity;
    (unfold wf; split_and!; cbn; try lia; try done; apply (replicate_off_wf 720)).
Qed.

Lemma deleted_ok i :
  led_ok i → dark (LedStrip.LedStripInternal_delete i) ∧
  ∃ s, destroy (lpd8806 (LedStrip.LedStripInternal_delete i)) = Ok s.
Proof.
  intros Hi. split; [by apply clear_show_dark|].
  destruct (leads_clear i Hi) as [[(Hn & Hlen & _) Hsz _ _] _].
  change (lpd8806 (LedStrip.LedStripInternal_delete i)) with (lpd8806 (clearPixelColorsAndShow i)).
  unfold destroy, updateLength. destruct (pixels _); cbn in *; eauto.
  unfold BYTES_PER_LED in Hlen. lia.
Qed.

(** What follows the loop, but for the services. *)
Definition strip_thread_end (d : LedStrip) : res LedStrip :=
  let '(last, d) := LedStrip.thread_exit d in
  match last with Some i => let! _ := destroy (lpd8806 i) in Ok d | None => Ok d end.

Lemma strip_begin_ok spi st n d :
  LedStrip.statics_ok LedStrip.numberOfLeds st →
  ∃ d', strip_thread_begin spi true st n d = Ok d' ∧ strip_inv 0 d' ∧
    LedStrip.ledStripTodos d' = LedStrip.ledStripTodos d.
Proof.
  intros Hst. destruct (strip_driver_ok spi) as (s & Es & Hs & Hn). unfold strip_thread_begin. rewrite Es.
  eexists. split; [done|]. split; [|done]. exists (LedStrip.LedStripInternal_new engine s st n). split; [done|].
  apply internal_new_ok; [done|rewrite Hn; unfold LedStrip.numberOfLeds; lia|by rewrite Hn].
Qed.

Lemma strip_end_ok n d : strip_inv n d → ∃ d', strip_thread_end d = Ok d'.
Proof.
  intros (i & Ei & Hi). destruct (deleted_ok i Hi) as (_ & s & Es).
  unfold strip_thread_end, LedStrip.thread_exit. rewrite Ei. cbn [fmap option_fmap option_map].
  rewrite Es. by eexists.
Qed.

Definition strip_ends (spi : bool) (st : LedStrip.Statics) (n : nat) : ThreadEnds LedStrip := {|
  thread_begin := strip_thread_begin spi true st n;
  thread_end := strip_thread_end;
|}.

Lemma strip_thread_laws spi st n :
  LedStrip.statics_ok LedStrip.numberOfLeds st →
  ThreadLaws (H0 := strip_ends spi st n) LedStrip StringMap strip_inv (λ _, True) (λ _, True).
Proof.
  intros Hst. split; [|done| |].
  - repeat (constructor; [split; [done|by (left + right)]|]). constructor.
  - intros d _. destruct (strip_begin_ok spi st n d Hst) as (d' & E & Hd & _). by exists d'.
  - intros k d Hd. destruct (strip_end_ok k d Hd) as [d' E]. by exists d'.
Qed.

End strip.

(** ** The dictionary *)

Definition dictionaryLoop_service : TimerTickService :=
  new_service 12345 true (ServiceMessage threadIdDictionary false).

(** The dictionary holds the timer its loop registers with. *)
Definition dictionary_begin (w : Dictionary TimerTick) : res (list Z * Dictionary TimerTick) :=
  let! (ps, t) := enter [dictionaryLoop_service] (timers w) in
  Ok (ps, mkDictionary (dictionaryEntries w) (dictionaryStatus w) t).

(** One iteration, from the wait for a message; [None] while there is none,
    and the flag says that the loop goes on. *)
Definition dictionary_iteration (w : Dictionary TimerTick) (reg : InboxRegistry)
    : option (bool * Dictionary TimerTick * InboxRegistry) :=
  let '(ib, reg) := getInbox threadIdDictionary reg in
  '(msg, ib) ← waitForMessage ib;
  '(goes_on, w) ← handle_message msg w;
  Some (goes_on, w, <[threadIdDictionary := ib]> reg).

Definition dictionary_end (ps : list Z) (w : Dictionary TimerTick) (reg : InboxRegistry)
    : Dictionary TimerTick * InboxRegistry :=
  let '(ib, reg) := getInbox threadIdDictionary reg in
  (mkDictionary (dictionaryEntries w) (dictionaryStatus w) (leave ps (timers w)),
   <[threadIdDictionary := Inbox.clear ib]> reg).

(** ** The loops in the system *)

(** The head is that of the system's thread. *)
Lemma poll_is_head i t s :
  worker i → waits_for_tick i = true → clears_inbox i = false → threads s !! i = Some t →
  state t = Ready → is_Some (registry s !! i) →
  loop_head i s =
    let '(leaves, reg) := poll i (registry s) in
    Some (set_thread i (mkThread (if leaves then Exited else Busy) (woken t)) (set_registry reg s)).
Proof.
  intros Hw Hwt Hc E Et [ib Er]. unfold loop_head, poll, getInbox, getMessage. rewrite E, Er.
  cbn [mbind option_bind]. rewrite Et, Hwt, Hc. destruct (pop ib) as [[m ib']|].
  - rewrite andb_false_r. unfold is_terminate. cbn [andb]. done.
  - cbn [andb]. rewrite insert_id by done. by destruct s.
Qed.

(** A reading of the motion sensor posts at most one message, and none that
    ends a thread. *)
Lemma motion_posts `{GpioDevice G} (m m' : MotionThread G) :
  motion_check m = Ok m' →
  ∃ posts, motion_inboxes m' = foldl (do_post threadIdMotionSensor) (motion_inboxes m) posts ∧
    forallb (λ p, negb (is_terminate (post_msg p))) posts = true ∧ (length posts <= 1)%nat.
Proof.
  destruct m as [g i reg]. unfold motion_check, Motion.checkMotionSensor. cbn.
  destruct (Motion.readMotionDetected _ _) as [[d g1]|]; [|done]. cbn [res_bind]. unfold Motion.update.
  destruct (bool_decide (Motion.currMotionDetected i = d)).
  - intros E. exists []. split; [|split; [done|simpl; lia]].
    repeat (destruct (_ <? _) in E); by injection E as <-.
  - intros [= <-]. exists [Broadcast (Motion.notifyMotionSensorChange
      (Motion.mkMotionInfo d (Motion.lastChangedSec i) (Motion.lastChangedMin i) (Motion.lastChangedHour i)))].
    split; [done|]. split; [by destruct d|done].
Qed.

(** ** Witnesses *)

Definition demo_strip_thread : list (PollingEvent StringMap) :=
  let pass := Timer (λ _, true) in
  [Request [(ledStripParamLedStripMode, "1")]; pass; pass; Iterate; pass; pass; Iterate].

Example demo_strip_runs :
  match strip_begin (λ _, 7) true true initial_statics 0 TimerTick_new (mkLedStrip [] None) with
  | Ok (ps, t, d) =>
      match polling_run (H := strip_loop (λ _, 7)) ps demo_strip_thread t d with
      | Some (Ok (t, d)) =>
          match strip_end ps t d with
          | Ok (t, _, d) => objects t = ∅ ∧ ledStripTodos d = []
          | _ => False
          end
      | _ => False
      end
  | Throw _ => False
  end.
Proof. vm_compute. split; reflexivity. Qed.

