(* ===== verification/ClockThreads.v ===== *)
(** * The clock's polling threads together: src/src/display.cpp,
      src/src/ledStrip.cpp, src/src/motionSensor.cpp, src/src/lightSensor.cpp

    The display, the LED strip, the motion and the light sensor as one system in
    the sense of ThreadSystem.v: with their starts and ends, over one timer
    that other clients use as well. *)
From stdpp Require Import finite functions.
From S2P Require Import Prelude StdMap CLib CommonUtils Gpio System Gpiod WiringPi Inbox TimerTick Services.
From S2P Require Import Lpd8806 Sensors Dictionary LedStrip Ht1632 DisplayTypes DisplayState.
From S2P Require Import DisplayInternal Display DisplayProofs DisplayProps DisplayThread Main Threads ThreadSystem.

Inductive ClockThread := TDisplay | TStrip | TMotion | TLight.
#[export] Instance ClockThread_eq_dec : EqDecision ClockThread.
Proof. solve_decision. Defined.
#[export] Program Instance ClockThread_finite : Finite ClockThread := {|
  enum := [TDisplay; TStrip; TMotion; TLight];
|}.
Next Obligation. repeat constructor; set_solver. Qed.
Next Obligation. intros []; set_solver. Qed.

Section clock.
Context {W : Type} `{DisplayWorld W} {G : Type} `{QuietDevice G} {A : Type} `{AnalogInput A}.
Variables (engine : nat → Z) (spi : bool) (burst : option (line → Z)) (garbage : list Z) (world : W)
  (statics : LedStrip.Statics) (drawn_colors : nat).

(** What a component is, and what other threads and the devices hand to it. *)
Definition Component (i : ClockThread) : Type :=
  match i with
  | TDisplay => Display W
  | TStrip => LedStrip
  | TMotion => MotionThread G
  | TLight => LightThread A
  end.

Definition Handed (i : ClockThread) : Type :=
  match i with
  | TDisplay => DisplayTodoType * StringMap
  | TStrip => StringMap
  | TMotion => G * InboxRegistry
  | TLight => A
  end.

#[export] Instance clock_loop i : PollingLoop (Component i) (Handed i) :=
  match i with
  | TDisplay => display_loop
  | TStrip => strip_loop engine
  | TMotion => motion_loop
  | TLight => light_loop
  end.

#[export] Instance clock_ends i : ThreadEnds (Component i) :=
  match i with
  | TDisplay => display_ends burst garbage world
  | TStrip => strip_ends engine spi statics drawn_colors
  | TMotion => motion_ends
  | TLight => light_ends
  end.

(** What each component keeps while its thread runs, after [n] iterations, and
    before and after. *)
Definition clock_inv (i : ClockThread) : Z → Component i → Prop :=
  match i with
  | TDisplay => display_inv
  | TStrip => strip_inv
  | TMotion => λ _ m, motion_inv (motionInfo m)
  | TLight => λ _, light_inv
  end.

Definition clock_idle (i : ClockThread) : Component i → Prop :=
  match i with
  | TDisplay => λ d, Forall todo_in_range (displayTodos d)
  | TStrip => λ _, True
  | TMotion => λ m, motion_inv (motionInfo m)
  | TLight => light_inv
  end.

Definition handed_ok (i : ClockThread) : Handed i → Prop :=
  match i with
  | TDisplay => todo_in_range
  | TStrip => λ _, True
  | TMotion => λ _, True
  | TLight => λ a, Light.read_ok a = true
  end.

Definition clock_within (i : ClockThread) (n : Z) : Prop := i = TDisplay → n <= 2 ^ 30 - 2.

Hypothesis garbage_ok : buffer_ok garbage.
Hypothesis statics_in_range : LedStrip.statics_ok LedStrip.numberOfLeds statics.

Lemma PollingLaws_weaken {D X} `{PollingLoop D X} inv post_ok (within within' : Z → Prop) :
  PollingLaws D X inv post_ok within → (∀ n, within' n → within n) → PollingLaws D X inv post_ok within'.
Proof. intros [L1 L2 L3] Hw. split; eauto. Qed.

#[local] Instance clock_laws i : PollingLaws (Component i) (Handed i) (clock_inv i) (handed_ok i) (clock_within i).
Proof.
  destruct i; cbn.
  - eapply PollingLaws_weaken; [apply display_loop_laws|]. intros n Hn. by apply Hn.
  - eapply PollingLaws_weaken; [apply strip_laws|done].
  - eapply PollingLaws_weaken; [apply motion_laws|done].
  - eapply PollingLaws_weaken; [apply light_laws|done].
Qed.

#[local] Instance clock_thread_laws i :
  ThreadLaws (Component i) (Handed i) (clock_inv i) (handed_ok i) (clock_idle i).
Proof.
  destruct i; [by apply display_thread_laws|by apply strip_thread_laws| |].
  - apply motion_thread_laws.
  - apply light_thread_laws.
Qed.

End clock.

(** ** Witness *)

(** wiringPi's backend is one that never throws. *)
#[local] Existing Instance WiringPiGpio.device.

#[export] Instance wiringPi_quiet {P} `{WiringPi P} : QuietDevice P.
Proof. by split. Qed.

(** A wiringPi of which only the levels matter. *)
#[local] Instance levels_wiringPi : WiringPi Z := {|
  wiringPiSetupGpio levels := (0, levels);
  pinMode _ _ levels := levels;
  digitalWrite pin v levels := if v =? HIGH then Z.setbit levels pin else Z.clearbit levels pin;
  digitalRead pin levels := (b2z (Z.testbit levels pin), levels);
  delay _ levels := levels;
|}.

Definition demo_components (i : ClockThread) : Component (W := Surroundings TimerTick) (G := Z) (A := ()) i :=
  match i with
  | TDisplay => Display_new
  | TStrip => LedStrip.mkLedStrip [] None
  | TMotion => mkMotionThread 0 Motion.initial ∅
  | TLight => mkLightThread () []
  end.

(** The threads start one after another while a client of the timer comes and
    goes; a message is posted and somebody moves; they end in another order. *)
Definition demo_clock : list (ThreadEvent (Handed (G := Z) (A := ()))) :=
  let pass := TimerPass (λ _, true) in
  [Start TDisplay; Client (ClientNew 1000 (new_service 100 false ServiceBool)); Start TMotion;
   Client (ClientRegister 1000 true);
   Ask TDisplay (displayTodoTypeHandleMsgModePost, [("msg", "hello")]); pass; Start TStrip; pass;
   Loop TDisplay; Start TLight; Ask TMotion (2 ^ 10, ∅); pass; pass; Loop TStrip; Loop TDisplay]
  ++ replicate 84 pass ++
  [Loop TLight; Loop TMotion; Stop TStrip; Client (ClientUnregister 1000); Loop TDisplay; Stop TMotion;
   Stop TDisplay; Client (ClientDelete 1000); pass; Stop TLight].

#[local] Abbreviation demo_clock_run :=
  (threads_run (L := clock_loop (λ _, 7))
    (H0 := clock_ends (W := Surroundings TimerTick) (G := Z) (A := ()) (λ _, 7) true None demo_garbage
             demo_surroundings LedStrip.initial_statics 0%nat)
    demo_clock (all_idle TimerTick_new demo_components)).

Example demo_clock_ends :
  match demo_clock_run with
  | Some (Ok s) =>
      objects (timer s) = ∅ ∧ nextTimerTickId (timer s) = 17 ∧
      Motion.currMotionDetected (motionInfo (data s TMotion)) = true ∧ lightValues (data s TLight) = [512]
  | _ => False
  end.
Proof. vm_compute. done. Qed.

Lemma demo_garbage_ok : buffer_ok demo_garbage.
Proof. apply length_replicate. Qed.

Lemma demo_hello_ok : todo_in_range (displayTodoTypeHandleMsgModePost, [("msg", "hello")]).
Proof. concrete_in_range. Qed.

Lemma demo_clock_runs : ∃ r, demo_clock_run = Some r.
Proof.
  assert (bool_decide (is_Some demo_clock_run) = true) as Hr by (vm_compute; reflexivity).
  by apply bool_decide_eq_true in Hr.
Qed.

Lemma demo_idle i : clock_idle i (demo_components i).
Proof.
  destruct i; [constructor|exact I|split_and!; vm_compute; discriminate|].
  split; [repeat constructor|split; [constructor|reflexivity]].
Qed.

Lemma demo_next : 0 < nextTimerTickId TimerTick_new.
Proof. reflexivity. Qed.

Lemma demo_ids : nextTimerTickId TimerTick_new +
  ids (D := Component (W := Surroundings TimerTick)) (L := clock_loop (λ _, 7)) demo_clock < 2 ^ 64.
Proof. vm_compute. reflexivity. Qed.

Lemma demo_loops : loops TDisplay demo_clock < 2 ^ 30 - 2.
Proof. vm_compute. reflexivity. Qed.

Lemma demo_clock_handed : Forall (event_ok handed_ok) demo_clock.
Proof.
  unfold demo_clock. repeat (apply Forall_cons; split; [first [exact I|exact demo_hello_ok]|]).
  constructor.
Qed.

