(* ===== verification/Singletons.v ===== *)
(** * The instances of the components and their main threads: [bind],
      [shutdown] and [registerMainThread] of src/src/display.cpp,
      ledStrip.cpp, motionSensor.cpp, lightSensor.cpp, dictionary.cpp,
      mqttClient.cpp and inbox.cpp, and the entry points of the threads

    Every component is a class with one instance behind a static pointer, made
    by the first [bind] and deleted by [shutdown], and a static thread id that
    the first caller of [registerMainThread] keeps for good. *)
From S2P Require Import Prelude StdMap CLib Inbox TimerTick Services Sensors Dictionary StatusReport.
From S2P Require Import LedStrip DisplayTypes DisplayState Display Mqtt Threads.

(** The static members of a component with objects of type [T]. *)
Record Statics (T : Type) := mkStatics {
  instance : option T;
  mainThreadId : option Z;
}.
Arguments mkStatics {T}.
Arguments instance {T}.
Arguments mainThreadId {T}.

Definition never_used {T} : Statics T := mkStatics None None.

(** What a class makes of itself in [bind], and of its instance in [shutdown]
    before it is deleted. *)
Class Component (T : Type) := {
  construct : T;
  dispose : T → T;
}.

(** What the class says to a second thread that registers itself. *)
Class MainThread (T : Type) := double_register : string.

Section component.
Context {T : Type} `{Component T} `{MainThread T}.
Implicit Types s : Statics T.

Definition bind s : T * Statics T :=
  let i := default construct (instance s) in (i, mkStatics (Some i) (mainThreadId s)).

(** The instance as it is deleted, if there is one. *)
Definition shutdown s : option T * Statics T :=
  (dispose <$> instance s, mkStatics None (mainThreadId s)).

Definition registerMainThread (caller : Z) s : res (Statics T) :=
  match mainThreadId s with
  | Some t => if t =? caller then Ok s else Throw (RuntimeError double_register)
  | None => Ok (mkStatics (instance s) (Some caller))
  end.

(** A thread's entry point up to [runThreadLoop]. *)
Definition thread_main (caller : Z) s : res (T * Statics T) :=
  let! s := registerMainThread caller s in Ok (bind s).

(** Calls of the statics, in any order and from any threads. *)
Inductive StaticCall := Bind | Shutdown | Main (caller : Z).

Definition static_call (c : StaticCall) s : res (Statics T) :=
  match c with
  | Bind => Ok (bind s).2
  | Shutdown => Ok (shutdown s).2
  | Main caller => let! (_, s) := thread_main caller s in Ok s
  end.

Definition static_calls (cs : list StaticCall) s : res (Statics T) :=
  foldl (λ r c, let! s := r in static_call c s) (Ok s) cs.

Lemma static_calls_throw cs e : foldl (λ r c, let! s := r in static_call c s) (Throw e) cs = Throw e.
Proof. by induction cs. Qed.

Lemma static_calls_cons c cs s s' :
  static_calls (c :: cs) s = Ok s' → ∃ s1, static_call c s = Ok s1 ∧ static_calls cs s1 = Ok s'.
Proof.
  unfold static_calls. cbn. destruct (static_call c s) as [s1|e]; [by exists s1|].
  by rewrite static_calls_throw.
Qed.

(** One thread at most gets past its registration, whatever is created and
    deleted in between. *)
Lemma one_main_thread cs s s' t :
  mainThreadId s = Some t → static_calls cs s = Ok s' →
  mainThreadId s' = Some t ∧ Forall (λ c, match c with Main caller => caller = t | _ => True end) cs.
Proof.
  revert s. induction cs as [|c cs IH]; intros s Hs E; [by injection E as <-|].
  apply static_calls_cons in E as (s1 & E1 & E).
  assert (mainThreadId s1 = Some t ∧ match c with Main caller => caller = t | _ => True end) as [H1 Hc].
  { destruct c as [| |caller]; cbn in E1; [by injection E1 as <-..|].
    unfold thread_main, registerMainThread in E1. rewrite Hs in E1.
    destruct (Z.eqb_spec t caller) as [<-|]; [|done]. injection E1 as <-. done. }
  destruct (IH s1 H1 E) as [G1 G2]. split; [done|by constructor].
Qed.

(** [bind] makes at most one object; what it gives stays the same until a
    [shutdown], after which it is a new one. *)
Lemma bind_again s : bind (bind s).2 = bind s.
Proof. by destruct s as [[i|] m]. Qed.

Lemma bind_after_shutdown s : (bind (shutdown s).2).1 = construct.
Proof. done. Qed.
End component.

(** ** The components *)

#[export] Instance Display_component {W} : Component (Display W) := {|
  construct := Display_new;
  dispose d := mkDisplayThread [] (Display.internal d);
|}.
#[export] Instance Display_main {W} : MainThread (Display W) :=
  "double register or invalid main thread".

Definition LedStrip_new : LedStrip := mkLedStrip [] None.
#[export] Instance LedStrip_component : Component LedStrip := {|
  construct := LedStrip_new;
  dispose s := mkLedStrip [] (LedStrip.internal s);
|}.
#[export] Instance LedStrip_main : MainThread LedStrip :=
  "double register or invalid main thread".

#[export] Instance MotionSensor_component : Component Motion.MotionInfo := {|
  construct := Motion.initial;
  dispose m := m;
|}.
#[export] Instance MotionSensor_main : MainThread Motion.MotionInfo :=
  "double register or invalid main timer thread".

(** The deque of the light sensor's last values. *)
#[export] Instance LightSensor_component : Component (list Z) := {|
  construct := [];
  dispose _ := [];
|}.
#[export] Instance LightSensor_main : MainThread (list Z) :=
  "double register or invalid main timer thread".

(** The dictionary's entries go with their timers; [t] is the timer of the
    process. *)
#[export] Instance Dictionary_component `{TimerService T} (t : T) : Component (Dictionary T) := {|
  construct := Dictionary_new t;
  dispose := Dictionary.clear;
|}.
#[export] Instance Dictionary_main {T} : MainThread (Dictionary T) :=
  "double register or invalid main timer thread".

(** [assert(dictionaryEntries.empty())] of the destructor. *)
Lemma dictionary_assert `{TimerService T} (t : T) (s : Statics (Dictionary T)) w :
  (shutdown (H := Dictionary_component t) s).1 = Some w → Dictionary.empty w = true.
Proof. destruct s as [[i|] m]; [|done]. cbn. by intros [= <-]. Qed.

#[export] Instance MqttClient_component : Component MqttClientInfo := {|
  construct := Mqtt.MqttClient_new;
  dispose i := i;
|}.
#[export] Instance MqttClient_main : MainThread MqttClientInfo :=
  "double register or invalid main timer thread".

(** [MqttClient::getMqttClientInfo] *)
Definition getMqttClientInfo (i : MqttClientInfo) : bool * MqttClientInfo := (mqttBrokerConnected i, i).

(** [if (mqttClientOpaque != instance) return;]: a callback of libmosquitto does
    nothing once its client is gone. *)
Definition on_instance (f : MqttClientInfo → MqttClientInfo) (s : Statics MqttClientInfo)
    : Statics MqttClientInfo := mkStatics (f <$> instance s) (mainThreadId s).

#[export] Instance InboxRegistry_component : Component InboxRegistry := {|
  construct := ∅;
  dispose := Inbox.shutdown;
|}.

(** ** The registrations and the entry points of the threads *)

Definition Display_registerMainThread {W} : Z → Statics (Display W) → res (Statics (Display W)) :=
  registerMainThread.
Definition LedStrip_registerMainThread : Z → Statics LedStrip → res (Statics LedStrip) :=
  registerMainThread.
Definition MotionSensor_registerMainThread :
    Z → Statics Motion.MotionInfo → res (Statics Motion.MotionInfo) := registerMainThread.
Definition LightSensor_registerMainThread : Z → Statics (list Z) → res (Statics (list Z)) :=
  registerMainThread.
Definition Dictionary_registerMainThread {T} :
    Z → Statics (Dictionary T) → res (Statics (Dictionary T)) :=
  registerMainThread.
Definition MqttClient_registerMainThread :
    Z → Statics MqttClientInfo → res (Statics MqttClientInfo) := registerMainThread.

Definition displayMain {W} (caller : Z) : Statics (Display W) → res (Display W * Statics (Display W)) :=
  thread_main caller.
Definition ledStripMain (caller : Z) : Statics LedStrip → res (LedStrip * Statics LedStrip) :=
  thread_main caller.
Definition motionSensorMain (caller : Z) :
    Statics Motion.MotionInfo → res (Motion.MotionInfo * Statics Motion.MotionInfo) := thread_main caller.
Definition lightSensorMain (caller : Z) : Statics (list Z) → res (list Z * Statics (list Z)) :=
  thread_main caller.
Definition dictionaryMain `{TimerService T} (t : T) (caller : Z) :
    Statics (Dictionary T) → res (Dictionary T * Statics (Dictionary T)) :=
  thread_main (H := Dictionary_component t) caller.
Definition mqttClientMain (caller : Z) :
    Statics MqttClientInfo → res (MqttClientInfo * Statics MqttClientInfo) := thread_main caller.
