(* ===== verification/HardwareGates.v ===== *)
(** * The hardware gates: src/misc/junk/wiringpi-migration

    Four programs that were run on the target, each beside the clock's own
    drivers: phase5Lpd8806AllOff.cpp and phase5Lpd8806Colors.cpp send frames to
    the strip over SPI, phase5Ht1632Render.cpp draws on the matrix and times its
    renders, phase5Mcp3002Read.cpp reads both analog channels. A program is a
    [Method] of System.v over the device it drives and what it printed; its
    result is main's. The clock and the sleeps are the host's.

    What a program sent is followed by a triple: however it ends, its device is
    as if the events had been played on it one after the other. *)
From S2P Require Import Prelude CLib Gpio System Lpd8806 Spi Sensors Ht1632.

(** ** The programs' surroundings *)

(** [std::chrono::steady_clock::now], in nanoseconds, and
    [std::this_thread::sleep_for], in milliseconds. *)
Class Host (W : Type) := {
  steady_now : W → Z * W;
  sleep_for : Z → W → W;
}.

(** The device the program made, null or not, and its standard output. *)
Record Gate (D : Type) := mkGate {
  device : option D;
  stdout_ : list string;
}.
Arguments mkGate {D} device stdout_.
Arguments device {D}.
Arguments stdout_ {D}.

Definition nl : string := String (chr 10) EmptyString.

Section host.
Context {D W : Type} `{Host W}.
Definition Prog : Type → Type := Method (Gate D) W.

Definition start_env (created : option D) (w : W) : Env (Gate D) W :=
  mkEnv (mkGate created []) (w, []) [].

Definition print_stdout (text : string) : Prog () :=
  modify (λ g, mkGate (device g) (stdout_ g ++ [text])).

Definition sleep (ms : Z) : Prog () := call (λ w, (tt, sleep_for ms w)).

(** A call of the device; a null pointer is not to be followed. *)
Definition on_device {A} (f : D → res A * D) : Prog A := λ e,
  match device (object e) with
  | Some d =>
      let '(r, d) := f d in (r, set_object (mkGate (Some d) (stdout_ (object e))) e)
  | None => (Throw (Undefined "a null device"), e)
  end.

(** [!device.get() || !device->initialize()] *)
Definition not_ready (init : D → res bool * D) : Prog bool :=
  d ← gets device;
  match d with
  | None => mret true
  | Some _ => ok ← on_device init; mret (negb ok)
  end.

(** Two readings of the clock around [m], in microseconds. *)
Definition timed {A} (m : Prog A) : Prog (A * Z) :=
  start ← call steady_now;
  a ← m;
  finish ← call steady_now;
  mret (a, Z.quot (finish - start) 1000).

(** main: the arguments, and the handler around everything else. *)
Definition gate_main (argc : Z) (argv0 failed : string) (body : Prog Z) : Prog Z :=
  if negb (argc =? 1) then
    print_stderr ("usage: " +:+ argv0 +:+ nl);; mret 2
  else
    try_catch body (λ error, print_stderr (failed +:+ error +:+ nl);; mret 1).

Definition fails (text : string) : Prog Z := print_stderr (text +:+ nl);; mret 1.
End host.
Arguments Prog D W A : clear implicits.

Definition line_of (name : string) (v : Z) : string := name +:+ "=" +:+ print_int v +:+ nl.

(** ** The strip *)

Definition ledCount : Z := 240.
Definition bytesPerLed : Z := 3.
Definition dataBytes : Z := ledCount * bytesPerLed.
Definition latchBytes : Z := (ledCount + 31) / 32.
Definition halfBrightness : Z := 0x3F.
Definition holdMilliseconds : Z := 3000.

Record Step := mkStep {
  step_name : string;
  step_r : Z;
  step_g : Z;
  step_b : Z;
  hold : bool;
}.

Definition steps : list Step :=
  [mkStep "red" halfBrightness 0 0 true;
   mkStep "green" 0 halfBrightness 0 true;
   mkStep "blue" 0 0 halfBrightness true;
   mkStep "off" 0 0 0 false].
Definition stepCount : Z := Z.of_nat (length steps).

Definition readbackMatches (strip : LPD8806) (step : Step) : bool :=
  let expected := Color (step_r step) (step_g step) (step_b step) in
  forallb (λ probe, getPixelColor probe strip =? Z.land expected 0x7f7f7f)
    [0; 1; ledCount / 2; ledCount - 1].

(** [for (pixel = 0; pixel < ledCount; ++pixel) strip.setPixelColor(...)] *)
Definition fill (step : Step) (strip : LPD8806) : LPD8806 :=
  for_range 0 ledCount
    (λ pixel strip, setPixelRGB pixel (step_r step) (step_g step) (step_b step) strip) strip.

Definition print_layout : list string :=
  [line_of "led_count" ledCount; line_of "data_bytes" dataBytes; line_of "latch_bytes" latchBytes;
   line_of "payload_bytes" (dataBytes + latchBytes); line_of "speed_hz" stripSpeedHz].

Section strip.
Context {D W : Type} `{SpiOutput D} `{Host W}.

(** [strip.show()] on the program's transport and fake GPIO. *)
Definition show_strip (strip : LPD8806) (gpio : FakeGpio.FakeGpio) : Prog D W (LPD8806 * FakeGpio.FakeGpio) :=
  let '(events, strip) := Lpd8806.show strip in
  match run_ops (pin_ops events) gpio with
  | Throw e => throw e
  | Ok gpio => on_device (play events);; mret (strip, gpio)
  end.

Definition make_strip (alloc : bool) : Prog D W LPD8806 :=
  match new_spi alloc ledCount with Ok strip => mret strip | Throw e => throw e end.

(** phase5Lpd8806AllOff.cpp *)
Definition alloff_body (alloc : bool) : Prog D W Z :=
  bad ← not_ready spi_initialize;
  if bad : bool then fails "all-off transfer: SPI output initialization failed"
  else
    strip ← make_strip alloc;
    shown ← timed (show_strip strip (FakeGpio.new false));
    let '(_, gpio, elapsedMicroseconds) := shown in
    if negb (bool_decide (FakeGpio.operationHistory gpio = [])) then
      fails "all-off transfer: unexpected GPIO operation"
    else
      print_stdout (String.concat EmptyString
        (print_layout ++ [line_of "elapsed_microseconds" elapsedMicroseconds]));;
      mret 0.

Definition alloff_main (argc : Z) (argv0 : string) (alloc : bool) : Prog D W Z :=
  gate_main argc argv0 "all-off transfer failed: " (alloff_body alloc).

(** phase5Lpd8806Colors.cpp: the steps from the given one on; [None] when the
    program is to end with status 1. *)
Fixpoint run_steps (l : list Step) (strip : LPD8806) (gpio : FakeGpio.FakeGpio)
    (maxElapsedMicroseconds : Z) : Prog D W (option (FakeGpio.FakeGpio * Z)) :=
  match l with
  | [] => mret (Some (gpio, maxElapsedMicroseconds))
  | step :: l =>
      let strip := fill step strip in
      if negb (readbackMatches strip step) then
        print_stderr ("color transfer: readback mismatch for " +:+ step_name step +:+ nl);; mret None
      else
        shown ← timed (show_strip strip gpio);
        let '(strip, gpio, elapsedMicroseconds) := shown in
        print_stdout (line_of ("frame_" +:+ step_name step +:+ "_microseconds") elapsedMicroseconds);;
        (if hold step then sleep holdMilliseconds else mret ());;
        run_steps l strip gpio
          (if maxElapsedMicroseconds <? elapsedMicroseconds then elapsedMicroseconds
           else maxElapsedMicroseconds)
  end.

Definition colors_body (alloc : bool) : Prog D W Z :=
  bad ← not_ready spi_initialize;
  if bad : bool then fails "color transfer: SPI output initialization failed"
  else
    strip ← make_strip alloc;
    print_stdout (String.concat EmptyString
      (print_layout ++ [line_of "brightness" halfBrightness; line_of "hold_milliseconds" holdMilliseconds;
                        "sequence=red,green,blue,off" +:+ nl]));;
    ran ← run_steps steps strip (FakeGpio.new false) 0;
    match ran with
    | None => mret 1
    | Some (gpio, maxElapsedMicroseconds) =>
        if negb (bool_decide (FakeGpio.operationHistory gpio = [])) then
          fails "color transfer: unexpected GPIO operation"
        else
          print_stdout (line_of "frames_sent" stepCount +:+
            line_of "max_frame_microseconds" maxElapsedMicroseconds +:+ "final_state=off" +:+ nl);;
          mret 0
    end.

Definition colors_main (argc : Z) (argv0 : string) (alloc : bool) : Prog D W Z :=
  gate_main argc argv0 "color transfer failed: " (colors_body alloc).
End strip.

(** ** The analog channels *)

Section analog.
Context {A W : Type} `{AnalogInput A} `{Host W}.

(** phase5Mcp3002Read.cpp *)
Definition mcp3002_body (init : A → res bool * A) : Prog A W Z :=
  bad ← not_ready init;
  if bad : bool then fails "MCP3002 read: IIO input initialization failed"
  else
    shown ← timed (channel0 ← on_device (λ a, (Ok (readAnalog a 0), a));
                   channel1 ← on_device (λ a, (Ok (readAnalog a 1), a));
                   mret (channel0, channel1));
    let '(channel0, channel1, elapsedMicroseconds) := shown in
    if (channel0 <? 0) || (channel1 <? 0) then fails "MCP3002 read: raw channel read failed"
    else
      print_stdout (line_of "channel0_raw" channel0 +:+ line_of "channel1_raw" channel1 +:+
        line_of "read_pair_elapsed_microseconds" elapsedMicroseconds);;
      mret 0.

Definition mcp3002_main (init : A → res bool * A) (argc : Z) (argv0 : string) : Prog A W Z :=
  gate_main argc argv0 "MCP3002 read failed: " (mcp3002_body init).
End analog.

(** ** The matrix *)

(** A GPIO backend as the matrix driver drives it: calls, and the burst path's
    stores, which cannot fail. *)
Class MatrixBus (G : Type) := {
  matrix_gpio :: GpioDevice G;
  matrix_initialize : G → res bool * G;
  matrix_store : Z → GpioValue → G → G;
}.

Fixpoint play_matrix {G} `{MatrixBus G} (events : list ht_event) (g : G) : res () * G :=
  match events with
  | [] => (Ok (), g)
  | Store mask v :: events => play_matrix events (matrix_store mask v g)
  | Ht1632.Call op :: events =>
      match run_op op g with Ok g => play_matrix events g | Throw e => (Throw e, g) end
  end.

(** [pinCS], [pinWR], [pinDATA], [pinCLK] *)
Definition gate_pins (l : line) : Z := match l with CS => 6 | WR => 13 | DATA => 19 | CLK => 26 end.
Definition BUFFER_BOARD (board_num : Z) : Z := board_num - 1.
Definition tickBudgetMicroseconds : Z := 12000.
Definition panelWidth : Z := OUT_SIZE.
Definition panelHeight : Z := COM_SIZE.
Definition stripePeriod : Z := 8.
Definition timedRenders : Z := 20.
Definition colorNames : list string := ["green"; "red"].

Definition drawStripes (phase : Z) (matrix : HT1632) : option HT1632 :=
  ofold (λ x matrix,
    let on := Z.rem (x + phase) stripePeriod =? 0 in
    ofold (λ y matrix, setPixel x y on matrix) (seqZ 0 panelHeight) matrix)
    (seqZ 0 panelWidth) matrix.

(** What is printed of the samples; there is at least one. *)
Record Samples := mkSamples {
  minimum : Z;
  maximum : Z;
  total : Z;
  withinBudget : Z;
}.

Definition add_sample (st : Samples) (value : Z) : Samples :=
  mkSamples (if value <? minimum st then value else minimum st)
    (if maximum st <? value then value else maximum st)
    (total st + value)
    (if value <=? tickBudgetMicroseconds then withinBudget st + 1 else withinBudget st).

Definition summary (samples : list Z) : Samples :=
  let first := default 0 (head samples) in
  foldl add_sample (mkSamples first first 0 0) samples.

Definition mean (samples : list Z) : Z :=
  Z.quot (total (summary samples)) (Z.of_nat (length samples)).

Section matrix.
Context {G W : Type} `{MatrixBus G} `{Host W}.

(** A method of the driver: what it sends reaches the pins, then it is done. *)
Definition drive (m : option (list ht_event * HT1632)) : Prog G W HT1632 :=
  match m with
  | Some (events, matrix) => on_device (play_matrix events);; mret matrix
  | None => throw (Undefined "matrix buffers")
  end.

Definition on_matrix (m : option HT1632) : Prog G W HT1632 := drive (pair [] <$> m).

Definition renderMicroseconds (matrix : HT1632) : Prog G W (HT1632 * Z) :=
  timed (drive (render matrix)).

Definition blankEverything (matrix : HT1632) : Prog G W HT1632 := drive (renderAll (clearAll matrix)).

(** The two boards, each shown its stripes for a while. *)
Fixpoint show_boards (l : list (Z * string)) (matrix : HT1632) : Prog G W HT1632 :=
  match l with
  | [] => mret matrix
  | (board, colorName) :: l =>
      matrix ← on_matrix (drawStripes 0 (clear (drawTarget (BUFFER_BOARD (board + 1)) matrix)));
      shown ← renderMicroseconds matrix;
      print_stdout (line_of ("frame_" +:+ colorName +:+ "_microseconds") shown.2);;
      sleep holdMilliseconds;;
      matrix ← drive (render (clear shown.1));
      show_boards l matrix
  end.

(** The timed renders with the numbers [l]. *)
Fixpoint time_renders (l : list Z) (matrix : HT1632) (samples : list Z) : Prog G W (HT1632 * list Z) :=
  match l with
  | [] => mret (matrix, samples)
  | i :: l =>
      matrix ← on_matrix (drawStripes (Z.rem i stripePeriod) (clear matrix));
      shown ← renderMicroseconds matrix;
      time_renders l shown.1 (samples ++ [shown.2])
  end.

(** phase5Ht1632Render.cpp: [burst] is what the backend grants and [garbage]
    what the driver's fresh buffers hold. *)
Definition render_body (burst : option (line → Z)) (garbage : list Z) : Prog G W Z :=
  bad ← not_ready matrix_initialize;
  if bad : bool then fails "ht1632 render: GPIO initialization failed"
  else
    matrix ← drive (Ht1632.begin gate_pins burst garbage HT1632_new);
    print_stdout (String.concat EmptyString
      [line_of "panel_width" panelWidth; line_of "panel_height" panelHeight;
       line_of "active_chips" NUM_ACTIVE_CHIPS; line_of "address_space" ADDR_SPACE_SIZE;
       line_of "tick_budget_microseconds" tickBudgetMicroseconds;
       line_of "stripe_period" stripePeriod; line_of "hold_milliseconds" holdMilliseconds;
       line_of "timed_renders" timedRenders; "sequence=green,red,benchmark,off" +:+ nl]);;
    matrix ← blankEverything matrix;
    matrix ← show_boards (zip (seqZ 0 NUM_COLORS) colorNames) matrix;
    timings ← time_renders (seqZ 0 timedRenders) (drawTarget (BUFFER_BOARD 1) matrix) [];
    let '(matrix, samples) := timings in
    blankEverything matrix;;
    print_stdout (String.concat EmptyString
      (imap (λ i value, line_of ("sample_" +:+ print_int (Z.of_nat i + 1) +:+ "_microseconds") value)
         samples));;
    print_stdout (String.concat EmptyString
      [line_of "valid_renders" (Z.of_nat (length samples));
       line_of "minimum_microseconds" (minimum (summary samples));
       line_of "maximum_microseconds" (maximum (summary samples));
       line_of "mean_microseconds" (mean samples);
       line_of "renders_within_budget" (withinBudget (summary samples));
       "final_state=off" +:+ nl]);;
    mret 0.

Definition render_main (burst : option (line → Z)) (garbage : list Z) (argc : Z) (argv0 : string)
    : Prog G W Z :=
  gate_main argc argv0 "ht1632 render failed: " (render_body burst garbage).
End matrix.

(** ** What a program sent *)

(** A device that plays events in order and stops at the first that fails. *)
Class Player (Ev D : Type) := {
  plays : list Ev → D → res () * D;
  plays_nil d : plays [] d = (Ok (), d);
  plays_app evs1 evs2 d :
    plays (evs1 ++ evs2) d =
    let '(r, d1) := plays evs1 d in match r with Ok _ => plays evs2 d1 | Throw x => (Throw x, d1) end;
}.

#[export] Program Instance spi_player {D} `{SpiOutput D} : Player bus_event D := {| plays := play |}.
Next Obligation. done. Qed.
Next Obligation.
  intros D HD evs1 evs2. induction evs1 as [|[op|p] evs1 IH]; intros d; cbn; [done|apply IH|].
  destruct (spi_transfer _ _ d) as [[|] d1]; [apply IH|done].
Qed.

#[export] Program Instance matrix_player {G} `{MatrixBus G} : Player ht_event G :=
  {| plays := play_matrix |}.
Next Obligation. done. Qed.
Next Obligation.
  intros G HG evs1 evs2. induction evs1 as [|[op|mask v] evs1 IH]; intros g; cbn; [done| |apply IH].
  destruct (run_op op g); [apply IH|done].
Qed.

Section sent.
Context {Ev D W : Type} `{Player Ev D} `{Host W}.
Implicit Types (e : Env (Gate D) W) (X : list Ev → Prop).

(** [m] leaves the device as if some events had been played on it: those [Q]
    admits with its result or, when an exception leaves it, which is the
    device's, those [X] admits. *)
Definition sent {A} (m : Prog D W A) (Q : A → list Ev → Prop) X : Prop :=
  ∀ e d, device (object e) = Some d →
  let '(r, e') := m e in
  ∃ evs, device (object e') = Some (plays evs d).2 ∧
    match r, (plays evs d).1 with
    | Ok a, Ok _ => Q a evs
    | Throw x, Throw x' => x = x' ∧ X evs
    | _, _ => False
    end.

Lemma sent_ret {A} (a : A) (Q : A → list Ev → Prop) X : Q a [] → sent (mret a) Q X.
Proof. intros HQ e d Hd. exists []. by rewrite plays_nil. Qed.

Lemma sent_bind {A B} (m : Prog D W A) (k : A → Prog D W B) Q Q' X :
  sent m Q X →
  (∀ a evs, Q a evs → sent (k a) (λ b evs', Q' b (evs ++ evs')) (λ evs', X (evs ++ evs'))) →
  sent (m ≫= k) Q' X.
Proof.
  intros Hm Hk e d Hd. specialize (Hm e d Hd). unfold mbind, Method_bind.
  destruct (m e) as [[a|x] e1]; destruct Hm as (evs & Hd1 & Hr); [|by exists evs].
  destruct (plays evs d) as [[[]|] d1] eqn:E; [|done]. specialize (Hk a evs Hr e1 d1 Hd1).
  destruct (k a e1) as [r e2]. destruct Hk as (evs' & Hd2 & Hr2). exists (evs ++ evs').
  rewrite plays_app, E. by split.
Qed.

Lemma sent_conseq {A} (m : Prog D W A) (Q Q' : A → list Ev → Prop) X X' :
  sent m Q X → (∀ a evs, Q a evs → Q' a evs) → (∀ evs, X evs → X' evs) → sent m Q' X'.
Proof.
  intros Hm HQ HX e d Hd. specialize (Hm e d Hd). destruct (m e) as [r e1].
  destruct Hm as (evs & Hd1 & Hr). exists evs. split; [done|].
  destruct r, (plays evs d).1; try done; [by apply HQ|]. destruct Hr as [-> Hr]. auto.
Qed.

(** A step that leaves the device alone. *)
Definition quiet {A} (m : Prog D W A) : Prop :=
  ∀ e, ∃ a e', m e = (Ok a, e') ∧ device (object e') = device (object e).

Lemma sent_quiet {A B} (m : Prog D W A) (k : A → Prog D W B) Q X :
  quiet m → (∀ a, sent (k a) Q X) → sent (m ≫= k) Q X.
Proof.
  intros Hm Hk e d Hd. destruct (Hm e) as (a & e1 & E & Hd1). unfold mbind, Method_bind. rewrite E.
  apply Hk. by rewrite Hd1.
Qed.

Lemma quiet_out t : quiet (print_stdout t). Proof. intros e. by eexists _, _. Qed.
Lemma quiet_err t : quiet (print_stderr t). Proof. intros e. by eexists _, _. Qed.
Lemma quiet_ret {A} (a : A) : quiet (mret a). Proof. intros e. by eexists _, _. Qed.
Lemma quiet_call {A} (f : W → A * W) : quiet (call f).
Proof. intros e. unfold call. destruct (f _). by eexists _, _. Qed.
Lemma quiet_sleep ms : quiet (sleep ms). Proof. apply quiet_call. Qed.

Lemma sent_events evs (Q : () → list Ev → Prop) X :
  Q () evs → X evs → sent (on_device (plays evs)) Q X.
Proof.
  intros HQ HX e d Hd. unfold on_device. rewrite Hd. destruct (plays evs d) as [[[]|x] d1] eqn:E;
    exists evs; by rewrite E.
Qed.

Lemma sent_timed {A} (m : Prog D W A) Q X : sent m Q X → sent (timed m) (λ r, Q r.1) X.
Proof.
  intros Hm. apply sent_quiet; [apply quiet_call|]. intros start.
  eapply sent_bind; [exact Hm|]. intros a evs Hr. apply sent_quiet; [apply quiet_call|]. intros finish.
  apply sent_ret. by rewrite app_nil_r.
Qed.

(** What failed does not go on. *)
Lemma plays_stop evs rest d : is_ok (plays evs d).1 = false → plays (evs ++ rest) d = plays evs d.
Proof. intros Hf. rewrite plays_app. by destruct (plays evs d) as [[|] ?]. Qed.

(** main's result for what the device answered in the end. *)
Definition ended (r : res ()) : res Z :=
  match r with
  | Ok _ => Ok 0
  | Throw x => match what_of x with Some _ => Ok 1 | None => Throw x end
  end.

(** A program that initializes its device and then sends [rest]: its result and
    its device are those of the events it sent. *)
Lemma gate_main_sent argv0 failed init broken (rest : Prog D W Z) (Y X : list Ev → Prop) d w :
  sent rest (λ r evs, r = 0 ∧ Y evs) X →
  let '(r, e) := gate_main 1 argv0 failed
    (bad ← not_ready init; if bad : bool then fails broken else rest) (start_env (Some d) w) in
  let '(ready, d1) := init d in
  match ready with
  | Ok true =>
      ∃ evs, device (object e) = Some (plays evs d1).2 ∧ r = ended (plays evs d1).1 ∧
        (if is_ok (plays evs d1).1 then Y evs else X evs)
  | Ok false => device (object e) = Some d1 ∧ r = Ok 1
  | Throw x => device (object e) = Some d1 ∧ r = ended (Throw x)
  end.
Proof.
  intros Hrest. unfold gate_main. cbn [Z.eqb negb]. unfold try_catch, not_ready, gets, mbind, Method_bind.
  cbn. unfold on_device. cbn. destruct (init d) as [[[]|x] d1]; cbn.
  - match goal with |- context [rest ?e0] => set (e := e0); specialize (Hrest e d1 eq_refl) end.
    destruct (rest e) as [[a|x] e1]; destruct Hrest as (evs & Hd & Hr);
      destruct (plays evs d1) as [[[]|x'] d2] eqn:E; try done.
    + destruct Hr as [-> HY]. exists evs. by rewrite E.
    + destruct Hr as [-> HX]. cbn. destruct (what_of x') eqn:Ew; exists evs; rewrite E; cbn; by rewrite Ew.
  - done.
  - by destruct (what_of x).
Qed.

(** The same for a program that sends [all]. *)
Lemma gate_main_sends argv0 failed init broken (rest : Prog D W Z) all d w :
  sent rest (λ r evs, r = 0 ∧ evs = all) (λ evs, evs `prefix_of` all) →
  let '(r, e) := gate_main 1 argv0 failed
    (bad ← not_ready init; if bad : bool then fails broken else rest) (start_env (Some d) w) in
  let '(ready, d1) := init d in
  match ready with
  | Ok true =>
      let '(answer, d2) := plays all d1 in device (object e) = Some d2 ∧ r = ended answer
  | Ok false => device (object e) = Some d1 ∧ r = Ok 1
  | Throw x => device (object e) = Some d1 ∧ r = ended (Throw x)
  end.
Proof.
  intros Hrest. pose proof (gate_main_sent argv0 failed init broken rest _ _ d w Hrest) as Hg.
  destruct (gate_main _ _ _ _ _) as [r e]. destruct (init d) as [[[]|x] d1]; [|done..].
  destruct Hg as (evs & Hd & -> & Hall). rewrite (surjective_pairing (plays all d1)).
  destruct (plays evs d1) as [[[]|x] d2] eqn:E; cbn in Hall; [by subst all; rewrite E|].
  destruct Hall as [rest' ->]. rewrite plays_stop by (by rewrite E). by rewrite E.
Qed.
End sent.
#[export] Hint Resolve quiet_out quiet_err quiet_ret quiet_call quiet_sleep : core.

(** ** The strip's gates *)

(** What a step's frame holds: three bytes for each LED, green first, and the
    latch. *)
Definition step_pixels (step : Step) : list Z :=
  concat (replicate (Z.to_nat ledCount)
    [Z.lor (step_g step) 0x80; Z.lor (step_r step) 0x80; Z.lor (step_b step) 0x80]).
Definition frame_of (step : Step) : list Z := step_pixels step ++ replicate (Z.to_nat latchBytes) 0.

Definition dark_frame : list Z := frame_of (mkStep "off" 0 0 0 false).

(** The strip a step leaves. *)
Definition lit (step : Step) : LPD8806 := mkLPD8806 true ledCount 0 (Live (step_pixels step)) 0 0 false.
Definition unlit : LPD8806 :=
  mkLPD8806 true ledCount (ledCount - 1) (Live (replicate (Z.to_nat dataBytes) 0x80)) 0 0 false.

Lemma store_triple (l1 l2 : list Z) a b c x y z i :
  length l1 = i →
  <[Datatypes.S (Datatypes.S i) := z]> (<[Datatypes.S i := y]> (<[i := x]> (l1 ++ a :: b :: c :: l2))) = l1 ++ x :: y :: z :: l2.
Proof.
  intros <-. replace (length l1) with (length l1 + 0)%nat by lia.
  rewrite <-!Nat.add_succ_r, !insert_app_r. done.
Qed.

(** Filling overwrites every pixel. *)
Lemma fill_pixels step l largest :
  length l = Z.to_nat dataBytes → largest < ledCount →
  fill step (mkLPD8806 true ledCount largest (Live l) 0 0 false) =
  mkLPD8806 true ledCount (ledCount - 1) (Live (step_pixels step)) 0 0 false.
Proof.
  intros Hl Hlargest. unfold fill.
  pose (led := [Z.lor (step_g step) 0x80; Z.lor (step_r step) 0x80; Z.lor (step_b step) 0x80]).
  pose (done i := concat (replicate (Z.to_nat i) led)).
  enough (∃ lg, lg <= ledCount - 1 ∧ (0 < ledCount → ledCount - 1 <= lg) ∧
    for_range 0 ledCount
      (λ pixel strip, setPixelRGB pixel (step_r step) (step_g step) (step_b step) strip)
      (mkLPD8806 true ledCount largest (Live l) 0 0 false) =
    mkLPD8806 true ledCount lg (Live (done ledCount ++ drop (Z.to_nat (3 * ledCount)) l)) 0 0 false)
    as (lg & H1 & H2 & ->).
  { rewrite drop_ge by (rewrite Hl; done). rewrite app_nil_r.
    f_equal. unfold ledCount in *. lia. }
  apply (for_range_ind (λ i s, ∃ lg, lg <= ledCount - 1 ∧ (0 < i → i - 1 <= lg) ∧
    s = mkLPD8806 true ledCount lg (Live (done i ++ drop (Z.to_nat (3 * i)) l)) 0 0 false)); [done| |].
  { exists largest. split_and!; [lia|lia|done]. }
  intros i s Hi (lg & H1 & H2 & ->). exists (if lg <? i then i else lg).
  assert (length (done i) = Z.to_nat (i * BYTES_PER_LED)) as Hdone.
  { unfold done, BYTES_PER_LED. rewrite length_concat, fmap_replicate, sum_list_replicate. cbn [length led]. lia. }
  assert (∃ a b c, drop (Z.to_nat (3 * i)) l = a :: b :: c :: drop (Z.to_nat (3 * (i + 1))) l)
    as (a & b & c & Hd).
  { replace (Z.to_nat (3 * (i + 1))) with (3 + Z.to_nat (3 * i))%nat by lia.
    rewrite Nat.add_comm, <-drop_drop. pose proof (length_drop l (Z.to_nat (3 * i))) as Hlen.
    rewrite Hl in Hlen. unfold dataBytes, bytesPerLed, ledCount in *.
    destruct (drop (Z.to_nat (3 * i)) l) as [|a [|b [|c l']]]; cbn [length] in Hlen; [lia..|].
    by exists a, b, c. }
  split_and!; [destruct (Z.ltb_spec lg i); lia|destruct (Z.ltb_spec lg i); lia|].
  unfold setPixelRGB, store_pixel. cbn [numLEDs pixels live_bytes largestChangedLed].
  rewrite Z.add_0_l. destruct (Z.ltb_spec i ledCount); [|lia]. rewrite Hd, store_triple by done.
  unfold set_pixels. cbn. f_equal. f_equal. unfold done.
  replace (Z.to_nat (i + 1)) with (Z.to_nat i + 1)%nat by lia.
  by rewrite replicate_add, concat_app, <-app_assoc.
Qed.

Lemma lit_readback step : step ∈ steps → readbackMatches (lit step) step = true.
Proof. revert step. apply Forall_forall. repeat constructor; vm_compute; reflexivity. Qed.

Lemma length_step_pixels step : length (step_pixels step) = Z.to_nat dataBytes.
Proof. unfold step_pixels. by rewrite length_concat, fmap_replicate, sum_list_replicate. Qed.

Lemma fill_step strip step :
  strip ∈ unlit :: (lit <$> steps) → step ∈ steps →
  readbackMatches (fill step strip) step = true ∧
  Lpd8806.show (fill step strip) = ([Spi (frame_of step)], lit step).
Proof.
  intros Hstrip Hstep.
  assert (fill step strip = mkLPD8806 true ledCount (ledCount - 1) (Live (step_pixels step)) 0 0 false) as ->.
  { apply elem_of_cons in Hstrip as [->|(prev & -> & _)%list_elem_of_fmap_1].
    - by apply fill_pixels; [apply length_replicate|].
    - by apply fill_pixels; [apply length_step_pixels|]. }
  split; [by apply (lit_readback step)|]. unfold Lpd8806.show.
  change (take _ _) with (take (Z.to_nat dataBytes) (step_pixels step)).
  by rewrite take_ge by (by rewrite length_step_pixels).
Qed.

Section strip_proofs.
Context {D W : Type} `{SpiOutput D} `{Host W}.

Lemma sent_show (strip strip' : LPD8806) frame gpio (X : list bus_event → Prop) :
  Lpd8806.show strip = ([Spi frame], strip') → X [Spi frame] →
  sent (D:=D) (W:=W) (show_strip strip gpio)
    (λ r evs, r = (strip', gpio) ∧ evs = [Spi frame]) X.
Proof.
  intros E HX. unfold show_strip. rewrite E. cbn [pin_ops omap list_omap run_ops].
  eapply sent_bind; [exact (sent_events (H:=spi_player) [Spi frame] (λ _ evs, evs = [Spi frame]) X eq_refl HX)|].
  intros [] ? ->. by apply sent_ret.
Qed.

Lemma sent_steps l strip gpio maxElapsed (X : list bus_event → Prop) :
  strip ∈ unlit :: (lit <$> steps) → l ⊆ steps →
  (∀ evs, evs `prefix_of` (Spi ∘ frame_of <$> l) → X evs) →
  sent (D:=D) (W:=W) (run_steps l strip gpio maxElapsed)
    (λ r evs, (∃ m, r = Some (gpio, m)) ∧ evs = (Spi ∘ frame_of <$> l)) X.
Proof.
  revert strip maxElapsed X. induction l as [|step l IH]; intros strip m X Hs Hl HX.
  { apply sent_ret. eauto. }
  destruct (fill_step strip step Hs (Hl _ ltac:(by left))) as [Hr Hshow]. cbn [run_steps].
  rewrite Hr. cbn [negb]. eapply sent_bind.
  { apply sent_timed, sent_show; [exact Hshow|]. apply HX. by apply prefix_cons, prefix_nil. }
  intros [[strip' gpio'] elapsed] evs [[= -> ->] ->]. cbn [fst].
  apply sent_quiet; [done|]. intros []. apply sent_quiet; [destruct (hold step); auto|]. intros [].
  eapply sent_conseq; [apply (IH _ _ (λ evs, X ([Spi (frame_of step)] ++ evs)))| |done].
  - right. apply list_elem_of_fmap_2, Hl. by left.
  - intros x Hx. apply Hl. by right.
  - intros evs Hevs. apply HX. by apply prefix_cons.
  - intros a evs [Ha ->]. by split.
Qed.

(** The driver's constructor. *)
Lemma sent_make {A} (k : LPD8806 → Prog D W A) Q (X : list bus_event → Prop) :
  sent (k unlit) Q X → sent (make_strip true ≫= k) Q X.
Proof. done. Qed.

(** The colors gate sends one frame for each step, the last of them dark, to
    any transport that takes them, and then ends with status 0: its readback
    always agrees, no GPIO is used. Otherwise the transport is left by the first
    frame it refused, and the status is 1. *)
Theorem colors_gate argv0 d w :
  let '(r, e) := colors_main (D:=D) (W:=W) 1 argv0 true (start_env (Some d) w) in
  let '(ready, d1) := spi_initialize d in
  match ready with
  | Ok true =>
      let '(answer, d2) := play (Spi ∘ frame_of <$> steps) d1 in
      device (object e) = Some d2 ∧ r = ended answer
  | Ok false => device (object e) = Some d1 ∧ r = Ok 1
  | Throw x => device (object e) = Some d1 ∧ r = ended (Throw x)
  end.
Proof.
  apply (gate_main_sends (H:=spi_player)). apply sent_make. apply sent_quiet; [done|]. intros _.
  eapply sent_bind; [apply sent_steps; [by left|done|done]|]. intros ran evs [[m ->] ->]. cbn.
  apply sent_quiet; [done|]. intros _. by apply sent_ret.
Qed.

(** The all-off gate sends one dark frame, whether the transport takes it or
    not. *)
Theorem alloff_gate argv0 d w :
  let '(r, e) := alloff_main (D:=D) (W:=W) 1 argv0 true (start_env (Some d) w) in
  let '(ready, d1) := spi_initialize d in
  match ready with
  | Ok true =>
      let '(answer, d2) := play (Spi <$> [dark_frame]) d1 in
      device (object e) = Some d2 ∧ r = ended answer
  | Ok false => device (object e) = Some d1 ∧ r = Ok 1
  | Throw x => device (object e) = Some d1 ∧ r = ended (Throw x)
  end.
Proof.
  unfold alloff_main, alloff_body. apply (gate_main_sends (H:=spi_player)). apply sent_make.
  eapply sent_bind; [by apply sent_timed, sent_show|]. intros [[strip gpio] elapsed] evs [[= -> ->] ->]. cbn.
  apply sent_quiet; [done|]. intros _. by apply sent_ret.
Qed.
End strip_proofs.

(** ** The matrix gate *)

(** What drawing does: it paints, and changes the target's cells only. *)
Definition redrawn (p : Paint) (h h' : HT1632) : Prop :=
  paints p h h' ∧ ∃ l, h' = set_buffer (_tgtBuffer h) l h.

Lemma redrawn_over p q h h1 h2 : redrawn p h h1 → redrawn q h1 h2 → redrawn (over q p) h h2.
Proof.
  intros [Hp [l1 E1]] [Hq [l2 ->]]. split; [by eapply paints_over|]. exists l2.
  rewrite (paints_target _ _ _ Hp). rewrite E1. unfold set_buffer, set_mem. cbn.
  by rewrite list_insert_insert_eq.
Qed.

Lemma redrawn_ext p q h h' : (∀ x y, on_screen x y → p x y = q x y) → redrawn p h h' → redrawn q h h'.
Proof. intros E [H1 H2]. split; [by eapply paints_ext|done]. Qed.

(** A loop whose passes [0] to [n - 1] paint [p 0] to [p (n - 1)] paints what
    [q] collects of them. *)
Lemma loop_redrawn (f : Z → HT1632 → option HT1632) (p q : Z → Paint) (n : nat) h :
  (∀ x y, on_screen x y → q 0 x y = None) →
  (∀ i x y, 0 <= i → on_screen x y → q (i + 1) x y = over (p i) (q i) x y) →
  (∀ i h, 0 <= i < Z.of_nat n → mem_ok h → target_ok h = true → ∃ h', f i h = Some h' ∧ redrawn (p i) h h') →
  mem_ok h → target_ok h = true →
  ∃ h', ofold f (seqZ 0 (Z.of_nat n)) h = Some h' ∧ redrawn (q (Z.of_nat n)) h h'.
Proof.
  intros H0 HS Hf Hm Ht. induction n as [|n IH].
  - exists h. split; [done|]. split; [by apply paints_nothing|]. exists (buffer h (_tgtBuffer h)).
    unfold set_buffer, set_mem, buffer. pose proof (target_range h Ht) as Hr. destruct Hm as [Hl _].
    unfold BUFFER_SECONDARY, MAX_BOARDS, NUM_COLORS in Hr.
    destruct (lookup_lt_is_Some_2 (mem h) (Z.to_nat (_tgtBuffer h))) as [l E]; [lia|].
    rewrite E. cbn. rewrite list_insert_id by done. by destruct h.
  - destruct IH as (h1 & E1 & H1); [intros; apply Hf; [lia|done..]|].
    rewrite seqZ_S, ofold_app, E1. cbn [mbind option_bind ofold]. rewrite Z.add_0_l.
    destruct (Hf (Z.of_nat n) h1) as (h2 & -> & H2); [lia|apply H1| |].
    { destruct H1 as [H1 _]. unfold target_ok in *. by rewrite (paints_target _ _ _ H1). }
    exists h2. split; [done|]. eapply redrawn_ext; [|exact (redrawn_over _ _ _ _ _ H1 H2)].
    intros x y Hs. rewrite <-HS by (done || lia). do 2 f_equal. lia.
Qed.

Definition point (x y : Z) (on : bool) : Paint := λ x' y',
  if bool_decide (x' = x ∧ y' = y) then Some on else None.

Lemma setPixel_redrawn x y on h :
  on_screen x y → mem_ok h → target_ok h = true →
  ∃ h', setPixel x y on h = Some h' ∧ redrawn (point x y on) h h'.
Proof.
  intros Hs Hm Ht. pose proof (target_range h Ht) as Hr. pose proof (buffer_mem_ok h _ Hm Hr) as Hb.
  unfold setPixel. rewrite Ht. cbn [negb].
  destruct (_ || _) eqn:E.
  { rewrite !orb_true_iff, !Z.ltb_lt, !Z.leb_le in E. unfold on_screen in Hs. lia. }
  destruct (access_ok _ _ Hb (addr_range x y Hs)) as [cell Ec]. rewrite Ec. cbn [mbind option_bind].
  destruct (store_ok (buffer h (_tgtBuffer h)) (GET_ADDR_FROM_X_Y x y)
    (Z.lor (if on then Z.lor cell (Z.shiftl 1 (Z.rem y 4)) else Z.land cell (Z.lnot (Z.shiftl 1 (Z.rem y 4))))
       MASK_NEEDS_REWRITING)) as (l & -> & Hl & Hacc); [by eexists|].
  assert (buffer_ok l) as Hbl by (unfold buffer_ok in *; congruence).
  cbn [mbind option_bind]. eexists. split; [done|]. split; [|by eexists]. constructor.
  - by apply set_buffer_ok.
  - done.
  - intros x' y' Hs'. rewrite buffer_set, decide_True by (done || lia). unfold pixel, point. rewrite Hacc.
    pose proof (addr_inj _ _ _ _ Hs' Hs) as Hinj. unfold on_screen in Hs, Hs'.
    pose proof (Z.div_mod y' 4 ltac:(lia)). pose proof (Z.div_mod y 4 ltac:(lia)).
    destruct (decide (GET_ADDR_FROM_X_Y x' y' = GET_ADDR_FROM_X_Y x y)) as [E1|E1].
    + rewrite E1, Ec. apply Hinj in E1 as [-> E1].
      pose proof (Z.mod_pos_bound y' 4 ltac:(lia)). pose proof (Z.mod_pos_bound y 4 ltac:(lia)).
      unfold u8. rewrite Z.mod_pow2_bits_low by lia.
      change MASK_NEEDS_REWRITING with (2 ^ 4). rewrite Z.lor_spec, Z.pow2_bits_false, orb_false_r by lia.
      rewrite Z.rem_mod_nonneg, Z.shiftl_1_l by lia.
      destruct (bool_decide_reflect (x = x ∧ y' = y)) as [[_ ->]|Hne].
      * destruct on; [rewrite Z.lor_spec|rewrite Z.land_spec, Z.lnot_spec by lia];
          rewrite Z.pow2_bits_true by lia; [apply orb_true_r|apply andb_false_r].
      * assert (y mod 4 ≠ y' mod 4) by (intros ?; apply Hne; split; [done|lia]).
        destruct on; [rewrite Z.lor_spec|rewrite Z.land_spec, Z.lnot_spec by lia];
          rewrite Z.pow2_bits_false by lia; [apply orb_false_r|apply andb_true_r].
    + rewrite bool_decide_false; [done|]. intros [-> ->]. by apply E1.
  - intros t Ht0 Hne. by rewrite buffer_set, decide_False by (done || lia).
Qed.

(** The columns up to [n] with their stripes. *)
Definition stripe (phase x : Z) : bool := Z.rem (x + phase) stripePeriod =? 0.
Definition stripes_to (phase n : Z) : Paint := λ x _, if x <? n then Some (stripe phase x) else None.
Definition column_to (on : bool) (x n : Z) : Paint := λ x' y',
  if bool_decide (x' = x) && (y' <? n) then Some on else None.

Lemma drawStripes_redrawn phase h :
  mem_ok h → target_ok h = true →
  ∃ h', drawStripes phase h = Some h' ∧ redrawn (λ x _, Some (stripe phase x)) h h'.
Proof.
  intros Hm Ht. unfold drawStripes.
  destruct (loop_redrawn (λ x matrix, ofold (λ y matrix, setPixel x y (stripe phase x) matrix)
      (seqZ 0 panelHeight) matrix)
    (λ x, column_to (stripe phase x) x panelHeight) (stripes_to phase) (Z.to_nat panelWidth) h)
    as (h' & E & Hd); [..|done|done|].
  - intros x y [Hx _]. unfold stripes_to. destruct (Z.ltb_spec x 0); [lia|done].
  - intros i x y Hi [Hx Hy]. unfold stripes_to, over, column_to.
    destruct (Z.ltb_spec y panelHeight); [|unfold panelHeight in *; lia].
    destruct (bool_decide_reflect (x = i)) as [->|]; cbn [andb];
      [by destruct (Z.ltb_spec i (i + 1)); [|lia]|].
    destruct (Z.ltb_spec x (i + 1)), (Z.ltb_spec x i); (done || lia).
  - intros x h1 Hx Hm1 Ht1.
    apply (loop_redrawn _ (λ y, point x y (stripe phase x)) (column_to (stripe phase x) x)
      (Z.to_nat panelHeight)); [| | |done|done].
    + intros x' y' [_ Hy]. unfold column_to. destruct (Z.ltb_spec y' 0); [lia|by rewrite andb_false_r].
    + intros i x' y' Hi Hs. unfold column_to, over, point.
      destruct (Z.ltb_spec y' (i + 1)), (Z.ltb_spec y' i); try lia; repeat case_bool_decide; cbn; (done || lia).
    + intros y h2 Hy. apply setPixel_redrawn. split; [exact Hx|exact Hy].
  - exists h'. split; [exact E|]. eapply redrawn_ext; [|exact Hd]. intros x y [Hx _]. unfold stripes_to.
    change (Z.of_nat (Z.to_nat panelWidth)) with OUT_SIZE. by destruct (Z.ltb_spec x OUT_SIZE); [|lia].
Qed.

(** The frame of every timed render: after [clear] the whole buffer is to be
    rewritten, and the stripes are on it whatever was there. *)
Theorem stripes_frame phase h :
  mem_ok h → board_ok h = true → length (_globalNeedsRewriting h) = Z.to_nat MAX_BOARDS →
  ∃ h', drawStripes phase (clear h) = Some h' ∧
    _globalNeedsRewriting h' !! Z.to_nat (_tgtBuffer h') = Some true ∧
    ∀ x y, on_screen x y → pixel (buffer h' (_tgtBuffer h')) x y = stripe phase x.
Proof.
  intros Hm Hb Hg.
  assert (0 <= _tgtBuffer h < BUFFER_SECONDARY) as Hr.
  { unfold board_ok in Hb. apply negb_true_iff, orb_false_iff in Hb as [H1 H2].
    apply Z.leb_gt in H1. apply Z.ltb_ge in H2. lia. }
  assert (target_ok h = true) as Ht.
  { unfold target_ok. apply negb_true_iff, orb_false_iff. rewrite !Z.ltb_ge. lia. }
  assert (_tgtBuffer (clear h) = _tgtBuffer h) as Hc by (unfold clear; by rewrite Ht).
  destruct (drawStripes_redrawn phase (clear h)) as (h' & E & Hp & l & ->).
  { by apply matrix_clear_ok. } { unfold target_ok in *. by rewrite Hc. }
  eexists. split; [exact E|]. split.
  - cbn [_tgtBuffer set_buffer set_mem _globalNeedsRewriting]. unfold clear. rewrite Ht.
    apply list_lookup_insert_eq. cbn. rewrite Hg. unfold BUFFER_SECONDARY, MAX_BOARDS, NUM_COLORS in *. lia.
  - intros x y Hs. rewrite (paints_target _ _ _ Hp). by rewrite (paints_pixel _ _ _ Hp).
Qed.

Lemma drawStripes_safe phase h : mem_ok h → ∃ h', drawStripes phase h = Some h' ∧ mem_ok h'.
Proof.
  intros Hm. unfold drawStripes. apply (ofold_inv mem_ok); [done|]. intros x h1 _ Hm1.
  apply (ofold_inv mem_ok); [done|]. intros y h2 _. apply setPixel_ok.
Qed.

(** [clearAll] leaves no pixel anywhere. *)
Lemma clearAll_blank h t :
  mem_ok h → 0 <= t <= BUFFER_SECONDARY →
  buffer (clearAll h) t = replicate (Z.to_nat ADDR_SPACE_SIZE) 0.
Proof.
  intros Hm Ht. unfold BUFFER_SECONDARY, MAX_BOARDS, NUM_COLORS in Ht.
  assert (mem (clearAll h) = replicate 3 (replicate (Z.to_nat ADDR_SPACE_SIZE) 0)) as E.
  { destruct Hm as [Hl _]. destruct h as [br pins masks bu tgt gl m]. cbn in Hl.
    destruct m as [|m0 [|m1 [|m2 [|]]]]; try done. unfold clearAll. cbn [foldl boards].
    unfold drawTarget at 1. case_match; reflexivity. }
  unfold buffer. rewrite E, lookup_replicate_2; [done|lia].
Qed.

Lemma render_boards_mem l h out h' : render_boards l h = Some (out, h') → mem h' = mem h.
Proof.
  assert (∀ t h, mem (drawTarget t h) = mem h) as Ht by (intros t h0; unfold drawTarget; by case_match).
  assert (∀ h out h', render h = Some (out, h') → mem h' = mem h) as Hr.
  { intros h0 o h1. unfold render. case_match; [|by intros [= <- <-]].
    destruct (ofold _ _ _) as [[n o']|]; [|done]. cbn. by intros [= <- <-]. }
  revert h out h'. induction l as [|i l IH]; intros h out h'; cbn [render_boards]; [by intros [= <- <-]|].
  destruct (render (drawTarget i h)) as [[o1 h1]|] eqn:E1; [|done]. cbn [mbind option_bind].
  destruct (render_boards l h1) as [[o2 h2]|] eqn:E2; [|done]. cbn [mbind option_bind].
  intros [= <- <-]. by rewrite (IH _ _ _ E2), (Hr _ _ _ E1).
Qed.

Section matrix_proofs.
Context {G W : Type} `{MatrixBus G} `{Host W}.
Local Abbreviation SENT := (sent (H:=matrix_player) (W:=W)).

Lemma sent_drive m events matrix :
  m = Some (events, matrix) →
  SENT (drive m) (λ h evs, h = matrix ∧ evs = events) (λ _, True).
Proof.
  intros ->. eapply sent_bind; [exact (sent_events (H:=matrix_player) events (λ _ evs, evs = events) (λ _, True) eq_refl I)|].
  intros [] ? ->. apply sent_ret. by rewrite app_nil_r.
Qed.

(** A step that keeps the driver's buffers, whatever it sends. *)
Definition keeps_matrix {A} (matrix_of : A → HT1632) (m : Prog G W A) : Prop :=
  SENT m (λ a _, mem_ok (matrix_of a)) (λ _, True).

Lemma keeps_drive m :
  (∃ out h, m = Some (out, h) ∧ mem_ok h) → keeps_matrix id (drive m).
Proof.
  intros (out & h & E & Hm). eapply sent_conseq; [by apply sent_drive| |done]. by intros ? evs [-> _].
Qed.

Lemma keeps_on_matrix m : (∃ h, m = Some h ∧ mem_ok h) → keeps_matrix id (on_matrix m).
Proof. intros (h & -> & Hm). apply keeps_drive. by eexists [], h. Qed.

Lemma keeps_render h : mem_ok h → keeps_matrix fst (renderMicroseconds h).
Proof.
  intros Hm. apply (sent_timed (H:=matrix_player) _ (λ h _, mem_ok h)).
  by apply keeps_drive, render_safe.
Qed.

Lemma keeps_bind {A B} f g (m : Prog G W A) (k : A → Prog G W B) :
  keeps_matrix f m → (∀ a, mem_ok (f a) → keeps_matrix g (k a)) → keeps_matrix g (m ≫= k).
Proof. intros Hm Hk. eapply sent_bind; [exact Hm|]. intros a evs Ha. by apply Hk. Qed.

Lemma keeps_show_boards l h : mem_ok h → keeps_matrix id (show_boards l h).
Proof.
  revert h. induction l as [|[board name] l IH]; intros h Hm; [by apply sent_ret|]. cbn [show_boards].
  eapply keeps_bind; [by apply keeps_on_matrix, drawStripes_safe, matrix_clear_ok, drawTarget_ok|].
  intros h1 H1. eapply keeps_bind; [by apply keeps_render|]. intros [h2 t] H2.
  apply sent_quiet; [done|]. intros []. apply sent_quiet; [done|]. intros [].
  eapply keeps_bind; [by apply keeps_drive, render_safe, matrix_clear_ok|]. intros h3 H3. by apply IH.
Qed.

Lemma keeps_time_renders l h samples : mem_ok h → keeps_matrix fst (time_renders l h samples).
Proof.
  revert h samples. induction l as [|i l IH]; intros h samples Hm; [by apply sent_ret|]. cbn [time_renders].
  eapply keeps_bind; [by apply keeps_on_matrix, drawStripes_safe, matrix_clear_ok|].
  intros h1 H1. eapply keeps_bind; [by apply keeps_render|]. intros [h2 t] H2. by apply IH.
Qed.

(** The end of a run: a refresh of both boards of a driver whose buffers are
    blank. *)
Definition ends_blank (evs : list ht_event) : Prop :=
  ∃ evs0 out h h', evs = evs0 ++ out ∧ renderAll (clearAll h) = Some (out, h') ∧
    ∀ t, 0 <= t <= BUFFER_SECONDARY → buffer h' t = replicate (Z.to_nat ADDR_SPACE_SIZE) 0.

Lemma sent_blank h :
  mem_ok h → SENT (blankEverything h) (λ h' evs, mem_ok h' ∧ ends_blank evs) (λ _, True).
Proof.
  intros Hm. destruct (renderAll_safe (clearAll h)) as (out & h' & E & Hm'); [by apply clearAll_ok|].
  eapply sent_conseq; [by apply sent_drive| |done]. intros ? evs [-> ->]. split; [done|].
  exists [], out, h, h'. split_and!; [done|done|]. intros t Ht.
  enough (mem h' = mem (clearAll h)) as Em by (unfold buffer; rewrite Em; by apply clearAll_blank).
  unfold renderAll in E. destruct (render_boards boards (clearAll h)) as [[o h1]|] eqn:Eb; [|done].
  cbn in E. injection E as _ <-. rewrite <-(render_boards_mem _ _ _ _ Eb).
  unfold drawTarget. by case_match.
Qed.

(** The matrix gate: whatever the backend grants and the driver's fresh buffers
    hold, the program leaves no buffer, and ends with status 0 exactly when the
    pins took everything it sent; the last it sent is then a blank frame. *)
Theorem render_gate burst garbage argv0 d w :
  buffer_ok garbage →
  let '(r, e) := render_main (G:=G) (W:=W) burst garbage 1 argv0 (start_env (Some d) w) in
  let '(ready, d1) := matrix_initialize d in
  match ready with
  | Ok true =>
      ∃ evs, device (object e) = Some (play_matrix evs d1).2 ∧ r = ended (play_matrix evs d1).1 ∧
        (if is_ok (play_matrix evs d1).1 then ends_blank evs else True)
  | Ok false => device (object e) = Some d1 ∧ r = Ok 1
  | Throw x => device (object e) = Some d1 ∧ r = ended (Throw x)
  end.
Proof.
  intros Hg. apply (gate_main_sent (H:=matrix_player)).
  destruct (begin_safe gate_pins burst garbage HT1632_new Hg) as (out & h & E & Hm).
  eapply sent_bind; [apply keeps_drive; eauto|]. intros h1 evs1 H1.
  apply sent_quiet; [done|]. intros []. eapply sent_bind; [by apply sent_blank|]. intros h2 evs2 [H2 _].
  eapply sent_bind; [by apply keeps_show_boards|]. intros h3 evs3 H3.
  eapply sent_bind; [by apply keeps_time_renders, drawTarget_ok|]. intros [h4 samples] evs4 H4.
  eapply sent_bind; [by apply sent_blank|]. intros h5 evs5 [H5 (evs0 & o & hh & h' & -> & Hb)].
  do 2 (apply sent_quiet; [done|]; intros []). apply sent_ret. split; [done|].
  exists (evs1 ++ evs2 ++ evs3 ++ evs4 ++ evs0), o, hh, h'. split; [|done]. by rewrite app_nil_r, !app_assoc.
Qed.
End matrix_proofs.

(** ** The printed numbers *)

Lemma add_samples l st :
  let st' := foldl add_sample st l in
  minimum st' ∈ minimum st :: l ∧ maximum st' ∈ maximum st :: l ∧
  Forall (λ v, minimum st' <= v <= maximum st') l ∧
  minimum st' <= minimum st ∧ maximum st <= maximum st' ∧
  total st' = total st + foldr Z.add 0 l ∧
  withinBudget st' = withinBudget st + Z.of_nat (length (filter (λ v, v <= tickBudgetMicroseconds) l)).
Proof.
  revert st. induction l as [|v l IH]; intros st; cbn zeta; cbn [foldl].
  { split_and!; [by left|by left|done|lia|lia|cbn; lia|cbn; lia]. }
  destruct (IH (add_sample st v)) as (H1 & H2 & H3 & H4 & H5 & H6 & H7).
  set (st' := foldl add_sample _ l) in *. unfold add_sample in *. cbn [minimum maximum total withinBudget] in *.
  split_and!.
  - rewrite !elem_of_cons in *. destruct (v <? minimum st); tauto.
  - rewrite !elem_of_cons in *. destruct (maximum st <? v); tauto.
  - constructor; [|done]. destruct (Z.ltb_spec v (minimum st)), (Z.ltb_spec (maximum st) v); lia.
  - destruct (Z.ltb_spec v (minimum st)); lia.
  - destruct (Z.ltb_spec (maximum st) v); lia.
  - cbn. lia.
  - rewrite filter_cons, H7. destruct (Z.leb_spec v tickBudgetMicroseconds); case_decide; cbn [length]; lia.
Qed.

Lemma sum_range lo hi l :
  Forall (λ v, lo <= v <= hi) l →
  lo * Z.of_nat (length l) <= foldr Z.add 0 l <= hi * Z.of_nat (length l).
Proof. induction 1; cbn [foldr length]; lia. Qed.

(** The gate prints the least, the greatest, the mean of its samples and how
    many were within a tick. *)
Theorem summary_correct l :
  l ≠ [] →
  let st := summary l in
  minimum st ∈ l ∧ maximum st ∈ l ∧ Forall (λ v, minimum st <= v <= maximum st) l ∧
  minimum st <= mean l <= maximum st ∧
  withinBudget st = Z.of_nat (length (filter (λ v, v <= tickBudgetMicroseconds) l)).
Proof.
  intros Hl st. destruct l as [|v l]; [done|].
  pose proof (add_samples (v :: l) (mkSamples v v 0 0)) as (H1 & H2 & H3 & _ & _ & H6 & H7).
  change (foldl add_sample _ (v :: l)) with st in *. cbn [minimum maximum total withinBudget] in *.
  rewrite !elem_of_cons in *. split_and!; [tauto..|done| | |lia].
  - unfold mean. fold st. rewrite H6. destruct (sum_range _ _ _ H3) as [Hs _].
    rewrite <-(Z.quot_mul (minimum st) (Z.of_nat (length (v :: l)))) by (cbn; lia).
    apply Z.quot_le_mono; [cbn; lia|]. lia.
  - unfold mean. fold st. rewrite H6. destruct (sum_range _ _ _ H3) as [_ Hs].
    rewrite <-(Z.quot_mul (maximum st) (Z.of_nat (length (v :: l)))) by (cbn; lia).
    apply Z.quot_le_mono; [cbn; lia|]. lia.
Qed.

(** ** The analog gate *)

(** The readings are printed as they were read, and the status says whether
    both channels gave one. *)
Theorem mcp3002_gate {A W} `{AnalogInput A} `{Host W} init argv0 (a : A) (w : W) :
  let '(r, e) := mcp3002_main init 1 argv0 (start_env (Some a) w) in
  let '(ready, a1) := init a in
  match ready with
  | Ok true =>
      let c0 := readAnalog a1 0 in
      let c1 := readAnalog a1 1 in
      device (object e) = Some a1 ∧
      if (0 <=? c0) && (0 <=? c1) then
        r = Ok 0 ∧ ∃ us, stdout_ (object e) =
          [line_of "channel0_raw" c0 +:+ line_of "channel1_raw" c1 +:+
           line_of "read_pair_elapsed_microseconds" us]
      else r = Ok 1 ∧ stdout_ (object e) = []
  | Ok false => device (object e) = Some a1 ∧ r = Ok 1
  | Throw x => device (object e) = Some a1 ∧ r = ended (Throw x)
  end.
Proof.
  unfold mcp3002_main, mcp3002_body, gate_main, not_ready, timed, on_device, gets, call, fails, try_catch.
  unfold mbind, Method_bind. cbn. destruct (init a) as [[[]|x] a1]; cbn; [| |by destruct (what_of x)]; [|done].
  destruct (steady_now w) as [t0 w0]. cbn. destruct (steady_now w0) as [t1 w1]. cbn.
  destruct (Z.ltb_spec (readAnalog a1 0) 0), (Z.leb_spec 0 (readAnalog a1 0)),
    (Z.ltb_spec (readAnalog a1 1) 0), (Z.leb_spec 0 (readAnalog a1 1)); try lia; cbn; eauto.
Qed.

(** ** Runs *)
Module Runs.

(** A host whose clock advances by 3.5 ms at each reading and that records the
    sleeps. *)
#[local] Instance host : Host (Z * list Z) := {|
  steady_now '(t, slept) := (t, (t + 3500000, slept));
  sleep_for ms '(t, slept) := (t + ms * 1000000, slept ++ [ms]);
|}.

(** A transport that takes [n] frames and then fails. *)
Record Flaky := mkFlaky { frames_left : nat; taken : list (list Z) }.
#[local] Instance flaky : SpiOutput Flaky := {|
  spi_initialize d := (Ok true, d);
  spi_transfer data n d :=
    match frames_left d, payload_of data n with
    | Datatypes.S k, Ok p => (Ok (), mkFlaky k (taken d ++ [p]))
    | Datatypes.S k, Throw e => (Throw e, d)
    | O, _ => (Throw (RuntimeError "spidev transfer failed"), d)
    end;
|}.

Definition colors (n : nat) := colors_main 1 "gate" true (start_env (Some (mkFlaky n [])) (0, [])).
Definition frames_taken (r : res Z * Env (Gate Flaky) (Z * list Z)) : list (list Z) :=
  default [] (taken <$> device (object r.2)).

(** The four frames of 728 bytes, three seconds between the lit ones. *)
Example colors_run :
  (colors 10).1 = Ok 0 ∧ frames_taken (colors 10) = frame_of <$> steps ∧
  (length <$> frames_taken (colors 10)) = [728; 728; 728; 728]%nat ∧
  (sys (colors 10).2).1.2 = [3000; 3000; 3000].
Proof. by vm_compute. Qed.

(** The last step is to leave the strip dark because its pixels latch, but a
    transfer that fails ends the program at once: here the third one fails, the
    status is 1, and what the strip holds is the green frame. *)
Theorem colors_stay_lit :
  (colors 2).1 = Ok 1 ∧ last (frames_taken (colors 2)) = frame_of <$> (steps !! 1%nat) ∧
  last (frames_taken (colors 2)) ≠ Some dark_frame.
Proof. by vm_compute. Qed.

(** Pins that take everything. *)
#[local] Instance pins : GpioDevice Z := {|
  gpio_configureInput _ g := Ok g;
  gpio_configureOutput _ _ g := Ok g;
  gpio_read _ g := Ok (low, g);
  gpio_write _ _ g := Ok (g + 1);
  gpio_delayMilliseconds _ g := Ok g;
|}.
#[local] Instance pins_bus : MatrixBus Z := {|
  matrix_initialize g := (Ok true, g);
  matrix_store _ _ g := g + 1;
|}.

Definition render_run := render_main None (replicate 512 9) 1 "gate" (start_env (Some 0) (0, [])).

Example render_runs :
  render_run.1 = Ok 0 ∧ (sys render_run.2).1.2 = [3000; 3000] ∧
  last (stdout_ (object render_run.2)) = Some (
    line_of "valid_renders" 20 +:+ line_of "minimum_microseconds" 3500 +:+
    line_of "maximum_microseconds" 3500 +:+ line_of "mean_microseconds" 3500 +:+
    line_of "renders_within_budget" 20 +:+ "final_state=off" +:+ nl).
Proof. by vm_compute. Qed.

Example mcp3002_runs :
  let r := mcp3002_main (λ a, (Ok true, a)) 1 "gate" (start_env (Some tt) (0, [])) in
  r.1 = Ok 0 ∧ stdout_ (object r.2) =
    [line_of "channel0_raw" 512 +:+ line_of "channel1_raw" 512 +:+
     line_of "read_pair_elapsed_microseconds" 3500].
Proof. by vm_compute. Qed.

Example usage : (colors_main 2 "gate" true (start_env (Some (mkFlaky 9 [])) (0, []))).1 = Ok 2.
Proof. done. Qed.
End Runs.
