(* ===== verification/DeviceTests.v ===== *)
(** * The device tests: src/tests/core_tests.cpp, gpio_register_tests.cpp,
      gpio_burst_tests.cpp, gpio_protocol_tests.cpp, iio_analog_input_tests.cpp
      and spi_output_tests.cpp

    The repository's own tests of the drivers, translated with their inputs
    and expectations and run on the model over the recording fakes. Where a
    test has an object the translation has the operations the driver makes. *)
From S2P Require Import Spi Prelude StdMap CLib CommonUtils Ht1632 Lpd8806 Mcp300x Sensors Inbox Gpio.

Definition all : list bool → bool := forallb id.
Definition same {A} `{EqDecision A} (a b : A) : bool := bool_decide (a = b).
Definition at_index {A} (l : list A) (i : Z) (P : A → bool) : bool :=
  match l !! Z.to_nat i with Some a => P a | None => false end.
Definition count {A} (P : A → bool) (l : list A) : Z := Z.of_nat (length (filter (λ a, P a = true) l)).

(** ** src/tests/core_tests.cpp *)
Module Core.

Definition testPrequeuedInboxMessage : bool :=
  match waitForMessage (addMessage (InboxMsg_of inboxMsgTypeMotionOn) Inbox_new) with
  | Some (received, ib) =>
      all [same (inboxMsgType received) inboxMsgTypeMotionOn; Inbox.empty ib; getMsgCount ib =? 0]
  | None => false
  end.

(** The generator's values are those it is given. *)
Definition testRandomBounds (draws : list Z) : bool :=
  all [getRandomNumber 12345 0 =? 0; getRandomNumber 12345 1 =? 0;
       forallb (λ raw, getRandomNumber raw 17 <? 17) draws].

Definition message : string := String.concat EmptyString (replicate 300 "A").

Definition testLongTextAndUninitializedDisplayCleanup (garbage : list Z) : bool :=
  let font := replicate 64 0 in
  let widths := replicate 64 1 in
  let pins l := match l with CS => 8 | WR => 7 | DATA => 4 | CLK => 11 end in
  same (getTextWidth message widths 1) (Some 599) &&
  match
    '(_, h) ← Ht1632.begin pins None garbage HT1632_new;
    h ← drawText message 0 0 font widths 1 1 1 (drawTarget 0 h);
    h ← drawImage [15; 15] 2 4 (-1) (-1) 0 h;
    render h
  with Some _ => true | None => false end.

Definition testEmptyLedStrip : bool :=
  match new_bitbang true 0 1 2 with
  | Ok (_, strip) =>
      let '(_, strip) := show (clearPixelColors strip) in
      match destroy strip with Ok _ => numPixels strip =? 0 | Throw _ => false end
  | Throw _ => false
  end.

Example core_tests_pass :
  testPrequeuedInboxMessage && testRandomBounds (seqZ 0 1000)
  && testLongTextAndUninitializedDisplayCleanup (replicate 512 9) && testEmptyLedStrip = true.
Proof. vm_compute. reflexivity. Qed.
End Core.

(** ** src/tests/gpio_register_tests.cpp *)
Module Registers.

Definition testSupportedOffsets : bool :=
  all [Bcm2835.supportsOffset 0; Bcm2835.supportsOffset 31;
       negb (Bcm2835.supportsOffset (-1)); negb (Bcm2835.supportsOffset 32)].

Definition testValueRegisters : bool :=
  all [same (Bcm2835.write 5 high) (Ok (7, Z.shiftl 1 5));
       same (Bcm2835.write 27 low) (Ok (10, Z.shiftl 1 27));
       same (Bcm2835.read (Z.shiftl 1 22) 22) (Ok high); same (Bcm2835.read (Z.shiftl 1 22) 21) (Ok low)].

Definition testInvalidOffsetRejected : bool :=
  match Bcm2835.write 32 high with Throw (OutOfRange _) => true | _ => false end.

Example register_tests_pass : testSupportedOffsets && testValueRegisters && testInvalidOffsetRejected = true.
Proof. vm_compute. reflexivity. Qed.
End Registers.

(** ** src/tests/gpio_burst_tests.cpp *)
Module Burst.

Definition pinCS : Z := 6.
Definition pinWR : Z := 13.
Definition pinDATA : Z := 19.
Definition pinCLK : Z := 26.

Definition pins (l : line) : Z :=
  match l with CS => pinCS | WR => pinWR | DATA => pinDATA | CLK => pinCLK end.

(** [BurstGrantingGpio::acquireBurst] *)
Definition masks (l : line) : Z := Z.shiftl 1 (pins l).
Definition burstMaskToPin (mask : Z) : Z :=
  match filter (λ p, Z.shiftl 1 p = mask) [pinCS; pinWR; pinDATA; pinCLK] with p :: _ => p | [] => -1 end.

Definition Edge : Type := Z * GpioValue.

Definition edgesFromOperations (out : list ht_event) : list Edge :=
  omap (λ e, match e with
             | Ht1632.Call op => if bool_decide (kind op = write) then Some (bcmGpio op, value op) else None
             | Store _ _ => None
             end) out.

(** What the hook captures. *)
Definition capturedBurstEdges (out : list ht_event) : list Edge :=
  omap (λ e, match e with Store mask v => Some (burstMaskToPin mask, v) | Ht1632.Call _ => None end) out.

Definition driveMatrix (h : HT1632) : option (list ht_event) :=
  h ← ofold (λ x h, setPixel x (x mod COM_SIZE) true h) (seqZ 0 24) (Ht1632.clear (drawTarget 0 h));
  '(o1, h) ← render h;
  h ← setPixel 0 0 true (Ht1632.clear (drawTarget 1 h));
  h ← setPixel (OUT_SIZE - 1) (COM_SIZE - 1) true h;
  '(o2, _) ← render h;
  Some (o1 ++ o2).

Definition driven (burst : option (line → Z)) : list ht_event :=
  default [] ('(_, h) ← Ht1632.begin pins burst (replicate (Z.to_nat ADDR_SPACE_SIZE) 0) HT1632_new; driveMatrix h).

Definition main : bool :=
  let referenceEdges := edgesFromOperations (driven None) in
  let burstEdges := capturedBurstEdges (driven (Some masks)) in
  all [negb (same referenceEdges []); same (edgesFromOperations (driven (Some masks))) [];
       negb (same burstEdges []); same referenceEdges burstEdges;
       forallb (λ e : Edge, bool_decide (e.1 ∈ [pinCS; pinWR; pinDATA; pinCLK])) burstEdges;
       forallb (λ p, existsb (λ e : Edge, e.1 =? p) burstEdges) [pinCS; pinWR; pinDATA; pinCLK]].

Example burst_tests_pass : main = true.
Proof. vm_compute. reflexivity. Qed.
End Burst.

(** ** src/tests/gpio_protocol_tests.cpp *)
Module Protocol.

Definition isOperation (op : GpioOperation) (k : GpioOperationKind) (pin : Z) : bool :=
  bool_decide (kind op = k) && (bcmGpio op =? pin).
Definition isOperationValue (op : GpioOperation) (k : GpioOperationKind) (pin : Z) (v : GpioValue) : bool :=
  isOperation op k pin && bool_decide (value op = v).

(** [CHECK(isOperation(operations[i], ...))] for the first operations. *)
Definition begins_with (ops expected : list GpioOperation) : bool :=
  (length expected <=? length ops)%nat &&
  forallb (λ p : GpioOperation * GpioOperation, isOperationValue p.1 (kind p.2) (bcmGpio p.2) (value p.2))
    (zip ops expected).

Fixpoint byte_of_bits (acc : Z) (bits : list bool) : Z :=
  match bits with [] => acc | b :: bits => byte_of_bits (Z.lor (Z.shiftl acc 1) (b2z b)) bits end.

Fixpoint bytesFromBits (fuel : nat) (bits : list bool) : list Z :=
  match fuel with
  | O => []
  | Datatypes.S fuel =>
      match bits with [] => [] | _ => byte_of_bits 0 (take 8 bits) :: bytesFromBits fuel (drop 8 bits) end
  end.

Definition calls (out : list ht_event) : list GpioOperation :=
  omap (λ e, match e with Ht1632.Call op => Some op | Store _ _ => None end) out.
Definition pin_ops (out : list bus_event) : list GpioOperation :=
  omap (λ e, match e with Pin op => Some op | Lpd8806.Spi _ => None end) out.

Definition testFakeConfigurationAndHistory : bool :=
  let '(r1, g) := FakeGpio.initialize (FakeGpio.setInitializeResult false (FakeGpio.new false)) in
  let '(r2, g) := FakeGpio.initialize (FakeGpio.setInitializeResult true g) in
  let g := FakeGpio.queueInputValues 10 [low; high] (FakeGpio.setInputValue 10 high g) in
  let '(v1, g) := FakeGpio.read 10 g in
  let '(v2, g) := FakeGpio.read 10 g in
  let '(v3, g) := FakeGpio.read 10 g in
  let operations := FakeGpio.operationHistory g in
  all [negb r1; r2; same v1 low; same v2 high; same v3 high; (length operations =? 5)%nat;
       at_index operations 0 (λ op, same (kind op) initialize);
       at_index operations 1 (λ op, same (kind op) initialize);
       at_index operations 2 (λ op, isOperationValue op read 10 low);
       at_index operations 3 (λ op, isOperationValue op read 10 high);
       at_index operations 4 (λ op, isOperationValue op read 10 high)].

Definition expectedCommand : list bool :=
  [true; false; false; true; false; true; false; false; true; false; false; false].

Definition chipSelect : Z := 6.
Definition writeClock : Z := 13.
Definition data : Z := 19.
Definition selectClock : Z := 26.

Definition testHt1632InitializationCommandsAndRender : bool :=
  let pins l := match l with CS => chipSelect | WR => writeClock | DATA => data | CLK => selectClock end in
  match Ht1632.begin pins None (replicate (Z.to_nat ADDR_SPACE_SIZE) 0) HT1632_new with
  | None => false
  | Some (out, h) =>
      let '(out2, h) := setBrightness 5 h in
      let ops2 := calls out2 in
      let commandBits := sampledBits ops2 data writeClock low in
      match render (Ht1632.clear h) with
      | None => false
      | Some (out3, _) =>
          let ops3 := calls out3 in
          let renderBits := sampledBits ops3 data writeClock low in
          let chips := Z.to_nat NUM_ACTIVE_CHIPS in
          let bitsPerChip := (3 + 7 + 32 * 4)%nat in
          all [begins_with (calls out)
                 [op_configureOutput chipSelect high; op_configureOutput writeClock low;
                  op_configureOutput data low; op_configureOutput selectClock low];
               (length commandBits =? 12 * chips)%nat;
               forallb (λ chip, same (take 12 (drop (chip * 12) commandBits)) expectedCommand) (seq 0 chips);
               (countWrites ops2 chipSelect low =? chips)%nat;
               (countWrites ops2 selectClock high =? 408)%nat;
               (length renderBits =? bitsPerChip * chips)%nat;
               forallb (λ chip,
                 let bits := take bitsPerChip (drop (chip * bitsPerChip) renderBits) in
                 same (take 3 bits) [true; false; true] && (count id (drop 3 bits) =? 0)) (seq 0 chips);
               (countWrites ops3 chipSelect low =? chips)%nat;
               (countWrites ops3 selectClock high =? 424)%nat]
      end
  end.

(** The frame of 240 pixels whose first and last are set, as both tests of the
    strip expect it. *)
Definition expected_frame (frame : list Z) : bool :=
  all [(length frame =? 720)%nat; same (take 3 frame) [0x82; 0x81; 0x83];
       count (Z.eqb 0x80) (take 714 (drop 3 frame)) =? 714;
       same (drop 717 frame) [0x85; 0x84; 0x86]].

Definition set_ends (s : LPD8806) : LPD8806 := setPixelRGB 239 4 5 6 (setPixelRGB 0 1 2 3 s).

Definition testLpd8806ProtocolAndPinReplacement : bool :=
  match new_bitbang true 240 21 20 with
  | Throw _ => false
  | Ok (_, strip) =>
      let '(out, strip) := begin strip in
      let '(out2, strip) := show (set_ends strip) in
      let wireBits := sampledBits (pin_ops out2) 21 20 low in
      let frameBits := Z.to_nat (240 * 3 * 8) in
      match updatePins 23 24 strip with
      | Throw _ => false
      | Ok (ops3, _) =>
          all [begins_with (pin_ops out) [op_configureOutput 21 low; op_configureOutput 20 low];
               Z.of_nat (length wireBits) =? 5760 + 64;
               expected_frame (bytesFromBits 720 (take frameBits wireBits));
               count negb (drop frameBits wireBits) =? 64;
               begins_with ops3 [op_configureInput 21; op_configureInput 20;
                                 op_configureOutput 23 low; op_configureOutput 24 low]]
      end
  end.

Definition adc : Mcp300x := mkMcp300x 17 27 22 4.

(** Reads happen while the chip is selected; whether the trace ends selected,
    and how many there were. *)
Fixpoint select_reads (active : bool) (ops : list GpioOperation) : option (bool * Z) :=
  match ops with
  | [] => Some (active, 0)
  | op :: ops =>
      if isOperationValue op write 4 low then if active then None else select_reads true ops
      else if isOperationValue op write 4 high && active then select_reads false ops
      else if bool_decide (kind op = read) then
        if active && (bcmGpio op =? 27) then '(a, n) ← select_reads active ops; Some (a, n + 1) else None
      else select_reads active ops
  end.

Definition expectedValue : Z := 0x2a6.

Definition testMcp3002ProtocolAndCleanup : bool :=
  let inputBits := (λ bit, value_of_bool (Z.testbit expectedValue bit)) <$> rev (seqZ 0 10) in
  let g := FakeGpio.queueInputValues 27 inputBits (FakeGpio.new false) in
  match Mcp300x.readAnalog (H0 := Mcp3002) adc 1 g with
  | Throw _ => false
  | Ok (v, g) =>
      let operations := FakeGpio.operationHistory g in
      let clockedOutput := sampledBits operations 22 17 low in
      all [same (construct adc) [op_configureOutput 17 low; op_configureInput 27;
                                 op_configureOutput 4 high; op_configureOutput 22 low];
           v =? expectedValue;
           begins_with operations [op_write 4 high; op_write 17 low; op_write 4 low];
           match last operations with Some op => isOperationValue op write 4 high | None => false end;
           (length clockedOutput =? 15)%nat; same (take 3 clockedOutput) [true; true; true];
           same (select_reads false operations) (Some (false, 10));
           same (destruct_ adc) [op_configureInput 17; op_configureInput 4; op_configureInput 22]]
  end.

Definition testMotionInputMapping : bool :=
  match
    let! g := run_ops (Motion.configureMotionInput 10) (FakeGpio.new false) in
    let! (d1, g) := Motion.readMotionDetected 10 (FakeGpio.setInputValue 10 low g) in
    let! (d2, g) := Motion.readMotionDetected 10 (FakeGpio.setInputValue 10 high g) in
    Ok (d1, d2, FakeGpio.operationHistory g)
  with
  | Ok (d1, d2, operations) =>
      all [negb d1; d2; (length operations =? 3)%nat;
           begins_with operations [op_configureInput 10; mkOperation read 10 low 0; mkOperation read 10 high 0]]
  | Throw _ => false
  end.

(** Who owns the line of an operation: the strip, the converter, or nobody. *)
Definition owner (op : GpioOperation) : Z :=
  if bool_decide (bcmGpio op ∈ [20; 21]) then 1
  else if bool_decide (bcmGpio op ∈ [4; 17; 22; 27]) then 2 else 0.

Fixpoint ownerChanges (previousOwner : Z) (ops : list GpioOperation) : Z :=
  match ops with
  | [] => 0
  | op :: ops =>
      let o := owner op in
      (if negb (o =? 0) && negb (previousOwner =? 0) && negb (o =? previousOwner) then 1 else 0)
      + ownerChanges (if o =? 0 then previousOwner else o) ops
  end.

(** Both threads hold the mutex over their transaction, so the test's run is
    one of the two orders. *)
Definition testTransactionsAreSerialized : bool :=
  match new_bitbang true 4 21 20 with
  | Throw _ => false
  | Ok (_, strip) =>
      let '(_, strip) := begin strip in
      let g := FakeGpio.queueInputValues 27 (replicate 10 low) (FakeGpio.new false) in
      let strip_thread := run_ops (pin_ops (show strip).1) in
      let adc_thread g := Mcp300x.readAnalog (H0 := Mcp3002) adc 0 g in
      let serialized r :=
        match r with
        | Ok (v, g) =>
            let ops := FakeGpio.operationHistory g in
            all [v =? 0; existsb (λ op, owner op =? 1) ops; existsb (λ op, owner op =? 2) ops;
                 ownerChanges 0 ops =? 1]
        | Throw _ => false
        end in
      serialized (let! g := strip_thread g in adc_thread g) &&
      serialized (let! (v, g) := adc_thread g in let! g := strip_thread g in Ok (v, g))
  end.

Example protocol_tests_pass :
  testFakeConfigurationAndHistory && testHt1632InitializationCommandsAndRender
  && testLpd8806ProtocolAndPinReplacement && testMcp3002ProtocolAndCleanup
  && testMotionInputMapping && testTransactionsAreSerialized = true.
Proof. vm_compute. reflexivity. Qed.
End Protocol.

(** ** src/tests/spi_output_tests.cpp *)
Module SpiTests.

Definition testFakeInitializationBoundary : bool :=
  let '(r1, d) := Fake.initialize (Fake.setInitializeResult false Fake.new) in
  let '(r2, d) := Fake.transfer (Some [0]) 1 d in
  let '(r3, d') := Fake.initialize (Fake.setInitializeResult true d) in
  all [same r1 (Ok false); negb (Fake.initialized d);
       match r2 with Throw (RuntimeError _) => true | _ => false end; same r3 (Ok true); Fake.initialized d'].

Definition testLpd8806SingleTransferFrame : bool :=
  match new_spi true 240 with
  | Throw _ => false
  | Ok strip =>
      let '(_, d) := Fake.initialize Fake.new in
      let '(r1, strip, d) := begin_on strip d in
      let first := Fake.transfers d in
      let '(r2, strip, d) := show_on (Protocol.set_ends strip) (Fake.clearTransfers d) in
      all [same r1 (Ok ()); same first [replicate 8 0]; same r2 (Ok ());
           match Fake.transfers d with
           | [frame] => (length frame =? 728)%nat && Protocol.expected_frame (take 720 frame)
                        && same (drop 720 frame) (replicate 8 0)
           | _ => false
           end;
           match updatePins 23 24 strip with Throw (LogicError _) => true | _ => false end;
           same ((λ op, (kind op, duration op)) <$> Lpd8806.delayMilliseconds 7) [(Gpio.delayMilliseconds, 7)]]
  end.

Definition testZeroLengthStripDoesNotTransfer : bool :=
  match new_spi true 0 with
  | Throw _ => false
  | Ok strip =>
      let '(_, d) := Fake.initialize Fake.new in
      let '(_, strip, d) := begin_on strip d in
      let '(_, _, d) := show_on strip d in
      same (Fake.transfers d) []
  end.

Example spi_tests_pass :
  testFakeInitializationBoundary && testLpd8806SingleTransferFrame && testZeroLengthStripDoesNotTransfer = true.
Proof. vm_compute. reflexivity. Qed.
End SpiTests.

(** ** src/tests/iio_analog_input_tests.cpp *)
Module IioTests.

(** The fixture's directory: the devices with the target of their [of_node],
    and the files by path. *)
Record Fixture := mkFixture {
  devices : list (string * option string);
  files : list (string * string);
}.

Definition iioRoot : string := "/tmp/iio".
Definition ofNode : string := "/tmp/device-tree/oclock-adc-spi/mcp3002@0".

Definition emptyFixture : Fixture := mkFixture [] [].

Definition writeFile (path contents : string) (f : Fixture) : Fixture :=
  mkFixture (devices f) (map_set path contents (files f)).

Definition addDevice (number name : string) (channel0 channel1 : bool) (target : string) (f : Fixture)
    : Fixture :=
  let entry := "iio:device" +:+ number in
  let device := iioRoot +:+ "/" +:+ entry in
  let f := mkFixture (devices f ++ [(entry, Some target)]) (files f) in
  let f := writeFile (device +:+ "/name") name f in
  let f := if channel0 then writeFile (device +:+ "/in_voltage0_raw") "123" f else f in
  if channel1 then writeFile (device +:+ "/in_voltage1_raw") "987" f else f.

(** The input on the fixture's files, found at [path] before. *)
Definition input_on (f : Fixture) (path : string) : Iio.LinuxIioAnalogInput :=
  Iio.mkIio (λ p, map_find p (files f)) (λ p, bool_decide (is_Some (map_find p (files f)))) path.

Definition created (f : Fixture) : bool * Iio.LinuxIioAnalogInput :=
  Iio.initialize iioRoot (Some (devices f)) (input_on f EmptyString).

Definition testDiscoversByDeviceTreeAndReadsBothChannels : bool :=
  let f := addDevice "7" "mcp3002" true true ofNode emptyFixture in
  let '(found, input) := created f in
  let device := iioRoot +:+ "/iio:device7" in
  let reading value := Iio.readAnalog
    (input_on (writeFile (device +:+ "/in_voltage0_raw") value f) (Iio.devicePath_ input)) 0 in
  all [Iio.readAnalog (input_on f EmptyString) 0 =? -1; found; Iio.readAnalog input 0 =? 123;
       Iio.readAnalog input 1 =? 987; Iio.readAnalog input (-1) =? -1; Iio.readAnalog input 2 =? -1;
       reading "1023" =? 1023; reading "1024" =? -1; reading "12 trailing" =? -1].

Definition testRejectsWrongIdentityAndIncompleteChannels : bool :=
  all [negb (created (addDevice "0" "wrong-name" true true ofNode emptyFixture)).1;
       negb (created (addDevice "0" "mcp3002" true false ofNode emptyFixture)).1].

Definition testRejectsMissingAndAmbiguousDeviceTreeMatches : bool :=
  all [negb (created (addDevice "0" "mcp3002" true true (ofNode +:+ "-unrelated") emptyFixture)).1;
       negb (created (addDevice "9" "mcp3002" true true ofNode
                        (addDevice "0" "mcp3002" true true ofNode emptyFixture))).1].

Example iio_tests_pass :
  testDiscoversByDeviceTreeAndReadsBothChannels && testRejectsWrongIdentityAndIncompleteChannels
  && testRejectsMissingAndAmbiguousDeviceTreeMatches = true.
Proof. vm_compute. reflexivity. Qed.
End IioTests.
